(* ===== verification/_CoqProject ===== *)
-Q . S2P
Prelude.v
Monad.v
Bytes.v
OnDisk.v
Device.v
WritePattern.v
Mkfs.v
MkfsSpec.v
MkfsProps.v
MkfsLinks.v
Decimal.v
Client.v
Kernel.v
Pool.v
KernelFacts.v
Judge.v
PoolProps.v
MountProps.v
Verdict.v
Interrupted.v
Uino.v
Cont.v
Inode.v
File.v
Namei.v
Super.v
Module.v
Vfs.v
Quiet.v
ContData.v
Chain.v
Append.v
Race.v
Crash.v
InodeProps.v
FileProps.v
Grow.v
NameiProps.v
Memory.v
Counts.v
Iget.v
Evolve.v
VfsProps.v
MakeProps.v
HeadProps.v
SuperProps.v
System.v
ModuleProps.v
Release.v
Session.v
Flat.v
Growing.v
Lifecycle.v
FirstFile.v
Programs.v
MemFS.v
MountExamples.v
FileExamples.v
RaceExamples.v
GrowingExamples.v
NameiExamples.v
LifecycleExamples.v
SystemExamples.v
