(* ===== verification/Prelude.v ===== *)
(** * chunkfs: a verification development (root file)

    chunkfs (Valerie Henson; this tree is a port to a later kernel) splits a
    disk into chunks of 10 MiB, each with an ordinary client file system, and
    makes a file that outgrows its chunk go on in the next one.  This library
    models the programs under src/ and proves what they do; it is written
    for a reader who has the repository at hand.

    ** The program

    - mkfs.chunkfs.c writes the pool, device and chunk summaries.
    - super.c reads them back at mount time, finds the client file system of
      every chunk at /chunk<id> and keeps the lists of devices and chunks.
    - chunkfs_i.h packs a chunk number and a client inode number into one
      inode number.
    - cont.c keeps the list of the parts (continuations) of a file in
      extended attributes of the client inodes, walks it and appends to it.
    - inode.c fills in a chunkfs inode from its client inodes.
    - file.c finds the part that holds a position and lets the client file
      system read or write it.
    - namei.c, dir.c and symlink.c pass the other calls to the client.

    ** The files

    - Prelude: machine words, errors, tactics, hint databases.
    - Monad: computations on a state that return or stop, their
      postconditions ([wp]), loops with fuel.  Bytes: byte order and memory
      of words.  Decimal: "%llu" and simple_strtoull, which are inverse.
    - OnDisk (chunkfs.h, chunkfs_pool.h, chunkfs_dev.h, chunkfs_chunk.h):
      the structures, their memory ([CStruct], with its laws), the checks.
    - Device: a disk as its bytes.  Mkfs: mkfs.chunkfs.c, with the functions
      of the source.  MkfsSpec: the image and the sequence of prints and
      writes it promises, and the proof that [mkfs_main] performs exactly
      that sequence.  MkfsProps: the theorems about the image.  MkfsLinks:
      the summaries read back from the disk word by word, and where their
      links lead.
    - Client: the client file systems as a class of operations ([ClientFS])
      with their documented behaviour as classes of laws.  MemFS: a file
      system in memory that has the laws.
    - Kernel: the state of the module and the kernel services, its mutexes
      among them.  KernelFacts: how they are accounted for ([delta]).  Judge:
      judgements that compose along the code ([runs], [keeps], [no_errno]).
    - Pool (super.c): reading and freeing the pool.  PoolProps: no error path
      keeps anything.  MountProps: mounting what mkfs wrote, and images mkfs
      does not write.  Verdict: a reference for reading any disk.
      Interrupted: mkfs stopped by an error, and the mount of what it left.
      MountExamples: those theorems on concrete devices.
    - Uino (chunkfs_i.h), Cont (cont.c), Inode (inode.c), File (file.c), Namei
      (namei.c, symlink.c, dir.c), Super (the second half of super.c): the
      functions of those files under their names.  Iget (inode.c): lookup by
      number, over the inode cache of the VFS, and what it does.  Module
      (super.c): the module and the block device around a mount.  Vfs: the
      operation tables (file.c, dir.c, namei.c, symlink.c, super.c), dispatch
      through them, putting inodes ([dentry_iput]), and the steps of a mounted
      system.
    - ContData: the attributes of a part.  Chain: the list of parts as a
      relation between the client file systems and a list, and what the
      search in it finds.  Append: well-formed files and
      [chunkfs_create_continuation].  Race: appending where a file is in the
      way, and two appends at once.  Crash: appending to a disk that takes
      only the first changes ([limited]).  InodeProps: the size of a file.
      FileProps: read, write and fsync.  Grow: writing past the end.
      Session: sequences of reads and writes as operations of the clients.
      Flat: a file as one sequence of bytes.  Growing: any reads and writes,
      as long as the clients have room.  Lifecycle: making a name, opening,
      reading and writing, and looking up again.  FirstFile: mkfs, the mount,
      and the first file from its lookup to its bytes.  Programs: write_pattern,
      and a reader, on a file of chunkfs.
      FileExamples: all of these on a file in two chunks; RaceExamples: Race,
      Crash and Interrupted; GrowingExamples: Growing and Programs on a file of
      one part; LifecycleExamples: Lifecycle and FirstFile.
    - NameiProps: what a lookup does to a file, and the error paths of
      lookup and of making names.  MakeProps: making names.
      HeadProps: setattr, unlink and link.  SuperProps: the whole mount, the
      unmount and the mutex.  ModuleProps: mounts that fail.  Release: what a
      failed lookup leaves behind.
      NameiExamples: these on the file in two chunks.
    - Quiet and Evolve: what every function does to the module's structures,
      whatever it is given.  Memory: a judgement [costs] that counts what
      every function allocates and frees.  Counts: the reference counts of the
      chunkfs inodes against the dentries that have them, and the judgements
      [stays] and [tallies] for what every function does to them.  VfsProps:
      the invariant of a mounted system and which calls wait.  System: mkfs,
      mount and any calls.  SystemExamples.
    - WritePattern (write_pattern.c): the program that fills a file, over
      any [write]; on a device here, on chunkfs in Programs.

    ** How state and operations correspond

    [Kernel.kstate] has the client file systems, the bytes of the disk, the
    in-memory pool (sb->s_fs_info) and the chunkfs inodes, dentries and files
    by address, and counts of what the module must give back: memory,
    buffers, mounts, dentry and inode references, open client files.  A call
    stops with [Errno e] for a return value of -e, with [Bug] for a failed
    BUG_ON, with [Undef] when a null or uninitialised pointer is followed or
    a buffer overrun, with [Blocked] when it waits for a mutex that nobody
    gives back.  An allocation fails when the state says so.  A
    position passed by address is an argument and a result.

    ** What the theorems show

    - mkfs writes exactly the specified image, or exits with an error; the
      chunks tile the device; the words of the chunk summaries are on the disk
      at the offsets of the C structure and the links lead to chunks that are
      written, except at one size; a device of size 0 never ends with
      success.  What a mkfs that failed leaves on a blank device does not
      mount.
    - Mounting that image gives exactly those chunks; error paths of the
      mount keep nothing and unmounting gives everything back; big-endian
      hosts and images with a cycle.  On any disk with valid pool and device
      summaries the outcome is a function of the chunks and the links.
    - The structures on the disk are well typed and survive their trip through
      memory, in either byte order.
    - Inode numbers pack exactly below 16 chunks and 2^28 inodes; the data of
      a part survives its trip through the attributes.
    - The search finds the first part that holds a position; appending keeps
      a file well formed; the size is the sum of the sizes of the parts; read
      and write act on the part that holds the position, relative to it, a
      write past the end appends the part first, and all of them leave the
      file open and well formed; a sequence of reads and writes is the same
      sequence of operations of the clients; as long as no write crosses the
      end of a part and the clients have room it is that of one flat file that
      grows, from the empty file on for a new name, and so for the first file
      made in the root directory of a new file system.  fsync reaches every
      part and forgets their errors.  The same theorems say what the code leaves
      allocated, referenced and open.
    - The position that a read or write leaves is that of the client.  So a
      program that goes through a file by read(2) or write(2) never gets
      past its second part: write_pattern is told that 32 MiB are written and
      the file has 45056 bytes; a reader never sees the end of the file.
    - An append that a crash cuts off leaves the old file or the new one,
      when changes reach the disk in the order they are made.  On a disk that
      refuses changes it may report success although the file is the old one.
      A file in the way, such as the parts of a removed file, becomes a part
      with its bytes; two appends at once share a part or cut parts off.
    - A mount of the image of mkfs gives a well-formed root directory;
      mounting and unmounting give everything back, and one reference to the
      client inode of the root too many.  A mount that returns an error keeps
      nothing, and reading the root never returns one.  The mutex of the
      module is used the wrong way round: where a stray unlock is without
      effect a sync and the unmount of a writable mount wait forever.
    - In a mounted system, whatever calls but a successful link are made in
      whatever order with whatever arguments, the reference counts of the
      inodes cover their dentries, so that no inode is freed that a dentry
      has; no inode of a dentry, parent or file dangles, the pool
      stays, and every mutex that is taken is given back.  A link that
      succeeds raises the count of the wrong inode: when one of the two names
      goes the inode is freed under the other.  No call but a sync waits, and
      what is allocated covers what is in use after any calls.  chunkfs_iget,
      if called, would find nothing.
    - A lookup leaves the file it finds with one part, whatever parts it had,
      and so with the bytes of that part; after one that fails, without memory, or when the client refuses, names
      end in an uninitialised or null pointer.  A name the client makes is a
      well-formed file of one part.  setattr and unlink reach the head only.

    ** Fuel

    Loops over what is on the disk take fuel: mkfs one unit for each chunk,
    the mount one for each chunk and one for the end, a walk over a file one
    for each part and one for the end.  The theorems take any fuel above
    that and so prove that the loop ends; [mount_cycle] and [mkfs_size_zero]
    are about loops that do not, for any fuel.

    ** Not modelled

    The client file systems (a parameter) and the VFS, but for the services
    the module calls, default_llseek and generic_read_dir (parameters), and
    read(2) and write(2) (parameters of Programs, which give the file operation
    the position and keep what it leaves); calls
    that run at the same time, but for the two appends of Race (elsewhere a
    call runs alone, mutexes are held between calls or not at all); a disk
    that reorders changes; the references to chunkfs inodes and dentries that
    the VFS takes and gives back around one call; debug output; fsck.chunkfs.c, which is not a
    C program (an unterminated string, undeclared names) and has no
    behaviour. *)

From Stdlib Require Export ZArith Lia String.
From stdpp Require Export base tactics option list numbers gmap strings.

#[global] Open Scope Z_scope.

(** ** Machine words

    A C integer is a [Z]; an arithmetic result is reduced by the function of
    its type where the C expression is evaluated at that type. *)

(** Reduction to [__u32]. *)
Definition u32 (x : Z) : Z := x mod 2 ^ 32.

(** Reduction to [__u64] / [unsigned long] / [ino_t] (LP64). *)
Definition u64 (x : Z) : Z := x mod 2 ^ 64.

(** Conversion to [loff_t] / [ssize_t] / [long]. *)
Definition s64 (x : Z) : Z := (x + 2 ^ 63) mod 2 ^ 64 - 2 ^ 63.

(** Conversion to [int]. *)
Definition s32 (x : Z) : Z := (x + 2 ^ 31) mod 2 ^ 32 - 2 ^ 31.

Definition is_u8 (x : Z) : Prop := 0 <= x < 256.
Definition is_u32 (x : Z) : Prop := 0 <= x < 2 ^ 32.
Definition is_u64 (x : Z) : Prop := 0 <= x < 2 ^ 64.
Definition is_s64 (x : Z) : Prop := - 2 ^ 63 <= x < 2 ^ 63.

#[export] Instance is_u8_dec x : Decision (is_u8 x).
Proof. unfold is_u8. apply _. Defined.
#[export] Instance is_u32_dec x : Decision (is_u32 x).
Proof. unfold is_u32. apply _. Defined.
#[export] Instance is_u64_dec x : Decision (is_u64 x).
Proof. unfold is_u64. apply _. Defined.

(** ** Errors: the negative values the kernel functions return *)
Definition ENOENT : Z := 2.
Definition EIO : Z := 5.
Definition ENOMEM : Z := 12.
Definition EINVAL : Z := 22.
Definition ERANGE : Z := 34.
Definition ENOSYS : Z := 38.
Definition ENODATA : Z := 61.

(** ** Hint databases *)

Create HintDb words.
Create Rewrite HintDb words.
Create HintDb chunkfs.
Create Rewrite HintDb chunkfs.

(** Arithmetic with division and modulo by constants. *)
Ltac div_lia := Z.to_euclidean_division_equations; lia.

(** ** Words: lemmas *)

Lemma u64_small x : 0 <= x < 2 ^ 64 -> u64 x = x.
Proof. apply Z.mod_small. Qed.

Lemma u32_small x : 0 <= x < 2 ^ 32 -> u32 x = x.
Proof. apply Z.mod_small. Qed.

Lemma u64_range x : 0 <= u64 x < 2 ^ 64.
Proof. apply Z.mod_pos_bound. lia. Qed.

Lemma u32_range x : 0 <= u32 x < 2 ^ 32.
Proof. apply Z.mod_pos_bound. lia. Qed.

Lemma u64_is_u64 x : is_u64 (u64 x).
Proof. apply u64_range. Qed.

Lemma u64_u64 x : u64 (u64 x) = u64 x.
Proof. apply Z.mod_mod. lia. Qed.

Lemma u64_add_l x y : u64 (u64 x + y) = u64 (x + y).
Proof. unfold u64. apply Zplus_mod_idemp_l. Qed.

Lemma u64_add_r x y : u64 (x + u64 y) = u64 (x + y).
Proof. unfold u64. apply Zplus_mod_idemp_r. Qed.

Lemma u64_sub_l x y : u64 (u64 x - y) = u64 (x - y).
Proof. unfold u64. apply Zminus_mod_idemp_l. Qed.

Lemma s64_small x : - 2 ^ 63 <= x < 2 ^ 63 -> s64 x = x.
Proof. intros H. unfold s64. rewrite Z.mod_small; lia. Qed.

Lemma s32_small x : - 2 ^ 31 <= x < 2 ^ 31 -> s32 x = x.
Proof. intros H. unfold s32. rewrite Z.mod_small; lia. Qed.

Lemma s64_u64 x : s64 (u64 x) = s64 x.
Proof. unfold s64, u64. by rewrite Zplus_mod_idemp_l. Qed.

#[export] Hint Resolve u64_range u32_range u64_is_u64 : words.
#[export] Hint Rewrite u64_u64 u64_add_l u64_add_r u64_sub_l s64_u64 : words.

(** Discharges the word reductions whose argument is provably in range. *)
Ltac words :=
  autorewrite with words;
  repeat match goal with
  | |- context [u64 ?x] => rewrite (u64_small x) by lia
  | |- context [u32 ?x] => rewrite (u32_small x) by lia
  | |- context [s64 ?x] => rewrite (s64_small x) by lia
  end.

(** ** Lists *)

Lemma take_app_exact {A} (l k : list A) n : n = length l -> take n (l ++ k) = l.
Proof. intros ->. apply take_app_length. Qed.

Lemma drop_app_exact {A} (l k : list A) n : n = length l -> drop n (l ++ k) = k.
Proof. intros ->. apply drop_app_length. Qed.

(** A map without duplicates is injective on the list. *)
Lemma NoDup_map_inj {A B} (g : A -> B) (l : list A) x y :
  NoDup (map g l) -> x ∈ l -> y ∈ l -> g x = g y -> x = y.
Proof.
  intros Hn Hx Hy He. apply list_elem_of_lookup in Hx as [i Hi], Hy as [j Hj].
  assert (i = j) as <- by (eapply (NoDup_lookup (g <$> l)); [exact Hn | |]; rewrite list_lookup_fmap;
    [by rewrite Hi | by rewrite Hj, He]).
  congruence.
Qed.
