(* ===== verification/Monad.v ===== *)
(** * A state and exit monad, and loops with fuel

    [stm S E A] is a computation on a state [S] that returns an [A] or stops
    with an [E]; the state reached is kept when it stops, as the effects of a
    C function that fails half way are.  Both programs modelled use it: mkfs
    (where [E] is an exit) and the kernel module (where [E] is an errno, a
    failed [BUG_ON] or an undefined behaviour). *)

From S2P Require Import Prelude.

Definition stm (S E A : Type) : Type := S -> (E + A) * S.

Section monad.
Context {S E : Type}.

#[export] Instance stm_ret : MRet (stm S E) := fun A a s => (inr a, s).

#[export] Instance stm_bind : MBind (stm S E) := fun A B f m s =>
  match m s with
  | (inr a, s') => f a s'
  | (inl e, s') => (inl e, s')
  end.

#[export] Instance stm_throw : MThrow E (stm S E) := fun A e s => (inl e, s).

Definition gets {A} (f : S -> A) : stm S E A := fun s => (inr (f s), s).
Definition modify (f : S -> S) : stm S E unit := fun s => (inr tt, f s).

(** Two computations are equivalent when they agree on every state. *)
#[export] Instance stm_equiv A : Equiv (stm S E A) := fun m1 m2 => forall s, m1 s = m2 s.

#[export] Instance stm_equivalence A : Equivalence (≡@{stm S E A}).
Proof. split; [done | by intros ?? H s | by intros ??? H1 H2 s; rewrite H1, H2]. Qed.

#[export] Instance stm_bind_proper A B :
  Proper (pointwise_relation A (≡) ==> (≡) ==> (≡)) (@mbind _ stm_bind A B).
Proof.
  intros f g Hfg m1 m2 Hm s. unfold mbind, stm_bind. rewrite (Hm s).
  destruct (m2 s) as [[e|a] s']; [done | apply Hfg].
Qed.

Lemma stm_assoc {A B C} (m : stm S E A) (f : A -> stm S E B) (g : B -> stm S E C) :
  (m ≫= f) ≫= g ≡ m ≫= (fun a => f a ≫= g).
Proof. intros s. unfold mbind, stm_bind. by destruct (m s) as [[e|a] s']. Qed.

(** Stepping through a computation. *)
Lemma bind_ok {A B} (m : stm S E A) (f : A -> stm S E B) s a s' :
  m s = (inr a, s') -> (m ≫= f) s = f a s'.
Proof. intros Hm. unfold mbind, stm_bind. by rewrite Hm. Qed.

Lemma bind_stop {A B} (m : stm S E A) (f : A -> stm S E B) s e s' :
  m s = (inl e, s') -> (m ≫= f) s = (inl e, s').
Proof. intros Hm. unfold mbind, stm_bind. by rewrite Hm. Qed.

Lemma bind_inv_ok {A B} (m : stm S E A) (f : A -> stm S E B) s b s2 :
  (m ≫= f) s = (inr b, s2) -> exists a s1, m s = (inr a, s1) /\ f a s1 = (inr b, s2).
Proof. unfold mbind, stm_bind. destruct (m s) as [[e|a] s1]; [done | eauto]. Qed.

(** ** Postconditions

    [wp m Q s]: the run of [m] from [s] ends in a result and a state that
    satisfy [Q]. *)

Definition wp {A} (m : stm S E A) (Q : E + A -> S -> Prop) (s : S) : Prop :=
  Q (m s).1 (m s).2.

Lemma wp_bind {A B} (m : stm S E A) (f : A -> stm S E B) Q s :
  wp m (fun r s' => match r with inr a => wp (f a) Q s' | inl e => Q (inl e) s' end) s ->
  wp (m ≫= f) Q s.
Proof.
  unfold wp, mbind, stm_bind. by destruct (m s) as [[e|a] s'].
Qed.

Lemma wp_mono {A} (m : stm S E A) (P Q : E + A -> S -> Prop) s :
  wp m P s -> (forall r s', P r s' -> Q r s') -> wp m Q s.
Proof. unfold wp. eauto. Qed.

Lemma wp_run {A} (m : stm S E A) Q s r s' : wp m Q s -> m s = (r, s') -> Q r s'.
Proof. unfold wp. intros HQ Hm. by rewrite Hm in HQ. Qed.

(** ** Loops

    [loop fuel out body a] runs [body] from the loop variables [a]; the
    body returns [inl] the next loop variables or [inr] the result.  A loop
    that uses up its fuel stops with [out]. *)

Fixpoint loop {A B} (fuel : nat) (out : E) (body : A -> stm S E (A + B)) (a : A)
    : stm S E B :=
  match fuel with
  | O => mthrow out
  | Datatypes.S fuel' => body a ≫= (fun r => match r with
                                   | inl a' => loop fuel' out body a'
                                   | inr b => mret b
                                   end)
  end.

Lemma loop_next {A B} fuel out (body : A -> stm S E (A + B)) a a' s s' :
  body a s = (inr (inl a'), s') ->
  loop (Datatypes.S fuel) out body a s = loop fuel out body a' s'.
Proof. intros Hb. simpl. by rewrite (bind_ok _ _ _ _ _ Hb). Qed.

Lemma loop_done {A B} fuel out (body : A -> stm S E (A + B)) a b s s' :
  body a s = (inr (inr b), s') ->
  loop (Datatypes.S fuel) out body a s = (inr b, s').
Proof. intros Hb. simpl. by rewrite (bind_ok _ _ _ _ _ Hb). Qed.

Lemma loop_stop {A B} fuel out (body : A -> stm S E (A + B)) a e s s' :
  body a s = (inl e, s') ->
  loop (Datatypes.S fuel) out body a s = (inl e, s').
Proof. intros Hb. simpl. by rewrite (bind_stop _ _ _ _ _ Hb). Qed.

(** More fuel does not change a run that did not use it up. *)
Lemma loop_more {A B} n m out (body : A -> stm S E (A + B)) a s r s' :
  (n <= m)%nat -> loop n out body a s = (r, s') -> r <> inl out -> loop m out body a s = (r, s').
Proof.
  revert m a s; induction n as [|n IH]; intros m a s Hle Hn Hr.
  { simpl in Hn. by inversion Hn; subst. }
  destruct m as [|m]; [lia |]. revert Hn. simpl. unfold mbind, stm_bind.
  destruct (body a s) as [[e|[a'|b]] s1]; [done | | done].
  intros Hn. apply IH; [lia | done..].
Qed.

(** A body whose every step from an [I]-state continues in an [I]-state
    never returns: every amount of fuel is used up. *)
Lemma loop_diverges {A B} (I : A -> S -> Prop) out (body : A -> stm S E (A + B)) :
  (forall a s, I a s -> exists a' s', body a s = (inr (inl a'), s') /\ I a' s') ->
  forall n a s, I a s -> exists s', loop n out body a s = (inl out, s').
Proof.
  intros Hstep n. induction n as [|n IH]; intros a s Ha; [by eexists |].
  destruct (Hstep a s Ha) as (a' & s' & Hb & Ha').
  rewrite (loop_next _ _ _ _ _ _ _ Hb). by apply IH.
Qed.

(** An invariant of a loop: it holds of the state when the loop ends,
    whichever way it ends. *)
Lemma wp_loop {A B} (I : A -> S -> Prop) (Q : E + B -> S -> Prop) out
    (body : A -> stm S E (A + B)) n a s :
  I a s ->
  (forall a s, I a s -> Q (inl out) s) ->
  (forall a s, I a s -> wp (body a) (fun r s' => match r with
                                     | inr (inl a') => I a' s'
                                     | inr (inr b) => Q (inr b) s'
                                     | inl e => Q (inl e) s'
                                     end) s) ->
  wp (loop n out body a) Q s.
Proof.
  intros Ha Hout Hbody. revert a s Ha. induction n as [|n IH]; intros a s Ha.
  { by apply Hout in Ha. }
  simpl. apply wp_bind. eapply wp_mono; [by apply Hbody |].
  intros [e|[a'|b]] s'; [done | apply IH | done].
Qed.
End monad.

Arguments stm_ret {S E} A a s /.

(** Runs one bind whose first computation is known to succeed. *)
Ltac step := erewrite bind_ok by eassumption || erewrite bind_ok by reflexivity.
