(* ===== verification/Bytes.v ===== *)
(** * Bytes of memory and the byte order of the host

    On-disk structures are C structs whose fields are words of type [__le32]
    and [__le64]: the memory of the struct is what goes to the disk, and a
    field is read back as a machine word of the host.  [mem_word] and
    [word_mem] are that memory view, in either byte order, and [cpu_to_le32],
    [cpu_to_le64] the conversions of the kernel's byteorder headers (identity
    on a little-endian host, byte swap on a big-endian one; the conversions
    back are the same functions). *)

From S2P Require Import Prelude.

(** ** Little-endian digits *)

Fixpoint le_bytes (n : nat) (x : Z) : list Z :=
  match n with
  | O => []
  | S m => x mod 256 :: le_bytes m (x / 256)
  end.

Fixpoint le_val (bs : list Z) : Z :=
  match bs with
  | [] => 0
  | b :: rest => b + 256 * le_val rest
  end.

(** ** The host *)

(** The byte order of the machine that runs the code. *)
Class Host := big_endian : bool.

Definition little_endian_host : Host := false.
Definition big_endian_host : Host := true.

Section host.
Context `{Host}.

(** The memory of an [n]-byte word that holds [x]. *)
Definition mem_word (n : nat) (x : Z) : list Z :=
  if big_endian then rev (le_bytes n x) else le_bytes n x.

(** The word whose memory is [bs]. *)
Definition word_mem (bs : list Z) : Z :=
  if big_endian then le_val (rev bs) else le_val bs.

Definition bswap (n : nat) (x : Z) : Z := le_val (rev (le_bytes n x)).

Definition cpu_to_le (n : nat) (x : Z) : Z :=
  if big_endian then bswap n x else x.

Definition cpu_to_le32 (x : Z) : Z := cpu_to_le 4 x.
Definition cpu_to_le64 (x : Z) : Z := cpu_to_le 8 x.
Definition le32_to_cpu (x : Z) : Z := cpu_to_le 4 x.
Definition le64_to_cpu (x : Z) : Z := cpu_to_le 8 x.
End host.

(** A region of a buffer. *)
Definition slice (off len : nat) (buf : list Z) : list Z := take len (drop off buf).

Definition get32 `{Host} (buf : list Z) (off : nat) : Z := word_mem (slice off 4 buf).
Definition get64 `{Host} (buf : list Z) (off : nat) : Z := word_mem (slice off 8 buf).

(** [bzero] on [n] bytes. *)
Definition zeros (n : nat) : list Z := replicate n 0.

(** ** Lemmas *)

Lemma length_le_bytes n x : length (le_bytes n x) = n.
Proof. revert x; induction n as [|n IH]; intros x; simpl; [done | by rewrite IH]. Qed.

Lemma le_bytes_u8 n x : Forall is_u8 (le_bytes n x).
Proof.
  revert x; induction n as [|n IH]; intros x; simpl; constructor; [| apply IH].
  apply Z.mod_pos_bound; lia.
Qed.

Lemma pow256_S n : 256 ^ Z.of_nat (S n) = 256 * 256 ^ Z.of_nat n.
Proof. rewrite Nat2Z.inj_succ, Z.pow_succ_r; lia. Qed.

Lemma pow256_pos n : 0 < 256 ^ Z.of_nat n.
Proof. apply Z.pow_pos_nonneg; lia. Qed.

Lemma le_val_bytes n x : le_val (le_bytes n x) = x mod 256 ^ Z.of_nat n.
Proof.
  revert x; induction n as [|n IH]; intros x; cbn [le_bytes le_val].
  - by rewrite Z.mod_1_r.
  - rewrite IH, pow256_S, (Z.rem_mul_r x 256); pose proof (pow256_pos n); lia.
Qed.

Lemma le_val_range bs : Forall is_u8 bs -> 0 <= le_val bs < 256 ^ Z.of_nat (length bs).
Proof.
  induction 1 as [|b bs [Hb Hb'] _ IH]; cbn [le_val length]; [simpl; lia |].
  rewrite pow256_S. lia.
Qed.

Lemma le_bytes_val bs : Forall is_u8 bs -> le_bytes (length bs) (le_val bs) = bs.
Proof.
  induction 1 as [|b bs [Hb Hb'] _ IH]; cbn [le_val length le_bytes]; [done |].
  rewrite (Z.mul_comm 256), Z.mod_add, Z.mod_small by lia.
  rewrite Z.div_add, Z.div_small by lia. by rewrite Z.add_0_l, IH.
Qed.

Lemma le_bytes_mod n x : le_bytes n (x mod 256 ^ Z.of_nat n) = le_bytes n x.
Proof.
  rewrite <-le_val_bytes. rewrite <-(length_le_bytes n x) at 1.
  apply le_bytes_val, le_bytes_u8.
Qed.

Section host_lemmas.
Context `{Host}.

Lemma length_mem_word n x : length (mem_word n x) = n.
Proof. unfold mem_word. destruct big_endian; rewrite ?length_rev; apply length_le_bytes. Qed.

Lemma mem_word_u8 n x : Forall is_u8 (mem_word n x).
Proof.
  unfold mem_word. destruct big_endian; [| apply le_bytes_u8].
  apply Forall_rev, le_bytes_u8.
Qed.

(** A word survives its memory, up to the reduction to its width. *)
Lemma word_mem_word n x : word_mem (mem_word n x) = x mod 256 ^ Z.of_nat n.
Proof.
  unfold word_mem, mem_word.
  destruct big_endian; rewrite ?rev_involutive; apply le_val_bytes.
Qed.

Lemma word_mem_32 x : is_u32 x -> word_mem (mem_word 4 x) = x.
Proof. intros Hx. rewrite word_mem_word. apply Z.mod_small, Hx. Qed.

Lemma word_mem_64 x : is_u64 x -> word_mem (mem_word 8 x) = x.
Proof. intros Hx. rewrite word_mem_word. apply Z.mod_small, Hx. Qed.

Lemma bswap_range n x : 0 <= bswap n x < 256 ^ Z.of_nat n.
Proof.
  unfold bswap. pose proof (le_val_range (rev (le_bytes n x))) as Hr.
  rewrite length_rev, length_le_bytes in Hr. apply Hr, Forall_rev, le_bytes_u8.
Qed.

Lemma bswap_bswap n x : bswap n (bswap n x) = x mod 256 ^ Z.of_nat n.
Proof.
  unfold bswap at 1 2.
  rewrite <-(le_val_bytes n x).
  rewrite <-(length_le_bytes n x) at 1. rewrite <-length_rev.
  rewrite le_bytes_val by apply Forall_rev, le_bytes_u8.
  by rewrite rev_involutive.
Qed.

Lemma cpu_to_le_involutive n x :
  0 <= x < 256 ^ Z.of_nat n -> cpu_to_le n (cpu_to_le n x) = x.
Proof.
  intros Hx. unfold cpu_to_le. destruct big_endian; [| done].
  rewrite bswap_bswap. by apply Z.mod_small.
Qed.

Lemma cpu_to_le_range n x :
  0 <= x < 256 ^ Z.of_nat n -> 0 <= cpu_to_le n x < 256 ^ Z.of_nat n.
Proof. intros Hx. unfold cpu_to_le. destruct big_endian; [apply bswap_range | done]. Qed.

(** The memory of a converted word is little-endian on every host. *)
Lemma mem_cpu_to_le n x :
  0 <= x < 256 ^ Z.of_nat n -> mem_word n (cpu_to_le n x) = le_bytes n x.
Proof.
  intros Hx. unfold mem_word, cpu_to_le. destruct big_endian; [| done].
  unfold bswap. rewrite <-(length_le_bytes n x) at 1. rewrite <-length_rev.
  rewrite le_bytes_val by apply Forall_rev, le_bytes_u8.
  apply rev_involutive.
Qed.
End host_lemmas.

#[export] Hint Resolve mem_word_u8 le_bytes_u8 : chunkfs.
#[export] Hint Rewrite @length_mem_word length_le_bytes : chunkfs.

Lemma length_zeros n : length (zeros n) = n.
Proof. apply length_replicate. Qed.

Lemma zeros_u8 n : Forall is_u8 (zeros n).
Proof. apply Forall_replicate. unfold is_u8. lia. Qed.

#[export] Hint Rewrite length_zeros : chunkfs.

Lemma slice_app_here (l k : list Z) n : n = length l -> slice 0 n (l ++ k) = l.
Proof. intros ->. unfold slice. rewrite drop_0. apply take_app_length. Qed.

Lemma slice_app_skip (l k : list Z) off n :
  (length l <= off)%nat -> slice off n (l ++ k) = slice (off - length l) n k.
Proof. intros Hle. unfold slice. by rewrite drop_app_ge. Qed.

Lemma slice_app_l (l k : list Z) off n :
  (off + n <= length l)%nat -> slice off n (l ++ k) = slice off n l.
Proof.
  intros Hle. unfold slice. rewrite drop_app_le by lia.
  rewrite take_app_le; [done | rewrite length_drop; lia].
Qed.

(** Finds a field in a concatenation of fields of known lengths. *)
Ltac slice_field :=
  repeat (rewrite slice_app_skip by (autorewrite with chunkfs; simpl; lia));
  autorewrite with chunkfs;
  simpl Nat.sub;
  rewrite slice_app_here by (autorewrite with chunkfs; simpl; lia).
