(* ===== verification/OnDisk.v ===== *)
(** * On-disk structures (chunkfs.h, chunkfs_pool.h, chunkfs_dev.h, chunkfs_chunk.h)

    The pool, device and chunk summaries as records of raw [__le32]/[__le64]
    words, their memory layout (no padding on an LP64 target: every 64-bit
    field is at a multiple of 8), the checksum and magic number checks, and
    the fixed positions of the summaries on the device.  The interface
    [CStruct] with its laws is what mkfs and the mount code use of a layout. *)

From S2P Require Import Prelude Bytes.

(** ** Constants *)

Definition CHUNKFS_SUPER_MAGIC : Z := 0x5afe5afe.
Definition CHUNKFS_CHUNK_MAGIC : Z := 0xf00df00d.
Definition CHUNKFS_DEV_MAGIC : Z := 0xdeeddeed.

Definition CHUNKFS_BLK_SIZE : Z := 4096.
Definition CHUNKFS_DEV_PATH_LEN : nat := 1024.
Definition CHUNKFS_CLIENT_NAME_LEN : nat := 32.

Definition CHUNKFS_POOL_BLK : Z := 8.
Definition CHUNKFS_POOL_OFFSET : Z := CHUNKFS_POOL_BLK * CHUNKFS_BLK_SIZE.
Definition CHUNKFS_DEV_BLK : Z := CHUNKFS_POOL_BLK + 1.
Definition CHUNKFS_DEV_OFFSET : Z := CHUNKFS_DEV_BLK * CHUNKFS_BLK_SIZE.
Definition CHUNKFS_CHUNK_SIZE : Z := 10 * 1024 * 1024.

(** Chunk flag: the chunk holds the root of the file system. *)
Definition CHUNKFS_ROOT : Z := 0x00000001.

Definition CHKSUM : Z := 0x32323232.

(** ** Structures *)

Record chunkfs_dev_desc := mk_dev_desc {
  dd_hint : list Z;
  dd_uuid : Z;
}.

Record chunkfs_pool := mk_pool {
  p_magic : Z;
  p_chksum : Z;
  p_flags : Z;
  p_root_desc : chunkfs_dev_desc;
}.

Record chunkfs_dev := mk_dev {
  d_magic : Z;
  d_chksum : Z;
  d_flags : Z;
  d_uuid : Z;
  d_begin : Z;
  d_end : Z;
  d_innards_begin : Z;
  d_innards_end : Z;
  d_root_chunk : Z;
  d_next_dev : chunkfs_dev_desc;
}.

Record chunkfs_chunk := mk_chunk {
  c_magic : Z;
  c_chksum : Z;
  c_flags : Z;
  c_chunk_id : Z;
  c_begin : Z;
  c_end : Z;
  c_innards_begin : Z;
  c_innards_end : Z;
  c_next_chunk : Z;
  c_client_fs : list Z;
}.

(** ** Memory layout *)

(** The layout of a C struct: its size, its memory, and the struct that a
    region of memory holds. *)
Class CStruct (T : Type) := {
  sizeof : nat;
  to_mem : T -> list Z;
  of_mem : list Z -> T;
  typed : T -> Prop;
}.
Arguments sizeof T {_}.

(** A layout is a bijection between the well-typed values and the byte
    strings of its size; what follows the struct in a buffer is ignored. *)
Class CStructLaws (T : Type) `{CStruct T} := {
  length_to_mem (x : T) : typed x -> length (to_mem x) = sizeof T;
  to_mem_u8 (x : T) : typed x -> Forall is_u8 (to_mem x);
  of_to_mem (x : T) rest : typed x -> of_mem (to_mem x ++ rest) = x;
  of_mem_typed buf : Forall is_u8 buf -> (sizeof T <= length buf)%nat -> typed (of_mem (T := T) buf);
  to_of_mem buf : Forall is_u8 buf -> length buf = sizeof T -> to_mem (of_mem (T := T) buf) = buf;
}.

Section layout.
Context `{Host}.

Definition dev_desc_mem (x : chunkfs_dev_desc) : list Z :=
  dd_hint x ++ mem_word 8 (dd_uuid x).

Definition dev_desc_of (buf : list Z) (off : nat) : chunkfs_dev_desc :=
  mk_dev_desc (slice off CHUNKFS_DEV_PATH_LEN buf) (get64 buf (off + 1024)).

Definition dev_desc_typed (x : chunkfs_dev_desc) : Prop :=
  length (dd_hint x) = CHUNKFS_DEV_PATH_LEN /\ Forall is_u8 (dd_hint x) /\ is_u64 (dd_uuid x).

Definition pool_to_mem (x : chunkfs_pool) : list Z :=
  mem_word 4 (p_magic x) ++ mem_word 4 (p_chksum x) ++
  mem_word 8 (p_flags x) ++ dev_desc_mem (p_root_desc x).

Definition pool_of_mem (buf : list Z) : chunkfs_pool :=
  mk_pool (get32 buf 0) (get32 buf 4) (get64 buf 8) (dev_desc_of buf 16).

Definition pool_typed (x : chunkfs_pool) : Prop :=
  is_u32 (p_magic x) /\ is_u32 (p_chksum x) /\ is_u64 (p_flags x) /\
  dev_desc_typed (p_root_desc x).

Definition dev_to_mem (x : chunkfs_dev) : list Z :=
  mem_word 4 (d_magic x) ++ mem_word 4 (d_chksum x) ++
  mem_word 8 (d_flags x) ++ mem_word 8 (d_uuid x) ++
  mem_word 8 (d_begin x) ++ mem_word 8 (d_end x) ++
  mem_word 8 (d_innards_begin x) ++ mem_word 8 (d_innards_end x) ++
  mem_word 8 (d_root_chunk x) ++ dev_desc_mem (d_next_dev x).

Definition dev_of_mem (buf : list Z) : chunkfs_dev :=
  mk_dev (get32 buf 0) (get32 buf 4) (get64 buf 8) (get64 buf 16)
    (get64 buf 24) (get64 buf 32) (get64 buf 40) (get64 buf 48)
    (get64 buf 56) (dev_desc_of buf 64).

Definition dev_typed (x : chunkfs_dev) : Prop :=
  is_u32 (d_magic x) /\ is_u32 (d_chksum x) /\ is_u64 (d_flags x) /\
  is_u64 (d_uuid x) /\ is_u64 (d_begin x) /\ is_u64 (d_end x) /\
  is_u64 (d_innards_begin x) /\ is_u64 (d_innards_end x) /\
  is_u64 (d_root_chunk x) /\ dev_desc_typed (d_next_dev x).

Definition chunk_to_mem (x : chunkfs_chunk) : list Z :=
  mem_word 4 (c_magic x) ++ mem_word 4 (c_chksum x) ++
  mem_word 8 (c_flags x) ++ mem_word 8 (c_chunk_id x) ++
  mem_word 8 (c_begin x) ++ mem_word 8 (c_end x) ++
  mem_word 8 (c_innards_begin x) ++ mem_word 8 (c_innards_end x) ++
  mem_word 8 (c_next_chunk x) ++ c_client_fs x.

Definition chunk_of_mem (buf : list Z) : chunkfs_chunk :=
  mk_chunk (get32 buf 0) (get32 buf 4) (get64 buf 8) (get64 buf 16)
    (get64 buf 24) (get64 buf 32) (get64 buf 40) (get64 buf 48)
    (get64 buf 56) (slice 64 CHUNKFS_CLIENT_NAME_LEN buf).

Definition chunk_typed (x : chunkfs_chunk) : Prop :=
  is_u32 (c_magic x) /\ is_u32 (c_chksum x) /\ is_u64 (c_flags x) /\
  is_u64 (c_chunk_id x) /\ is_u64 (c_begin x) /\ is_u64 (c_end x) /\
  is_u64 (c_innards_begin x) /\ is_u64 (c_innards_end x) /\
  is_u64 (c_next_chunk x) /\
  length (c_client_fs x) = CHUNKFS_CLIENT_NAME_LEN /\ Forall is_u8 (c_client_fs x).

#[export] Instance pool_struct : CStruct chunkfs_pool := {
  sizeof := 1048; to_mem := pool_to_mem; of_mem := pool_of_mem; typed := pool_typed;
}.

#[export] Instance dev_struct : CStruct chunkfs_dev := {
  sizeof := 1096; to_mem := dev_to_mem; of_mem := dev_of_mem; typed := dev_typed;
}.

#[export] Instance chunk_struct : CStruct chunkfs_chunk := {
  sizeof := 96; to_mem := chunk_to_mem; of_mem := chunk_of_mem; typed := chunk_typed;
}.

(** ** Checks on a buffer just read off the disk *)

(** The magic number is the first word of every structure, the checksum
    the second ([struct chunkfs_chkmagic]). *)
Definition x_magic (buf : list Z) : Z := get32 buf 0.
Definition x_chksum (buf : list Z) : Z := get32 buf 4.

Definition check_chksum (buf : list Z) : bool := negb (le32_to_cpu (x_chksum buf) =? CHKSUM).

Definition check_magic (buf : list Z) (expected_magic : Z) : bool :=
  negb (le32_to_cpu (x_magic buf) =? expected_magic).

Definition check_metadata (buf : list Z) (expected_magic : Z) : Z :=
  if check_magic buf expected_magic then 1
  else if check_chksum buf then 2
  else 0.

Definition check_pool (buf : list Z) : Z := check_metadata buf CHUNKFS_SUPER_MAGIC.
Definition check_dev (buf : list Z) : Z := check_metadata buf CHUNKFS_DEV_MAGIC.
Definition check_chunk (buf : list Z) : Z := check_metadata buf CHUNKFS_CHUNK_MAGIC.

(** Sets the checksum of a structure in memory; [swap32] is the
    [__cpu_to_le32] of the program that includes the header. *)
Definition write_chksum (swap32 : Z -> Z) (buf : list Z) : list Z :=
  take 4 buf ++ mem_word 4 (swap32 CHKSUM) ++ drop 8 buf.
End layout.

(** ** The layouts are lawful *)

Section laws.
Context `{Host}.

Lemma slice_slice_app (buf : list Z) off n m :
  slice off n buf ++ slice (off + n) m buf = slice off (n + m) buf.
Proof. unfold slice. rewrite <-drop_drop. apply take_take_drop. Qed.

Lemma length_slice off n (buf : list Z) :
  (off + n <= length buf)%nat -> length (slice off n buf) = n.
Proof. intros Hl. unfold slice. rewrite length_take, length_drop. lia. Qed.

Lemma slice_u8 off n (buf : list Z) : Forall is_u8 buf -> Forall is_u8 (slice off n buf).
Proof. intros Hb. unfold slice. by apply Forall_take, Forall_drop. Qed.

(** The memory of a word read from a region is that region. *)
Lemma mem_word_mem n bs : Forall is_u8 bs -> length bs = n -> mem_word n (word_mem bs) = bs.
Proof.
  intros Hb <-. unfold mem_word, word_mem. destruct big_endian; [| by apply le_bytes_val].
  rewrite <-length_rev, le_bytes_val by by apply Forall_rev. apply rev_involutive.
Qed.

Lemma mem_word_get64 buf off :
  Forall is_u8 buf -> (off + 8 <= length buf)%nat -> mem_word 8 (get64 buf off) = slice off 8 buf.
Proof. intros Hb Hl. apply mem_word_mem; [by apply slice_u8 | by apply length_slice]. Qed.

Lemma mem_word_get32 buf off :
  Forall is_u8 buf -> (off + 4 <= length buf)%nat -> mem_word 4 (get32 buf off) = slice off 4 buf.
Proof. intros Hb Hl. apply mem_word_mem; [by apply slice_u8 | by apply length_slice]. Qed.

Lemma word_mem_range n bs :
  Forall is_u8 bs -> length bs = n -> 0 <= word_mem bs < 256 ^ Z.of_nat n.
Proof.
  intros Hb <-. unfold word_mem. destruct big_endian; [| by apply le_val_range].
  rewrite <-length_rev. by apply le_val_range, Forall_rev.
Qed.

Lemma get64_typed buf off :
  Forall is_u8 buf -> (off + 8 <= length buf)%nat -> is_u64 (get64 buf off).
Proof.
  intros Hb Hl. apply (word_mem_range 8); [by apply slice_u8 | by apply length_slice].
Qed.

Lemma get32_typed buf off :
  Forall is_u8 buf -> (off + 4 <= length buf)%nat -> is_u32 (get32 buf off).
Proof.
  intros Hb Hl. apply (word_mem_range 4); [by apply slice_u8 | by apply length_slice].
Qed.

Lemma dev_desc_of_typed buf off :
  Forall is_u8 buf -> (off + 1032 <= length buf)%nat -> dev_desc_typed (dev_desc_of buf off).
Proof.
  intros Hb Hl. repeat split; simpl; [apply length_slice; unfold CHUNKFS_DEV_PATH_LEN; lia
    | by apply slice_u8 | apply get64_typed; [done | lia] ..].
Qed.

Lemma dev_desc_mem_of buf off :
  Forall is_u8 buf -> (off + 1032 <= length buf)%nat ->
  dev_desc_mem (dev_desc_of buf off) = slice off 1032 buf.
Proof.
  intros Hb Hl. unfold dev_desc_mem; simpl. rewrite mem_word_get64 by (done || lia).
  apply slice_slice_app.
Qed.

Ltac read_field :=
  rewrite <-?app_assoc; unfold get32, get64; slice_field;
  rewrite ?word_mem_32, ?word_mem_64 by done.

Lemma dev_desc_of_to pre x rest off :
  dev_desc_typed x -> off = length pre -> dev_desc_of (pre ++ dev_desc_mem x ++ rest) off = x.
Proof.
  unfold dev_desc_typed, CHUNKFS_DEV_PATH_LEN. intros (Hl & _ & Hu) ->.
  unfold dev_desc_of, dev_desc_mem, get64, CHUNKFS_DEV_PATH_LEN.
  rewrite <-app_assoc, !(slice_app_skip pre) by lia.
  replace (length pre + 1024 - length pre)%nat with 1024%nat by lia.
  rewrite Nat.sub_diag, slice_app_here by done.
  rewrite slice_app_skip, Hl, Nat.sub_diag by lia.
  rewrite slice_app_here by (by rewrite length_mem_word).
  rewrite word_mem_64 by done. by destruct x.
Qed.

Ltac memory_of :=
  rewrite ?dev_desc_mem_of, ?mem_word_get64, ?mem_word_get32 by (done || lia);
  rewrite ?slice_slice_app.

Lemma slice_whole (buf : list Z) n : length buf = n -> slice 0 n buf = buf.
Proof. intros <-. unfold slice. rewrite drop_0. apply take_ge. lia. Qed.

#[export] Instance pool_laws : CStructLaws chunkfs_pool.
Proof.
  split; cbn [sizeof to_mem of_mem typed pool_struct];
    unfold pool_to_mem, pool_of_mem, pool_typed, dev_desc_mem.
  - intros x (_ & _ & _ & Hl & _). simpl in Hl. rewrite !length_app, !length_mem_word, Hl. done.
  - intros x (_ & _ & _ & _ & Hh & _). repeat (apply Forall_app; split); auto with chunkfs.
  - intros [m s f d] rest (Hm & Hs & Hf & Hd); simpl in *. f_equal; [read_field; done.. |].
    rewrite app_assoc, (app_assoc (_ ++ _)). change (dd_hint d ++ _) with (dev_desc_mem d).
    rewrite <-app_assoc. apply dev_desc_of_to; [done |].
    by rewrite !length_app, !length_mem_word.
  - intros buf Hb Hl. simpl. repeat split;
      try (apply get64_typed; [done | lia]); try (apply get32_typed; [done | lia]);
      by apply dev_desc_of_typed.
  - intros buf Hb Hl. simpl. change (slice _ _ _ ++ mem_word _ _) with
      (dev_desc_mem (dev_desc_of buf 16)). memory_of. by apply slice_whole.
Qed.

#[export] Instance dev_laws : CStructLaws chunkfs_dev.
Proof.
  split; cbn [sizeof to_mem of_mem typed dev_struct];
    unfold dev_to_mem, dev_of_mem, dev_typed.
  - intros x Hx. destruct_and! Hx. unfold dev_desc_mem.
    match goal with Hd : dev_desc_typed _ |- _ => destruct Hd as (Hl & _) end.
    rewrite !length_app, !length_mem_word, Hl. done.
  - intros x Hx. destruct_and! Hx. unfold dev_desc_mem.
    match goal with Hd : dev_desc_typed _ |- _ => destruct Hd as (_ & Hh & _) end.
    repeat (apply Forall_app; split); auto with chunkfs.
  - intros [] rest Hx; simpl in *. destruct_and! Hx.
    f_equal; [read_field; done.. |]. rewrite <-!app_assoc, !(app_assoc (mem_word _ _)).
    rewrite !app_assoc, <-(app_assoc _ _ rest).
    apply dev_desc_of_to; [done |]. by rewrite !length_app, !length_mem_word.
  - intros buf Hb Hl. simpl. repeat split;
      try (apply get64_typed; [done | lia]); try (apply get32_typed; [done | lia]);
      by apply dev_desc_of_typed.
  - intros buf Hb Hl. simpl. memory_of. by apply slice_whole.
Qed.

#[export] Instance chunk_laws : CStructLaws chunkfs_chunk.
Proof.
  split; cbn [sizeof to_mem of_mem typed chunk_struct];
    unfold chunk_to_mem, chunk_of_mem, chunk_typed.
  - intros x Hx. destruct_and! Hx. rewrite !length_app, !length_mem_word.
    match goal with Hl : length _ = _ |- _ => by rewrite Hl end.
  - intros x Hx. destruct_and! Hx. repeat (apply Forall_app; split); auto with chunkfs.
  - intros [] rest Hx; simpl in *. destruct_and! Hx.
    f_equal; read_field; done.
  - intros buf Hb Hl. simpl. repeat split;
      try (apply get64_typed; [done | lia]); try (apply get32_typed; [done | lia]);
      [apply length_slice; unfold CHUNKFS_CLIENT_NAME_LEN; lia | by apply slice_u8].
  - intros buf Hb Hl. simpl. memory_of. by apply slice_whole.
Qed.

(** The struct at the start of a buffer and its memory. *)
Lemma of_mem_prefix {T} `{CStructLaws T} buf :
  Forall is_u8 buf -> (sizeof T <= length buf)%nat ->
  typed (of_mem (T := T) buf) /\ to_mem (of_mem (T := T) buf) = take (sizeof T) buf.
Proof.
  intros Hb Hl. split; [by apply of_mem_typed |]. set (start := take (sizeof T) buf).
  assert (length start = sizeof T) as Hn by (unfold start; rewrite length_take; lia).
  assert (Forall is_u8 start) as Hs by by apply Forall_take.
  rewrite <-(to_of_mem (T := T) start) by done. f_equal.
  rewrite <-(take_drop (sizeof T) buf). fold start. rewrite <-(to_of_mem (T := T) start) at 1 by done.
  apply of_to_mem, of_mem_typed; [done | lia].
Qed.

(** The structures on the disk are well typed in either byte order.  Any
    block of bytes holds, at its start, a pool, a device and a chunk summary
    all of whose fields are in the range of their C types, and their memory
    is exactly those bytes of the block; and the memory of a well-typed
    summary fits a block and is read back as that summary, whatever follows
    it. *)
Theorem summaries_typed :
  (forall buf, Forall is_u8 buf -> Z.of_nat (length buf) = CHUNKFS_BLK_SIZE ->
    (typed (pool_of_mem buf) /\ pool_to_mem (pool_of_mem buf) = take 1048 buf) /\
    (typed (dev_of_mem buf) /\ dev_to_mem (dev_of_mem buf) = take 1096 buf) /\
    (typed (chunk_of_mem buf) /\ chunk_to_mem (chunk_of_mem buf) = take 96 buf)) /\
  (forall x rest, pool_typed x -> Z.of_nat (length (pool_to_mem x)) <= CHUNKFS_BLK_SIZE /\
    Forall is_u8 (pool_to_mem x) /\ pool_of_mem (pool_to_mem x ++ rest) = x) /\
  (forall x rest, dev_typed x -> Z.of_nat (length (dev_to_mem x)) <= CHUNKFS_BLK_SIZE /\
    Forall is_u8 (dev_to_mem x) /\ dev_of_mem (dev_to_mem x ++ rest) = x) /\
  (forall x rest, chunk_typed x -> Z.of_nat (length (chunk_to_mem x)) <= CHUNKFS_BLK_SIZE /\
    Forall is_u8 (chunk_to_mem x) /\ chunk_of_mem (chunk_to_mem x ++ rest) = x).
Proof.
  assert (forall T `{CStructLaws T} (x : T) rest, typed x -> Z.of_nat (sizeof T) <= CHUNKFS_BLK_SIZE ->
    Z.of_nat (length (to_mem x)) <= CHUNKFS_BLK_SIZE /\ Forall is_u8 (to_mem x) /\ of_mem (to_mem x ++ rest) = x) as Hback.
  { intros T ? ? x rest Hx Hs. rewrite (length_to_mem x Hx). split_and!; [done | by apply to_mem_u8 | by apply of_to_mem]. }
  split_and!.
  - unfold CHUNKFS_BLK_SIZE. intros buf Hb Hl.
    assert (1048 <= length buf)%nat as Lp by lia. assert (1096 <= length buf)%nat as Ld by lia.
    assert (96 <= length buf)%nat as Lc by lia. refine (conj _ (conj _ _)).
    + exact (of_mem_prefix (T := chunkfs_pool) buf Hb Lp).
    + exact (of_mem_prefix (T := chunkfs_dev) buf Hb Ld).
    + exact (of_mem_prefix (T := chunkfs_chunk) buf Hb Lc).
  - intros x rest Hx. exact (Hback chunkfs_pool _ _ x rest Hx ltac:(done)).
  - intros x rest Hx. exact (Hback chunkfs_dev _ _ x rest Hx ltac:(done)).
  - intros x rest Hx. exact (Hback chunkfs_chunk _ _ x rest Hx ltac:(done)).
Qed.

(** The round trips under the names of the layouts. *)
Lemma pool_of_to x rest : typed x -> pool_of_mem (pool_to_mem x ++ rest) = x.
Proof. intros Hx. exact (of_to_mem x rest Hx). Qed.

Lemma dev_of_to x rest : typed x -> dev_of_mem (dev_to_mem x ++ rest) = x.
Proof. intros Hx. exact (of_to_mem x rest Hx). Qed.

Lemma chunk_of_to x rest : typed x -> chunk_of_mem (chunk_to_mem x ++ rest) = x.
Proof. intros Hx. exact (of_to_mem x rest Hx). Qed.
End laws.

#[global] Arguments pool_of_mem : simpl never.
#[global] Arguments pool_to_mem : simpl never.
#[global] Arguments dev_of_mem : simpl never.
#[global] Arguments dev_to_mem : simpl never.
#[global] Arguments chunk_of_mem : simpl never.
#[global] Arguments chunk_to_mem : simpl never.
