(* ===== verification/Device.v ===== *)
(** * The device mkfs writes and the module reads

    A device is its bytes and what the system answers to a write of one block
    at an offset: the return value of [write(2)], 4096 when all of it was
    stored, less (or -1) when it was not.  [write(2)] stores the bytes it says
    it stored. *)

From S2P Require Import Prelude OnDisk.

Record device := mk_device {
  dev_data : Z -> Z;
  dev_accept : Z -> Z;
}.

(** The store after [buf] is written at [off]. *)
Definition store_bytes (data : Z -> Z) (off : Z) (buf : list Z) : Z -> Z := fun a =>
  if (off <=? a) && (a <? off + Z.of_nat (length buf)) then nth (Z.to_nat (a - off)) buf 0
  else data a.

(** The [n] bytes at [off]. *)
Definition read_bytes (data : Z -> Z) (off : Z) (n : nat) : list Z :=
  map (fun i => data (off + Z.of_nat i)) (seq 0 n).

(** [lseek(fd, offset, SEEK_SET)] fails on a negative offset ([off_t] is signed). *)
Definition lseek_fails (offset : Z) : bool := s64 offset <? 0.

(** [write(fd, buf, n)]: the return value and the device after it. *)
Definition write_dev (d : device) (off : Z) (buf : list Z) : Z * device :=
  let n := dev_accept d off in
  (n, mk_device (store_bytes (dev_data d) off (take (Z.to_nat n) buf)) (dev_accept d)).

(** A block of the buffer cache, if it can be read ([sb_bread]). *)
Definition block_at (data : Z -> Z) (blk : Z) : list Z :=
  read_bytes data (blk * CHUNKFS_BLK_SIZE) (Z.to_nat CHUNKFS_BLK_SIZE).

(** ** Lemmas *)

Lemma length_read_bytes data off n : length (read_bytes data off n) = n.
Proof. unfold read_bytes. by rewrite length_map, length_seq. Qed.

Lemma read_bytes_ext d1 d2 off n :
  (forall a, off <= a < off + Z.of_nat n -> d1 a = d2 a) -> read_bytes d1 off n = read_bytes d2 off n.
Proof.
  intros Heq. unfold read_bytes. apply map_ext_in. intros i Hi%in_seq. apply Heq. lia.
Qed.

(** What was written is what is read. *)
Lemma read_store_same data off buf :
  read_bytes (store_bytes data off buf) off (length buf) = buf.
Proof.
  unfold read_bytes, store_bytes. apply (nth_ext _ _ 0 0).
  { by rewrite length_map, length_seq. }
  intros n. rewrite length_map, length_seq. intros Hn.
  rewrite (nth_indep _ 0 (store_bytes data off buf (off + Z.of_nat 0)))
    by (by rewrite length_map, length_seq).
  rewrite (map_nth (fun i => store_bytes data off buf (off + Z.of_nat i)) _ 0%nat).
  rewrite seq_nth by done. unfold store_bytes.
  rewrite (proj2 (Z.leb_le _ _)), (proj2 (Z.ltb_lt _ _)) by lia. simpl. f_equal. lia.
Qed.

(** A write elsewhere is not seen. *)
Lemma read_store_other data off buf off' n :
  off' + Z.of_nat n <= off \/ off + Z.of_nat (length buf) <= off' ->
  read_bytes (store_bytes data off buf) off' n = read_bytes data off' n.
Proof.
  intros Hd. apply read_bytes_ext. intros a Ha. unfold store_bytes.
  destruct (Z.leb_spec off a), (Z.ltb_spec a (off + Z.of_nat (length buf))); simpl; lia || done.
Qed.
