(* ===== verification/WritePattern.v ===== *)
(** * The pattern writer (write_pattern.c)

    The program fills a file with 32 MiB of the byte '5', 4096 bytes to a
    call of [write].  What [write] does with the open file is an argument: here
    it is a device whose answers are not bounded in advance, in Programs a file of
    chunkfs. *)

From S2P Require Import Prelude Monad Device OnDisk.

Definition FILE_SIZE : Z := 32 * 1024 * 1024.

(** [memset(buf, '5', sizeof(buf))]. *)
Definition pattern_buf : list Z := replicate 4096 53.

(** How the program stops early: [usage] exits with 1, a call of [write] never
    returns, or the fuel is used up. *)
Inductive pattern_stop := Exit1 | NoReturn | OutOfFuel.

Section program.
(** [write(fd, buf, n)] on the open file, at its position: the return value. *)
Context {S : Type} (write : list Z -> stm S pattern_stop Z).

(** One turn of the loop; [written] is an [int]. *)
Definition pattern_step (written : Z) : stm S pattern_stop (Z + Z) :=
  if written <? FILE_SIZE then
    n ← write pattern_buf;
    if n =? - 1 then mthrow Exit1 else mret (inl (s32 (written + s32 n)))
  else mret (inr written).

(** The result is the number of bytes written. *)
Definition pattern_main (fuel : nat) : stm S pattern_stop Z :=
  loop fuel OutOfFuel pattern_step 0.

Definition usage : stm S pattern_stop Z := mthrow Exit1.

(** The program with its arguments; [can_open] says whether the file can be
    opened. *)
Definition pattern_program (fuel : nat) (argv : list (list Z)) (can_open : bool) : stm S pattern_stop Z :=
  match argv with
  | [_; file] => if can_open then pattern_main fuel else usage
  | _ => usage
  end.

(** A turn that writes. *)
Lemma pattern_turn written n s s' :
  written < FILE_SIZE -> write pattern_buf s = (inr n, s') -> n <> - 1 -> 0 <= written + n < 2 ^ 31 -> - 2 ^ 31 <= n < 2 ^ 31 ->
  pattern_step written s = (inr (inl (written + n)), s').
Proof.
  intros Hw Hrun Hn Hsum Hr. unfold pattern_step. rewrite (proj2 (Z.ltb_lt _ _)) by done.
  rewrite (bind_ok _ _ _ _ _ Hrun), (proj2 (Z.eqb_neq _ _)) by done. by rewrite (s32_small n), s32_small by lia.
Qed.

Lemma pattern_end written s : FILE_SIZE <= written -> pattern_step written s = (inr (inr written), s).
Proof. intros Hw. unfold pattern_step. by rewrite (proj2 (Z.ltb_ge _ _)). Qed.
End program.

(** A device as an open file: [write] begins at the position and leaves it
    behind what was stored. *)
Definition dev_write (buf : list Z) : stm (device * Z) pattern_stop Z := fun '(d, pos) =>
  let '(n, d') := write_dev d pos buf in (inr n, (d', if n =? - 1 then pos else pos + n)).

(** ** Lemmas *)

Lemma nth_pattern i n : (i < n)%nat -> (n <= 4096)%nat -> nth i (take n pattern_buf) 0 = 53.
Proof.
  intros Hi Hn. unfold pattern_buf. rewrite take_replicate, Nat.min_l by lia.
  revert i Hi. induction n as [|n IH]; intros i Hi; [lia |]. destruct i; [done |]. apply IH; lia.
Qed.

(** The bytes after a write of [n] of them. *)
Lemma pattern_stored data off n a :
  0 <= n <= 4096 ->
  store_bytes data off (take (Z.to_nat n) pattern_buf) a = if decide (off <= a < off + n) then 53 else data a.
Proof.
  intros Hn. unfold store_bytes. rewrite length_take. change (length pattern_buf) with 4096%nat.
  rewrite Nat.min_l by lia. rewrite Z2Nat.id by lia. case_decide as Ha.
  - rewrite (proj2 (Z.leb_le _ _)), (proj2 (Z.ltb_lt _ _)) by lia. simpl. apply nth_pattern; lia.
  - destruct (Z.leb_spec off a), (Z.ltb_spec a (off + n)); simpl; lia || done.
Qed.

(** The pattern writer.  When every write stores at least a byte, the
    program ends with success; it has written at least the 32 MiB and less
    than a buffer more, every byte of that is '5' and no other byte of the
    file changed.  (A write that stores nothing is repeated forever.) *)
Theorem pattern_fills fuel cmd file d :
  (forall off, 1 <= dev_accept d off <= 4096) -> FILE_SIZE < Z.of_nat fuel ->
  exists w d', pattern_program dev_write fuel [cmd; file] true (d, 0) = (inr w, (d', w)) /\
    FILE_SIZE <= w < FILE_SIZE + 4096 /\
    forall a, dev_data d' a = if decide (0 <= a < w) then 53 else dev_data d a.
Proof.
  intros Hacc Hfuel. unfold pattern_program, pattern_main.
  enough (forall n w d1, 0 <= w < FILE_SIZE + 4096 -> Z.max 0 (FILE_SIZE - w) < Z.of_nat n -> dev_accept d1 = dev_accept d ->
    (forall a, dev_data d1 a = if decide (0 <= a < w) then 53 else dev_data d a) ->
    exists w' d', loop n OutOfFuel (pattern_step dev_write) w (d1, w) = (inr w', (d', w')) /\ FILE_SIZE <= w' < FILE_SIZE + 4096 /\
      forall a, dev_data d' a = if decide (0 <= a < w') then 53 else dev_data d a) as Hgen.
  { apply Hgen; [unfold FILE_SIZE; lia | unfold FILE_SIZE in *; lia | done |]. intros a. by rewrite decide_False by lia. }
  induction n as [|n IH]; intros w d1 Hw Hn Ha Hd; [lia |].
  destruct (Z.ltb_spec w FILE_SIZE) as [Hlt | Hge].
  - specialize (Hacc w). rewrite <-Ha in Hacc.
    set (d2 := (write_dev d1 w pattern_buf).2).
    rewrite (loop_next _ _ _ _ (w + dev_accept d1 w) _ (d2, w + dev_accept d1 w)).
    2: { apply pattern_turn; try (unfold FILE_SIZE in *; lia). unfold dev_write, d2, write_dev.
         by rewrite (proj2 (Z.eqb_neq _ _)) by lia. }
    apply IH; [lia | lia | done |].
    intros a. unfold d2, write_dev. cbn [dev_data snd]. rewrite pattern_stored, Hd by lia.
    repeat case_decide; lia || done.
  - exists w, d1. split; [| split; [lia | done]]. by apply loop_done, pattern_end.
Qed.

(** A file that takes a thousand bytes at a time. *)
Definition slow_file : device := mk_device (fun _ => 0) (fun _ => 1000).

Lemma pattern_fills_witness :
  exists w d', pattern_program dev_write (Z.to_nat (FILE_SIZE + 1)) [[119]; [102]] true (slow_file, 0) = (inr w, (d', w)) /\
    FILE_SIZE <= w < FILE_SIZE + 4096 /\ forall a, dev_data d' a = if decide (0 <= a < w) then 53 else 0.
Proof.
  apply (pattern_fills (Z.to_nat (FILE_SIZE + 1)) [119] [102] slow_file).
  - intros off. simpl. lia.
  - rewrite Z2Nat.id by (unfold FILE_SIZE; lia). lia.
Defined.
