(* ===== verification/Mkfs.v ===== *)
(** * mkfs.chunkfs (mkfs.chunkfs.c)

    The program that formats a device: the pool, device and chunk summaries
    it builds and the blocks it writes, in order, with its error exits and
    the lines it prints.  The loop that writes the chunk summaries takes
    fuel; [mkfs_terminates] and [mkfs_image] say how much is enough. *)

From S2P Require Import Prelude Monad Bytes OnDisk Device.

(** ** State *)

(** What the program prints. *)
Inductive line :=
| WritingBlock (magic chksum offset : Z)
| WritingChunk (id start end_ : Z)
| ClientFs (start : Z).

Record mkfs_state := mk_mkfs {
  mk_dev_state : device;
  mk_out : list line;
}.

(** How the program stops early: [error(1, ...)], a buffer overrun of
    [strcpy], or the fuel of the model. *)
Inductive mkfs_stop :=
| ExitFailure
| Overrun
| MkfsNoFuel.

Abbreviation mkfs := (stm mkfs_state mkfs_stop).

Definition print (l : line) : mkfs unit :=
  modify (fun s => mk_mkfs (mk_dev_state s) (mk_out s ++ [l])).

(** [write(fd, buf, n)] at the offset [lseek] has set. *)
Definition write_fd (offset : Z) (buf : list Z) : mkfs Z := fun s =>
  let '(n, d) := write_dev (mk_dev_state s) offset buf in (inr n, mk_mkfs d (mk_out s)).

Section mkfs.
Context `{Host}.

(** [__cpu_to_le*] and [__le*_to_cpu] of <linux/byteorder/little_endian.h>,
    the header this program includes whatever the host. *)
Definition mkfs_cpu_to_le (x : Z) : Z := x.

(** Writes a structure in a zeroed block at [offset]. *)
Definition write_block (metadata : list Z) (offset : Z) : mkfs unit :=
  let buf := metadata ++ zeros (Z.to_nat CHUNKFS_BLK_SIZE - length metadata) in
  let buf := write_chksum mkfs_cpu_to_le buf in
  print (WritingBlock (mkfs_cpu_to_le (x_magic buf)) (mkfs_cpu_to_le (x_chksum buf)) offset);;
  if lseek_fails offset then mthrow ExitFailure
  else
    n ← write_fd offset buf;
    if n <? CHUNKFS_BLK_SIZE then mthrow ExitFailure else mret tt.

Definition zero_desc : chunkfs_dev_desc := mk_dev_desc (zeros CHUNKFS_DEV_PATH_LEN) 0.

Definition zero_pool : chunkfs_pool := mk_pool 0 0 0 zero_desc.

(** [strcpy(d_hint, dev_name)]: the name and its terminator. *)
Definition strcpy_hint (dev_name hint : list Z) : mkfs (list Z) :=
  if decide (length dev_name < CHUNKFS_DEV_PATH_LEN)%nat
  then mret (dev_name ++ 0 :: drop (S (length dev_name)) hint)
  else mthrow Overrun.

(** The device description is filled in first; [bzero] comes after it. *)
Definition create_pool_summary (dev_name : list Z) (pool : chunkfs_pool) : mkfs chunkfs_pool :=
  hint ← strcpy_hint dev_name (dd_hint (p_root_desc pool));
  let pool := mk_pool (p_magic pool) (p_chksum pool) (p_flags pool)
                (mk_dev_desc hint (mkfs_cpu_to_le 0x001d001d)) in
  let pool := zero_pool in
  mret (mk_pool (mkfs_cpu_to_le CHUNKFS_SUPER_MAGIC) (p_chksum pool) (p_flags pool)
          (p_root_desc pool)).

Definition create_dev_summary (pool : chunkfs_pool) (dev_begin dev_size : Z) : chunkfs_dev :=
  let d_end := mkfs_cpu_to_le (u64 (u64 (dev_begin + dev_size) - 1)) in
  let d_innards_begin := mkfs_cpu_to_le (u64 (dev_begin + CHUNKFS_BLK_SIZE)) in
  {| d_magic := mkfs_cpu_to_le CHUNKFS_DEV_MAGIC;
     d_chksum := 0;
     d_flags := 0;
     d_uuid := dd_uuid (p_root_desc pool);
     d_begin := mkfs_cpu_to_le dev_begin;
     d_end := d_end;
     d_innards_begin := d_innards_begin;
     d_innards_end := d_end;
     d_root_chunk := d_innards_begin;
     d_next_dev := zero_desc |}.

Definition create_chunk_summary (chunk_start chunk_size chunk_id : Z) : chunkfs_chunk :=
  let c_end := mkfs_cpu_to_le (u64 (u64 (chunk_start + chunk_size) - 1)) in
  {| c_magic := mkfs_cpu_to_le CHUNKFS_CHUNK_MAGIC;
     c_chksum := 0;
     c_flags := 0;
     c_chunk_id := mkfs_cpu_to_le chunk_id;
     c_begin := mkfs_cpu_to_le chunk_start;
     c_end := c_end;
     c_innards_begin := mkfs_cpu_to_le (u64 (chunk_start + CHUNKFS_BLK_SIZE));
     c_innards_end := c_end;
     c_next_chunk := 0;
     c_client_fs := zeros CHUNKFS_CLIENT_NAME_LEN |}.

Definition set_flags_next (chunk : chunkfs_chunk) (flags next : Z) : chunkfs_chunk :=
  mk_chunk (c_magic chunk) (c_chksum chunk) flags (c_chunk_id chunk) (c_begin chunk)
    (c_end chunk) (c_innards_begin chunk) (c_innards_end chunk) next (c_client_fs chunk).

(** The structure one iteration of the loop writes. *)
Definition chunk_summary (dev_end chunk_id chunk_start : Z) : chunkfs_chunk :=
  let chunk_size := CHUNKFS_CHUNK_SIZE in
  let chunk := create_chunk_summary chunk_start chunk_size chunk_id in
  let flags := if chunk_id =? 1 then Z.lor (c_flags chunk) (mkfs_cpu_to_le CHUNKFS_ROOT)
               else c_flags chunk in
  let next := if u64 (u64 (mkfs_cpu_to_le (c_end chunk) + chunk_size) - 1) <? dev_end
              then mkfs_cpu_to_le (u64 (c_end chunk + 1)) else c_next_chunk chunk in
  set_flags_next chunk flags next.

(** One test and body of the loop over the chunks; the loop variables are
    [chunk_id] and [chunk_start]. *)
Definition write_chunk_step (dev_end : Z) (v : Z * Z) : mkfs (Z * Z + unit) :=
  let '(chunk_id, chunk_start) := v in
  let chunk_size := CHUNKFS_CHUNK_SIZE in
  if u64 (u64 (chunk_start + chunk_size) - 1) <? dev_end then
    let chunk := chunk_summary dev_end chunk_id chunk_start in
    print (WritingChunk (mkfs_cpu_to_le (c_chunk_id chunk)) (mkfs_cpu_to_le (c_begin chunk))
             (mkfs_cpu_to_le (c_end chunk)));;
    print (ClientFs (mkfs_cpu_to_le (c_innards_begin chunk)));;
    write_block (chunk_to_mem chunk) chunk_start;;
    mret (inl (u64 (chunk_id + 1), u64 (chunk_start + chunk_size)))
  else mret (inr tt).

Definition write_chunk_summaries (fuel : nat) (dev : chunkfs_dev) : mkfs unit :=
  loop fuel MkfsNoFuel (write_chunk_step (mkfs_cpu_to_le (d_end dev)))
    (1, mkfs_cpu_to_le (d_root_chunk dev)).

(** [main] once the device is open and [fstat] has returned its size. *)
Definition mkfs_main (fuel : nat) (dev_name : list Z) (raw_dev_size : Z) : mkfs unit :=
  pool ← create_pool_summary dev_name zero_pool;
  write_block (pool_to_mem pool) CHUNKFS_POOL_OFFSET;;
  let root_dev := create_dev_summary pool CHUNKFS_DEV_OFFSET
                    (u64 (s64 (s64 (raw_dev_size - CHUNKFS_DEV_OFFSET) - 1))) in
  write_block (dev_to_mem root_dev) CHUNKFS_DEV_OFFSET;;
  write_chunk_summaries fuel root_dev.

Definition usage : mkfs unit := mthrow ExitFailure.

(** What [open] and [fstat] answer for a path. *)
Inductive opened := OpenFails | StatFails | IsOpen (st_size : Z).

(** The program with its arguments. *)
Definition mkfs_program (fuel : nat) (argv : list (list Z)) (sys : list Z -> opened) : mkfs unit :=
  match argv with
  | [_; dev_name] =>
      match sys dev_name with
      | OpenFails | StatFails => mthrow ExitFailure
      | IsOpen raw_dev_size => mkfs_main fuel dev_name raw_dev_size
      end
  | _ => usage
  end.
End mkfs.
