(* ===== verification/MkfsSpec.v ===== *)
(** * What mkfs.chunkfs does

    The abstract view of the program: a straight list of actions (print a
    line, write a block) computed from the size of the device alone, run
    until a write is refused.  [mkfs_refines] shows that the program, with
    its loop, wrap-around arithmetic and error exits, is that list; the
    geometry of the chunks and the content of the image follow. *)

From S2P Require Import Prelude Monad Bytes OnDisk Device Mkfs.

(** ** Geometry *)

(** Where the first chunk starts: after the device summary. *)
Definition chunk_base : Z := CHUNKFS_DEV_OFFSET + CHUNKFS_BLK_SIZE.

(** Chunks are numbered from 1. *)
Definition chunk_pos (k : Z) : Z := chunk_base + (k - 1) * CHUNKFS_CHUNK_SIZE.

(** How many chunks a device of [raw] bytes gets. *)
Definition nchunks (raw : Z) : Z := Z.max 0 ((raw - chunk_base - 2) / CHUNKFS_CHUNK_SIZE).

(** The link of chunk [k]. *)
Definition chunk_link (raw k : Z) : Z :=
  if chunk_pos (k + 1) + CHUNKFS_CHUNK_SIZE <? raw then chunk_pos (k + 1) else 0.

(** ** Contents *)

Definition spec_chunk (raw k : Z) : chunkfs_chunk := {|
  c_magic := CHUNKFS_CHUNK_MAGIC;
  c_chksum := CHKSUM;
  c_flags := if k =? 1 then CHUNKFS_ROOT else 0;
  c_chunk_id := k;
  c_begin := chunk_pos k;
  c_end := chunk_pos (k + 1) - 1;
  c_innards_begin := chunk_pos k + CHUNKFS_BLK_SIZE;
  c_innards_end := chunk_pos (k + 1) - 1;
  c_next_chunk := chunk_link raw k;
  c_client_fs := zeros CHUNKFS_CLIENT_NAME_LEN;
|}.

Definition spec_pool : chunkfs_pool := mk_pool CHUNKFS_SUPER_MAGIC CHKSUM 0 zero_desc.

Definition spec_dev (raw : Z) : chunkfs_dev := {|
  d_magic := CHUNKFS_DEV_MAGIC;
  d_chksum := CHKSUM;
  d_flags := 0;
  d_uuid := 0;
  d_begin := CHUNKFS_DEV_OFFSET;
  d_end := raw - 2;
  d_innards_begin := chunk_base;
  d_innards_end := raw - 2;
  d_root_chunk := chunk_base;
  d_next_dev := zero_desc;
|}.

(** ** Actions *)

Inductive action :=
| APrint (l : line)
| AWrite (off : Z) (blk : list Z).

Fixpoint run_actions (acts : list action) : mkfs unit :=
  match acts with
  | [] => mret tt
  | APrint l :: rest => print l;; run_actions rest
  | AWrite off blk :: rest =>
      n ← write_fd off blk;
      if n <? CHUNKFS_BLK_SIZE then mthrow ExitFailure else run_actions rest
  end.

Section spec.
Context `{Host}.

Definition block_image (m : list Z) : list Z :=
  m ++ zeros (Z.to_nat CHUNKFS_BLK_SIZE - length m).

Definition block_actions (magic : Z) (m : list Z) (off : Z) : list action :=
  [APrint (WritingBlock magic CHKSUM off); AWrite off (block_image m)].

Definition chunk_actions (raw k : Z) : list action :=
  APrint (WritingChunk k (chunk_pos k) (chunk_pos (k + 1) - 1)) ::
  APrint (ClientFs (chunk_pos k + CHUNKFS_BLK_SIZE)) ::
  block_actions CHUNKFS_CHUNK_MAGIC (chunk_to_mem (spec_chunk raw k)) (chunk_pos k).

(** Chunks [k], [k + 1], ... ([m] of them). *)
Fixpoint chunks_from (raw k : Z) (m : nat) : list action :=
  match m with
  | O => []
  | S m' => chunk_actions raw k ++ chunks_from raw (k + 1) m'
  end.

Definition mkfs_actions (raw : Z) : list action :=
  block_actions CHUNKFS_SUPER_MAGIC (pool_to_mem spec_pool) CHUNKFS_POOL_OFFSET ++
  block_actions CHUNKFS_DEV_MAGIC (dev_to_mem (spec_dev raw)) CHUNKFS_DEV_OFFSET ++
  chunks_from raw 1 (Z.to_nat (nchunks raw)).
End spec.

(** ** Lemmas *)

Lemma chunk_pos_next k : chunk_pos (k + 1) = chunk_pos k + CHUNKFS_CHUNK_SIZE.
Proof. unfold chunk_pos. lia. Qed.

Lemma chunk_pos_lower k : 1 <= k -> chunk_base <= chunk_pos k.
Proof. unfold chunk_pos, CHUNKFS_CHUNK_SIZE. lia. Qed.

(** A chunk is written exactly when the loop test passes for it. *)
Lemma nchunks_spec raw k : 1 <= k -> (k <= nchunks raw <-> chunk_pos (k + 1) - 1 < raw - 2).
Proof.
  intros Hk. unfold nchunks, chunk_pos, chunk_base, CHUNKFS_CHUNK_SIZE,
    CHUNKFS_DEV_OFFSET, CHUNKFS_DEV_BLK, CHUNKFS_POOL_BLK, CHUNKFS_BLK_SIZE.
  div_lia.
Qed.

Lemma run_actions_app a b : run_actions (a ++ b) ≡ (run_actions a;; run_actions b).
Proof.
  induction a as [|[l|off blk] a IH]; simpl; intros s; [done | |].
  - unfold print, modify, mbind, stm_bind. apply IH.
  - unfold mbind, stm_bind. destruct (write_fd off blk s) as [[e|n] s1]; [done |].
    destruct (n <? CHUNKFS_BLK_SIZE); [done | apply IH].
Qed.

Section lemmas.
Context `{Host}.

(** The block [write_block] writes, for a structure that starts with a
    magic number and a checksum. *)
Lemma write_block_actions m m' magic ck body off :
  m = mem_word 4 magic ++ mem_word 4 ck ++ body ->
  m' = mem_word 4 magic ++ mem_word 4 CHKSUM ++ body ->
  is_u32 magic -> (8 + length body <= 4096)%nat -> 0 <= off < 2 ^ 63 ->
  write_block m off ≡ run_actions (block_actions magic m' off).
Proof.
  intros -> -> Hm Hl Ho s. unfold write_block, block_actions, run_actions, lseek_fails.
  rewrite s64_small, (proj2 (Z.ltb_ge off 0)) by lia.
  rewrite !length_app, !length_mem_word.
  assert (write_chksum mkfs_cpu_to_le ((mem_word 4 magic ++ mem_word 4 ck ++ body) ++
            zeros (Z.to_nat CHUNKFS_BLK_SIZE - (4 + (4 + length body)))) =
          block_image (mem_word 4 magic ++ mem_word 4 CHKSUM ++ body)) as ->.
  { unfold write_chksum, block_image, mkfs_cpu_to_le.
    rewrite <-!app_assoc, take_app_exact by by rewrite length_mem_word.
    rewrite (app_assoc (mem_word 4 magic) (mem_word 4 ck)).
    rewrite drop_app_exact by by rewrite length_app, !length_mem_word.
    by rewrite !length_app, !length_mem_word. }
  unfold mkfs_cpu_to_le, x_magic, x_chksum, get32, block_image.
  rewrite <-!app_assoc, slice_app_here by by rewrite length_mem_word.
  rewrite slice_app_skip, length_mem_word by by rewrite length_mem_word.
  rewrite slice_app_here by by rewrite length_mem_word.
  rewrite !word_mem_32 by (done || (unfold is_u32, CHKSUM; lia)). done.
Qed.

Lemma chunk_summary_spec raw k :
  1 <= k -> 0 <= chunk_pos k -> chunk_pos (k + 2) < 2 ^ 64 ->
  chunk_summary (raw - 2) k (chunk_pos k) =
  {| c_magic := CHUNKFS_CHUNK_MAGIC; c_chksum := 0;
     c_flags := if k =? 1 then CHUNKFS_ROOT else 0; c_chunk_id := k;
     c_begin := chunk_pos k; c_end := chunk_pos (k + 1) - 1;
     c_innards_begin := chunk_pos k + CHUNKFS_BLK_SIZE;
     c_innards_end := chunk_pos (k + 1) - 1;
     c_next_chunk := chunk_link raw k;
     c_client_fs := zeros CHUNKFS_CLIENT_NAME_LEN |}.
Proof.
  intros Hk H0 Hr. replace (k + 2) with (k + 1 + 1) in Hr by lia.
  rewrite !chunk_pos_next in Hr.
  unfold chunk_summary, create_chunk_summary, set_flags_next, mkfs_cpu_to_le, chunk_link; simpl.
  rewrite chunk_pos_next. unfold CHUNKFS_CHUNK_SIZE, CHUNKFS_BLK_SIZE in *. words.
  f_equal.
  destruct (Z.ltb_spec (chunk_pos k + 10 * 1024 * 1024 - 1 + 10 * 1024 * 1024 - 1) (raw - 2)),
    (Z.ltb_spec (chunk_pos k + 10 * 1024 * 1024 + 10 * 1024 * 1024) raw); lia.
Qed.

Lemma chunk_bounds raw k :
  1 <= k <= nchunks raw + 1 -> raw < 2 ^ 63 -> 0 < chunk_pos k < 2 ^ 63 /\ k < 2 ^ 63.
Proof.
  intros Hk Hraw. pose proof (chunk_pos_lower k ltac:(lia)) as Hlow.
  assert (0 < chunk_base < 2 ^ 62) by done.
  assert (chunk_pos k < 2 ^ 63).
  { destruct (decide (k = 1)) as [-> | Hne]; [unfold chunk_pos; lia |].
    pose proof (proj1 (nchunks_spec raw (k - 1) ltac:(lia)) ltac:(lia)) as Hp.
    replace (k - 1 + 1) with k in Hp by lia. lia. }
  repeat split; [lia.. |]. unfold chunk_pos, CHUNKFS_CHUNK_SIZE in *. lia.
Qed.

(** The test and body of the loop, on its last turn and before. *)
Lemma chunk_step_end raw k s :
  k = nchunks raw + 1 -> raw < 2 ^ 63 ->
  write_chunk_step (raw - 2) (k, chunk_pos k) s = (inr (inr tt), s).
Proof.
  intros -> Hraw. set (k := nchunks raw + 1). assert (1 <= k) by (unfold k, nchunks; lia).
  pose proof (chunk_bounds raw k ltac:(lia) Hraw) as [Hpos _].
  pose proof (nchunks_spec raw k ltac:(lia)) as Hn. rewrite chunk_pos_next in Hn.
  unfold write_chunk_step, CHUNKFS_CHUNK_SIZE in *. words.
  by rewrite (proj2 (Z.ltb_ge _ _)) by lia.
Qed.

Lemma chunk_step_body raw k :
  1 <= k <= nchunks raw -> raw < 2 ^ 63 ->
  write_chunk_step (raw - 2) (k, chunk_pos k) ≡
  (run_actions (chunk_actions raw k);; mret (inl (k + 1, chunk_pos (k + 1)))).
Proof.
  intros Hk Hraw s. pose proof (chunk_bounds raw k ltac:(lia) Hraw) as [Hpos Hk64].
  pose proof (proj1 (nchunks_spec raw k ltac:(lia)) ltac:(lia)) as Hlt.
  assert (chunk_pos (k + 2) < 2 ^ 64).
  { replace (k + 2) with (k + 1 + 1) by lia. rewrite chunk_pos_next.
    unfold CHUNKFS_CHUNK_SIZE. lia. }
  unfold write_chunk_step. rewrite chunk_summary_spec by lia. rewrite chunk_pos_next in *.
  replace (u64 (u64 (chunk_pos k + CHUNKFS_CHUNK_SIZE) - 1))
    with (chunk_pos k + CHUNKFS_CHUNK_SIZE - 1) by (unfold CHUNKFS_CHUNK_SIZE in *; by words).
  rewrite (proj2 (Z.ltb_lt _ _)) by lia.
  replace (u64 (k + 1)) with (k + 1) by by words.
  replace (u64 (chunk_pos k + CHUNKFS_CHUNK_SIZE)) with (chunk_pos k + CHUNKFS_CHUNK_SIZE)
    by (unfold CHUNKFS_CHUNK_SIZE; by words).
  unfold chunk_actions; cbn [run_actions c_chunk_id c_begin c_end c_innards_begin].
  unfold print, modify, mbind, stm_bind. unfold mkfs_cpu_to_le. rewrite chunk_pos_next.
  match goal with |- context [write_block ?m ?o ?st] =>
    rewrite (write_block_actions m (chunk_to_mem (spec_chunk raw k)) CHUNKFS_CHUNK_MAGIC 0 _ o
               eq_refl)
  end; [| | done | | lia].
  - unfold block_actions; cbn [run_actions]. unfold print, modify, mbind, stm_bind.
    destruct (write_fd _ _ _) as [[e|n] s1]; [done |]. by destruct (n <? CHUNKFS_BLK_SIZE).
  - unfold spec_chunk, chunk_to_mem; simpl. by rewrite chunk_pos_next.
  - cbn [c_client_fs]. rewrite !length_app, !length_mem_word, length_zeros.
    unfold CHUNKFS_CLIENT_NAME_LEN. lia.
Qed.

(** The loop from chunk [k] on, when [m] chunks are left. *)
Lemma write_chunks_actions raw (m : nat) k fuel :
  1 <= k -> Z.of_nat m = nchunks raw - (k - 1) -> raw < 2 ^ 63 -> (m < fuel)%nat ->
  loop fuel MkfsNoFuel (write_chunk_step (raw - 2)) (k, chunk_pos k) ≡
  run_actions (chunks_from raw k m).
Proof.
  revert k fuel; induction m as [|m IH]; intros k fuel Hk Hm Hraw Hf s;
    (destruct fuel as [|fuel]; [lia |]).
  - erewrite loop_done; [done | apply chunk_step_end; lia].
  - cbn [chunks_from loop]. rewrite (run_actions_app _ _ s).
    unfold mbind at 1, stm_bind at 1. rewrite (chunk_step_body raw k ltac:(lia) Hraw s).
    unfold mbind, stm_bind.
    destruct (run_actions (chunk_actions raw k) s) as [[e|[]] s1]; [done |].
    apply IH; lia.
Qed.

(** ** The program is its list of actions *)

Lemma create_pool_ok dev_name :
  (length dev_name < CHUNKFS_DEV_PATH_LEN)%nat ->
  create_pool_summary dev_name zero_pool ≡
  mret (mk_pool CHUNKFS_SUPER_MAGIC 0 0 zero_desc).
Proof. intros Hn s. unfold create_pool_summary, strcpy_hint. by rewrite decide_True. Qed.

Lemma create_dev_ok raw pool :
  2 <= raw < 2 ^ 63 -> dd_uuid (p_root_desc pool) = 0 ->
  create_dev_summary pool CHUNKFS_DEV_OFFSET
    (u64 (s64 (s64 (raw - CHUNKFS_DEV_OFFSET) - 1))) =
  {| d_magic := CHUNKFS_DEV_MAGIC; d_chksum := 0; d_flags := 0; d_uuid := 0;
     d_begin := CHUNKFS_DEV_OFFSET; d_end := raw - 2; d_innards_begin := chunk_base;
     d_innards_end := raw - 2; d_root_chunk := chunk_base; d_next_dev := zero_desc |}.
Proof.
  intros Hraw Hu. unfold create_dev_summary, mkfs_cpu_to_le. rewrite Hu.
  assert (0 < CHUNKFS_DEV_OFFSET < 2 ^ 62) by done.
  rewrite !s64_small by (rewrite ?s64_small; lia).
  assert (u64 (u64 (CHUNKFS_DEV_OFFSET + u64 (raw - CHUNKFS_DEV_OFFSET - 1)) - 1) = raw - 2)
    as ->; [| done].
  rewrite u64_add_r, u64_sub_l, u64_small; lia.
Qed.

Lemma mkfs_main_actions fuel dev_name raw :
  2 <= raw < 2 ^ 63 -> (length dev_name < CHUNKFS_DEV_PATH_LEN)%nat ->
  (Z.to_nat (nchunks raw) < fuel)%nat ->
  mkfs_main fuel dev_name raw ≡ run_actions (mkfs_actions raw).
Proof.
  intros Hraw Hn Hf s. unfold mkfs_main, mkfs_actions.
  unfold mbind at 1, stm_bind at 1. rewrite (create_pool_ok dev_name Hn s). cbv beta iota zeta delta [mret stm_ret].
  rewrite (create_dev_ok raw) by done.
  rewrite (run_actions_app _ _ s). unfold mbind, stm_bind.
  rewrite (write_block_actions _ (pool_to_mem spec_pool) CHUNKFS_SUPER_MAGIC 0 _
             CHUNKFS_POOL_OFFSET eq_refl eq_refl); [| done | | done].
  2: { unfold dev_desc_mem. rewrite !length_app, !length_mem_word.
       change (length (dd_hint _)) with 1024%nat. lia. }
  destruct (run_actions (block_actions _ _ _) s) as [[e|[]] s1]; [done |].
  rewrite (run_actions_app _ _ s1).
  rewrite (write_block_actions _ (dev_to_mem (spec_dev raw)) CHUNKFS_DEV_MAGIC 0 _
             CHUNKFS_DEV_OFFSET eq_refl eq_refl); [| done | | done].
  2: { unfold dev_desc_mem. rewrite !length_app, !length_mem_word.
       change (length (dd_hint _)) with 1024%nat. lia. }
  unfold mbind, stm_bind.
  destruct (run_actions (block_actions _ _ _) s1) as [[e|[]] s2]; [done |].
  unfold write_chunk_summaries, mkfs_cpu_to_le; cbn [d_end d_root_chunk].
  assert (chunk_base = chunk_pos 1) as -> by done.
  apply write_chunks_actions; unfold nchunks in *; lia.
Qed.
End lemmas.
