(* ===== verification/MkfsProps.v ===== *)
(** * Properties of mkfs.chunkfs

    Consequences of the refinement of MkfsSpec: when the program succeeds,
    the image it leaves, the geometry of the chunks, and the sizes it cannot
    format. *)

From S2P Require Import Prelude Monad Bytes OnDisk Device Mkfs MkfsSpec.

(** The blocks a list of actions writes, with their offsets. *)
Definition writes_of (acts : list action) : list (Z * list Z) :=
  omap (fun a => match a with AWrite off blk => Some (off, blk) | APrint _ => None end) acts.

(** The store after the blocks are written in order. *)
Definition apply_blocks (data : Z -> Z) (blocks : list (Z * list Z)) : Z -> Z :=
  foldl (fun d b => store_bytes d b.1 b.2) data blocks.

(** The system stores the whole block at this offset. *)
Definition accepts (d : device) (off : Z) : Prop := dev_accept d off = CHUNKFS_BLK_SIZE.

Definition accepts_all (d : device) (blocks : list (Z * list Z)) : Prop :=
  Forall (fun b => accepts d b.1 /\ Z.of_nat (length b.2) = CHUNKFS_BLK_SIZE) blocks.

(** ** Running actions *)

Lemma run_actions_accepted acts d out :
  accepts_all d (writes_of acts) ->
  exists out', run_actions acts (mk_mkfs d out) =
    (inr tt, mk_mkfs (mk_device (apply_blocks (dev_data d) (writes_of acts)) (dev_accept d)) out').
Proof.
  revert d out; induction acts as [|[l|off blk] acts IH]; intros d out Hacc; simpl.
  - exists out. by destruct d.
  - unfold print, modify, mbind, stm_bind; simpl. apply IH, Hacc.
  - unfold accepts_all in *; simpl in Hacc. rewrite list.Forall_cons in Hacc.
    destruct Hacc as [[Ha Hl] Hacc]. unfold accepts in Ha. simpl in *.
    unfold mbind, stm_bind, write_fd, write_dev; simpl. rewrite Ha.
    rewrite (Z.ltb_irrefl CHUNKFS_BLK_SIZE).
    rewrite take_ge by (unfold CHUNKFS_BLK_SIZE in *; lia).
    apply (IH (mk_device (store_bytes (dev_data d) off blk) (dev_accept d))), Hacc.
Qed.

Lemma run_actions_success acts s :
  (forall off, dev_accept (mk_dev_state s) off <= CHUNKFS_BLK_SIZE) ->
  (run_actions acts s).1 = inr tt <-> Forall (fun b => accepts (mk_dev_state s) b.1) (writes_of acts).
Proof.
  revert s; induction acts as [|[l|off blk] acts IH]; intros s Hmax; simpl.
  - split; [constructor | done].
  - unfold print, modify, mbind, stm_bind; simpl. apply (IH (mk_mkfs _ _)), Hmax.
  - unfold mbind, stm_bind, write_fd, write_dev; simpl. rewrite list.Forall_cons; unfold accepts at 1.
    pose proof (Hmax off).
    destruct (Z.ltb_spec (dev_accept (mk_dev_state s) off) CHUNKFS_BLK_SIZE); simpl.
    + split; [done | intros [? _]; unfold accepts in *; simpl in *; lia].
    + rewrite IH by done. simpl. split; [intros ?; split; [lia | done] | by intros [_ ?]].
Qed.

Lemma writes_of_app a b : writes_of (a ++ b) = writes_of a ++ writes_of b.
Proof. apply omap_app. Qed.

(** ** Blocks at distinct places *)

(** Every block is a whole block and ends before the next begins. *)
Fixpoint ascending (lo : Z) (blocks : list (Z * list Z)) : Prop :=
  match blocks with
  | [] => True
  | (off, blk) :: rest =>
      lo <= off /\ Z.of_nat (length blk) = CHUNKFS_BLK_SIZE /\ ascending (off + CHUNKFS_BLK_SIZE) rest
  end.

Lemma ascending_mono lo lo' blocks : lo' <= lo -> ascending lo blocks -> ascending lo' blocks.
Proof. destruct blocks as [|[off blk] rest]; simpl; [done |]. intros ? (? & ? & ?). split_and!; lia || done. Qed.

Lemma ascending_lower lo blocks off blk :
  ascending lo blocks -> (off, blk) ∈ blocks -> lo <= off /\ Z.of_nat (length blk) = CHUNKFS_BLK_SIZE.
Proof.
  revert lo; induction blocks as [|[o b] rest IH]; intros lo; simpl; [by intros _ ?%not_elem_of_nil |].
  intros (Hlo & Hl & Hrest) [[= -> ->] | Hin]%elem_of_cons; [done |].
  destruct (IH _ Hrest Hin). unfold CHUNKFS_BLK_SIZE in *. split; lia.
Qed.

Lemma apply_blocks_below data blocks lo a :
  ascending lo blocks -> a < lo -> apply_blocks data blocks a = data a.
Proof.
  revert data lo; induction blocks as [|[o b] rest IH]; intros data lo; simpl; [done |].
  intros (Hlo & Hl & Hrest) Ha. unfold apply_blocks in *; simpl.
  rewrite (IH _ _ Hrest) by (unfold CHUNKFS_BLK_SIZE; lia).
  unfold store_bytes. destruct (Z.leb_spec o a); [lia | done].
Qed.

(** A block of an ascending list is what is read at its place. *)
Lemma apply_blocks_read data blocks lo off blk :
  ascending lo blocks -> (off, blk) ∈ blocks ->
  read_bytes (apply_blocks data blocks) off (length blk) = blk.
Proof.
  revert data lo; induction blocks as [|[o b] rest IH]; intros data lo; simpl;
    [by intros _ ?%not_elem_of_nil |].
  intros (Hlo & Hl & Hrest) [[= -> ->] | Hin]%elem_of_cons; [| by eapply IH].
  transitivity (read_bytes (store_bytes data o b) o (length b)); [| apply read_store_same].
  unfold apply_blocks; simpl. apply read_bytes_ext. intros a Ha.
  apply (apply_blocks_below _ rest (o + CHUNKFS_BLK_SIZE)); [done | lia].
Qed.

(** Bytes outside all the blocks keep their value. *)
Lemma apply_blocks_outside data blocks a :
  (forall off blk, (off, blk) ∈ blocks -> ~ (off <= a < off + Z.of_nat (length blk))) ->
  apply_blocks data blocks a = data a.
Proof.
  revert data; induction blocks as [|[o b] rest IH]; intros data Hout; [done |].
  unfold apply_blocks in *; simpl. rewrite IH by (intros ?? Hin; apply Hout; by right).
  specialize (Hout o b ltac:(by left)). unfold store_bytes.
  destruct (Z.leb_spec o a), (Z.ltb_spec a (o + Z.of_nat (length b))); simpl; lia || done.
Qed.

Section props.
Context `{Host}.

(** ** The blocks of the image *)

Definition chunk_blocks (raw k : Z) (m : nat) : list (Z * list Z) :=
  writes_of (chunks_from raw k m).

Definition mkfs_blocks (raw : Z) : list (Z * list Z) := writes_of (mkfs_actions raw).

Lemma length_block_image m :
  (length m <= 4096)%nat -> Z.of_nat (length (block_image m)) = CHUNKFS_BLK_SIZE.
Proof.
  intros Hm. unfold block_image. rewrite length_app, length_zeros.
  unfold CHUNKFS_BLK_SIZE in *. lia.
Qed.

Lemma zero_desc_typed : dev_desc_typed zero_desc.
Proof.
  split_and!; [done | apply zeros_u8 | unfold is_u64; simpl; lia].
Qed.

Lemma spec_pool_typed : typed spec_pool.
Proof. split_and!; [by compute.. | apply zero_desc_typed]. Qed.

Lemma spec_dev_typed raw : 2 <= raw < 2 ^ 63 -> typed (spec_dev raw).
Proof.
  intros Hraw. split_and!; try apply zero_desc_typed;
    unfold is_u32, is_u64; cbn; lia || done.
Qed.

Lemma spec_chunk_typed raw k :
  1 <= k <= nchunks raw -> raw < 2 ^ 63 -> typed (spec_chunk raw k).
Proof.
  intros Hk Hraw. destruct (chunk_bounds raw k) as [[H1 H2] H3]; [lia.. |].
  destruct (chunk_bounds raw (k + 1)) as [[H4 H5] _]; [lia.. |].
  rewrite chunk_pos_next in *. unfold CHUNKFS_CHUNK_SIZE in *.
  split_and!; [..| done | apply zeros_u8]; unfold is_u32, is_u64;
    cbn [c_magic c_chksum c_flags c_chunk_id c_begin c_end c_innards_begin c_innards_end
         c_next_chunk spec_chunk];
    rewrite ?chunk_pos_next; unfold CHUNKFS_CHUNK_MAGIC, CHKSUM, CHUNKFS_CHUNK_SIZE,
      CHUNKFS_BLK_SIZE; try lia.
  - by destruct (k =? 1).
  - unfold chunk_link. rewrite chunk_pos_next. unfold CHUNKFS_CHUNK_SIZE.
    destruct (_ <? _); lia.
Qed.

Lemma chunk_blocks_ascending raw k m :
  ascending (chunk_pos k) (chunk_blocks raw k m).
Proof.
  revert k; induction m as [|m IH]; intros k; [done |].
  split_and!; [lia | |].
  - apply length_block_image. unfold chunk_to_mem.
    rewrite !length_app, !length_mem_word. change (length (c_client_fs _)) with 32%nat. lia.
  - apply (ascending_mono (chunk_pos (k + 1))); [| apply IH].
    rewrite chunk_pos_next. unfold CHUNKFS_BLK_SIZE, CHUNKFS_CHUNK_SIZE. lia.
Qed.

Lemma desc_mem_length x : length (dd_hint x) = 1024%nat -> length (dev_desc_mem x) = 1032%nat.
Proof. intros Hx. unfold dev_desc_mem. by rewrite length_app, length_mem_word, Hx. Qed.

Lemma mkfs_blocks_ascending raw : ascending 0 (mkfs_blocks raw).
Proof.
  unfold mkfs_blocks, mkfs_actions. rewrite !writes_of_app.
  split; [done | split; [| split; [done | split]]].
  - apply length_block_image. unfold pool_to_mem.
    rewrite !length_app, !length_mem_word, desc_mem_length by done. lia.
  - apply length_block_image. unfold dev_to_mem.
    rewrite !length_app, !length_mem_word, desc_mem_length by done. lia.
  - apply (chunk_blocks_ascending raw 1).
Qed.

Lemma chunk_block_in raw j k m :
  k <= j < k + Z.of_nat m ->
  (chunk_pos j, block_image (chunk_to_mem (spec_chunk raw j))) ∈ chunk_blocks raw k m.
Proof.
  revert k; induction m as [|m IH]; intros k Hj; [lia |].
  unfold chunk_blocks in *.
  change (chunks_from raw k (S m)) with (chunk_actions raw k ++ chunks_from raw (k + 1) m).
  rewrite writes_of_app, elem_of_app.
  destruct (decide (j = k)) as [-> |]; [left; by left | right; apply IH; lia].
Qed.

Lemma block_at_read data off n :
  off mod CHUNKFS_BLK_SIZE = 0 -> Z.of_nat n = CHUNKFS_BLK_SIZE ->
  block_at data (off / CHUNKFS_BLK_SIZE) = read_bytes data off n.
Proof.
  intros Hm Hn. unfold block_at. f_equal; [| lia].
  pose proof (Z.div_mod off CHUNKFS_BLK_SIZE ltac:(done)). lia.
Qed.

Lemma chunk_pos_aligned k : chunk_pos k mod CHUNKFS_BLK_SIZE = 0.
Proof.
  unfold chunk_pos, chunk_base, CHUNKFS_DEV_OFFSET, CHUNKFS_DEV_BLK, CHUNKFS_POOL_BLK,
    CHUNKFS_CHUNK_SIZE, CHUNKFS_BLK_SIZE. div_lia.
Qed.
End props.

(** A device that holds the image of a file system of [raw] bytes. *)
Record formatted `{Host} (data : Z -> Z) (raw : Z) : Prop := {
  fmt_pool : block_at data CHUNKFS_POOL_BLK = block_image (pool_to_mem spec_pool);
  fmt_dev : block_at data CHUNKFS_DEV_BLK = block_image (dev_to_mem (spec_dev raw));
  fmt_chunk k : 1 <= k <= nchunks raw ->
    block_at data (chunk_pos k / CHUNKFS_BLK_SIZE) = block_image (chunk_to_mem (spec_chunk raw k));
}.

Section theorems.
Context `{Host}.

Lemma mkfs_blocks_formatted data raw :
  2 <= raw < 2 ^ 63 -> formatted (apply_blocks data (mkfs_blocks raw)) raw.
Proof.
  intros Hraw. pose proof (mkfs_blocks_ascending raw) as Hasc.
  assert (forall off blk, (off, blk) ∈ mkfs_blocks raw -> off mod CHUNKFS_BLK_SIZE = 0 ->
    block_at (apply_blocks data (mkfs_blocks raw)) (off / CHUNKFS_BLK_SIZE) = blk) as Hread.
  { intros off blk Hin Hal. destruct (ascending_lower _ _ _ _ Hasc Hin) as [_ Hl].
    rewrite (block_at_read _ _ (length blk)) by done. by eapply apply_blocks_read. }
  unfold mkfs_blocks, mkfs_actions in *. rewrite !writes_of_app in *. split.
  - apply (Hread CHUNKFS_POOL_OFFSET); [left | done].
  - apply (Hread CHUNKFS_DEV_OFFSET); [right; left | done].
  - intros k Hk. apply Hread; [right; right | apply chunk_pos_aligned].
    apply (chunk_block_in raw k 1). lia.
Qed.

Lemma accepted_blocks d raw :
  Forall (fun b => accepts d b.1) (mkfs_blocks raw) -> accepts_all d (mkfs_blocks raw).
Proof.
  intros Hacc. unfold accepts_all. rewrite Forall_forall in *. intros [off blk] Hin. split.
  - by apply (Hacc (off, blk)).
  - apply (ascending_lower 0 (mkfs_blocks raw) off blk);
      [apply mkfs_blocks_ascending | done].
Qed.

(** C1: on a device of [raw] bytes whose system stores every block, mkfs
    exits with success and leaves a formatted image: the pool, device and
    chunk summaries are at their places with their contents, and every byte
    outside the blocks of the summaries keeps its value. *)
Theorem mkfs_image fuel dev_name raw d out :
  2 <= raw < 2 ^ 63 -> (length dev_name < CHUNKFS_DEV_PATH_LEN)%nat ->
  (Z.to_nat (nchunks raw) < fuel)%nat ->
  Forall (fun b => accepts d b.1) (mkfs_blocks raw) ->
  exists data' out',
    mkfs_main fuel dev_name raw (mk_mkfs d out) =
      (inr tt, mk_mkfs (mk_device data' (dev_accept d)) out') /\
    formatted data' raw /\
    forall a, (forall off blk, (off, blk) ∈ mkfs_blocks raw -> ~ off <= a < off + CHUNKFS_BLK_SIZE) ->
         data' a = dev_data d a.
Proof.
  intros Hraw Hn Hf Hacc.
  destruct (run_actions_accepted (mkfs_actions raw) d out) as [out' Hrun];
    [by apply accepted_blocks |].
  exists (apply_blocks (dev_data d) (mkfs_blocks raw)), out'. split_and!.
  - rewrite (mkfs_main_actions _ _ raw Hraw Hn Hf _). apply Hrun.
  - by apply mkfs_blocks_formatted.
  - intros a Ha. apply apply_blocks_outside. intros off blk Hin.
    destruct (ascending_lower _ _ _ _ (mkfs_blocks_ascending raw) Hin) as [_ ->]. by apply (Ha _ blk).
Qed.

(** C2: mkfs exits with success exactly when it gets one argument, the device
    can be opened and the system stores every block it writes; anything else,
    a refused block anywhere included, is an error exit. *)
Theorem mkfs_success_iff fuel argv sys s :
  (forall cmd dev_name raw, argv = [cmd; dev_name] -> sys dev_name = IsOpen raw ->
     2 <= raw < 2 ^ 63 /\ (length dev_name < CHUNKFS_DEV_PATH_LEN)%nat /\ (Z.to_nat (nchunks raw) < fuel)%nat) ->
  (forall off, dev_accept (mk_dev_state s) off <= CHUNKFS_BLK_SIZE) ->
  (mkfs_program fuel argv sys s).1 = inr tt <->
  exists cmd dev_name raw, argv = [cmd; dev_name] /\ sys dev_name = IsOpen raw /\
    Forall (fun b => accepts (mk_dev_state s) b.1) (mkfs_blocks raw).
Proof.
  intros Hargs Hmax. unfold mkfs_program, usage. split.
  - destruct argv as [|cmd [|dev_name [|? ?]]]; try done. destruct (sys dev_name) as [| | raw] eqn:Hsys; try done.
    destruct (Hargs _ _ _ eq_refl Hsys) as (Hraw & Hn & Hf).
    rewrite (mkfs_main_actions _ _ raw Hraw Hn Hf s), run_actions_success by done. intros Hall. by exists cmd, dev_name, raw.
  - intros (cmd & dev_name & raw & -> & Hsys & Hall). rewrite Hsys.
    destruct (Hargs _ _ _ eq_refl Hsys) as (Hraw & Hn & Hf).
    by rewrite (mkfs_main_actions _ _ raw Hraw Hn Hf s), run_actions_success.
Qed.

(** C3: the chunks of a device tile it: a chunk the loop writes begins
    where its predecessor ends, lies inside the device, gives its client
    file system exactly 2559 blocks of 4096 bytes, and no further whole
    chunk (plus two bytes) fits behind the last one. *)
Theorem mkfs_geometry raw k :
  1 <= k <= nchunks raw -> raw < 2 ^ 63 ->
  let c := chunk_summary (raw - 2) k (chunk_pos k) in
  c_begin c = CHUNKFS_DEV_OFFSET + CHUNKFS_BLK_SIZE + (k - 1) * CHUNKFS_CHUNK_SIZE /\
  c_end c + 1 = c_begin (chunk_summary (raw - 2) (k + 1) (chunk_pos (k + 1))) /\
  c_end c < raw /\
  c_innards_end c - c_innards_begin c + 1 = 2559 * 4096 /\
  raw - c_end (chunk_summary (raw - 2) (nchunks raw) (chunk_pos (nchunks raw)))
    < CHUNKFS_CHUNK_SIZE + 3.
Proof.
  intros Hk Hraw. cbv zeta.
  assert (forall j, 1 <= j <= nchunks raw -> chunk_pos (j + 2) < 2 ^ 64) as Hb.
  { intros j Hj. pose proof (chunk_bounds raw (j + 1) ltac:(lia) Hraw).
    replace (j + 2) with (j + 1 + 1) by lia. rewrite chunk_pos_next.
    unfold CHUNKFS_CHUNK_SIZE. lia. }
  pose proof (chunk_bounds raw k ltac:(lia) Hraw).
  pose proof (chunk_bounds raw (nchunks raw) ltac:(lia) Hraw).
  pose proof (proj1 (nchunks_spec raw k ltac:(lia)) ltac:(lia)) as Hin.
  pose proof (nchunks_spec raw (nchunks raw + 1) ltac:(lia)) as Hmax.
  change (c_begin (chunk_summary _ _ ?p)) with p.
  rewrite (chunk_summary_spec raw k), (chunk_summary_spec raw (nchunks raw))
    by (lia || (apply Hb; lia)).
  cbn [c_begin c_end c_innards_begin c_innards_end]. rewrite !chunk_pos_next in *.
  unfold CHUNKFS_CHUNK_SIZE, CHUNKFS_BLK_SIZE in *. split_and!; try lia. done.
Qed.

(** ** A device whose [st_size] is zero *)

(** The invariant of the run-away loop: the position is a word that is the
    first chunk's position modulo 2 MiB, whatever the wrap-around. *)
Definition runaway (v : Z * Z) (_ : mkfs_state) : Prop :=
  0 <= v.2 < 2 ^ 64 /\ v.2 mod 2 ^ 21 = chunk_base.

Lemma runaway_next pos :
  0 <= pos < 2 ^ 64 -> pos mod 2 ^ 21 = chunk_base ->
  let next := u64 (pos + CHUNKFS_CHUNK_SIZE) in
  0 <= next < 2 ^ 64 /\ next mod 2 ^ 21 = chunk_base /\ u64 (next - 1) < 2 ^ 64 - 2.
Proof.
  change chunk_base with 40960. unfold u64, CHUNKFS_CHUNK_SIZE. intros Hp Hm. cbv zeta.
  assert (exists q, pos = 2 ^ 21 * q + 40960) as [q ->] by (exists (pos / 2 ^ 21); div_lia).
  assert ((2 ^ 21 * q + 40960 + 10 * 1024 * 1024) mod 2 ^ 64 =
          2 ^ 21 * ((q + 5) mod 2 ^ 43) + 40960) as ->.
  { div_lia. }
  assert (0 <= (q + 5) mod 2 ^ 43 < 2 ^ 43) by (apply Z.mod_pos_bound; lia).
  set (r := (q + 5) mod 2 ^ 43) in *. clearbody r.
  split_and!; [lia.. | div_lia |]. rewrite Z.mod_small; lia.
Qed.

Lemma runaway_step id pos s :
  runaway (id, pos) s ->
  match write_chunk_step (2 ^ 64 - 2) (id, pos) s with
  | (inr (inl v'), s') => runaway v' s'
  | (inr (inr _), s') => False
  | (inl e, s') => True
  end.
Proof.
  intros [Hp Hm]. destruct (runaway_next pos Hp Hm) as (Hn1 & Hn2 & Hlt).
  unfold write_chunk_step. rewrite (proj2 (Z.ltb_lt _ _) Hlt).
  unfold print, modify, mbind, stm_bind at 1 2 3.
  destruct (write_block _ _ _) as [[e|[]] s1]; [done | by split].
Qed.

(** C5: on a device for which [fstat] reports the size 0 (as it does for a
    block device) mkfs never exits with success: it writes chunk summaries
    until a write is refused. *)
Theorem mkfs_size_zero fuel dev_name s :
  (mkfs_main fuel dev_name 0 s).1 <> inr tt.
Proof.
  intros Hok. destruct (mkfs_main fuel dev_name 0 s) as [r s'] eqn:Hrun. simpl in Hok. subst r.
  unfold mkfs_main in Hrun.
  apply bind_inv_ok in Hrun as (pool & s1 & Hpool & Hrun).
  apply bind_inv_ok in Hrun as ([] & s2 & _ & Hrun).
  apply bind_inv_ok in Hrun as ([] & s3 & _ & Hrun).
  change (loop fuel MkfsNoFuel (write_chunk_step (2 ^ 64 - 2)) (1, chunk_base) s3 = (inr tt, s'))
    in Hrun.
  refine (wp_run _ (fun r _ => r <> inr tt) _ _ _ _ Hrun eq_refl).
  apply (wp_loop runaway); [by split | done |].
  intros [id pos] st Hi. pose proof (runaway_step id pos st Hi) as Hs. unfold wp.
  by destruct (write_chunk_step _ _ _) as [[e|[v|[]]] st'].
Qed.
End theorems.

(** ** Witnesses: the 32 MiB file test.sh formats *)

Definition test_size : Z := 32 * 1024 * 1024.

(** A file filled with the byte '5' by write_pattern that stores every block. *)
Definition pattern_file : device := mk_device (fun _ => 53) (fun _ => CHUNKFS_BLK_SIZE).

Lemma mkfs_image_witness :
  exists data' out',
    mkfs_main (H := little_endian_host) 4 [47; 100] test_size (mk_mkfs pattern_file []) =
      (inr tt, mk_mkfs (mk_device data' (fun _ => CHUNKFS_BLK_SIZE)) out') /\
    formatted (H := little_endian_host) data' test_size /\
    forall a, (forall off blk, (off, blk) ∈ mkfs_blocks (H := little_endian_host) test_size ->
                     ~ off <= a < off + CHUNKFS_BLK_SIZE) -> data' a = 53.
Proof.
  refine (mkfs_image (H := little_endian_host) 4 [47; 100] test_size pattern_file [] _ _ _ _).
  - unfold test_size. lia.
  - unfold CHUNKFS_DEV_PATH_LEN. simpl. lia.
  - change (Z.to_nat (nchunks test_size)) with 3%nat. lia.
  - apply Forall_forall. intros [off blk] _. reflexivity.
Defined.

(** The device ends at 1 MiB, though its size is said to be 32 MiB. *)
Definition short_device : device := mk_device (fun _ => 0) (fun off => if off <? 2 ^ 20 then 4096 else 0).

Lemma mkfs_success_iff_witness :
  (mkfs_program (H := little_endian_host) 4 [[109]; [47; 100]] (fun _ => IsOpen test_size) (mk_mkfs short_device [])).1 = inr tt <->
  exists cmd dev_name raw, [[109]; [47; 100]] = [cmd; dev_name] /\ IsOpen test_size = IsOpen raw /\
    Forall (fun b => accepts short_device b.1) (mkfs_blocks (H := little_endian_host) raw).
Proof.
  apply (mkfs_success_iff (H := little_endian_host) 4 [[109]; [47; 100]] (fun _ => IsOpen test_size) (mk_mkfs _ [])).
  - intros cmd dev_name raw [= <- <-] [= <-]. split_and!.
    + unfold test_size. lia.
    + unfold test_size. lia.
    + unfold CHUNKFS_DEV_PATH_LEN. simpl. lia.
    + change (Z.to_nat (nchunks test_size)) with 3%nat. lia.
  - intros off. simpl. unfold CHUNKFS_BLK_SIZE. destruct (off <? 2 ^ 20); lia.
Defined.

Lemma mkfs_geometry_witness :
  let c := chunk_summary (test_size - 2) 2 (chunk_pos 2) in
  c_begin c = CHUNKFS_DEV_OFFSET + CHUNKFS_BLK_SIZE + (2 - 1) * CHUNKFS_CHUNK_SIZE /\
  c_end c + 1 = c_begin (chunk_summary (test_size - 2) (2 + 1) (chunk_pos (2 + 1))) /\
  c_end c < test_size /\
  c_innards_end c - c_innards_begin c + 1 = 2559 * 4096 /\
  test_size - c_end (chunk_summary (test_size - 2) (nchunks test_size) (chunk_pos (nchunks test_size)))
    < CHUNKFS_CHUNK_SIZE + 3.
Proof.
  apply (mkfs_geometry test_size 2).
  - change (nchunks test_size) with 3. lia.
  - unfold test_size. lia.
Defined.
