(* ===== verification/MkfsLinks.v ===== *)
(** * The list of chunks on the disk

    What mkfs prints tells which chunks it has written; this file reads the
    summaries of these chunks from the disk it leaves, word by word at
    their offsets, and says where their links lead. *)

From S2P Require Import Prelude Monad Bytes OnDisk Device Mkfs MkfsSpec MkfsProps.

Section links.
Context `{Host}.

(** The machine word of [n] bytes at [a] on the disk. *)
Definition disk_word (data : Z -> Z) (a : Z) (n : nat) : Z := word_mem (read_bytes data a n).

Lemma read_bytes_slice data a off n m :
  (off + n <= m)%nat -> read_bytes data (a + Z.of_nat off) n = slice off n (read_bytes data a m).
Proof.
  intros Hle. apply list_eq. intros i. unfold slice, read_bytes.
  destruct (decide (i < n)%nat) as [Hi | Hi].
  - rewrite lookup_take_lt, lookup_drop by done. rewrite !list_lookup_fmap, !lookup_seq_lt by lia. simpl. f_equal. f_equal. lia.
  - rewrite !lookup_ge_None_2; rewrite ?length_take, ?length_drop, ?length_map, ?length_seq; done || lia.
Qed.

(** ** What is printed *)

Definition lines_of (acts : list action) : list line :=
  omap (fun a => match a with APrint l => Some l | AWrite _ _ => None end) acts.

Lemma run_actions_lines acts s s' : run_actions acts s = (inr tt, s') -> mk_out s' = mk_out s ++ lines_of acts.
Proof.
  revert s; induction acts as [|[l|off blk] acts IH]; intros s; simpl.
  - intros [= ->]. by rewrite app_nil_r.
  - unfold print, modify, mbind, stm_bind. simpl. intros Hr. rewrite (IH _ Hr). simpl. by rewrite <-app_assoc.
  - unfold write_fd, write_dev, mbind, stm_bind. simpl. destruct (_ <? _); [done |]. intros Hr. by rewrite (IH _ Hr).
Qed.

Lemma lines_of_app a b : lines_of (a ++ b) = lines_of a ++ lines_of b.
Proof. apply omap_app. Qed.

Lemma chunk_line raw k m id start end_ :
  WritingChunk id start end_ ∈ lines_of (chunks_from raw k m) <->
  k <= id < k + Z.of_nat m /\ start = chunk_pos id /\ end_ = chunk_pos (id + 1) - 1.
Proof.
  revert k; induction m as [|m IH]; intros k.
  - split; [by intros ?%not_elem_of_nil | lia].
  - change (chunks_from raw k (S m)) with (chunk_actions raw k ++ chunks_from raw (k + 1) m).
    rewrite lines_of_app, elem_of_app, IH. simpl. rewrite !elem_of_cons. split.
    + intros [[[= -> -> ->] | [? | [? | ?%not_elem_of_nil]]] | (? & -> & ->)]; done || (split_and!; lia || done).
    + intros (Hk & -> & ->). destruct (decide (id = k)) as [-> |]; [by left; left | right; split; [lia | done]].
Qed.

Lemma printed_chunk raw id start end_ :
  WritingChunk id start end_ ∈ lines_of (mkfs_actions raw) <->
  1 <= id <= nchunks raw /\ start = chunk_pos id /\ end_ = chunk_pos (id + 1) - 1.
Proof.
  unfold mkfs_actions. rewrite !lines_of_app, !elem_of_app, chunk_line. simpl. rewrite !elem_of_cons. split.
  - intros [[? | ?%not_elem_of_nil] | [[? | ?%not_elem_of_nil] | (? & -> & ->)]]; done || (split_and!; lia || done).
  - intros (? & -> & ->). right. right. split_and!; done || lia.
Qed.

(** ** What is on the disk *)

Lemma chunk_words data raw k :
  formatted data raw -> 1 <= k <= nchunks raw -> raw < 2 ^ 63 ->
  let a := chunk_pos k in
  disk_word data a 4 = CHUNKFS_CHUNK_MAGIC /\ disk_word data (a + 8) 8 = (if k =? 1 then CHUNKFS_ROOT else 0) /\
  disk_word data (a + 16) 8 = k /\ disk_word data (a + 24) 8 = a /\ disk_word data (a + 32) 8 = chunk_pos (k + 1) - 1 /\
  disk_word data (a + 40) 8 = a + CHUNKFS_BLK_SIZE /\ disk_word data (a + 48) 8 = chunk_pos (k + 1) - 1 /\
  disk_word data (a + 56) 8 = chunk_link raw k.
Proof.
  intros Hf Hk Hraw a. pose proof (spec_chunk_typed raw k Hk Hraw) as (T1 & _ & T3 & T4 & T5 & T6 & T7 & T8 & T9 & _).
  assert (read_bytes data a 4096 = block_image (chunk_to_mem (spec_chunk raw k))) as Hb.
  { rewrite <-(fmt_chunk _ _ Hf k Hk). symmetry. by apply block_at_read; [apply chunk_pos_aligned |]. }
  assert (forall off n, (off + n <= 4096)%nat -> disk_word data (a + Z.of_nat off) n =
    word_mem (slice off n (block_image (chunk_to_mem (spec_chunk raw k))))) as Hw.
  { intros off n Hle. unfold disk_word. by rewrite (read_bytes_slice data a off n 4096), Hb. }
  pose proof (Hw 0%nat 4%nat ltac:(lia)) as W0. change (Z.of_nat 0) with 0 in W0. rewrite Z.add_0_r in W0.
  pose proof (Hw 8%nat 8%nat ltac:(lia)) as W1. change (Z.of_nat 8) with 8 in W1.
  pose proof (Hw 16%nat 8%nat ltac:(lia)) as W2. change (Z.of_nat 16) with 16 in W2.
  pose proof (Hw 24%nat 8%nat ltac:(lia)) as W3. change (Z.of_nat 24) with 24 in W3.
  pose proof (Hw 32%nat 8%nat ltac:(lia)) as W4. change (Z.of_nat 32) with 32 in W4.
  pose proof (Hw 40%nat 8%nat ltac:(lia)) as W5. change (Z.of_nat 40) with 40 in W5.
  pose proof (Hw 48%nat 8%nat ltac:(lia)) as W6. change (Z.of_nat 48) with 48 in W6.
  pose proof (Hw 56%nat 8%nat ltac:(lia)) as W7. change (Z.of_nat 56) with 56 in W7.
  rewrite W0, W1, W2, W3, W4, W5, W6, W7. unfold block_image, chunk_to_mem. rewrite <-!app_assoc.
  split_and!; slice_field; by rewrite ?word_mem_32, ?word_mem_64.
Qed.

(** The word of the device summary that leads to the first chunk. *)
Lemma root_chunk_word data raw :
  formatted data raw -> 2 <= raw < 2 ^ 63 -> disk_word data (CHUNKFS_DEV_OFFSET + 56) 8 = chunk_base.
Proof.
  intros Hf Hraw. assert (read_bytes data CHUNKFS_DEV_OFFSET 4096 = block_image (dev_to_mem (spec_dev raw))) as Hb.
  { rewrite <-(fmt_dev _ _ Hf). symmetry. change CHUNKFS_DEV_BLK with (CHUNKFS_DEV_OFFSET / CHUNKFS_BLK_SIZE).
    by apply block_at_read. }
  unfold disk_word. change 56 with (Z.of_nat 56). rewrite (read_bytes_slice data CHUNKFS_DEV_OFFSET 56 8 4096), Hb by lia.
  unfold block_image, dev_to_mem. rewrite <-!app_assoc. slice_field. rewrite word_mem_64; [done |].
  unfold is_u64. simpl. unfold chunk_base, CHUNKFS_DEV_OFFSET, CHUNKFS_DEV_BLK, CHUNKFS_POOL_BLK, CHUNKFS_BLK_SIZE. lia.
Qed.

(** C4: the list of chunks that mkfs leaves on the disk.  On a device whose
    system stores every block mkfs succeeds; the chunks it has written are
    those it has printed.  The device summary leads to the first position a
    chunk may have.  The summary of each chunk that is written is at its
    position, in the layout of [struct chunkfs_chunk]: the magic number, flags
    (the root flag for the first chunk alone), id, begin, end, innards and link
    at the offsets 0, 8, 16, 24, 32, 40, 48 and 56.  A chunk that is followed
    by another one ends before it and links to it.  The last chunk has the
    link 0; but on a device that is one byte larger than one more chunk needs it
    links to a summary that is not written: the test for the link and the test
    of the loop disagree by one. *)
Theorem mkfs_links fuel dev_name raw d :
  2 <= raw < 2 ^ 63 -> (length dev_name < CHUNKFS_DEV_PATH_LEN)%nat ->
  (Z.to_nat (nchunks raw) < fuel)%nat ->
  Forall (fun b => accepts d b.1) (mkfs_blocks raw) ->
  exists s', mkfs_main fuel dev_name raw (mk_mkfs d []) = (inr tt, s') /\
    let data := dev_data (mk_dev_state s') in
    let written id start end_ := WritingChunk id start end_ ∈ mk_out s' in
    disk_word data (CHUNKFS_DEV_OFFSET + 56) 8 = CHUNKFS_DEV_OFFSET + CHUNKFS_BLK_SIZE /\
    (forall start end_, written 1 start end_ -> start = CHUNKFS_DEV_OFFSET + CHUNKFS_BLK_SIZE) /\
    forall id start end_, written id start end_ ->
      disk_word data start 4 = CHUNKFS_CHUNK_MAGIC /\
      disk_word data (start + 8) 8 = (if id =? 1 then CHUNKFS_ROOT else 0) /\ disk_word data (start + 16) 8 = id /\
      disk_word data (start + 24) 8 = start /\ disk_word data (start + 32) 8 = end_ /\
      disk_word data (start + 40) 8 = start + CHUNKFS_BLK_SIZE /\ disk_word data (start + 48) 8 = end_ /\
      let link := disk_word data (start + 56) 8 in
      (forall start' end_', written (id + 1) start' end_' -> start' = end_ + 1 /\ link = start') /\
      ((forall start' end_', ~ written (id + 1) start' end_') ->
        link = if raw =? end_ + CHUNKFS_CHUNK_SIZE + 2 then end_ + 1 else 0).
Proof.
  intros Hraw Hn Hf Hacc.
  destruct (run_actions_accepted (mkfs_actions raw) d []) as [out' Hrun]; [by apply accepted_blocks |].
  pose proof (run_actions_lines _ _ _ Hrun) as Hout. simpl in Hout. subst out'. fold (mkfs_blocks raw) in Hrun.
  pose proof (mkfs_blocks_formatted (dev_data d) raw Hraw) as Hfmt.
  eexists. split; [rewrite (mkfs_main_actions _ _ raw Hraw Hn Hf _); exact Hrun |]. simpl. split_and!.
  - by apply (root_chunk_word _ raw).
  - intros start end_ (_ & -> & _)%printed_chunk. done.
  - intros id start end_ (Hid & -> & ->)%printed_chunk.
    destruct (chunk_words _ raw id Hfmt Hid ltac:(lia)) as (? & ? & ? & ? & ? & ? & ? & Hlink). split_and!; try done.
    + intros start' end_' (Hid' & -> & ->)%printed_chunk. split; [lia |]. transitivity (chunk_link raw id); [exact Hlink |]. unfold chunk_link.
      pose proof (proj1 (nchunks_spec raw (id + 1) ltac:(lia)) ltac:(lia)) as Hin. rewrite chunk_pos_next in Hin.
      by rewrite (proj2 (Z.ltb_lt _ _)) by lia.
    + intros Hno. assert (~ id + 1 <= nchunks raw) as Hlast.
      { intros Hle. apply (Hno (chunk_pos (id + 1)) (chunk_pos (id + 1 + 1) - 1)). apply printed_chunk. split; [lia | done]. }
      rewrite (nchunks_spec raw (id + 1)), (chunk_pos_next (id + 1)) in Hlast by lia.
      transitivity (chunk_link raw id); [exact Hlink |]. unfold chunk_link.
      destruct (Z.ltb_spec (chunk_pos (id + 1) + CHUNKFS_CHUNK_SIZE) raw),
        (Z.eqb_spec raw (chunk_pos (id + 1) - 1 + CHUNKFS_CHUNK_SIZE + 2)); lia.
Qed.
End links.

(** ** Witness: a device on which the link of the only chunk dangles *)

Definition dangling_size : Z := 40960 + 2 * (10 * 1024 * 1024) + 1.

Lemma mkfs_links_witness :
  exists s', mkfs_main (H := little_endian_host) 2 [47; 100] dangling_size (mk_mkfs pattern_file []) = (inr tt, s') /\
    let data := dev_data (mk_dev_state s') in
    let written id start end_ := WritingChunk id start end_ ∈ mk_out s' in
    disk_word (H := little_endian_host) data (CHUNKFS_DEV_OFFSET + 56) 8 = CHUNKFS_DEV_OFFSET + CHUNKFS_BLK_SIZE /\
    (forall start end_, written 1 start end_ -> start = CHUNKFS_DEV_OFFSET + CHUNKFS_BLK_SIZE) /\
    forall id start end_, written id start end_ ->
      disk_word (H := little_endian_host) data start 4 = CHUNKFS_CHUNK_MAGIC /\
      disk_word (H := little_endian_host) data (start + 8) 8 = (if id =? 1 then CHUNKFS_ROOT else 0) /\
      disk_word (H := little_endian_host) data (start + 16) 8 = id /\
      disk_word (H := little_endian_host) data (start + 24) 8 = start /\
      disk_word (H := little_endian_host) data (start + 32) 8 = end_ /\
      disk_word (H := little_endian_host) data (start + 40) 8 = start + CHUNKFS_BLK_SIZE /\
      disk_word (H := little_endian_host) data (start + 48) 8 = end_ /\
      let link := disk_word (H := little_endian_host) data (start + 56) 8 in
      (forall start' end_', written (id + 1) start' end_' -> start' = end_ + 1 /\ link = start') /\
      ((forall start' end_', ~ written (id + 1) start' end_') ->
        link = if dangling_size =? end_ + CHUNKFS_CHUNK_SIZE + 2 then end_ + 1 else 0).
Proof.
  refine (mkfs_links (H := little_endian_host) 2 [47; 100] dangling_size pattern_file _ _ _ _).
  - unfold dangling_size. lia.
  - unfold CHUNKFS_DEV_PATH_LEN. simpl. lia.
  - change (Z.to_nat (nchunks dangling_size)) with 1%nat. lia.
  - apply Forall_forall. intros [off blk] _. reflexivity.
Defined.
