(* ===== verification/Decimal.v ===== *)
(** * Decimal numbers in C strings

    [sprintf("%llu")] and [simple_strtoull(., 10)], which the module uses to
    build path names and to store the continuation data in extended
    attributes.  A C string held in a buffer is a [string] up to its first
    NUL byte. *)

From Stdlib Require Export Ascii.
From S2P Require Import Prelude.

#[global] Open Scope string_scope.
#[global] Open Scope list_scope.
#[global] Open Scope Z_scope.

(** The character of a digit, and the digit of a character. *)
Definition digit_char (d : Z) : ascii := ascii_of_nat (Z.to_nat (48 + d)).

Definition char_digit (c : ascii) : option Z :=
  let n := Z.of_nat (nat_of_ascii c) in
  if (48 <=? n) && (n <=? 57) then Some (n - 48) else None.

Fixpoint digits (fuel : nat) (x : Z) (acc : string) : string :=
  match fuel with
  | O => acc
  | S fuel' =>
      if x <? 10 then String (digit_char x) acc
      else digits fuel' (x / 10) (String (digit_char (x mod 10)) acc)
  end.

(** [%llu]: a 64-bit number has at most 20 digits. *)
Definition print_llu (x : Z) : string := digits 20 x "".

Fixpoint parse_from (acc : Z) (s : string) : Z :=
  match s with
  | EmptyString => acc
  | String c rest =>
      match char_digit c with
      | Some d => parse_from (u64 (acc * 10 + d)) rest
      | None => acc
      end
  end.

(** [simple_strtoull(s, NULL, 10)]: the digits at the start of the string,
    modulo 2^64. *)
Definition strtoull (s : string) : Z := parse_from 0 s.

(** The NUL byte. *)
Definition NUL : ascii := ascii_of_nat 0.

(** ** Lemmas *)

Lemma char_digit_char d : 0 <= d < 10 -> char_digit (digit_char d) = Some d.
Proof.
  intros Hd. unfold char_digit, digit_char.
  rewrite nat_ascii_embedding by lia. rewrite Z2Nat.id by lia.
  rewrite (proj2 (Z.leb_le 48 (48 + d))), (proj2 (Z.leb_le (48 + d) 57)) by lia. simpl.
  f_equal. lia.
Qed.

Lemma parse_digits fuel x acc :
  0 <= x < 10 ^ Z.of_nat fuel -> x < 2 ^ 64 -> (0 < fuel)%nat ->
  parse_from 0 (digits fuel x acc) = parse_from x acc.
Proof.
  revert x acc; induction fuel as [|fuel IH]; intros x acc Hx H64 Hf; [lia |].
  simpl digits. destruct (Z.ltb_spec x 10).
  - simpl. rewrite char_digit_char by lia. by rewrite u64_small by lia.
  - rewrite Nat2Z.inj_succ, Z.pow_succ_r in Hx by lia.
    destruct fuel as [|fuel']; [simpl in Hx; lia |].
    rewrite IH; [| split; [apply Z.div_pos; lia | apply Z.div_lt_upper_bound; lia]
                 | apply Z.div_lt_upper_bound; lia | lia].
    cbn [parse_from]. rewrite char_digit_char by (apply Z.mod_pos_bound; lia).
    f_equal. rewrite (Z.mul_comm _ 10), <-Z_div_mod_eq_full. apply u64_small; lia.
Qed.

(** Printing and parsing: what follows the number is a non-digit or nothing. *)
Lemma strtoull_print x rest :
  is_u64 x -> (forall c s, rest = String c s -> char_digit c = None) ->
  strtoull (print_llu x +:+ rest) = x.
Proof.
  intros Hx Hrest.
  assert (forall fuel y acc, digits fuel y acc +:+ rest = digits fuel y (acc +:+ rest)) as Happ.
  { intros fuel. induction fuel as [|fuel IH]; intros y acc; simpl; [done |].
    destruct (y <? 10); [done | by rewrite IH]. }
  unfold strtoull, print_llu. rewrite Happ.
  rewrite parse_digits by (unfold is_u64 in *; lia).
  destruct rest as [|c s]; simpl; [done |]. by rewrite (Hrest c s eq_refl).
Qed.

Lemma strtoull_print_nul x : is_u64 x -> strtoull (print_llu x +:+ String NUL "") = x.
Proof. intros Hx. apply strtoull_print; [done |]. by intros c s [= <- <-]. Qed.

Lemma print_llu_inj x y : is_u64 x -> is_u64 y -> print_llu x = print_llu y -> x = y.
Proof.
  intros Hx Hy Heq.
  assert (forall s, s +:+ "" = s) as Hnil.
  { intros s. induction s as [|c s IH]; [done |].
    change (String c (s +:+ "") = String c s). by rewrite IH. }
  rewrite <-(strtoull_print x "" Hx), <-(strtoull_print y "" Hy) by done.
  by rewrite Heq.
Qed.

Lemma length_digits fuel x acc n :
  0 <= x < 10 ^ Z.of_nat n -> (0 < n)%nat ->
  (String.length (digits fuel x acc) <= n + String.length acc)%nat.
Proof.
  revert x acc n; induction fuel as [|fuel IH]; intros x acc n Hx Hn; simpl; [lia |].
  destruct (Z.ltb_spec x 10); simpl; [lia |].
  destruct n as [|n]; [lia |]. rewrite Nat2Z.inj_succ, Z.pow_succ_r in Hx by lia.
  destruct n as [|n]; [simpl in Hx; lia |].
  specialize (IH (x / 10) (String (digit_char (x mod 10)) acc) (S n)).
  simpl in IH. etransitivity; [apply IH; [split; [apply Z.div_pos; lia |] | lia] | lia].
  apply Z.div_lt_upper_bound; lia.
Qed.

(** A number below [10^n] prints in at most [n] characters. *)
Lemma length_print_llu x n :
  0 <= x < 10 ^ Z.of_nat n -> (0 < n)%nat -> (String.length (print_llu x) <= n)%nat.
Proof. intros Hx Hn. pose proof (length_digits 20 x "" n Hx Hn). unfold print_llu. cbn [String.length] in *. lia. Qed.

Lemma digits_lower fuel x acc n :
  10 ^ Z.of_nat n <= x -> (n < fuel)%nat ->
  (n + 1 + String.length acc <= String.length (digits fuel x acc))%nat.
Proof.
  revert x acc n; induction fuel as [|fuel IH]; intros x acc n Hx Hn; simpl; [lia |].
  destruct (Z.ltb_spec x 10); simpl.
  - destruct n as [|n]; [simpl; lia |].
    rewrite Nat2Z.inj_succ, Z.pow_succ_r in Hx by lia.
    pose proof (Z.pow_pos_nonneg 10 (Z.of_nat n)). lia.
  - destruct n as [|n].
    + clear IH Hx. assert (forall f y a, (String.length a <= String.length (digits f y a))%nat) as Hmono.
      { intros f. induction f as [|f IHf]; intros y a; simpl; [lia |].
        destruct (y <? 10); simpl; [lia |]. etransitivity; [| apply IHf]. simpl. lia. }
      etransitivity; [| apply Hmono]. simpl. lia.
    + rewrite Nat2Z.inj_succ, Z.pow_succ_r in Hx by lia.
      etransitivity; [| apply (IH _ _ n); [apply Z.div_le_lower_bound; lia | lia]]. simpl. lia.
Qed.

(** A number from [10^n] on prints in more than [n] characters. *)
Lemma print_llu_lower x n :
  10 ^ Z.of_nat n <= x -> (n < 20)%nat -> (n + 1 <= String.length (print_llu x))%nat.
Proof. intros Hx Hn. pose proof (digits_lower 20 x "" n Hx Hn). unfold print_llu. cbn [String.length] in *. lia. Qed.
