(* ===== verification/Client.v ===== *)
(** * The client file systems, as the module uses them

    Every chunk holds an ordinary file system (ext2 in test.sh) that is
    mounted at /chunk<id>; chunkfs works on its in-memory objects through VFS
    calls.  None of that code is in this repository, so it is an interface:
    the class [ClientFS] is the state of all the client file systems and of
    the caches the VFS keeps for them, with the calls chunkfs makes, and
    [ClientLaws] is the documented behaviour of those calls that theorems
    rely on.  [MemFS.v] is a lawful instance.

    A dentry or a mount of a client is named by its address, a number; 0 is
    the null pointer.  A client inode is named by its superblock and number,
    because the inode cache holds at most one inode for such a pair. *)

From S2P Require Import Prelude Decimal.

(** A client inode: superblock and inode number. *)
Abbreviation cino := (Z * Z)%type.

Abbreviation ci_sb_of := (@fst Z Z).
Abbreviation ci_ino_of := (@snd Z Z).

(** What [fsstack_copy_attr_all] copies from one inode to another. *)
Record attr := mk_attr {
  a_mode : Z;
  a_uid : Z;
  a_gid : Z;
  a_rdev : Z;
  a_atime : Z;
  a_mtime : Z;
  a_ctime : Z;
  a_blkbits : Z;
  a_flags : Z;
  a_nlink : Z;
}.

#[export] Instance attr_eq_dec : EqDecision attr.
Proof. solve_decision. Defined.

(** The fields of [struct nameidata] that are used. *)
Record nameidata := mk_nd {
  nd_dentry : Z;
  nd_mnt : Z;
  nd_flags : Z;
  nd_seq : Z;
  nd_depth : Z;
  nd_saved_names : gmap Z Z;
}.

(** What [i_op->lookup] returns: NULL, a dentry, or an error. *)
Inductive looked_up := LookupNull | LookupDentry (d : Z) | LookupError (e : Z).

(** An error [e] of a call stands for the return value [-e], or
    [ERR_PTR(-e)]; an error code is positive. *)
Class ClientFS := {
  fs : Type;
  (** The superblock of a mount. *)
  mnt_sb : Z -> Z;
  (** [kern_path]: the mount and the dentry of a path. *)
  kern_path : fs -> string -> Z + (Z * Z);
  (** [dentry->d_inode], [None] for a negative dentry. *)
  d_inode : fs -> Z -> option cino;
  (** The fields of an in-memory inode. *)
  i_attr : fs -> cino -> attr;
  i_size : fs -> cino -> Z;
  is_bad_inode : fs -> cino -> bool;
  (** [iget_locked] with the flags it may leave cleared: [None] for NULL. *)
  iget_locked : fs -> cino -> option fs;
  (** [generic_getxattr] into a buffer of 50 bytes, and [generic_setxattr]
      (the error, 0 for success). *)
  getxattr : fs -> cino -> string -> Z + string;
  setxattr : fs -> cino -> string -> string -> Z * fs;
  (** [filp_open(path, O_CREAT | O_RDWR, ..)]: the dentry that is open. *)
  open_create : fs -> string -> (Z + Z) * fs;
  (** [dentry_open] of a mount and a dentry (the error, 0 for success). *)
  dentry_open : fs -> Z -> Z -> Z;
  (** Reading and writing an open client file at a position: the return
      value and the new position (and the data read). *)
  file_read : fs -> Z -> Z -> Z -> Z * Z * list Z * fs;
  file_write : fs -> Z -> list Z -> Z -> Z * Z * fs;
  (** [f_op->fsync] on a dentry and a range (the error, 0 for success). *)
  file_fsync : fs -> Z -> Z -> Z -> bool -> Z * fs;
  (** The attributes of an in-memory inode are overwritten. *)
  set_attr : fs -> cino -> attr -> fs;
  (** [s_op->write_inode] (the error, 0 for success). *)
  op_write_inode : fs -> cino -> Z * fs;
  (** [struct iattr]; whether the inode has its own [i_op->setattr], that
      operation, and the generic one in its three steps. *)
  iattr : Type;
  has_setattr : fs -> cino -> bool;
  op_setattr : fs -> Z -> iattr -> Z * fs;
  inode_change_ok : fs -> cino -> iattr -> Z;
  security_inode_setattr : fs -> Z -> iattr -> Z;
  setattr_copy : fs -> cino -> iattr -> fs;
  (** [i_op->permission] when the inode has it, [generic_permission]. *)
  has_permission : fs -> cino -> bool;
  op_permission : fs -> cino -> Z -> Z;
  generic_permission : fs -> cino -> Z -> Z;
  (** [d_alloc_name] under a parent: [None] for NULL. *)
  d_alloc_name : fs -> Z -> string -> option Z * fs;
  (** The operations on a directory inode (the error, 0 for success); [create]
      has the exclusive flag, [link] the dentry of the old name first. *)
  op_lookup : fs -> cino -> Z -> Z -> looked_up * fs;
  op_create : fs -> cino -> Z -> Z -> bool -> Z * fs;
  op_link : fs -> Z -> cino -> Z -> Z * fs;
  op_unlink : fs -> cino -> Z -> Z * fs;
  op_symlink : fs -> cino -> Z -> string -> Z * fs;
  op_mkdir : fs -> cino -> Z -> Z -> Z * fs;
  op_rmdir : fs -> cino -> Z -> Z * fs;
  op_mknod : fs -> cino -> Z -> Z -> Z -> Z * fs;
  (** The operations on a symbolic link: the result and the text, the cookie
      and the nameidata after the call; whether there is a [put_link]. *)
  op_readlink : fs -> Z -> Z -> Z * list Z * fs;
  op_follow_link : fs -> Z -> nameidata -> Z * nameidata * fs;
  has_put_link : fs -> cino -> bool;
  op_put_link : fs -> Z -> nameidata -> Z -> nameidata * fs;
  (** [f_op->llseek], or [default_llseek], on an open directory at a
      position: the result and the new position; [f_op->iterate] on a
      directory and the position of the context: the result, the position
      after it and the names that were emitted. *)
  file_llseek : fs -> Z -> Z -> Z -> Z -> Z * Z * fs;
  file_iterate : fs -> Z -> Z -> Z * Z * list string * fs;
}.

Class ClientLaws `{ClientFS} := {
  (** An attribute of at most 50 bytes that was set is what is read. *)
  get_set_same f i n v f' :
    setxattr f i n v = (0, f') -> (String.length v <= 50)%nat -> getxattr f' i n = inr v;
  (** Setting an attribute changes no other attribute, no path, no dentry, no
      size, and nothing of the inode cache. *)
  get_set_other f i n v e f' j m :
    setxattr f i n v = (e, f') -> (j, m) <> (i, n) -> getxattr f' j m = getxattr f j m;
  set_kern_path f i n v e f' p : setxattr f i n v = (e, f') -> kern_path f' p = kern_path f p;
  set_d_inode f i n v e f' d : setxattr f i n v = (e, f') -> d_inode f' d = d_inode f d;
  set_size f i n v e f' j : setxattr f i n v = (e, f') -> i_size f' j = i_size f j;
  set_bad f i n v e f' j : setxattr f i n v = (e, f') -> is_bad_inode f' j = is_bad_inode f j;
  set_cached f i n v e f' j :
    setxattr f i n v = (e, f') -> iget_locked f j = Some f -> iget_locked f' j = Some f';
  set_open f i n v e f' m d : setxattr f i n v = (e, f') -> dentry_open f' m d = dentry_open f m d;
  (** A path leads to a dentry. *)
  kern_path_dentry f p m d : kern_path f p = inr (m, d) -> d <> 0;
}.

(** What opening a path with O_CREAT does: the path leads to the dentry that
    is open, which has an inode; when the path led nowhere the inode is new.
    What was there stays. *)
Class ClientCreateLaws `{ClientFS} := {
  create_path f p d f' :
    open_create f p = (inr d, f') -> d <> 0 /\ exists m, kern_path f' p = inr (m, d);
  create_other_path f p r f' q : open_create f p = (r, f') -> q <> p -> kern_path f' q = kern_path f q;
  create_inode f p d f' : open_create f p = (inr d, f') -> exists i, d_inode f' d = Some i;
  create_new_inode f p d f' e i d' :
    open_create f p = (inr d, f') -> kern_path f p = inl e -> d_inode f' d = Some i ->
    d_inode f d' <> Some i;
  create_keeps_dentry f p r f' d j :
    open_create f p = (r, f') -> d_inode f d = Some j -> d_inode f' d = Some j;
  create_keeps_xattr f p r f' d j n :
    open_create f p = (r, f') -> d_inode f d = Some j -> getxattr f' j n = getxattr f j n;
}.

(** What reading and writing a client file leaves: paths, dentries, who may
    open them, extended attributes, the soundness of inodes, and what is in
    the inode cache. *)
Record io_keeps `{ClientFS} (f f' : fs) : Prop := {
  io_path p : kern_path f' p = kern_path f p;
  io_dentry d : d_inode f' d = d_inode f d;
  io_open m d : dentry_open f' m d = dentry_open f m d;
  io_xattr i n : getxattr f' i n = getxattr f i n;
  io_bad i : is_bad_inode f' i = is_bad_inode f i;
  io_cached i : iget_locked f i = Some f -> iget_locked f' i = Some f';
}.

(** Reading changes no size; writing changes that of the file written. *)
Class ClientIoLaws `{ClientFS} := {
  read_keeps f d len pos r f' : file_read f d len pos = (r, f') -> io_keeps f f';
  read_size f d len pos r f' i : file_read f d len pos = (r, f') -> i_size f' i = i_size f i;
  write_keeps f d data pos r f' : file_write f d data pos = (r, f') -> io_keeps f f';
  write_other_size f d data pos r f' i :
    file_write f d data pos = (r, f') -> d_inode f d <> Some i -> i_size f' i = i_size f i;
  write_size f d data pos r f' i : file_write f d data pos = (r, f') -> 0 <= i_size f i -> 0 <= i_size f' i;
  fsync_keeps f d start stop datasync e f' : file_fsync f d start stop datasync = (e, f') -> io_keeps f f';
}.

(** What creating a file does to the inode cache: a new inode is in it, sound
    and empty, and may be opened; the inodes behind the
    dentries that were there keep their place, size and soundness. *)
Class ClientCacheLaws `{ClientFS} := {
  create_new_cached f p d f' i :
    open_create f p = (inr d, f') -> d_inode f' d = Some i ->
    iget_locked f' i = Some f' /\ is_bad_inode f' i = false /\ forall m, dentry_open f' m d = 0;
  create_new_size f p d f' e i :
    open_create f p = (inr d, f') -> kern_path f p = inl e -> d_inode f' d = Some i -> i_size f' i = 0;
  create_keeps_cached f p r f' d j :
    open_create f p = (r, f') -> d_inode f d = Some j ->
    (iget_locked f j = Some f -> iget_locked f' j = Some f') /\
    is_bad_inode f' j = is_bad_inode f j /\ i_size f' j = i_size f j /\
    forall m, dentry_open f' m d = dentry_open f m d;
}.

(** The bytes of client files (0 where nothing was written), and what reading
    and writing have to do with them: a read returns at most [len] bytes that
    are in the file, or an error and none; a write stores a prefix of the
    data, and may have touched all of its range when it fails. *)
Class ClientBytes `{ClientFS} := {
  byte : fs -> cino -> Z -> Z;
  read_bytes f d i len pos ret cpos data f' :
    file_read f d len pos = (ret, cpos, data, f') -> d_inode f d = Some i -> 0 <= pos -> 0 <= len ->
    - 4095 <= ret <= len /\ Z.of_nat (length data) = Z.max 0 ret /\
    pos + Z.of_nat (length data) <= Z.max pos (i_size f i) /\
    forall k b, data !! k = Some b -> b = byte f i (pos + Z.of_nat k);
  read_keeps_bytes f d len pos r f' j k : file_read f d len pos = (r, f') -> byte f' j k = byte f j k;
  write_stores f d i data pos ret cpos f' :
    file_write f d data pos = (ret, cpos, f') -> d_inode f d = Some i -> 0 <= pos ->
    ret <= Z.of_nat (length data) /\
    i_size f' i <= Z.max (i_size f i) (pos + Z.of_nat (length data)) /\
    (forall k, pos <= k < pos + ret -> data !! Z.to_nat (k - pos) = Some (byte f' i k)) /\
    (0 <= ret -> forall k, pos + ret <= k -> byte f' i k = byte f i k);
  write_elsewhere f d i data pos r f' j k :
    file_write f d data pos = (r, f') -> d_inode f d = Some i ->
    ~ (j = i /\ pos <= k < pos + Z.of_nat (length data)) -> byte f' j k = byte f j k;
}.

(** Opening a path that leads somewhere opens what is there.  Neither that nor
    setting attributes changes the bytes of a file. *)
Class ClientReopenLaws `{ClientFS} `{!ClientBytes} := {
  reopen f p m d d' f' :
    kern_path f p = inr (m, d) -> open_create f p = (inr d', f') -> d' = d /\ kern_path f' p = inr (m, d);
  create_keeps_bytes f p r f' d j k :
    open_create f p = (r, f') -> d_inode f d = Some j -> byte f' j k = byte f j k;
  set_keeps_bytes f i n v e f' j k : setxattr f i n v = (e, f') -> byte f' j k = byte f j k;
}.

(** An error that reading an attribute gives is an error. *)
Class ClientErrors `{ClientFS} :=
  getxattr_error f i n e : getxattr f i n = inl e -> e <> 0.

(** Behind the size of a file there are no bytes. *)
Class ClientZeros `{ClientFS} `{!ClientBytes} :=
  byte_past_size f i k : i_size f i <= k -> byte f i k = 0.

(** A client with room: a write stores the whole of the data and leaves the
    position behind it. *)
Class ClientRoom `{ClientFS} :=
  write_whole f d i data pos r cpos f' :
    file_write f d data pos = (r, cpos, f') -> d_inode f d = Some i -> 0 <= pos ->
    r = Z.of_nat (length data) /\ cpos = pos + Z.of_nat (length data).

(** A client that can read: a read before the end of the file returns at least
    a byte and leaves the position behind what it returns. *)
Class ClientReadable `{ClientFS} :=
  read_some f d i len pos r cpos data f' :
    file_read f d len pos = (r, cpos, data, f') -> d_inode f d = Some i -> 0 <= pos < i_size f i -> 0 < len ->
    0 < r /\ cpos = pos + r.
