(* ===== verification/Kernel.v ===== *)
(** * The state of the module and the kernel services it uses

    The in-memory structures of chunkfs (pool, device, chunk, inode, dentry,
    file), the state a call of the module reads and writes, and the monad the
    modelled functions are written in.  A function that returns a negative
    errno stops with [Errno]; a failed [BUG_ON] stops with [Bug]; a null or
    uninitialised pointer that is followed, or a write outside a buffer,
    stops with [Undef]; waiting for a mutex that is held stops with
    [Blocked].

    Allocation can fail: [k_oom] says which of the next allocations do.  What
    the module must give back is counted: memory, buffer heads, mount
    references, references to client dentries and inodes, open client files. *)

From S2P Require Import Prelude Monad Bytes OnDisk Device Decimal Client.

(** ** In-memory structures *)

(** chunkfs_chunk.h: [struct chunkfs_chunk_info]. *)
Record chunk_info := mk_chunk_info {
  ci_bh : Z;
  ci_sb : Z;
  ci_mnt : Z;
  ci_flags : Z;
  ci_chunk_id : Z;
  ci_client_fs : list Z;
}.

(** chunkfs_dev.h: [struct chunkfs_dev_info]; the list of chunks in order. *)
Record dev_info := mk_dev_info {
  di_clist : list chunk_info;
  di_root_chunk : option chunk_info;
  di_bh : Z;
  di_flags : Z;
}.

(** chunkfs_pool.h: [struct chunkfs_pool_info]; [pi_root_dev] is the position
    in the list of devices. *)
Record pool_info := mk_pool_info {
  pi_dlist : list dev_info;
  pi_root_dev : option nat;
  pi_bh : Z;
  pi_flags : Z;
}.

(** Which operations an inode has. *)
Inductive iops := NoOps | SymlinkIops | DirIops | FileIops | SpecialIops.
Inductive fops := NoFops | DirFops | FileFops | SpecialFops.

(** [struct inode] with its [struct chunkfs_inode_info]. *)
Record inode := mk_inode {
  i_ino : Z;
  i_csize : Z;
  i_cattr : attr;
  i_op : iops;
  i_fop : fops;
  ii_client_inode : option cino;
}.

(** [struct chunkfs_dentry_priv]; the client dentry may be null (0). *)
Record dentry_priv := mk_dpriv {
  dp_client_dentry : Z;
  dp_client_nd : nameidata;
}.

(** A chunkfs dentry. *)
Record dentry := mk_dentry {
  de_inode : option Z;
  de_name : string;
  de_parent : Z;
  de_fsdata : option dentry_priv;
  de_dops : bool;   (* d_op is chunkfs_dops, [false] for NULL *)
}.

(** A chunkfs [struct file]. *)
Record file := mk_file {
  f_dentry : Z;
  f_pos : Z;
}.

(** ** State *)

(** Who holds what is not needed: a call runs alone.  [lk_kernel] is the count
    of [chunkfs_kernel_mutex], 1 when it is free and 0 when it is held, [lk_inodes] has the inodes whose
    [ii_continuations_lock] is held. *)
Record locks := mk_locks {
  lk_kernel : Z;
  lk_inodes : gset Z;
}.

(** Unlocking a mutex that is free is forbidden, and what it does is up to the
    kernel: the mutex with debugging checks stays free, the fast path of the
    one without counts the unlock, so that the next lock does not hold it. *)
Class Mutexes := { counts_strays : bool }.

(** The count after [mutex_unlock], and after [mutex_lock] of a free mutex. *)
Definition mutex_up `{Mutexes} (n : Z) : Z :=
  if n <=? 0 then 1 else if counts_strays then n + 1 else 1.
Definition mutex_down `{Mutexes} (n : Z) : Z := if counts_strays then n - 1 else 0.

Record kstate `{ClientFS} := mk_kstate {
  k_fs : fs;                     (* the client file systems *)
  k_data : Z -> Z;               (* the bytes of the device *)
  k_bad : Z -> bool;             (* the blocks that cannot be read *)
  k_oom : list bool;             (* which of the next allocations fail *)
  k_kmem : Z;                    (* allocated and not freed *)
  k_bh : Z;                      (* buffer heads read and not released *)
  k_mnt : Z;                     (* mntget minus mntput *)
  k_opens : Z;                   (* client files opened and not closed *)
  k_dref : gmap Z Z;             (* dget minus dput, by client dentry *)
  k_iref : gmap (Z * Z) Z;       (* iget minus iput, by client inode *)
  k_pool : option pool_info;     (* sb->s_fs_info *)
  k_inodes : gmap Z inode;       (* chunkfs inodes *)
  k_dentries : gmap Z dentry;    (* chunkfs dentries *)
  k_files : gmap Z file;         (* chunkfs files *)
  k_locks : locks;               (* which mutexes are held *)
  k_icount : gmap Z Z;           (* i_count of the chunkfs inodes *)
  k_root : option Z;             (* sb->s_root, None for NULL *)
}.

Inductive stop :=
| Errno (e : Z)
| Bug
| Undef
| Blocked
| NoFuel.

Abbreviation kernel := (stm kstate stop).

(** Setting one field of the state. *)

Section state.
Context `{ClientFS}.

Definition set_fs (x : fs) (s : kstate) : kstate :=
  mk_kstate _ x (k_data s) (k_bad s) (k_oom s) (k_kmem s) (k_bh s) (k_mnt s) (k_opens s) (k_dref s) (k_iref s) (k_pool s) (k_inodes s) (k_dentries s) (k_files s) (k_locks s) (k_icount s) (k_root s).

Definition set_oom (x : list bool) (s : kstate) : kstate :=
  mk_kstate _ (k_fs s) (k_data s) (k_bad s) x (k_kmem s) (k_bh s) (k_mnt s) (k_opens s) (k_dref s) (k_iref s) (k_pool s) (k_inodes s) (k_dentries s) (k_files s) (k_locks s) (k_icount s) (k_root s).

Definition set_kmem (x : Z) (s : kstate) : kstate :=
  mk_kstate _ (k_fs s) (k_data s) (k_bad s) (k_oom s) x (k_bh s) (k_mnt s) (k_opens s) (k_dref s) (k_iref s) (k_pool s) (k_inodes s) (k_dentries s) (k_files s) (k_locks s) (k_icount s) (k_root s).

Definition set_bh (x : Z) (s : kstate) : kstate :=
  mk_kstate _ (k_fs s) (k_data s) (k_bad s) (k_oom s) (k_kmem s) x (k_mnt s) (k_opens s) (k_dref s) (k_iref s) (k_pool s) (k_inodes s) (k_dentries s) (k_files s) (k_locks s) (k_icount s) (k_root s).

Definition set_mnt (x : Z) (s : kstate) : kstate :=
  mk_kstate _ (k_fs s) (k_data s) (k_bad s) (k_oom s) (k_kmem s) (k_bh s) x (k_opens s) (k_dref s) (k_iref s) (k_pool s) (k_inodes s) (k_dentries s) (k_files s) (k_locks s) (k_icount s) (k_root s).

Definition set_opens (x : Z) (s : kstate) : kstate :=
  mk_kstate _ (k_fs s) (k_data s) (k_bad s) (k_oom s) (k_kmem s) (k_bh s) (k_mnt s) x (k_dref s) (k_iref s) (k_pool s) (k_inodes s) (k_dentries s) (k_files s) (k_locks s) (k_icount s) (k_root s).

Definition set_dref (x : gmap Z Z) (s : kstate) : kstate :=
  mk_kstate _ (k_fs s) (k_data s) (k_bad s) (k_oom s) (k_kmem s) (k_bh s) (k_mnt s) (k_opens s) x (k_iref s) (k_pool s) (k_inodes s) (k_dentries s) (k_files s) (k_locks s) (k_icount s) (k_root s).

Definition set_iref (x : gmap (Z * Z) Z) (s : kstate) : kstate :=
  mk_kstate _ (k_fs s) (k_data s) (k_bad s) (k_oom s) (k_kmem s) (k_bh s) (k_mnt s) (k_opens s) (k_dref s) x (k_pool s) (k_inodes s) (k_dentries s) (k_files s) (k_locks s) (k_icount s) (k_root s).

Definition set_pool (x : option pool_info) (s : kstate) : kstate :=
  mk_kstate _ (k_fs s) (k_data s) (k_bad s) (k_oom s) (k_kmem s) (k_bh s) (k_mnt s) (k_opens s) (k_dref s) (k_iref s) x (k_inodes s) (k_dentries s) (k_files s) (k_locks s) (k_icount s) (k_root s).

Definition set_inodes (x : gmap Z inode) (s : kstate) : kstate :=
  mk_kstate _ (k_fs s) (k_data s) (k_bad s) (k_oom s) (k_kmem s) (k_bh s) (k_mnt s) (k_opens s) (k_dref s) (k_iref s) (k_pool s) x (k_dentries s) (k_files s) (k_locks s) (k_icount s) (k_root s).

Definition set_dentries (x : gmap Z dentry) (s : kstate) : kstate :=
  mk_kstate _ (k_fs s) (k_data s) (k_bad s) (k_oom s) (k_kmem s) (k_bh s) (k_mnt s) (k_opens s) (k_dref s) (k_iref s) (k_pool s) (k_inodes s) x (k_files s) (k_locks s) (k_icount s) (k_root s).

Definition set_files (x : gmap Z file) (s : kstate) : kstate :=
  mk_kstate _ (k_fs s) (k_data s) (k_bad s) (k_oom s) (k_kmem s) (k_bh s) (k_mnt s) (k_opens s) (k_dref s) (k_iref s) (k_pool s) (k_inodes s) (k_dentries s) x (k_locks s) (k_icount s) (k_root s).

Definition set_locks (x : locks) (s : kstate) : kstate :=
  mk_kstate _ (k_fs s) (k_data s) (k_bad s) (k_oom s) (k_kmem s) (k_bh s) (k_mnt s) (k_opens s) (k_dref s) (k_iref s) (k_pool s) (k_inodes s) (k_dentries s) (k_files s) x (k_icount s) (k_root s).

Definition set_icount (x : gmap Z Z) (s : kstate) : kstate :=
  mk_kstate _ (k_fs s) (k_data s) (k_bad s) (k_oom s) (k_kmem s) (k_bh s) (k_mnt s) (k_opens s) (k_dref s) (k_iref s) (k_pool s) (k_inodes s) (k_dentries s) (k_files s) (k_locks s) x (k_root s).

Definition set_root (x : option Z) (s : kstate) : kstate :=
  mk_kstate _ (k_fs s) (k_data s) (k_bad s) (k_oom s) (k_kmem s) (k_bh s) (k_mnt s) (k_opens s) (k_dref s) (k_iref s) (k_pool s) (k_inodes s) (k_dentries s) (k_files s) (k_locks s) (k_icount s) x.

(** ** Errors and allocation *)

(** Runs [m]; an errno it returns is a value for the caller to test. *)
Definition try {A} (m : kernel A) : kernel (Z + A) := fun s =>
  match m s with
  | (inr a, s') => (inr (inr a), s')
  | (inl (Errno e), s') => (inr (inl e), s')
  | (inl x, s') => (inl x, s')
  end.

(** A pointer that is followed. *)
Definition deref {A} (o : option A) : kernel A :=
  match o with Some a => mret a | None => mthrow Undef end.

(** [kzalloc], [kmem_cache_alloc], [__getname]: [false] for NULL. *)
Definition kalloc : kernel bool := fun s =>
  match k_oom s with
  | true :: rest => (inr false, set_oom rest s)
  | _ :: rest => (inr true, set_kmem (k_kmem s + 1) (set_oom rest s))
  | [] => (inr true, set_kmem (k_kmem s + 1) s)
  end.

Definition kfree : kernel unit := modify (fun s => set_kmem (k_kmem s - 1) s).

(** ** Buffers and mounts *)

Definition sb_bread (blk : Z) : kernel (option (list Z)) := fun s =>
  if k_bad s blk then (inr None, s)
  else (inr (Some (block_at (k_data s) blk)), set_bh (k_bh s + 1) s).

Definition brelse : kernel unit := modify (fun s => set_bh (k_bh s - 1) s).

Definition mntget (m : Z) : kernel Z := fun s => (inr m, set_mnt (k_mnt s + 1) s).
Definition mntput : kernel unit := modify (fun s => set_mnt (k_mnt s - 1) s).

(** ** References to client dentries and inodes *)

Definition count {K} `{Countable K} (m : gmap K Z) (k : K) : Z := default 0 (m !! k).

(** [dget] and [dput]; both accept NULL. *)
Definition dget (d : Z) : kernel Z := fun s =>
  (inr d, if d =? 0 then s else set_dref (<[d := count (k_dref s) d + 1]> (k_dref s)) s).

Definition dput (d : Z) : kernel unit := fun s =>
  (inr tt, if d =? 0 then s else set_dref (<[d := count (k_dref s) d - 1]> (k_dref s)) s).

Definition iput (i : cino) : kernel unit := modify (fun s =>
  set_iref (<[i := count (k_iref s) i - 1]> (k_iref s)) s).

(** [iget_locked]: NULL is [None]. *)
Definition iget (i : cino) : kernel (option cino) := fun s =>
  match iget_locked (k_fs s) i with
  | None => (inr None, s)
  | Some f => (inr (Some i), set_iref (<[i := count (k_iref s) i + 1]> (k_iref s)) (set_fs f s))
  end.

(** A call of the client file systems. *)
Definition client_call {A} (op : fs -> A * fs) : kernel A := fun s =>
  let '(a, f) := op (k_fs s) in (inr a, set_fs f s).

(** [kern_path]: the references the path holds are taken. *)
Definition lookup_path (p : string) : kernel (Z * Z) := fun s =>
  match kern_path (k_fs s) p with
  | inl e => (inl (Errno e), s)
  | inr (m, d) => (dget d;; mntget m;; mret (m, d)) s
  end.

Definition path_put (m d : Z) : kernel unit := dput d;; mntput.

(** ** Mutexes *)

(** [mutex_lock] and [mutex_unlock] of [chunkfs_kernel_mutex]. *)
Definition lock_kernel `{Mutexes} : kernel unit := fun s =>
  let n := lk_kernel (k_locks s) in
  if n <=? 0 then (inl Blocked, s)
  else (inr tt, set_locks (mk_locks (mutex_down n) (lk_inodes (k_locks s))) s).

Definition unlock_kernel `{Mutexes} : kernel unit :=
  modify (fun s => set_locks (mk_locks (mutex_up (lk_kernel (k_locks s))) (lk_inodes (k_locks s))) s).

(** The same of the [ii_continuations_lock] of an inode. *)
Definition lock_list (p : Z) : kernel unit := fun s =>
  if decide (p ∈ lk_inodes (k_locks s)) then (inl Blocked, s)
  else (inr tt, set_locks (mk_locks (lk_kernel (k_locks s)) ({[ p ]} ∪ lk_inodes (k_locks s))) s).

Definition unlock_list (p : Z) : kernel unit :=
  modify (fun s => set_locks (mk_locks (lk_kernel (k_locks s)) (lk_inodes (k_locks s) ∖ {[ p ]})) s).

(** ** The module's own objects *)

Definition get_inode (p : Z) : kernel inode := fun s => deref (k_inodes s !! p) s.
Definition get_dentry (p : Z) : kernel dentry := fun s => deref (k_dentries s !! p) s.
Definition get_file (p : Z) : kernel file := fun s => deref (k_files s !! p) s.

Definition put_inode (p : Z) (i : inode) : kernel unit :=
  modify (fun s => set_inodes (<[p := i]> (k_inodes s)) s).
Definition put_dentry (p : Z) (d : dentry) : kernel unit :=
  modify (fun s => set_dentries (<[p := d]> (k_dentries s)) s).
Definition put_file (p : Z) (f : file) : kernel unit :=
  modify (fun s => set_files (<[p := f]> (k_files s)) s).

(** [dentry->d_inode] of a chunkfs dentry, followed. *)
Definition inode_of_dentry (p : Z) : kernel Z :=
  d ← get_dentry p; deref (de_inode d).

(** chunkfs_i.h: the accessors of the private data. *)
Definition CHUNKFS_D (p : Z) : kernel dentry_priv :=
  d ← get_dentry p; deref (de_fsdata d).

Definition get_client_dentry (p : Z) : kernel Z :=
  dp ← CHUNKFS_D p; mret (dp_client_dentry dp).

Definition get_client_nd (p : Z) : kernel nameidata :=
  dp ← CHUNKFS_D p; mret (dp_client_nd dp).

Definition get_client_mnt (p : Z) : kernel Z :=
  dp ← CHUNKFS_D p; mret (nd_mnt (dp_client_nd dp)).

Definition get_client_inode (i : inode) : option cino := ii_client_inode i.

End state.
