(* ===== verification/Pool.v ===== *)
(** * Reading the pool from the disk (super.c)

    The first half of a mount: the pool summary, the device summary and the
    list of chunk summaries, with the client file system of every chunk, and
    the release of all of it at unmount.  The list of chunks on the disk is
    linked, so the loop over it takes fuel. *)

From S2P Require Import Prelude Monad Bytes OnDisk Device Decimal Client Kernel.

Section pool.
Context `{Host} `{ClientFS}.

(** The buffer for the mount path: [sizeof(path_prefix) + 10] bytes, and
    [path_prefix] is a pointer. *)
Definition mount_path_size : nat := 8 + 10.

Definition mount_path (chunk_id : Z) : string := "/chunk" +:+ print_llu chunk_id.

(** The mount and superblock of the client file system of a chunk. *)
Definition chunkfs_read_client_sb (chunk_id : Z) : kernel (Z * Z) :=
  let path := mount_path chunk_id in
  if decide (String.length path < mount_path_size)%nat then
    p ← lookup_path path;
    let '(m, d) := p in
    ci_mnt ← mntget m;
    let ci_sb := mnt_sb m in
    path_put m d;;
    mret (ci_mnt, ci_sb)
  else mthrow Undef.

(** The first chunk of the pool with this number. *)
Fixpoint find_in_clist (l : list chunk_info) (chunk_id : Z) : option chunk_info :=
  match l with
  | [] => None
  | ci :: rest => if ci_chunk_id ci =? chunk_id then Some ci else find_in_clist rest chunk_id
  end.

Fixpoint find_in_dlist (l : list dev_info) (chunk_id : Z) : option chunk_info :=
  match l with
  | [] => None
  | di :: rest =>
      match find_in_clist (di_clist di) chunk_id with
      | Some ci => Some ci
      | None => find_in_dlist rest chunk_id
      end
  end.

Definition chunkfs_find_chunk (pi : pool_info) (chunk_id : Z) : option chunk_info :=
  find_in_dlist (pi_dlist pi) chunk_id.

Definition chunkfs_free_chunk (ci : chunk_info) : kernel unit := brelse;; mntput;; kfree.

Fixpoint free_chunks (l : list chunk_info) : kernel unit :=
  match l with
  | [] => mret tt
  | ci :: rest => chunkfs_free_chunk ci;; free_chunks rest
  end.

Definition chunkfs_free_dev (di : dev_info) : kernel unit :=
  free_chunks (di_clist di);; brelse;; kfree.

Fixpoint free_devs (l : list dev_info) : kernel unit :=
  match l with
  | [] => mret tt
  | di :: rest => chunkfs_free_dev di;; free_devs rest
  end.

Definition chunkfs_free_pool (pi : pool_info) : kernel unit :=
  free_devs (pi_dlist pi);; brelse;; kfree.

Definition CHUNKFS_IS_ROOT (ci : chunk_info) : bool :=
  negb (Z.land (ci_flags ci) CHUNKFS_ROOT =? 0).

(** Reads the summary at [chunk_offset]: the chunk and the offset of the
    next one. *)
Definition chunkfs_read_chunk (chunk_offset : Z) : kernel (chunk_info * Z) :=
  ok ← kalloc;
  if negb ok then mthrow (Errno ENOMEM) else
  let blk := chunk_offset / CHUNKFS_BLK_SIZE in
  bh ← sb_bread blk;
  match bh with
  | None => kfree;; mthrow (Errno EIO)
  | Some buf =>
      if negb (check_chunk buf =? 0) then brelse;; kfree;; mthrow (Errno EIO) else
      let chunk := chunk_of_mem buf in
      let flags := cpu_to_le64 (c_flags chunk) in
      let next := cpu_to_le64 (c_next_chunk chunk) in
      let id := cpu_to_le64 (c_chunk_id chunk) in
      r ← try (chunkfs_read_client_sb id);
      match r with
      | inl e =>
          brelse;; kfree;;
          if e =? 0 then mthrow Bug else mthrow (Errno e)
      | inr (m, sb) => mret (mk_chunk_info blk sb m flags id (c_client_fs chunk), next)
      end
  end.

(** The loop variables of [chunkfs_read_dev]: the offset of the next chunk,
    the chunks read, the root chunk of the device, and whether the pool has
    its root device. *)
Record walk := mk_walk {
  w_offset : Z;
  w_chunks : list chunk_info;
  w_root : option chunk_info;
  w_pool_root : bool;
}.

(** Releases the device being read. *)
Definition abandon_dev (w : walk) : kernel unit :=
  free_chunks (w_chunks w);; brelse;; kfree.

Definition read_dev_step (w : walk) : kernel (walk + walk) :=
  if w_offset w =? 0 then mret (inr w) else
  r ← try (chunkfs_read_chunk (w_offset w));
  match r with
  | inl e => abandon_dev w;; mthrow (Errno e)
  | inr (ci, next) =>
      let chunks := w_chunks w ++ [ci] in
      if CHUNKFS_IS_ROOT ci then
        if w_pool_root w then mthrow Bug
        else if w_root w is Some _ then mthrow Bug
        else mret (inl (mk_walk next chunks (Some ci) true))
      else mret (inl (mk_walk next chunks (w_root w) (w_pool_root w)))
  end.

(** [None] is a return of 0 that leaves [*dev_info] unset: without a root
    chunk the function returns the last value of [retval], which is 0 once a
    chunk has been read. *)
Definition chunkfs_read_dev (fuel : nat) : kernel (option dev_info) :=
  ok ← kalloc;
  if negb ok then mthrow (Errno ENOMEM) else
  bh ← sb_bread CHUNKFS_DEV_BLK;
  match bh with
  | None => kfree;; mthrow (Errno EIO)
  | Some buf =>
      if negb (check_dev buf =? 0) then brelse;; kfree;; mthrow (Errno EIO) else
      let dev := dev_of_mem buf in
      let flags := cpu_to_le64 (d_flags dev) in
      let chunk_offset := cpu_to_le64 (d_innards_begin dev) in
      w ← loop fuel NoFuel read_dev_step (mk_walk chunk_offset [] None false);
      match w_root w with
      | None =>
          abandon_dev w;;
          match w_chunks w with
          | [] => mthrow (Errno EIO)
          | _ :: _ => mret None
          end
      | Some root => mret (Some (mk_dev_info (w_chunks w) (Some root) CHUNKFS_DEV_BLK flags))
      end
  end.

Definition chunkfs_read_pool (fuel : nat) : kernel pool_info :=
  ok ← kalloc;
  if negb ok then mthrow (Errno ENOMEM) else
  bh ← sb_bread CHUNKFS_POOL_BLK;
  match bh with
  | None => kfree;; mthrow (Errno EIO)
  | Some buf =>
      if negb (check_pool buf =? 0) then brelse;; kfree;; mthrow (Errno EIO) else
      let flags := cpu_to_le64 (p_flags (pool_of_mem buf)) in
      r ← try (chunkfs_read_dev fuel);
      match r with
      | inl e => brelse;; kfree;; mthrow (Errno e)
      | inr None => mthrow Undef
      | inr (Some di) =>
          mret (mk_pool_info [di] (if di_root_chunk di is Some _ then Some 0%nat else None)
                  CHUNKFS_POOL_BLK flags)
      end
  end.
End pool.
