(* ===== verification/KernelFacts.v ===== *)
(** * Reasoning about the kernel services

    [delta dk db dm s s']: from [s] to [s'] the module took [dk] more memory
    objects, [db] more buffer heads and [dm] more mount references than it
    gave back, holds the references to client dentries and inodes it held
    before (as counts: the maps may differ on zero entries), and changed
    nothing else. *)

From S2P Require Import Prelude Monad Bytes OnDisk Device Decimal Client Kernel.

Section facts.
Context `{ClientFS}.

Record delta (dk db dm : Z) (s s' : kstate) : Prop := {
  dl_fs : k_fs s' = k_fs s;
  dl_data : k_data s' = k_data s;
  dl_bad : k_bad s' = k_bad s;
  dl_oom : k_oom s = [] -> k_oom s' = [];
  dl_kmem : k_kmem s' = k_kmem s + dk;
  dl_bh : k_bh s' = k_bh s + db;
  dl_mnt : k_mnt s' = k_mnt s + dm;
  dl_opens : k_opens s' = k_opens s;
  dl_dref d : count (k_dref s') d = count (k_dref s) d;
  dl_iref i : count (k_iref s') i = count (k_iref s) i;
  dl_pool : k_pool s' = k_pool s;
  dl_inodes : k_inodes s' = k_inodes s;
  dl_dentries : k_dentries s' = k_dentries s;
  dl_files : k_files s' = k_files s;
  dl_locks : k_locks s' = k_locks s;
  dl_icount : k_icount s' = k_icount s;
  dl_root : k_root s' = k_root s;
}.

Lemma delta_refl s : delta 0 0 0 s s.
Proof. split; auto with lia. Qed.

Lemma delta_trans dk db dm dk' db' dm' s1 s2 s3 :
  delta dk db dm s1 s2 -> delta dk' db' dm' s2 s3 -> delta (dk + dk') (db + db') (dm + dm') s1 s3.
Proof.
  intros [] []. split; try congruence; try (intros; etransitivity; eauto; fail); try lia.
  all: intros; by rewrite dl_dref1 || by rewrite dl_iref1 || auto.
Qed.

Lemma delta_eq dk db dm dk' db' dm' s s' :
  delta dk' db' dm' s s' -> dk = dk' -> db = db' -> dm = dm' -> delta dk db dm s s'.
Proof. by intros ? -> -> ->. Qed.

Lemma count_insert_eq {K} `{Countable K} (m : gmap K Z) k x : count (<[k := x]> m) k = x.
Proof. unfold count. by rewrite lookup_insert_eq. Qed.

Lemma count_insert_ne {K} `{Countable K} (m : gmap K Z) k j x :
  k <> j -> count (<[k := x]> m) j = count m j.
Proof. intros ?. unfold count. by rewrite lookup_insert_ne. Qed.

(** ** Rules

    Each service, from a state that is [delta] away from a fixed one. *)

Section rules.
Context {s0 : kstate} {dk db dm : Z}.

Lemma wp_kalloc s Q :
  delta dk db dm s0 s ->
  (forall s', delta (dk + 1) db dm s0 s' -> Q (inr true) s') ->
  (forall s', delta dk db dm s0 s' -> k_oom s0 <> [] -> Q (inr false) s') ->
  wp kalloc Q s.
Proof.
  intros Hd Hok Hfail. unfold wp, kalloc. destruct (k_oom s) as [|[] rest] eqn:Ho; simpl.
  - apply Hok. destruct Hd. split; simpl; auto; lia.
  - apply Hfail; [| intros Hn; apply (dl_oom _ _ _ _ _ Hd) in Hn; congruence].
    destruct Hd. split; simpl; auto. intros Hn. apply dl_oom0 in Hn. congruence.
  - apply Hok. destruct Hd. split; simpl; auto; [| lia].
    intros Hn. apply dl_oom0 in Hn. congruence.
Qed.

Lemma wp_kfree s Q :
  delta dk db dm s0 s -> (forall s', delta (dk - 1) db dm s0 s' -> Q (inr tt) s') -> wp kfree Q s.
Proof. intros Hd Hok. apply Hok. destruct Hd. split; simpl; auto; lia. Qed.

Lemma wp_bread blk s Q :
  delta dk db dm s0 s ->
  (forall s', k_bad s0 blk = false -> delta dk (db + 1) dm s0 s' ->
         Q (inr (Some (block_at (k_data s0) blk))) s') ->
  (forall s', k_bad s0 blk = true -> delta dk db dm s0 s' -> Q (inr None) s') ->
  wp (sb_bread blk) Q s.
Proof.
  intros Hd Hok Hbad. unfold wp, sb_bread. rewrite (dl_bad _ _ _ _ _ Hd), (dl_data _ _ _ _ _ Hd).
  destruct (k_bad s0 blk) eqn:Hb; simpl; [by apply Hbad |].
  apply Hok; [done |]. destruct Hd. split; simpl; auto; lia.
Qed.

Lemma wp_brelse s Q :
  delta dk db dm s0 s -> (forall s', delta dk (db - 1) dm s0 s' -> Q (inr tt) s') -> wp brelse Q s.
Proof. intros Hd Hok. apply Hok. destruct Hd. split; simpl; auto; lia. Qed.

Lemma wp_mntput s Q :
  delta dk db dm s0 s -> (forall s', delta dk db (dm - 1) s0 s' -> Q (inr tt) s') -> wp mntput Q s.
Proof. intros Hd Hok. apply Hok. destruct Hd. split; simpl; auto; lia. Qed.
End rules.

Lemma wp_ret {A} (a : A) (Q : stop + A -> kstate -> Prop) s : Q (inr a) s -> wp (mret a) Q s.
Proof. done. Qed.

Lemma wp_throw {A} e (Q : stop + A -> kstate -> Prop) s : Q (inl e) s -> wp (mthrow e) Q s.
Proof. done. Qed.

Lemma wp_try {A} (m : kernel A) (Q : stop + (Z + A) -> kstate -> Prop) s :
  wp m (fun r s' => match r with
               | inr a => Q (inr (inr a)) s'
               | inl (Errno e) => Q (inr (inl e)) s'
               | inl x => Q (inl x) s'
               end) s ->
  wp (try m) Q s.
Proof. unfold wp, try. by destruct (m s) as [[[]|a] s']. Qed.

Lemma try_ok {A} (m : kernel A) s a s' : m s = (inr a, s') -> try m s = (inr (inr a), s').
Proof. unfold try. by intros ->. Qed.

Lemma try_errno {A} (m : kernel A) s e s' : m s = (inl (Errno e), s') -> try m s = (inr (inl e), s').
Proof. unfold try. by intros ->. Qed.
End facts.

(** ** The mutex of the module *)

Section mutex.
Context `{Mutexes}.

(** The count when the mutex is unlocked and then locked again. *)
Definition relock (n : Z) : Z := mutex_down (mutex_up n).

Lemma mutex_up_positive n : 0 < mutex_up n.
Proof. unfold mutex_up. destruct (Z.leb_spec n 0); [lia |]. destruct counts_strays; lia. Qed.

Lemma relock_checked n : counts_strays = false -> relock n = 0.
Proof. intros Hc. unfold relock, mutex_down. by rewrite Hc. Qed.

(** A free mutex is held afterwards, or free when strays count. *)
Lemma relock_free : relock 1 = if counts_strays then 1 else 0.
Proof. unfold relock, mutex_down, mutex_up. by destruct counts_strays. Qed.

Context `{ClientFS}.

(** The state with the mutex unlocked and locked again. *)
Definition locked (s : kstate) : kstate :=
  set_locks (mk_locks (relock (lk_kernel (k_locks s))) (lk_inodes (k_locks s))) s.

Lemma lock_kernel_up n s :
  lk_kernel (k_locks s) = mutex_up n ->
  lock_kernel s = (inr tt, set_locks (mk_locks (relock n) (lk_inodes (k_locks s))) s).
Proof.
  intros Hn. unfold lock_kernel. rewrite Hn. by rewrite (proj2 (Z.leb_gt _ _) (mutex_up_positive n)).
Qed.

Lemma lock_kernel_held s : lk_kernel (k_locks s) = 0 -> lock_kernel s = (inl Blocked, s).
Proof. intros Hn. unfold lock_kernel. by rewrite Hn. Qed.
End mutex.

(** One step of a computation, by the rule of its first operation; the state
    reached is introduced with its [delta]. *)
Ltac wp_op rule :=
  apply wp_bind; (eapply rule; [eassumption | ..]); intros ? ?.

#[export] Hint Resolve delta_refl : chunkfs.
