(* ===== verification/Judge.v ===== *)
(** * What calls keep, whatever they are given

    Two judgements on computations of the module that compose along the code
    and need no knowledge of the values it works on.  [runs R m Q s]: [m] does
    not wait for a mutex, and when it returns, with a value or with an errno,
    the state is related to [s] by [R]; a value satisfies [Q].  [no_errno m]:
    [m] returns no errno.  The relations used are [quiet], for what leaves
    the module's own structures alone, and [evolves], for what changes them
    as a running file system may. *)

From S2P Require Import Prelude Monad Decimal Client Kernel KernelFacts.

Create HintDb quiet.
Create HintDb evolves.
Create HintDb no_errno.

(** ** The judgements *)

Section judge.
Context `{ClientFS}.

(** A computation that came back: it returned a value or an error. *)
Definition returned {A} (r : stop + A) : bool :=
  match r with inr _ | inl (Errno _) => true | inl _ => false end.

Definition runs {A} (R : relation kstate) (m : kernel A) (Q : A -> kstate -> Prop) (s : kstate) : Prop :=
  match m s with
  | (inr a, s') => R s s' /\ Q a s'
  | (inl (Errno _), s') => R s s'
  | (inl Blocked, _) => False
  | (inl _, _) => True
  end.

(** From every state. *)
Definition keeps {A} (R : relation kstate) (m : kernel A) : Prop := forall s, runs R m (fun _ _ => True) s.

Section rules.
Context {R : relation kstate} `{!PreOrder R}.

Lemma runs_ret {A} (a : A) (Q : A -> kstate -> Prop) s : Q a s -> runs R (mret a) Q s.
Proof. done. Qed.

Lemma runs_errno {A} e (Q : A -> kstate -> Prop) s : runs R (mthrow (Errno e)) Q s.
Proof. unfold runs. simpl. reflexivity. Qed.

Lemma runs_deref {A} (o : option A) (Q : A -> kstate -> Prop) s :
  (forall a, o = Some a -> Q a s) -> runs R (deref o) Q s.
Proof. intros HQ. destruct o as [a|]; [| done]. split; [done | by apply HQ]. Qed.

Lemma runs_gets {A} (f : kstate -> A) (Q : A -> kstate -> Prop) s : Q (f s) s -> runs R (gets f) Q s.
Proof. done. Qed.

Lemma runs_mono {A} (m : kernel A) (Q Q' : A -> kstate -> Prop) s :
  runs R m Q s -> (forall a s', R s s' -> Q a s' -> Q' a s') -> runs R m Q' s.
Proof. unfold runs. intros Hm HQ. destruct (m s) as [[[]|a] s']; naive_solver. Qed.

Lemma runs_bind {A B} (m : kernel A) (f : A -> kernel B) (Q : A -> kstate -> Prop) Q' s :
  runs R m Q s -> (forall a s', R s s' -> Q a s' -> runs R (f a) Q' s') -> runs R (m ≫= f) Q' s.
Proof.
  unfold runs, mbind, stm_bind. intros Hm Hf. destruct (m s) as [[[]|a] s1]; try done.
  destruct Hm as [HR HQ]. specialize (Hf a s1 HR HQ).
  destruct (f a s1) as [[[]|b] s2]; try done.
  - by transitivity s1.
  - destruct Hf as [Hf HQ']. split; [by transitivity s1 | done].
Qed.

Lemma runs_try {A} (m : kernel A) (Q : A -> kstate -> Prop) s :
  runs R m Q s -> runs R (try m) (fun r s' => match r with inr a => Q a s' | inl _ => True end) s.
Proof. unfold runs, try. by destruct (m s) as [[[]|a] s']. Qed.

Lemma runs_weaken {A} (m : kernel A) (Q : A -> kstate -> Prop) s :
  runs R m Q s -> runs R m (fun _ _ => True) s.
Proof. intros Hm. by eapply runs_mono. Qed.

Lemma keeps_bind {A B} (m : kernel A) (f : A -> kernel B) :
  keeps R m -> (forall a, keeps R (f a)) -> keeps R (m ≫= f).
Proof. intros Hm Hf s. eapply runs_bind; [apply Hm |]. intros a s' _ _. apply Hf. Qed.

Lemma keeps_try {A} (m : kernel A) : keeps R m -> keeps R (try m).
Proof. intros Hm s. eapply runs_mono; [apply runs_try, Hm | done]. Qed.

Lemma keeps_ret {A} (a : A) : keeps R (mret a).
Proof. by intros s. Qed.

Lemma keeps_errno {A} e : keeps R (mthrow (Errno e) : kernel A).
Proof. intros s. apply runs_errno. Qed.

Lemma keeps_bug {A} : keeps R (mthrow Bug : kernel A).
Proof. by intros s. Qed.

Lemma keeps_undef {A} : keeps R (mthrow Undef : kernel A).
Proof. by intros s. Qed.

Lemma keeps_deref {A} (o : option A) : keeps R (deref o).
Proof. intros s. by apply runs_deref. Qed.

Lemma keeps_gets {A} (f : kstate -> A) : keeps R (gets f).
Proof. by intros s. Qed.

Lemma keeps_loop {A B} fuel (body : A -> kernel (A + B)) a :
  (forall a, keeps R (body a)) -> keeps R (loop fuel NoFuel body a).
Proof.
  intros Hb. revert a. induction fuel as [|n IH]; intros a; simpl; [by intros s |].
  apply keeps_bind; [apply Hb | intros [a' | b]]; [apply IH | apply keeps_ret].
Qed.
End rules.

(** A call that keeps a finer relation keeps a coarser one. *)
Lemma runs_sub {A} (R R' : relation kstate) (m : kernel A) Q s :
  (forall s', R s s' -> R' s s') -> runs R m Q s -> runs R' m Q s.
Proof. unfold runs. intros HR. destruct (m s) as [[[]|a] s']; naive_solver. Qed.

(** ** No errno *)

Definition no_errno {A} (m : kernel A) : Prop := forall s e s', m s <> (inl (Errno e), s').

Lemma no_errno_bind {A B} (m : kernel A) (f : A -> kernel B) :
  no_errno m -> (forall a, no_errno (f a)) -> no_errno (m ≫= f).
Proof.
  intros Hm Hf s e s'. unfold mbind, stm_bind. destruct (m s) as [[x|a] s1] eqn:He; [| apply Hf].
  intros [= -> ->]. by eapply Hm.
Qed.

Lemma no_errno_try {A} (m : kernel A) : no_errno (try m).
Proof. intros s e s'. unfold try. by destruct (m s) as [[[]|]]. Qed.

Lemma no_errno_ret {A} (a : A) : no_errno (mret a).
Proof. by intros s. Qed.

Lemma no_errno_bug {A} : no_errno (mthrow Bug : kernel A).
Proof. by intros s. Qed.

Lemma no_errno_undef {A} : no_errno (mthrow Undef : kernel A).
Proof. by intros s. Qed.

Lemma no_errno_deref {A} (o : option A) : no_errno (deref o).
Proof. by destruct o. Qed.

Lemma no_errno_gets {A} (f : kstate -> A) : no_errno (gets f).
Proof. by intros s. Qed.

Lemma no_errno_modify f : no_errno (modify f : kernel unit).
Proof. by intros s. Qed.

Lemma no_errno_loop {A B} fuel (body : A -> kernel (A + B)) a :
  (forall a, no_errno (body a)) -> no_errno (loop fuel NoFuel body a).
Proof.
  intros Hb. revert a. induction fuel as [|n IH]; intros a; simpl; [by intros s |].
  apply no_errno_bind; [apply Hb | intros [a' | b]]; [apply IH | apply no_errno_ret].
Qed.

Lemma no_errno_kalloc : no_errno kalloc.
Proof. intros s e s'. unfold kalloc. by destruct (k_oom s) as [|[] ?]. Qed.

Lemma no_errno_get_inode p : no_errno (get_inode p).
Proof. intros s e s'. unfold get_inode. by destruct (_ !! _). Qed.

Lemma no_errno_get_dentry p : no_errno (get_dentry p).
Proof. intros s e s'. unfold get_dentry. by destruct (_ !! _). Qed.

Lemma no_errno_dget d : no_errno (dget d).
Proof. by intros s. Qed.

Lemma no_errno_dput d : no_errno (dput d).
Proof. by intros s. Qed.

Lemma no_errno_mntget m : no_errno (mntget m).
Proof. by intros s. Qed.
End judge.

#[export] Hint Resolve no_errno_try no_errno_ret no_errno_bug no_errno_undef no_errno_deref no_errno_gets
  no_errno_modify no_errno_kalloc no_errno_get_inode no_errno_get_dentry no_errno_dget no_errno_dput
  no_errno_mntget : no_errno.

(** One step along the code, and all of them. *)
Ltac no_errno1 :=
  first
    [ solve [auto with no_errno]
    | simple apply no_errno_bind; [| intros ?]
    | simple apply no_errno_loop; intros ?
    | case_match ].
Ltac no_errno := repeat no_errno1.
