(* ===== verification/MountProps.v ===== *)
(** * mkfs and mount

    What [chunkfs_read_pool] finds on a device: the chunks that mkfs wrote,
    on a little-endian host; an error on a big-endian one, since mkfs uses
    the little-endian conversions whatever the host; and the behaviour of the
    code on images that mkfs does not write (a list of chunks with a cycle,
    no root chunk, two root chunks). *)

From S2P Require Import Prelude Monad Bytes OnDisk Device Decimal Client Kernel KernelFacts Mkfs MkfsSpec MkfsProps Pool PoolProps.

(** Reduces a decided test or match, without unfolding the layouts. *)
Ltac go := cbv beta iota; cbn [negb Z.eqb].

Section checks.
Context `{Host} `{ClientFS}.

(** ** Checks of typed structures *)

Lemma check_chunk_ok c rest :
  typed c -> le32_to_cpu (c_magic c) = CHUNKFS_CHUNK_MAGIC -> le32_to_cpu (c_chksum c) = CHKSUM ->
  check_chunk (chunk_to_mem c ++ rest) = 0.
Proof.
  intros Hc Hm Hs. unfold check_chunk, check_metadata, check_magic, check_chksum.
  pose proof (chunk_of_to c rest Hc) as Hof.
  change (x_magic ?b) with (c_magic (chunk_of_mem b)).
  change (x_chksum ?b) with (c_chksum (chunk_of_mem b)). by rewrite Hof, Hm, Hs.
Qed.

Lemma check_dev_ok c rest :
  typed c -> le32_to_cpu (d_magic c) = CHUNKFS_DEV_MAGIC -> le32_to_cpu (d_chksum c) = CHKSUM ->
  check_dev (dev_to_mem c ++ rest) = 0.
Proof.
  intros Hc Hm Hs. unfold check_dev, check_metadata, check_magic, check_chksum.
  pose proof (dev_of_to c rest Hc) as Hof.
  change (x_magic ?b) with (d_magic (dev_of_mem b)).
  change (x_chksum ?b) with (d_chksum (dev_of_mem b)). by rewrite Hof, Hm, Hs.
Qed.

Lemma check_pool_value c rest :
  typed c ->
  check_pool (pool_to_mem c ++ rest) =
  if negb (le32_to_cpu (p_magic c) =? CHUNKFS_SUPER_MAGIC) then 1
  else if negb (le32_to_cpu (p_chksum c) =? CHKSUM) then 2 else 0.
Proof.
  intros Hc. unfold check_pool, check_metadata, check_magic, check_chksum.
  pose proof (pool_of_to c rest Hc) as Hof.
  change (x_magic ?b) with (p_magic (pool_of_mem b)).
  change (x_chksum ?b) with (p_chksum (pool_of_mem b)). by rewrite Hof.
Qed.

Lemma mount_path_fits k : 0 <= k < 10 ^ 11 -> (String.length (mount_path k) < mount_path_size)%nat.
Proof.
  intros Hk. pose proof (length_print_llu k 11 Hk ltac:(lia)).
  change (String.length (mount_path k)) with (6 + String.length (print_llu k))%nat.
  unfold mount_path_size. lia.
Qed.

(** ** A chunk summary on the disk *)

(** The chunk at [off] is [c], valid, and its client file system is mounted
    as [m]. *)
Record chunk_on (s : kstate) (off : Z) (c : chunkfs_chunk) (m : Z) : Prop := {
  on_readable : k_bad s (off / CHUNKFS_BLK_SIZE) = false;
  on_block : exists rest, block_at (k_data s) (off / CHUNKFS_BLK_SIZE) = chunk_to_mem c ++ rest;
  on_typed : typed c;
  on_magic : le32_to_cpu (c_magic c) = CHUNKFS_CHUNK_MAGIC;
  on_chksum : le32_to_cpu (c_chksum c) = CHKSUM;
  on_id : 0 <= cpu_to_le64 (c_chunk_id c) < 10 ^ 11;
  on_mounted : exists d, kern_path (k_fs s) (mount_path (cpu_to_le64 (c_chunk_id c))) = inr (m, d);
}.

(** What [chunkfs_read_chunk] makes of it. *)
Definition info_of (off : Z) (c : chunkfs_chunk) (m : Z) : chunk_info :=
  mk_chunk_info (off / CHUNKFS_BLK_SIZE) (mnt_sb m) m (cpu_to_le64 (c_flags c))
    (cpu_to_le64 (c_chunk_id c)) (c_client_fs c).

Lemma wp_read_chunk_on s0 dk db dm off c m s Q :
  delta dk db dm s0 s -> k_oom s0 = [] -> chunk_on s0 off c m ->
  (forall s', delta (dk + 1) (db + 1) (dm + 1) s0 s' ->
     Q (inr (info_of off c m, cpu_to_le64 (c_next_chunk c))) s') ->
  wp (chunkfs_read_chunk off) Q s.
Proof.
  intros Hd Hoom [Hbad [rest Hblk] Ht Hm Hs Hid [d Hmnt]] Hok. unfold chunkfs_read_chunk.
  apply wp_bind. eapply wp_kalloc; [done | intros s1 Hd1; go | done].
  apply wp_bind. eapply wp_bread; [done | intros s2 _ Hd2; go | congruence].
  rewrite Hblk, check_chunk_ok, chunk_of_to by done. go.
  apply wp_bind, wp_try. eapply wp_read_client_sb; [done | | |].
  - intros m' d' s3 Hk Hd3. rewrite Hmnt in Hk. injection Hk as <- <-. by apply Hok.
  - intros e Hk. congruence.
  - intros Hl. pose proof (mount_path_fits _ Hid). lia.
Qed.

(** One turn of the loop over a chunk that is not the root. *)
Lemma wp_step_plain s0 dk db dm c m w s Q :
  delta dk db dm s0 s -> k_oom s0 = [] -> w_offset w <> 0 -> chunk_on s0 (w_offset w) c m ->
  Z.land (cpu_to_le64 (c_flags c)) CHUNKFS_ROOT = 0 ->
  (forall s', delta (dk + 1) (db + 1) (dm + 1) s0 s' ->
     Q (inr (inl (mk_walk (cpu_to_le64 (c_next_chunk c))
       (w_chunks w ++ [info_of (w_offset w) c m]) (w_root w) (w_pool_root w)))) s') ->
  wp (read_dev_step w) Q s.
Proof.
  intros Hd Hoom Hoff Hon Hroot Hok. unfold read_dev_step.
  rewrite (proj2 (Z.eqb_neq _ _) Hoff). apply wp_bind, wp_try.
  eapply wp_read_chunk_on; [done.. |]. intros s1 Hd1.
  assert (CHUNKFS_IS_ROOT (info_of (w_offset w) c m) = false) as ->
    by (unfold CHUNKFS_IS_ROOT, info_of; simpl; by rewrite Hroot).
  by apply Hok.
Qed.

(** ... and over a root chunk, when none was found before. *)
Lemma wp_step_root s0 dk db dm c m w s Q :
  delta dk db dm s0 s -> k_oom s0 = [] -> w_offset w <> 0 -> chunk_on s0 (w_offset w) c m ->
  Z.land (cpu_to_le64 (c_flags c)) CHUNKFS_ROOT <> 0 ->
  w_pool_root w = false -> w_root w = None ->
  (forall s', delta (dk + 1) (db + 1) (dm + 1) s0 s' ->
     Q (inr (inl (mk_walk (cpu_to_le64 (c_next_chunk c))
       (w_chunks w ++ [info_of (w_offset w) c m]) (Some (info_of (w_offset w) c m)) true))) s') ->
  wp (read_dev_step w) Q s.
Proof.
  intros Hd Hoom Hoff Hon Hroot Hp Hr Hok. unfold read_dev_step.
  rewrite (proj2 (Z.eqb_neq _ _) Hoff). apply wp_bind, wp_try.
  eapply wp_read_chunk_on; [done.. |]. intros s1 Hd1.
  assert (CHUNKFS_IS_ROOT (info_of (w_offset w) c m) = true) as ->.
  { unfold CHUNKFS_IS_ROOT, info_of; simpl. by rewrite (proj2 (Z.eqb_neq _ _) Hroot). }
  rewrite Hp, Hr. by apply Hok.
Qed.
End checks.

(** ** The image of mkfs on a little-endian host *)

Section mkfs_mount.
Context `{Host} `{ClientFS}.

(** The client file system of every chunk is mounted, chunk [k]'s as [mnts k]. *)
Definition clients_mounted (f : fs) (n : Z) (mnts : Z -> Z) : Prop :=
  forall k, 1 <= k <= n -> exists d, kern_path f (mount_path k) = inr (mnts k, d).

(** What the mount makes of chunk [k]. *)
Definition mounted_chunk (mnts : Z -> Z) (k : Z) : chunk_info := {|
  ci_bh := chunk_pos k / CHUNKFS_BLK_SIZE;
  ci_sb := mnt_sb (mnts k);
  ci_mnt := mnts k;
  ci_flags := if k =? 1 then CHUNKFS_ROOT else 0;
  ci_chunk_id := k;
  ci_client_fs := zeros CHUNKFS_CLIENT_NAME_LEN;
|}.

(** Chunks [1] to [n] in order. *)
Definition mounted_chunks (mnts : Z -> Z) (n : nat) : list chunk_info :=
  map (fun i => mounted_chunk mnts (Z.of_nat i)) (seq 1 n).

Definition mounted_pool (mnts : Z -> Z) (n : nat) : pool_info := {|
  pi_dlist := [mk_dev_info (mounted_chunks mnts n) (Some (mounted_chunk mnts 1)) CHUNKFS_DEV_BLK 0];
  pi_root_dev := Some 0%nat;
  pi_bh := CHUNKFS_POOL_BLK;
  pi_flags := 0;
|}.

Lemma mounted_chunks_S mnts n :
  mounted_chunks mnts (S n) = mounted_chunks mnts n ++ [mounted_chunk mnts (Z.of_nat (S n))].
Proof. unfold mounted_chunks. by rewrite seq_S, map_app. Qed.

Lemma length_mounted_chunks mnts n : length (mounted_chunks mnts n) = n.
Proof. unfold mounted_chunks. by rewrite length_map, length_seq. Qed.

Context (le_host : big_endian = false).

Lemma le64_id x : cpu_to_le64 x = x.
Proof. unfold cpu_to_le64, cpu_to_le. by rewrite le_host. Qed.

Lemma le32_id x : le32_to_cpu x = x.
Proof. unfold le32_to_cpu, cpu_to_le. by rewrite le_host. Qed.

Lemma spec_chunk_on s raw mnts k :
  formatted (k_data s) raw -> (forall blk, k_bad s blk = false) ->
  clients_mounted (k_fs s) (nchunks raw) mnts ->
  2 <= raw < 2 ^ 63 -> nchunks raw < 10 ^ 11 -> 1 <= k <= nchunks raw ->
  chunk_on s (chunk_pos k) (spec_chunk raw k) (mnts k) /\
  info_of (chunk_pos k) (spec_chunk raw k) (mnts k) = mounted_chunk mnts k.
Proof.
  intros Hf Hbad Hm Hraw Hn Hk. split.
  - split; simpl; rewrite ?le32_id, ?le64_id; auto.
    + exists (zeros (Z.to_nat CHUNKFS_BLK_SIZE - length (chunk_to_mem (spec_chunk raw k)))).
      by apply (fmt_chunk _ _ Hf).
    + apply spec_chunk_typed; lia.
    + lia.
  - unfold info_of, mounted_chunk; simpl. by rewrite !le64_id.
Qed.

(** The walk after the first [j] chunks. *)
Definition walk_after (mnts : Z -> Z) (j : nat) (next : Z) : walk :=
  mk_walk next (mounted_chunks mnts j)
    (if decide (j = 0)%nat then None else Some (mounted_chunk mnts 1)) (bool_decide (j <> 0%nat)).

Lemma wp_walk_step s0 dk db dm raw mnts j s Q :
  delta dk db dm s0 s -> k_oom s0 = [] -> formatted (k_data s0) raw ->
  (forall blk, k_bad s0 blk = false) -> clients_mounted (k_fs s0) (nchunks raw) mnts ->
  2 <= raw < 2 ^ 63 -> nchunks raw < 10 ^ 11 -> Z.of_nat j < nchunks raw ->
  (forall s', delta (dk + 1) (db + 1) (dm + 1) s0 s' ->
     Q (inr (inl (walk_after mnts (S j) (chunk_link raw (Z.of_nat (S j)))))) s') ->
  wp (read_dev_step (walk_after mnts j (chunk_pos (Z.of_nat (S j))))) Q s.
Proof.
  intros Hd Hoom Hf Hbad Hm Hraw Hn Hj Hok.
  destruct (spec_chunk_on s0 raw mnts (Z.of_nat (S j)) Hf Hbad Hm Hraw Hn ltac:(lia)) as [Hon Hinfo].
  pose proof (chunk_bounds raw (Z.of_nat (S j)) ltac:(lia) ltac:(lia)) as [Hpos _].
  destruct j as [|j].
  - eapply wp_step_root; [done | done | simpl w_offset; lia | exact Hon | | done | done |].
    { simpl c_flags. rewrite le64_id. done. }
    intros s' Hd'. specialize (Hok s' Hd'). simpl c_next_chunk. rewrite le64_id.
    simpl w_offset. rewrite Hinfo. exact Hok.
  - eapply wp_step_plain; [done | done | simpl w_offset; lia | exact Hon | |].
    { unfold spec_chunk; cbn [c_flags]. rewrite le64_id.
      by rewrite (proj2 (Z.eqb_neq _ _)) by lia. }
    intros s' Hd'. specialize (Hok s' Hd'). cbn [spec_chunk c_next_chunk]. rewrite le64_id.
    unfold walk_after in *. cbn [w_offset w_chunks w_root w_pool_root]. rewrite Hinfo.
    rewrite mounted_chunks_S in Hok. exact Hok.
Qed.

Lemma walk_link raw j :
  raw < 2 ^ 63 -> raw <> chunk_pos (nchunks raw + 2) + 1 -> 1 <= j <= nchunks raw ->
  chunk_link raw j = if j <? nchunks raw then chunk_pos (j + 1) else 0.
Proof.
  intros Hraw Hne Hj. pose proof (nchunks_spec raw (j + 1) ltac:(lia)) as Hn.
  assert (chunk_pos (j + 1 + 1) = chunk_pos (j + 1) + CHUNKFS_CHUNK_SIZE) as Hp
    by apply chunk_pos_next.
  unfold chunk_link. rewrite <-Hp.
  assert (j = nchunks raw -> raw <> chunk_pos (j + 1 + 1) + 1).
  { intros ->. by replace (nchunks raw + 1 + 1) with (nchunks raw + 2) by lia. }
  destruct (Z.ltb_spec (chunk_pos (j + 1 + 1)) raw), (Z.ltb_spec j (nchunks raw)); lia.
Qed.

Lemma wp_walk s0 raw mnts fuel j dk db dm s Q :
  delta dk db dm s0 s -> k_oom s0 = [] -> formatted (k_data s0) raw ->
  (forall blk, k_bad s0 blk = false) -> clients_mounted (k_fs s0) (nchunks raw) mnts ->
  2 <= raw < 2 ^ 63 -> nchunks raw < 10 ^ 11 -> raw <> chunk_pos (nchunks raw + 2) + 1 ->
  let n := nchunks raw in
  let left := n - Z.of_nat j in
  0 <= left < Z.of_nat fuel ->
  (forall s', delta (dk + left) (db + left) (dm + left) s0 s' ->
         Q (inr (walk_after mnts (Z.to_nat n) 0)) s') ->
  wp (loop fuel NoFuel read_dev_step
        (walk_after mnts j (if Z.of_nat j <? n then chunk_pos (Z.of_nat (S j)) else 0))) Q s.
Proof.
  intros Hd Hoom Hf Hbad Hm Hraw Hn Hne n left Hfuel Hok. subst n left.
  revert j dk db dm s Hd Hfuel Hok. induction fuel as [|fuel IH]; intros j dk db dm s Hd Hfuel Hok; [lia |].
  simpl. apply wp_bind. destruct (Z.ltb_spec (Z.of_nat j) (nchunks raw)) as [Hlt | Hge].
  - eapply wp_walk_step; [done.. |]. intros s' Hd'. rewrite walk_link by lia.
    replace (Z.of_nat (S j) + 1) with (Z.of_nat (S (S j))) by lia.
    eapply IH; [exact Hd' | lia |]. intros s2 Hd2. apply Hok.
    eapply delta_eq; [exact Hd2 | lia..].
  - assert (j = Z.to_nat (nchunks raw)) as -> by lia. apply Hok.
    eapply delta_eq; [exact Hd | lia..].
Qed.

Lemma spec_dev_block s raw :
  formatted (k_data s) raw -> 2 <= raw < 2 ^ 63 ->
  check_dev (block_at (k_data s) CHUNKFS_DEV_BLK) = 0 /\
  dev_of_mem (block_at (k_data s) CHUNKFS_DEV_BLK) = spec_dev raw.
Proof.
  intros Hf Hraw. pose proof (spec_dev_typed raw Hraw).
  rewrite (fmt_dev _ _ Hf). unfold block_image. split; [| by apply dev_of_to].
  apply check_dev_ok; [done | apply le32_id..].
Qed.

Lemma wp_read_dev_mkfs s0 raw mnts fuel dk db dm s Q :
  delta dk db dm s0 s -> k_oom s0 = [] -> formatted (k_data s0) raw ->
  (forall blk, k_bad s0 blk = false) -> clients_mounted (k_fs s0) (nchunks raw) mnts ->
  2 <= raw < 2 ^ 63 -> 1 <= nchunks raw < 10 ^ 11 -> raw <> chunk_pos (nchunks raw + 2) + 1 ->
  nchunks raw < Z.of_nat fuel ->
  (forall s', delta (dk + 1 + nchunks raw) (db + 1 + nchunks raw) (dm + nchunks raw) s0 s' ->
     Q (inr (Some (mk_dev_info (mounted_chunks mnts (Z.to_nat (nchunks raw)))
                     (Some (mounted_chunk mnts 1)) CHUNKFS_DEV_BLK 0))) s') ->
  wp (chunkfs_read_dev fuel) Q s.
Proof.
  intros Hd Hoom Hf Hbad Hm Hraw Hn Hne Hfuel Hok. unfold chunkfs_read_dev.
  apply wp_bind. eapply wp_kalloc; [done | intros s1 Hd1; go | done].
  apply wp_bind. eapply wp_bread; [done | intros s2 _ Hd2; go | by rewrite Hbad].
  destruct (spec_dev_block s0 raw Hf Hraw) as [-> ->]. go.
  cbn [spec_dev d_innards_begin d_flags]. rewrite !le64_id. apply wp_bind.
  pose proof (fun P => wp_walk s0 raw mnts fuel 0 _ _ _ s2 P Hd2) as Hwalk. cbv zeta in Hwalk.
  change (Z.of_nat 0) with 0 in Hwalk. rewrite (proj2 (Z.ltb_lt 0 (nchunks raw))) in Hwalk by lia.
  eapply Hwalk; [done.. | lia | done | lia |].
  intros s3 Hd3. unfold walk_after. cbn [w_root w_chunks].
  rewrite decide_False by lia. apply wp_ret, Hok. eapply delta_eq; [exact Hd3 | lia..].
Qed.

Lemma find_mounted mnts n id :
  find_in_clist (mounted_chunks mnts n) id =
  if decide (1 <= id <= Z.of_nat n) then Some (mounted_chunk mnts id) else None.
Proof.
  assert (forall m k, find_in_clist (map (fun i => mounted_chunk mnts (Z.of_nat i)) (seq k m)) id =
    if decide (Z.of_nat k <= id < Z.of_nat (k + m)) then Some (mounted_chunk mnts id) else None)
    as Hgen.
  { intros m. induction m as [|m IH]; intros k; simpl; [by rewrite decide_False by lia |].
    destruct (Z.eqb_spec (Z.of_nat k) id) as [<- |].
    - by rewrite decide_True by lia.
    - rewrite IH. repeat case_decide; lia || done. }
  unfold mounted_chunks. rewrite Hgen. repeat case_decide; lia || done.
Qed.

Lemma mount_mkfs_run fuel s raw mnts :
  formatted (k_data s) raw -> (forall blk, k_bad s blk = false) -> k_oom s = [] ->
  clients_mounted (k_fs s) (nchunks raw) mnts ->
  2 <= raw < 2 ^ 63 -> 1 <= nchunks raw < 10 ^ 11 -> raw <> chunk_pos (nchunks raw + 2) + 1 ->
  nchunks raw < Z.of_nat fuel ->
  let n := Z.to_nat (nchunks raw) in
  exists s', chunkfs_read_pool fuel s = (inr (mounted_pool mnts n), s') /\
    delta (2 + nchunks raw) (2 + nchunks raw) (nchunks raw) s s'.
Proof.
  intros Hf Hbad Hoom Hm Hraw Hn Hne Hfuel n.
  assert (wp (chunkfs_read_pool fuel) (fun r s' => r = inr (mounted_pool mnts n) /\
    delta (2 + nchunks raw) (2 + nchunks raw) (nchunks raw) s s') s) as Hw.
  { unfold chunkfs_read_pool. apply wp_bind.
    eapply wp_kalloc; [apply delta_refl | intros s1 Hd1; go | done].
    apply wp_bind. eapply wp_bread; [done | intros s2 _ Hd2; go | by rewrite Hbad].
    rewrite (fmt_pool _ _ Hf). unfold block_image.
    rewrite check_pool_value, pool_of_to by apply spec_pool_typed.
    cbn [spec_pool p_magic p_chksum p_flags]. rewrite !le32_id, le64_id. go.
    apply wp_bind, wp_try. eapply wp_read_dev_mkfs; [exact Hd2 | done.. |].
    intros s3 Hd3. split; [done |]. eapply delta_eq; [exact Hd3 | lia..]. }
  unfold wp in Hw. destruct (chunkfs_read_pool fuel s) as [r s']. simpl in Hw.
  destruct Hw as [-> Hd]. by exists s'.
Qed.

Lemma find_in_mounted mnts n id :
  chunkfs_find_chunk (mounted_pool mnts n) id =
  if decide (1 <= id <= Z.of_nat n) then Some (mounted_chunk mnts id) else None.
Proof.
  unfold chunkfs_find_chunk, mounted_pool; simpl. rewrite find_mounted. by case_decide.
Qed.

(** Mounting the image mkfs leaves on a device, on a little-endian host
    with the client file systems mounted where test.sh mounts them, succeeds:
    the pool has one device with exactly the chunks mkfs wrote, in order,
    chunk 1 is the root, a chunk is found by its number, and the mount holds
    one memory object and one buffer for each summary and one mount
    reference for each chunk. *)
Theorem mount_mkfs_image fuel s raw mnts :
  formatted (k_data s) raw -> (forall blk, k_bad s blk = false) -> k_oom s = [] ->
  clients_mounted (k_fs s) (nchunks raw) mnts ->
  2 <= raw < 2 ^ 63 -> 1 <= nchunks raw < 10 ^ 11 -> raw <> chunk_pos (nchunks raw + 2) + 1 ->
  nchunks raw < Z.of_nat fuel ->
  let n := Z.to_nat (nchunks raw) in
  (exists s', chunkfs_read_pool fuel s = (inr (mounted_pool mnts n), s') /\
         delta (2 + nchunks raw) (2 + nchunks raw) (nchunks raw) s s') /\
  forall id, chunkfs_find_chunk (mounted_pool mnts n) id =
    if decide (1 <= id <= nchunks raw) then Some (mounted_chunk mnts id) else None.
Proof.
  intros Hf Hbad Hoom Hm Hraw Hn Hne Hfuel n. split; [by apply mount_mkfs_run |].
  intros id. rewrite find_in_mounted. subst n. repeat case_decide; lia || done.
Qed.
End mkfs_mount.

(** ** Other images *)

Section images.
Context `{Host} `{ClientFS}.

(** Mkfs writes its words in the byte order of the host; the module expects
    little-endian words. *)

(** On a big-endian host the image mkfs leaves is refused: the pool
    summary fails the magic check and the mount returns -EIO, keeping
    nothing. *)
Theorem mount_big_endian fuel s raw :
  big_endian = true -> formatted (k_data s) raw -> k_oom s = [] ->
  exists s', chunkfs_read_pool fuel s = (inl (Errno EIO), s') /\ delta 0 0 0 s s'.
Proof.
  intros Hbe Hf Hoom.
  assert (wp (chunkfs_read_pool fuel) (fun r s' => r = inl (Errno EIO) /\ delta 0 0 0 s s') s) as Hw.
  { unfold chunkfs_read_pool. apply wp_bind.
    eapply wp_kalloc; [apply delta_refl | intros s1 Hd1; go | done].
    apply wp_bind. eapply wp_bread; [done | intros s2 _ Hd2; go | intros s2 _ Hd2; go].
    - rewrite (fmt_pool _ _ Hf). unfold block_image. rewrite check_pool_value by apply spec_pool_typed.
      cbn [spec_pool p_magic p_chksum]. unfold le32_to_cpu, cpu_to_le. rewrite Hbe.
      change (bswap 4 CHUNKFS_SUPER_MAGIC =? CHUNKFS_SUPER_MAGIC) with false. go.
      change (1 =? 0) with false. go.
      apply wp_bind. eapply wp_brelse; [done | intros s3 Hd3]. apply wp_bind.
      eapply wp_kfree; [done | intros s4 Hd4]. split; [done |]. eapply delta_eq; [done | lia..].
    - apply wp_bind. eapply wp_kfree; [done | intros s3 Hd3]. split; [done |].
      eapply delta_eq; [done | lia..]. }
  unfold wp in Hw. destruct (chunkfs_read_pool fuel s) as [r s']. simpl in Hw.
  destruct Hw as [-> Hd]. by exists s'.
Qed.

(** Valid pool and device summaries whose first chunk is at [first]. *)
Record summaries_on (s : kstate) (first : Z) : Prop := {
  so_oom : k_oom s = [];
  so_pool : k_bad s CHUNKFS_POOL_BLK = false /\ check_pool (block_at (k_data s) CHUNKFS_POOL_BLK) = 0;
  so_dev : k_bad s CHUNKFS_DEV_BLK = false /\ check_dev (block_at (k_data s) CHUNKFS_DEV_BLK) = 0;
  so_first : cpu_to_le64 (d_innards_begin (dev_of_mem (block_at (k_data s) CHUNKFS_DEV_BLK))) = first;
}.

(** The mount reaches the loop over the chunks, and how it goes on. *)
Lemma wp_reach_loop fuel s first Q :
  summaries_on s first ->
  (forall s', delta 2 2 0 s s' ->
     wp (loop fuel NoFuel read_dev_step (mk_walk first [] None false)) (fun r s2 =>
       match r with
       | inl (Errno e) => forall s3, Q (inl (Errno e)) s3
       | inl x => Q (inl x) s2
       | inr w => match w_root w, w_chunks w with
                 | Some _, _ => forall pi s3, Q (inr pi) s3
                 | None, [] => forall s3, Q (inl (Errno EIO)) s3
                 | None, _ :: _ => forall s3, Q (inl Undef) s3
                 end
       end) s') ->
  wp (chunkfs_read_pool fuel) Q s.
Proof.
  intros [Hoom [Hb1 Hp] [Hb2 Hdv] Hfirst] Hloop. unfold chunkfs_read_pool. apply wp_bind.
  eapply wp_kalloc; [apply delta_refl | intros s1 Hd1; go | done].
  apply wp_bind. eapply wp_bread; [done | intros s2 _ Hd2; go | congruence]. rewrite Hp. go.
  apply wp_bind, wp_try. unfold chunkfs_read_dev. apply wp_bind.
  eapply wp_kalloc; [done | intros s3 Hd3; go | done].
  apply wp_bind. eapply wp_bread; [done | intros s4 _ Hd4; go | congruence]. rewrite Hdv, Hfirst. go.
  apply wp_bind. eapply wp_mono; [apply Hloop; eapply delta_eq; [done | lia..] |].
  intros [[e| | | |]|w] s5 Hr; [|done..|].
  - apply wp_bind. unfold brelse, kfree, modify. apply Hr.
  - destruct (w_root w) as [root|]; [apply Hr |].
    apply wp_bind. eapply wp_mono; [apply (wp_abandon_dev s5 0 0 0 w s5
      (fun r _ => r = inr tt)); [apply delta_refl | done] |].
    intros r s6 ->. destruct (w_chunks w); apply Hr.
Qed.

(** A run of linked valid chunk summaries, none of them flagged as the root,
    from one offset to another. *)
Inductive plain_links (s : kstate) : Z -> list (Z * chunkfs_chunk * Z) -> Z -> Prop :=
| links_nil off : plain_links s off [] off
| links_cons off c m rest last :
    off <> 0 -> chunk_on s off c m -> Z.land (cpu_to_le64 (c_flags c)) CHUNKFS_ROOT = 0 ->
    plain_links s (cpu_to_le64 (c_next_chunk c)) rest last ->
    plain_links s off ((off, c, m) :: rest) last.

Definition infos (l : list (Z * chunkfs_chunk * Z)) : list chunk_info :=
  map (fun x => info_of x.1.1 x.1.2 x.2) l.

(** The loop follows the links, or runs out of fuel on the way. *)
Lemma wp_follow_links s0 off l last w fuel dk db dm s Q :
  plain_links s0 off l last -> k_oom s0 = [] -> delta dk db dm s0 s -> w_offset w = off ->
  (length l <= fuel)%nat \/ (forall s', Q (inl NoFuel) s') ->
  (forall fuel' dk' db' dm' s', fuel = (length l + fuel')%nat -> delta dk' db' dm' s0 s' ->
     wp (loop fuel' NoFuel read_dev_step
           (mk_walk last (w_chunks w ++ infos l) (w_root w) (w_pool_root w))) Q s') ->
  wp (loop fuel NoFuel read_dev_step w) Q s.
Proof.
  intros Hl Hoom Hd Hoff HnoFuel. revert w fuel dk db dm s Hd Hoff HnoFuel.
  induction Hl as [off | off c m rest last Hnz Hon Hflag Hl IH];
    intros w fuel dk db dm s Hd Hoff HnoFuel Hok.
  - specialize (Hok fuel dk db dm s eq_refl Hd). rewrite app_nil_r in Hok. by destruct w; simpl in *; subst.
  - destruct fuel as [|fuel]; [destruct HnoFuel as [Hle | HnoFuel]; [simpl in Hle; lia | apply HnoFuel] |].
    simpl. apply wp_bind. subst off.
    eapply wp_step_plain; [done.. |]. intros s' Hd'. eapply IH; [exact Hd' | done | |].
    { destruct HnoFuel as [Hle |]; [left; simpl in Hle; lia | by right]. }
    intros fuel' dk' db' dm' s2 -> Hd2. simpl. rewrite <-app_assoc. by eapply Hok.
Qed.

(** A device all of whose chunk summaries are valid but none of which is
    flagged as the root does not make the mount fail with an error:
    [chunkfs_read_dev] returns 0 without setting its result, and
    [chunkfs_read_pool] goes on with an uninitialised pointer. *)
Theorem mount_without_root fuel s first l :
  summaries_on s first -> plain_links s first l 0 -> l <> [] -> (length l < fuel)%nat ->
  (chunkfs_read_pool fuel s).1 = inl Undef.
Proof.
  intros Hs Hl Hne Hfuel. change (wp (chunkfs_read_pool fuel) (fun r _ => r = inl Undef) s).
  eapply wp_reach_loop; [done | intros s1 Hd1].
  eapply wp_follow_links; [done | apply Hs | done | done | left; lia |].
  intros fuel' dk' db' dm' s2 Hf _. destruct fuel' as [|fuel']; [lia |].
  simpl. apply wp_bind, wp_ret, wp_ret. simpl. by destruct l.
Qed.

(** Two chunks flagged as root crash the kernel: [BUG_ON] fires on
    content of the disk. *)
Theorem mount_two_roots fuel s first c1 m1 c2 m2 :
  summaries_on s first -> first <> 0 -> chunk_on s first c1 m1 ->
  Z.land (cpu_to_le64 (c_flags c1)) CHUNKFS_ROOT <> 0 ->
  cpu_to_le64 (c_next_chunk c1) <> 0 -> chunk_on s (cpu_to_le64 (c_next_chunk c1)) c2 m2 ->
  Z.land (cpu_to_le64 (c_flags c2)) CHUNKFS_ROOT <> 0 -> (2 <= fuel)%nat ->
  (chunkfs_read_pool fuel s).1 = inl Bug.
Proof.
  intros Hs H1 Hon1 Hf1 H2 Hon2 Hf2 Hfuel.
  change (wp (chunkfs_read_pool fuel) (fun r _ => r = inl Bug) s).
  eapply wp_reach_loop; [done | intros s1 Hd1]. pose proof (so_oom _ _ Hs) as Hoom.
  destruct fuel as [|[|fuel]]; [lia.. |]. simpl. apply wp_bind.
  eapply wp_step_root; [done.. |]. intros s2 Hd2. apply wp_bind. unfold read_dev_step.
  cbn [w_offset]. rewrite (proj2 (Z.eqb_neq _ _) H2). apply wp_bind, wp_try.
  eapply wp_read_chunk_on; [exact Hd2 | done.. |]. intros s3 Hd3.
  unfold CHUNKFS_IS_ROOT, info_of. cbn [ci_flags]. by rewrite (proj2 (Z.eqb_neq _ _) Hf2).
Qed.

(** C33: a list of chunk summaries that leads back to itself is followed
    forever: the mount never returns, whatever the fuel (and takes memory
    for every turn). *)
Theorem mount_cycle fuel s first l x cyc :
  summaries_on s first -> plain_links s first l x -> plain_links s x cyc x -> cyc <> [] ->
  (chunkfs_read_pool fuel s).1 = inl NoFuel.
Proof.
  intros Hs Hl Hc Hne. change (wp (chunkfs_read_pool fuel) (fun r _ => r = inl NoFuel) s).
  eapply wp_reach_loop; [done | intros s1 Hd1]. pose proof (so_oom _ _ Hs) as Hoom.
  eapply wp_follow_links; [exact Hl | done | exact Hd1 | done | by right |].
  intros fuel' dk' db' dm' s2 _ Hd2. simpl w_chunks. simpl w_root. simpl w_pool_root.
  generalize (infos l) as chunks. revert dk' db' dm' s2 Hd2.
  induction fuel' as [fuel' IH] using lt_wf_ind. intros dk' db' dm' s2 Hd2 chunks.
  eapply wp_follow_links; [exact Hc | done | exact Hd2 | done | by right |].
  intros fuel2 dk2 db2 dm2 s3 -> Hd3. eapply IH; [| exact Hd3].
  destruct cyc; [done | simpl; lia].
Qed.
End images.
