(* ===== verification/Verdict.v ===== *)
(** * What a mount makes of any disk

    A reference for [chunkfs_read_pool]: on a device with valid pool and
    device summaries, the outcome is a function of the chunks the links lead
    through, of which of them are flagged as the root, and of how the links
    end.  Nothing is assumed of who wrote the device. *)

From S2P Require Import Prelude Monad Bytes OnDisk Device Decimal Client Kernel KernelFacts Pool PoolProps MountProps.

Section verdict.
Context `{Host} `{ClientFS}.

(** A run of linked valid chunk summaries from one offset to another: offset,
    summary and client mount of each. *)
Inductive chunks_linked (s : kstate) : Z -> list (Z * chunkfs_chunk * Z) -> Z -> Prop :=
| chunks_nil off : chunks_linked s off [] off
| chunks_cons off c m rest last :
    off <> 0 -> chunk_on s off c m -> chunks_linked s (cpu_to_le64 (c_next_chunk c)) rest last ->
    chunks_linked s off ((off, c, m) :: rest) last.

(** How the links end: with offset 0, or at a chunk that gives an error. *)
Inductive list_end (s : kstate) : Z -> option Z -> Prop :=
| end_zero : list_end s 0 None
| end_unreadable off :
    off <> 0 -> k_bad s (off / CHUNKFS_BLK_SIZE) = true -> list_end s off (Some EIO)
| end_invalid off :
    off <> 0 -> k_bad s (off / CHUNKFS_BLK_SIZE) = false ->
    check_chunk (block_at (k_data s) (off / CHUNKFS_BLK_SIZE)) <> 0 -> list_end s off (Some EIO)
| end_unmounted off e :
    off <> 0 -> k_bad s (off / CHUNKFS_BLK_SIZE) = false ->
    check_chunk (block_at (k_data s) (off / CHUNKFS_BLK_SIZE)) = 0 ->
    let id := cpu_to_le64 (c_chunk_id (chunk_of_mem (block_at (k_data s) (off / CHUNKFS_BLK_SIZE)))) in
    (String.length (mount_path id) < mount_path_size)%nat -> kern_path (k_fs s) (mount_path id) = inl e -> e <> 0 ->
    list_end s off (Some e).

(** ** The reference *)

Definition roots (cs : list chunk_info) : list chunk_info := filter (fun ci => CHUNKFS_IS_ROOT ci = true) cs.

(** The flags of the summaries on the disk. *)
Definition dev_flags (s : kstate) : Z := cpu_to_le64 (d_flags (dev_of_mem (block_at (k_data s) CHUNKFS_DEV_BLK))).
Definition pool_flags (s : kstate) : Z := cpu_to_le64 (p_flags (pool_of_mem (block_at (k_data s) CHUNKFS_POOL_BLK))).

Definition pool_of (s : kstate) (cs : list chunk_info) (root : chunk_info) : pool_info :=
  mk_pool_info [mk_dev_info cs (Some root) CHUNKFS_DEV_BLK (dev_flags s)] (Some 0%nat) CHUNKFS_POOL_BLK (pool_flags s).

Definition verdict (s : kstate) (cs : list chunk_info) (e : option Z) : stop + pool_info :=
  match roots cs, e with
  | _ :: _ :: _, _ => inl Bug
  | _, Some e => inl (Errno e)
  | [root], None => inr (pool_of s cs root)
  | [], None => match cs with [] => inl (Errno EIO) | _ :: _ => inl Undef end
  end.

(** ** The loop *)

(** The loop after the chunks [cs], before the second root. *)
Definition walk_at (off : Z) (cs : list chunk_info) : walk :=
  mk_walk off cs (head (roots cs)) (bool_decide (roots cs <> [])).

Lemma roots_snoc cs ci : roots (cs ++ [ci]) = roots cs ++ (if CHUNKFS_IS_ROOT ci then [ci] else []).
Proof.
  unfold roots. rewrite filter_app. f_equal. destruct (CHUNKFS_IS_ROOT ci) eqn:Hr.
  - by rewrite filter_cons_True.
  - rewrite filter_cons_False by congruence. done.
Qed.

Lemma info_is_root off c m :
  CHUNKFS_IS_ROOT (info_of off c m) = negb (Z.land (cpu_to_le64 (c_flags c)) CHUNKFS_ROOT =? 0).
Proof. done. Qed.

(** One turn: the chunk is added, or is a second root. *)
Lemma wp_step_any s0 dk db dm off c m cs s Q :
  delta dk db dm s0 s -> k_oom s0 = [] -> off <> 0 -> chunk_on s0 off c m -> (length (roots cs) <= 1)%nat ->
  ((length (roots (cs ++ [info_of off c m])) <= 1)%nat -> forall s', delta (dk + 1) (db + 1) (dm + 1) s0 s' ->
     Q (inr (inl (walk_at (cpu_to_le64 (c_next_chunk c)) (cs ++ [info_of off c m])))) s') ->
  ((1 < length (roots (cs ++ [info_of off c m])))%nat -> forall s', Q (inl Bug) s') ->
  wp (read_dev_step (walk_at off cs)) Q s.
Proof.
  intros Hd Hoom Hoff Hon Hone Hok Hbug. unfold read_dev_step. cbn [walk_at w_offset w_chunks w_root w_pool_root].
  rewrite (proj2 (Z.eqb_neq _ _) Hoff). apply wp_bind, wp_try. eapply wp_read_chunk_on; [done.. |]. intros s1 Hd1.
  unfold walk_at in Hok. rewrite roots_snoc, length_app in Hok, Hbug. destruct (CHUNKFS_IS_ROOT _); simpl in *.
  - destruct (roots cs) as [|r rest]; simpl in *.
    + apply Hok; [lia | done].
    + apply Hbug. lia.
  - rewrite app_nil_r in Hok. apply Hok; [lia | done].
Qed.

(** Reading a chunk that gives an error. *)
Lemma wp_read_chunk_end s0 dk db dm off e s Q :
  delta dk db dm s0 s -> k_oom s0 = [] -> list_end s0 off (Some e) ->
  (forall s', delta dk db dm s0 s' -> Q (inl (Errno e)) s') -> wp (chunkfs_read_chunk off) Q s.
Proof.
  intros Hd Hoom Hend HQ. unfold chunkfs_read_chunk. apply wp_bind.
  eapply wp_kalloc; [done | intros s1 Hd1; go | done]. apply wp_bind.
  inversion Hend as [| off' Hoff Hbad | off' Hoff Hbad Hck | off' e' Hoff Hbad Hck id Hlen Hk He]; subst.
  - eapply wp_bread; [done | congruence | intros s2 _ Hd2; go]. apply wp_bind. eapply wp_kfree; [done | intros s3 Hd3].
    apply HQ. eapply delta_eq; [done | lia..].
  - eapply wp_bread; [done | intros s2 _ Hd2; go | congruence]. rewrite (proj2 (Z.eqb_neq _ _) Hck). cbn [negb].
    apply wp_bind. eapply wp_brelse; [done | intros s3 Hd3].
    apply wp_bind. eapply wp_kfree; [done | intros s4 Hd4]. apply HQ. eapply delta_eq; [done | lia..].
  - eapply wp_bread; [done | intros s2 _ Hd2; go | congruence]. rewrite Hck. go.
    apply wp_bind, wp_try. eapply wp_read_client_sb; [done | | |]; fold id.
    + intros m d s3 Hk'. congruence.
    + intros e' Hk'. assert (e' = e) as -> by congruence.
      apply wp_bind. eapply wp_brelse; [done | intros s3 Hd3].
    apply wp_bind. eapply wp_kfree; [done | intros s4 Hd4].
      rewrite (proj2 (Z.eqb_neq _ _) He). apply HQ. eapply delta_eq; [done | lia..].
    + intros Hl. lia.
Qed.

(** A turn at such a chunk. *)
Lemma wp_step_end s0 dk db dm off cs e s Q :
  delta dk db dm s0 s -> k_oom s0 = [] -> list_end s0 off (Some e) -> (forall s', Q (inl (Errno e)) s') ->
  wp (read_dev_step (walk_at off cs)) Q s.
Proof.
  intros Hd Hoom Hend HQ. assert (off <> 0) as Hoff by by inversion Hend.
  unfold read_dev_step. cbn [walk_at w_offset]. rewrite (proj2 (Z.eqb_neq _ _) Hoff). apply wp_bind, wp_try.
  eapply wp_read_chunk_end; [done.. |]. intros s1 Hd1. apply wp_bind.
  eapply wp_abandon_dev; [done |]. intros s2 _. apply HQ.
Qed.

(** The loop from any place on. *)
Lemma wp_loop_verdict s0 off l last e cs fuel dk db dm s (Q : stop + walk -> kstate -> Prop) :
  chunks_linked s0 off l last -> list_end s0 last e -> k_oom s0 = [] -> delta dk db dm s0 s ->
  (length (roots cs) <= 1)%nat -> (length l < fuel)%nat ->
  (forall s', match roots (cs ++ infos l), e with
         | _ :: _ :: _, _ => Q (inl Bug) s'
         | _, Some e => Q (inl (Errno e)) s'
         | _, None => Q (inr (walk_at 0 (cs ++ infos l))) s'
         end) ->
  wp (loop fuel NoFuel read_dev_step (walk_at off cs)) Q s.
Proof.
  intros Hl Hend Hoom Hd Hone Hfuel HQ. revert cs fuel dk db dm s Hd Hone Hfuel HQ.
  induction Hl as [off | off c m rest last Hoff Hon Hl IH]; intros cs fuel dk db dm s Hd Hone Hfuel HQ;
    (destruct fuel as [|fuel]; [simpl in Hfuel; lia |]); simpl loop; apply wp_bind.
  - simpl in HQ. rewrite app_nil_r in HQ. destruct e as [e|].
    + eapply wp_step_end; [done.. |]. intros s'. specialize (HQ s').
      by destruct (roots cs) as [|r [|]]; [| | simpl in Hone; lia].
    + inversion Hend; subst. apply wp_ret, wp_ret. specialize (HQ s).
      by destruct (roots cs) as [|r [|]]; [| | simpl in Hone; lia].
  - eapply wp_step_any; [done.. | |].
    + intros Hone' s' Hd'. eapply IH; [done | exact Hd' | exact Hone' | simpl in Hfuel; lia |].
      intros s2. rewrite <-app_assoc. apply HQ.
    + intros Htwo s'. specialize (HQ s').
      assert (1 < length (roots (cs ++ infos ((off, c, m) :: rest))))%nat as Hmany.
      { change (infos ((off, c, m) :: rest)) with ([info_of off c m] ++ infos rest). rewrite app_assoc.
        unfold roots in *. rewrite filter_app, length_app. lia. }
      destruct (roots (cs ++ _)) as [|r [|r' rs]]; [simpl in Hmany; lia.. | exact HQ].
Qed.

(** The pool summary, the device summary, and the end of the loop. *)
Lemma wp_reach_verdict fuel s first (Q : stop + pool_info -> kstate -> Prop) :
  summaries_on s first ->
  (forall s', delta 2 2 0 s s' ->
     wp (loop fuel NoFuel read_dev_step (walk_at first [])) (fun r s2 =>
       match r with
       | inl x => forall s3, Q (inl x) s3
       | inr w => match w_root w, w_chunks w with
                 | Some root, cs => forall s3, Q (inr (pool_of s cs root)) s3
                 | None, [] => forall s3, Q (inl (Errno EIO)) s3
                 | None, _ :: _ => forall s3, Q (inl Undef) s3
                 end
       end) s') ->
  wp (chunkfs_read_pool fuel) Q s.
Proof.
  intros [Hoom [Hb1 Hp] [Hb2 Hdv] Hfirst] Hloop. unfold chunkfs_read_pool. apply wp_bind.
  eapply wp_kalloc; [apply delta_refl | intros s1 Hd1; go | done].
  apply wp_bind. eapply wp_bread; [done | intros s2 _ Hd2; go | congruence]. rewrite Hp. go.
  apply wp_bind, wp_try. unfold chunkfs_read_dev. apply wp_bind.
  eapply wp_kalloc; [done | intros s3 Hd3; go | done].
  apply wp_bind. eapply wp_bread; [done | intros s4 _ Hd4; go | congruence]. rewrite Hdv, Hfirst. go.
  apply wp_bind. eapply wp_mono; [apply Hloop; eapply delta_eq; [done | lia..] |].
  intros [[e| | | |]|w] s5 Hr; [| apply Hr.. |].
  - apply wp_bind. unfold brelse, kfree, modify. apply Hr.
  - destruct (w_root w) as [root|]; [apply Hr |].
    apply wp_bind. eapply wp_mono; [apply (wp_abandon_dev s5 0 0 0 w s5
      (fun r _ => r = inr tt)); [apply delta_refl | done] |].
    intros r s6 ->. destruct (w_chunks w); apply Hr.
Qed.

Lemma pool_verdict fuel s first l last e :
  summaries_on s first -> chunks_linked s first l last -> list_end s last e -> (length l < fuel)%nat ->
  (chunkfs_read_pool fuel s).1 = verdict s (infos l) e.
Proof.
  intros Hs Hl Hend Hfuel. change (wp (chunkfs_read_pool fuel) (fun r _ => r = verdict s (infos l) e) s).
  eapply wp_reach_verdict; [done | intros s1 Hd1].
  eapply wp_loop_verdict; [done | done | apply Hs | exact Hd1 | simpl; lia | done |].
  intros s2. unfold verdict. cbn [app]. unfold walk_at. destruct (roots (infos l)) as [|r [|r' rs]] eqn:Hr; [| | done].
  - destruct e as [e|]; [done |]. cbn [w_root w_chunks]. simpl head. by destruct (infos l).
  - by destruct e as [e|].
Qed.

(** C32: reading the pool is the reference: on any device whose pool and device
    summaries are valid, with memory to spare, [chunkfs_read_pool] gives
    exactly the [verdict] on the chunks that the links lead through and the
    end of the links: the pool of those chunks in order when exactly one is
    flagged as the root; the error of the chunk at which the links break; a
    BUG_ON when two are flagged, even if the links break behind them; an
    uninitialised pointer when there are chunks and none is flagged. *)
Theorem read_pool_verdict fuel s first l last e :
  summaries_on s first -> chunks_linked s first l last -> list_end s last e -> (length l < fuel)%nat ->
  (chunkfs_read_pool fuel s).1 = verdict s (infos l) e.
Proof. apply pool_verdict. Qed.
End verdict.
