(* ===== verification/Interrupted.v ===== *)
(** * A mkfs that does not finish

    When the system refuses a block mkfs exits, and the device has the blocks
    up to that one.  Such a device does not mount: the first summary that is
    missing makes the mount return -EIO, wherever mkfs stopped. *)

From S2P Require Import Prelude Monad Bytes OnDisk Device Mkfs MkfsSpec MkfsProps Decimal Client Kernel KernelFacts Pool PoolProps MountProps Verdict.

(** ** What mkfs leaves *)

(** A block is stored whole or not at all. *)
Definition all_or_nothing (d : device) : Prop :=
  forall off, dev_accept d off = CHUNKFS_BLK_SIZE \/ dev_accept d off <= 0.

(** The run stores the blocks before the first that is refused. *)
Lemma run_actions_prefix acts d out :
  all_or_nothing d -> Forall (fun b => Z.of_nat (length b.2) = CHUNKFS_BLK_SIZE) (writes_of acts) ->
  exists r j d' out', run_actions acts (mk_mkfs d out) = (r, mk_mkfs d' out') /\
    (forall a, dev_data d' a = apply_blocks (dev_data d) (take j (writes_of acts)) a) /\
    (r = inr tt \/ r = inl ExitFailure /\ (j < length (writes_of acts))%nat).
Proof.
  revert d out; induction acts as [|[l|off blk] acts IH]; intros d out Ha Hl; simpl.
  - exists (inr tt), O, d, out. split_and!; [done | done | by left].
  - unfold print, modify, mbind, stm_bind; simpl. by apply IH.
  - simpl in Hl. apply list.Forall_cons in Hl as [Hb Hl]. simpl in Hb.
    unfold mbind, stm_bind, write_fd, write_dev; simpl. destruct (Ha off) as [He | Hle].
    + rewrite He, (Z.ltb_irrefl CHUNKFS_BLK_SIZE), take_ge by (unfold CHUNKFS_BLK_SIZE in *; lia).
      destruct (IH (mk_device (store_bytes (dev_data d) off blk) (dev_accept d)) out Ha Hl)
        as (r & j & d' & out' & Hrun & Hd & Hr).
      exists r, (S j), d', out'. split_and!; [done | done |]. destruct Hr as [| [-> Hj]]; [by left | right].
      split; [done | simpl; lia].
    + rewrite (proj2 (Z.ltb_lt _ _)) by (unfold CHUNKFS_BLK_SIZE; lia).
      replace (take (Z.to_nat (dev_accept d off)) blk) with ([] : list Z) by (by replace (Z.to_nat _) with O by lia).
      eexists _, O, _, _. split_and!; [done | | right; split; [done | simpl; lia]].
      intros a. simpl. unfold store_bytes. simpl.
      destruct (Z.leb_spec off a), (Z.ltb_spec a (off + Z.of_nat 0)); simpl; lia || done.
Qed.

Section prefix.
Context `{Host}.

(** The blocks of the two summaries and of the first [m] chunks. *)
Definition first_blocks (raw : Z) (m : nat) : list (Z * list Z) :=
  (CHUNKFS_POOL_OFFSET, block_image (pool_to_mem spec_pool)) ::
  (CHUNKFS_DEV_OFFSET, block_image (dev_to_mem (spec_dev raw))) :: chunk_blocks raw 1 m.

Lemma mkfs_blocks_first raw : mkfs_blocks raw = first_blocks raw (Z.to_nat (nchunks raw)).
Proof. unfold mkfs_blocks, mkfs_actions. by rewrite !writes_of_app. Qed.

Lemma chunk_blocks_S raw k m :
  chunk_blocks raw k (S m) = (chunk_pos k, block_image (chunk_to_mem (spec_chunk raw k))) :: chunk_blocks raw (k + 1) m.
Proof.
  unfold chunk_blocks. change (chunks_from raw k (S m)) with (chunk_actions raw k ++ chunks_from raw (k + 1) m).
  by rewrite writes_of_app.
Qed.

Lemma take_chunk_blocks raw k m n : (m <= n)%nat -> take m (chunk_blocks raw k n) = chunk_blocks raw k m.
Proof.
  revert k n; induction m as [|m IH]; intros k n Hm; [done |]. destruct n as [|n]; [lia |].
  rewrite !chunk_blocks_S. simpl. f_equal. apply IH. lia.
Qed.

Lemma length_chunk_blocks raw k m : length (chunk_blocks raw k m) = m.
Proof. revert k; induction m as [|m IH]; intros k; [done |]. rewrite chunk_blocks_S. simpl. by rewrite IH. Qed.

Lemma first_blocks_ascending raw m : ascending 0 (first_blocks raw m).
Proof.
  split; [done | split; [| split; [done | split]]].
  - apply length_block_image. unfold pool_to_mem. rewrite !length_app, !length_mem_word, desc_mem_length by done. lia.
  - apply length_block_image. unfold dev_to_mem. rewrite !length_app, !length_mem_word, desc_mem_length by done. lia.
  - apply (chunk_blocks_ascending raw 1).
Qed.

(** Blocks that lie below a place leave what is there. *)
Lemma apply_blocks_above data blocks hi a :
  Forall (fun b => b.1 + Z.of_nat (length b.2) <= hi) blocks -> hi <= a -> apply_blocks data blocks a = data a.
Proof.
  intros Hb Ha. apply apply_blocks_outside. intros off blk Hin. rewrite Forall_forall in Hb.
  specialize (Hb _ Hin). simpl in Hb. lia.
Qed.

Lemma block_aligned_read data off blk lo blocks :
  ascending lo blocks -> (off, blk) ∈ blocks -> off mod CHUNKFS_BLK_SIZE = 0 ->
  block_at (apply_blocks data blocks) (off / CHUNKFS_BLK_SIZE) = blk.
Proof.
  intros Hasc Hin Hal. destruct (ascending_lower _ _ _ _ Hasc Hin) as [_ Hl].
  rewrite (block_at_read _ _ (length blk)) by done. by eapply apply_blocks_read.
Qed.

Lemma chunk_blocks_below raw k m :
  Forall (fun b => b.1 + Z.of_nat (length b.2) <= chunk_pos (k + Z.of_nat m)) (chunk_blocks raw k m).
Proof.
  revert k; induction m as [|m IH]; intros k; [constructor |]. pose proof (chunk_blocks_ascending raw k (S m)) as (_ & Hl & _).
  rewrite chunk_blocks_S in *. constructor.
  - simpl in *. rewrite Hl. unfold chunk_pos, CHUNKFS_CHUNK_SIZE, CHUNKFS_BLK_SIZE. lia.
  - replace (k + Z.of_nat (S m)) with (k + 1 + Z.of_nat m) by lia. apply IH.
Qed.

(** What is read on a device with these blocks. *)
Lemma first_blocks_read data raw m :
  let data' := apply_blocks data (first_blocks raw m) in
  block_at data' CHUNKFS_POOL_BLK = block_image (pool_to_mem spec_pool) /\
  block_at data' CHUNKFS_DEV_BLK = block_image (dev_to_mem (spec_dev raw)) /\
  (forall k, 1 <= k <= Z.of_nat m ->
     block_at data' (chunk_pos k / CHUNKFS_BLK_SIZE) = block_image (chunk_to_mem (spec_chunk raw k))) /\
  block_at data' (chunk_pos (Z.of_nat m + 1) / CHUNKFS_BLK_SIZE) =
    block_at data (chunk_pos (Z.of_nat m + 1) / CHUNKFS_BLK_SIZE).
Proof.
  intros data'. pose proof (first_blocks_ascending raw m) as Hasc. split_and!.
  - apply (block_aligned_read data CHUNKFS_POOL_OFFSET _ _ _ Hasc); [left | done].
  - apply (block_aligned_read data CHUNKFS_DEV_OFFSET _ _ _ Hasc); [right; left | done].
  - intros k Hk. apply (block_aligned_read data (chunk_pos k) _ _ _ Hasc); [right; right | apply chunk_pos_aligned].
    apply (chunk_block_in raw k 1). lia.
  - rewrite !(block_at_read _ _ 4096) by (done || apply chunk_pos_aligned). apply read_bytes_ext. intros a Ha.
    apply (apply_blocks_above _ _ (chunk_pos (Z.of_nat m + 1))); [| lia].
    pose proof (chunk_pos_lower (Z.of_nat m + 1) ltac:(lia)) as Hlow. destruct Hasc as (_ & L1 & _ & L2 & _).
    constructor; [| constructor].
    + simpl fst. simpl snd. rewrite L1. etransitivity; [| exact Hlow]. done.
    + simpl fst. simpl snd. rewrite L2. etransitivity; [| exact Hlow]. done.
    + pose proof (chunk_blocks_below raw 1 m) as Hb. by rewrite Z.add_comm in Hb.
Qed.

(** The first blocks of all. *)
Lemma take_mkfs_blocks raw m :
  (m <= Z.to_nat (nchunks raw))%nat -> take (S (S m)) (mkfs_blocks raw) = first_blocks raw m.
Proof. intros Hm. rewrite mkfs_blocks_first. simpl. unfold first_blocks. by rewrite take_chunk_blocks. Qed.
End prefix.

(** ** Mounting it *)

(** No block of the device passes as a summary. *)
Definition blank `{Host} (data : Z -> Z) : Prop := forall blk,
  let b := block_at data blk in check_pool b <> 0 /\ check_dev b <> 0 /\ check_chunk b <> 0.

Section mount.
Context `{Host} `{ClientFS} (le_host : big_endian = false).

Lemma mount_bad_pool fuel s :
  k_oom s = [] -> check_pool (block_at (k_data s) CHUNKFS_POOL_BLK) <> 0 ->
  (chunkfs_read_pool fuel s).1 = inl (Errno EIO).
Proof.
  intros Hoom Hck. change (wp (chunkfs_read_pool fuel) (fun r _ => r = inl (Errno EIO)) s).
  unfold chunkfs_read_pool. apply wp_bind. eapply wp_kalloc; [apply delta_refl | intros s1 Hd1; go | done].
  apply wp_bind. eapply wp_bread; [done | intros s2 _ Hd2; go | done].
  by rewrite (proj2 (Z.eqb_neq _ _) Hck).
Qed.

Lemma mount_bad_dev fuel s :
  k_oom s = [] -> k_bad s CHUNKFS_POOL_BLK = false -> check_pool (block_at (k_data s) CHUNKFS_POOL_BLK) = 0 ->
  check_dev (block_at (k_data s) CHUNKFS_DEV_BLK) <> 0 -> (chunkfs_read_pool fuel s).1 = inl (Errno EIO).
Proof.
  intros Hoom Hb Hp Hck. change (wp (chunkfs_read_pool fuel) (fun r _ => r = inl (Errno EIO)) s).
  unfold chunkfs_read_pool. apply wp_bind. eapply wp_kalloc; [apply delta_refl | intros s1 Hd1; go | done].
  apply wp_bind. eapply wp_bread; [done | intros s2 _ Hd2; go | congruence]. rewrite Hp. go.
  apply wp_bind, wp_try. unfold chunkfs_read_dev. apply wp_bind.
  eapply wp_kalloc; [done | intros s3 Hd3; go | done].
  apply wp_bind. eapply wp_bread; [done | intros s4 _ Hd4; go | done].
  by rewrite (proj2 (Z.eqb_neq _ _) Hck).
Qed.

(** The chunks that were written, as the mount follows them. *)
Lemma written_links s data raw (m k : nat) mnts :
  (forall b, block_at (k_data s) b = block_at (apply_blocks data (first_blocks raw m)) b) ->
  (forall blk, k_bad s blk = false) -> clients_mounted (k_fs s) (nchunks raw) mnts ->
  2 <= raw < 2 ^ 63 -> nchunks raw < 10 ^ 11 -> Z.of_nat m < nchunks raw -> (k <= m)%nat ->
  exists l, chunks_linked s (chunk_pos (Z.of_nat (m - k) + 1)) l (chunk_pos (Z.of_nat m + 1)) /\ length l = k /\
    roots (infos l) = if decide (k = m /\ m <> O) then [mounted_chunk mnts 1] else [].
Proof.
  intros Hdata Hbad Hm Hraw Hn Hlt. induction k as [|k IH]; intros Hk.
  { exists []. rewrite Nat.sub_0_r. split_and!; [constructor | done |].
    rewrite decide_False by lia. done. }
  destruct (IH ltac:(lia)) as (l & Hl & Hlen & Hr). set (j := Z.of_nat (m - S k) + 1).
  assert (Z.of_nat (m - k) + 1 = j + 1) as Hj by lia. rewrite Hj in Hl.
  pose proof (chunk_bounds raw j ltac:(lia) ltac:(lia)) as [Hpos _].
  destruct (first_blocks_read data raw m) as (_ & _ & Hch & _).
  exists ((chunk_pos j, spec_chunk raw j, mnts j) :: l). split_and!.
  - constructor; [lia | |].
    + split; cbn [spec_chunk c_magic c_chksum c_chunk_id]; rewrite ?(le32_id le_host), ?(le64_id le_host); auto.
      * rewrite Hdata, Hch by lia. by eexists.
      * apply spec_chunk_typed; lia.
      * lia.
      * apply Hm. lia.
    + cbn [spec_chunk c_next_chunk]. rewrite (le64_id le_host).
      assert (chunk_link raw j = chunk_pos (j + 1)) as ->; [| done].
      pose proof (proj1 (nchunks_spec raw (j + 1) ltac:(lia)) ltac:(lia)) as Hin. unfold chunk_link.
      rewrite <-chunk_pos_next, (proj2 (Z.ltb_lt _ _)); lia.
  - simpl. by rewrite Hlen.
  - assert (info_of (chunk_pos j) (spec_chunk raw j) (mnts j) = mounted_chunk mnts j) as Hi
      by (unfold info_of, mounted_chunk; simpl; by rewrite !(le64_id le_host)).
    change (infos (_ :: l)) with ([info_of (chunk_pos j) (spec_chunk raw j) (mnts j)] ++ infos l). rewrite Hi.
    unfold roots in *. rewrite filter_app. rewrite decide_False in Hr by lia. rewrite Hr, app_nil_r.
    destruct (decide (S k = m /\ m <> O)) as [[Hd _] | Hd].
    + assert (j = 1) as Hj1 by lia. rewrite Hj1. by rewrite filter_cons_True.
    + rewrite filter_cons_False; [done |]. unfold CHUNKFS_IS_ROOT. simpl.
      by rewrite (proj2 (Z.eqb_neq j 1)) by lia.
Qed.

(** The summaries that were written. *)
Lemma written_summaries s data raw m :
  (forall b, block_at (k_data s) b = block_at (apply_blocks data (first_blocks raw m)) b) ->
  k_oom s = [] -> (forall blk, k_bad s blk = false) -> 2 <= raw < 2 ^ 63 -> summaries_on s chunk_base.
Proof.
  intros Hblk Hoom Hbad Hraw. destruct (first_blocks_read data raw m) as (Hp & Hd & _).
  rewrite <-Hblk in Hp, Hd. pose proof (spec_dev_typed raw Hraw) as Hdt.
  split; [done | split; [done |] | split; [done |] |].
  - rewrite Hp. unfold block_image. rewrite check_pool_value by apply spec_pool_typed.
    cbn [spec_pool p_magic p_chksum]. by rewrite !(le32_id le_host).
  - rewrite Hd. unfold block_image. apply check_dev_ok; [done | by rewrite (le32_id le_host)..].
  - rewrite Hd. unfold block_image. rewrite dev_of_to by done. cbn [spec_dev d_innards_begin]. apply (le64_id le_host).
Qed.

(** The device with the first [j] blocks does not mount. *)
Lemma prefix_unmountable fuel s data raw j mnts :
  (forall a, k_data s a = apply_blocks data (take j (mkfs_blocks raw)) a) -> blank data ->
  (j < length (mkfs_blocks raw))%nat -> k_oom s = [] -> (forall blk, k_bad s blk = false) ->
  clients_mounted (k_fs s) (nchunks raw) mnts -> 2 <= raw < 2 ^ 63 -> nchunks raw < 10 ^ 11 ->
  nchunks raw < Z.of_nat fuel ->
  (chunkfs_read_pool fuel s).1 = inl (Errno EIO).
Proof.
  intros Hdata Hblank Hj Hoom Hbad Hm Hraw Hn Hfuel.
  assert (forall b, block_at (k_data s) b = block_at (apply_blocks data (take j (mkfs_blocks raw))) b) as Hblk
    by (intros b; apply read_bytes_ext; auto).
  rewrite mkfs_blocks_first in Hj. simpl in Hj. rewrite length_chunk_blocks in Hj.
  destruct j as [|[|m]].
  - apply mount_bad_pool; [done |]. rewrite Hblk. apply Hblank.
  - set (b := (CHUNKFS_POOL_OFFSET, block_image (pool_to_mem spec_pool))).
    assert (take 1 (mkfs_blocks raw) = [b]) as Ht by (by rewrite mkfs_blocks_first). rewrite Ht in Hblk.
    destruct (first_blocks_ascending raw 0) as (A1 & A2 & _).
    assert (ascending 0 [b]) as Hasc by (by split_and!). apply mount_bad_dev; [done | done | |]; rewrite Hblk.
    + change CHUNKFS_POOL_BLK with (CHUNKFS_POOL_OFFSET / CHUNKFS_BLK_SIZE).
      rewrite (block_aligned_read data CHUNKFS_POOL_OFFSET (block_image (pool_to_mem spec_pool)) 0 [b]); [| done | left | done].
      unfold block_image. rewrite check_pool_value by apply spec_pool_typed.
      cbn [spec_pool p_magic p_chksum]. by rewrite !(le32_id le_host).
    + assert (block_at (apply_blocks data [b]) CHUNKFS_DEV_BLK = block_at data CHUNKFS_DEV_BLK) as -> by (
        apply read_bytes_ext; intros a Ha; apply (apply_blocks_above _ _ CHUNKFS_DEV_OFFSET); [| done + apply Ha];
        constructor; [| constructor]; simpl fst; simpl snd; by rewrite A2).
      apply Hblank.
  - rewrite take_mkfs_blocks in Hblk by lia. pose proof (written_summaries s data raw m Hblk Hoom Hbad Hraw) as Hsum.
    destruct (written_links s data raw m m mnts Hblk Hbad Hm Hraw Hn ltac:(lia) ltac:(lia)) as (l & Hl & Hlen & Hr).
    rewrite Nat.sub_diag in Hl. change (chunk_pos (Z.of_nat 0 + 1)) with chunk_base in Hl.
    rewrite (pool_verdict fuel s chunk_base l (chunk_pos (Z.of_nat m + 1)) (Some EIO)); [| done | done | | lia].
    + unfold verdict. rewrite Hr. by case_decide.
    + pose proof (chunk_bounds raw (Z.of_nat m + 1) ltac:(lia) ltac:(lia)) as [Hpos _].
      destruct (first_blocks_read data raw m) as (_ & _ & _ & Hold).
      apply end_invalid; [lia | done |]. rewrite Hblk, Hold. apply Hblank.
Qed.

(** C6: a mkfs that fails leaves a device that does not mount.  On a device
    without summaries whose system stores a block whole or refuses it, a run
    of mkfs that exits with an error leaves the blocks before the one refused,
    and the mount returns -EIO, whichever block it was: no device is ever
    mounted with only some of its chunks. *)
Theorem failed_mkfs_unmountable fuel fuel' dev_name raw d out s mnts :
  2 <= raw < 2 ^ 63 -> nchunks raw < 10 ^ 11 -> (length dev_name < CHUNKFS_DEV_PATH_LEN)%nat ->
  (Z.to_nat (nchunks raw) < fuel)%nat -> nchunks raw < Z.of_nat fuel' ->
  all_or_nothing d -> blank (dev_data d) ->
  let '(r, st) := mkfs_main fuel dev_name raw (mk_mkfs d out) in
  k_data s = dev_data (mk_dev_state st) -> k_oom s = [] -> (forall blk, k_bad s blk = false) ->
  clients_mounted (k_fs s) (nchunks raw) mnts ->
  r <> inr tt -> r = inl ExitFailure /\ (chunkfs_read_pool fuel' s).1 = inl (Errno EIO).
Proof.
  intros Hraw Hn Hname Hf Hf' Hd Hblank. rewrite (mkfs_main_actions fuel dev_name raw Hraw Hname Hf _).
  destruct (run_actions_prefix (mkfs_actions raw) d out Hd) as (r & j & d' & out' & Hrun & Hdata & Hr).
  { pose proof (mkfs_blocks_ascending raw) as Hasc. apply Forall_forall. intros [off blk] Hin.
    apply (ascending_lower _ _ _ _ Hasc Hin). }
  rewrite Hrun. simpl. intros Hs Hoom Hbad Hm Hne. destruct Hr as [| [-> Hj]]; [done |]. split; [done |].
  eapply (prefix_unmountable fuel' s (dev_data d) raw j mnts); try done. intros a. by rewrite Hs.
Qed.
End mount.
