(* ===== verification/Uino.v ===== *)
(** * Unified inode numbers (chunkfs_i.h)

    A chunkfs inode number packs the number of a chunk above the inode number
    of its client file system: 4 bits above 28. *)

From S2P Require Import Prelude.

Definition UINO_TO_CHUNK_ID (ino : Z) : Z := Z.shiftr (Z.land ino 0xF0000000) 28.
Definition UINO_TO_INO (ino : Z) : Z := Z.land ino 0x0FFFFFFF.
Definition MAKE_UINO (chunk_id ino : Z) : Z := Z.lor (u64 (Z.shiftl chunk_id 28)) ino.

(** The numbers the packing has room for. *)
Definition fits_uino (chunk_id ino : Z) : Prop := 0 <= chunk_id < 16 /\ 0 <= ino < 2 ^ 28.

(** ** Lemmas *)

Lemma land_low x n : 0 <= n -> Z.land x (2 ^ n - 1) = x mod 2 ^ n.
Proof. intros Hn. rewrite <-Z.land_ones by done. by rewrite Z.ones_equiv, Z.sub_1_r. Qed.

Lemma UINO_TO_INO_mod x : UINO_TO_INO x = x mod 2 ^ 28.
Proof. apply (land_low x 28). lia. Qed.

Lemma UINO_TO_CHUNK_ID_mod x : UINO_TO_CHUNK_ID x = x / 2 ^ 28 mod 16.
Proof.
  unfold UINO_TO_CHUNK_ID. rewrite Z.shiftr_land.
  change (Z.shiftr 0xF0000000 28) with (2 ^ 4 - 1).
  rewrite land_low, Z.shiftr_div_pow2 by lia. done.
Qed.


Lemma lor_mod x y n : 0 <= n -> Z.lor x y mod 2 ^ n = Z.lor (x mod 2 ^ n) (y mod 2 ^ n).
Proof. intros Hn. rewrite <-!Z.land_ones by done. apply Z.land_lor_distr_l. Qed.

Lemma lor_div x y n : 0 <= n -> Z.lor x y / 2 ^ n = Z.lor (x / 2 ^ n) (y / 2 ^ n).
Proof. intros Hn. rewrite <-!Z.shiftr_div_pow2 by done. apply Z.shiftr_lor. Qed.

Lemma shl28_mod c : u64 (Z.shiftl c 28) mod 2 ^ 28 = 0.
Proof. unfold u64. rewrite Z.shiftl_mul_pow2 by lia. div_lia. Qed.

Lemma shl28_div c : u64 (Z.shiftl c 28) / 2 ^ 28 = c mod 2 ^ 36.
Proof. unfold u64. rewrite Z.shiftl_mul_pow2 by lia. div_lia. Qed.

(** What unpacking a packed number gives, for any two words. *)
Lemma ino_of_make c i : UINO_TO_INO (MAKE_UINO c i) = i mod 2 ^ 28.
Proof.
  rewrite UINO_TO_INO_mod. unfold MAKE_UINO. by rewrite lor_mod, shl28_mod, Z.lor_0_l by lia.
Qed.

Lemma chunk_of_make c i :
  UINO_TO_CHUNK_ID (MAKE_UINO c i) = Z.lor (c mod 16) (i / 2 ^ 28 mod 16).
Proof.
  rewrite UINO_TO_CHUNK_ID_mod. unfold MAKE_UINO.
  rewrite lor_div, shl28_div by lia. change 16 with (2 ^ 4). rewrite lor_mod by lia.
  f_equal. div_lia.
Qed.

(** C29: packing and unpacking are inverse exactly for chunk numbers below 16
    and client inode numbers below 2^28; every other pair of words comes back
    changed. *)
Theorem uino_roundtrip c i :
  is_u64 c -> is_u64 i ->
  (UINO_TO_CHUNK_ID (MAKE_UINO c i) = c /\ UINO_TO_INO (MAKE_UINO c i) = i) <-> fits_uino c i.
Proof.
  intros Hc Hi. rewrite ino_of_make, chunk_of_make. unfold is_u64, fits_uino in *. split.
  - intros [H1 H2].
    assert (i < 2 ^ 28) by (rewrite <-H2; apply Z.mod_pos_bound; lia).
    rewrite (Z.div_small i), Z.lor_0_r in H1 by lia.
    pose proof (Z.mod_pos_bound c 16). lia.
  - intros [H1 H2]. rewrite (Z.div_small i), Z.lor_0_r, !Z.mod_small by lia. done.
Qed.

(** With a chunk number from 16 on, the packed number names a chunk with
    a smaller number: mkfs creates such chunks on every device of more than
    about 160 MiB. *)
Lemma uino_chunk_alias c i :
  is_u64 c -> 16 <= c -> 0 <= i < 2 ^ 28 ->
  UINO_TO_CHUNK_ID (MAKE_UINO c i) = c mod 16 /\ UINO_TO_CHUNK_ID (MAKE_UINO c i) < c.
Proof.
  intros Hc H16 Hi. rewrite chunk_of_make, (Z.div_small i), Z.lor_0_r by lia.
  pose proof (Z.mod_pos_bound c 16). lia.
Qed.

Lemma make_uino_fits c i : fits_uino c i -> MAKE_UINO c i = c * 2 ^ 28 + i.
Proof.
  intros [Hc Hi].
  rewrite (Z.div_mod (MAKE_UINO c i) (2 ^ 28)) by lia.
  rewrite <-UINO_TO_INO_mod, ino_of_make, (Z.mod_small i) by lia.
  unfold MAKE_UINO. rewrite lor_div, shl28_div by lia.
  rewrite (Z.div_small i), Z.lor_0_r, Z.mod_small by lia. lia.
Qed.

Lemma make_uino_unpack c i :
  fits_uino c i -> UINO_TO_CHUNK_ID (MAKE_UINO c i) = c /\ UINO_TO_INO (MAKE_UINO c i) = i.
Proof.
  intros [Hc Hi]. rewrite ino_of_make, chunk_of_make.
  rewrite (Z.div_small i), Z.lor_0_r, !Z.mod_small by lia. done.
Qed.

#[export] Hint Resolve make_uino_unpack : chunkfs.
