(* ===== verification/Cont.v ===== *)
(** * Continuations (cont.c)

    A file that has outgrown its chunk is a list of client inodes, one per
    chunk, linked by numbers kept in extended attributes of the client
    inodes.  Nothing of the list is cached: every operation walks it from the
    head, loading one continuation at a time.  The walks take fuel, since a
    list on the disk may be cyclic. *)

From S2P Require Import Prelude Monad Bytes OnDisk Device Decimal Client Kernel Pool Uino.

(** chunkfs_i.h: [struct chunkfs_cont_data]. *)
Record chunkfs_cont_data := mk_cd {
  cd_next : Z;
  cd_prev : Z;
  cd_start : Z;
  cd_len : Z;
}.

(** [struct chunkfs_continuation]. *)
Record chunkfs_continuation := mk_cont {
  co_inode : cino;
  co_dentry : Z;
  co_mnt : Z;
  co_cd : chunkfs_cont_data;
  co_chunk_id : Z;
  co_uino : Z;
}.

(** A client [struct file] the module has opened. *)
Record client_file := mk_cfile {
  cf_dentry : Z;
  cf_pos : Z;
}.

#[export] Instance cont_data_eq_dec : EqDecision chunkfs_cont_data.
Proof. solve_decision. Defined.

(** The length a new part of a file is given. *)
Definition CONT_LEN : Z := 10 * 4096.

Section cont.
Context `{ClientFS}.

(** ** The data of one continuation *)

(** [char value_str[50]]. *)
Definition value_str_size : nat := 50.

(** Reads ([set = false]) or writes an attribute of a client inode. *)
Definition get_set_cont_data (i : cino) (name : string) (value : Z) (set : bool) : kernel Z :=
  let full_name := "user." +:+ name in
  if set then fun s =>
    let value_str := print_llu value +:+ String NUL "" in
    let '(e, f) := setxattr (k_fs s) i full_name value_str in
    let s' := set_fs f s in
    if e =? 0 then (inr 0, s') else (inl (Errno e), s')
  else
    f ← gets k_fs;
    match getxattr f i full_name with
    | inl e => mthrow (Errno e)
    | inr v =>
        (* value_str[size] = 0 *)
        if decide (String.length v < value_str_size)%nat
        then mret (strtoull (v +:+ String NUL "")) else mthrow Undef
    end.

Definition set_cont_data (i : cino) (cd : chunkfs_cont_data) : kernel unit :=
  get_set_cont_data i "next" (cd_next cd) true;;
  get_set_cont_data i "prev" (cd_prev cd) true;;
  get_set_cont_data i "start" (cd_start cd) true;;
  get_set_cont_data i "len" (cd_len cd) true;;
  mret tt.

Definition get_cont_data (i : cino) : kernel chunkfs_cont_data :=
  next ← get_set_cont_data i "next" 0 false;
  prev ← get_set_cont_data i "prev" 0 false;
  start ← get_set_cont_data i "start" 0 false;
  len ← get_set_cont_data i "len" 0 false;
  mret (mk_cd next prev start len).

(** The attributes are those of the inode; the dentry only leads to it. *)
Definition dentry_inode (d : Z) : kernel cino :=
  if d =? 0 then mthrow Undef else f ← gets k_fs; deref (d_inode f d).

Definition set_cont_data_dentry (d : Z) (cd : chunkfs_cont_data) : kernel unit :=
  i ← dentry_inode d; set_cont_data i cd.

Definition get_cont_data_inode (i : cino) : kernel chunkfs_cont_data := get_cont_data i.

Definition chunkfs_init_cont_data (client_dentry : Z) : kernel unit :=
  set_cont_data_dentry client_dentry (mk_cd 0 0 0 CONT_LEN).

(** ** Loading *)

Definition load_continuation (client_dentry chunk_id : Z) : kernel chunkfs_continuation :=
  ok ← kalloc;
  if negb ok then mthrow (Errno ENOMEM) else
  if client_dentry =? 0 then mthrow Undef else
  o ← gets k_pool;
  pi ← deref o;
  match chunkfs_find_chunk pi chunk_id with
  | None => mthrow Bug
  | Some ci =>
      i ← dentry_inode client_dentry;
      r ← try (get_cont_data i);
      match r with
      | inl e => kfree;; mthrow (Errno e)
      | inr cd =>
          mret (mk_cont i client_dentry (ci_mnt ci) cd chunk_id (MAKE_UINO chunk_id (ci_ino_of i)))
      end
  end.

Definition chunkfs_put_continuation (cont : chunkfs_continuation) : kernel unit :=
  dput (co_dentry cont);; kfree.

(** The name of the continuation, in chunk [chunk_id], of inode [from_ino]
    of chunk [from_chunk_id]. *)
Definition cont_path (chunk_id from_chunk_id from_ino : Z) : string :=
  "/chunk" +:+ print_llu chunk_id +:+ "/" +:+ print_llu from_chunk_id +:+ "/" +:+ print_llu from_ino.

(** [__getname] returns NULL on failure, which [PTR_ERR_OR_ZERO] does not
    report: the path is then printed to address 0. *)
Definition getname : kernel unit :=
  ok ← kalloc; if ok : bool then mret tt else mthrow Undef.

Definition chunkfs_get_next_cont (head_dentry : Z) (prev_cont : option chunkfs_continuation)
    : kernel (option chunkfs_continuation) :=
  head ← inode_of_dentry head_dentry;
  head_inode ← get_inode head;
  match prev_cont with
  | None =>
      d ← get_client_dentry head_dentry;
      client_dentry ← dget d;
      c ← load_continuation client_dentry (UINO_TO_CHUNK_ID (i_ino head_inode));
      mret (Some c)
  | Some prev =>
      let next_uino := cd_next (co_cd prev) in
      if next_uino =? i_ino head_inode then mret None
      else if next_uino =? 0 then mret None
      else
        let chunk_id := UINO_TO_CHUNK_ID next_uino in
        let from_ino := UINO_TO_INO (co_uino prev) in
        getname;;
        r ← try (lookup_path (cont_path chunk_id (co_chunk_id prev) from_ino));
        kfree;;
        match r with
        | inl _ => mthrow (Errno ENOENT)
        | inr (m, d) =>
            client_dentry ← dget d;
            path_put m d;;
            c ← load_continuation client_dentry chunk_id;
            mret (Some c)
        end
  end.

(** ** Walking *)

(** Whether a position of the file is in this part; [offset] is a [loff_t]
    that the comparison converts to [u64]. *)
Definition in_cont (cd : chunkfs_cont_data) (offset : Z) : bool :=
  (cd_start cd <=? u64 offset) && (u64 offset <? u64 (cd_start cd + cd_len cd)).

(** One turn of the search: the loop variables are [prev_cont] and
    [next_cont], which is not initialised; the result is the error and
    [next_cont]. *)
Definition find_cont_step (dentry offset : Z)
    (v : option chunkfs_continuation * option chunkfs_continuation)
    : kernel (option chunkfs_continuation * option chunkfs_continuation
              + Z * option chunkfs_continuation) :=
  let '(prev_cont, next_cont) := v in
  r ← try (chunkfs_get_next_cont dentry prev_cont);
  match r with
  | inl e => mret (inr (e, next_cont))
  | inr None => mret (inr (0, None))
  | inr (Some c) =>
      if in_cont (co_cd c) offset then mret (inr (0, Some c))
      else mret (inl (Some c, Some c))
  end.

(** The part of the file at [offset].  [junk] is what the uninitialised
    variable [next_cont] holds. *)
Definition chunkfs_get_cont_at_offset (fuel : nat) (junk : option chunkfs_continuation)
    (dentry offset : Z) : kernel chunkfs_continuation :=
  ip ← inode_of_dentry dentry;
  lock_list ip;;
  v ← loop fuel NoFuel (find_cont_step dentry offset) (None, junk);
  unlock_list ip;;
  let '(err, next_cont) := v in
  match next_cont with
  | None => mthrow (Errno ENOENT)
  | Some c => if err =? 0 then mret c else mthrow (Errno err)
  end.

(** The next client inode of a file, through the inode cache only. *)
Definition chunkfs_get_next_inode (head_inode : inode) (prev_inode : option cino)
    : kernel (option cino) :=
  let found_inode next_inode :=
    f ← gets k_fs;
    if is_bad_inode f next_inode then mthrow (Errno EIO) else mret (Some next_inode) in
  match prev_inode with
  | None =>
      prev ← deref (get_client_inode head_inode);
      o ← iget prev;
      match o with
      | None => mthrow Bug
      | Some next_inode => found_inode next_inode
      end
  | Some prev =>
      iput prev;;
      cd ← get_cont_data_inode prev;
      let next_uino := cd_next cd in
      if next_uino =? 0 then mret None else
      let next_ino := UINO_TO_INO next_uino in
      let chunk_id := UINO_TO_CHUNK_ID next_uino in
      o ← gets k_pool;
      pi ← deref o;
      match chunkfs_find_chunk pi chunk_id with
      | None => mthrow Bug
      | Some ci =>
          o ← iget (ci_sb ci, next_ino);
          match o with
          | None => mthrow Bug
          | Some next_inode => found_inode next_inode
          end
      end
  end.

(** ** Growing a file *)

(** The position of a file, made relative to a part that starts at
    [client_start]: the position of the client file, and [*ppos] (file.c). *)
Definition chunkfs_copy_down_file (pos : Z) (f : client_file) (client_start : Z)
    : client_file * Z :=
  let client_pos := s64 (u64 (pos - client_start)) in
  (mk_cfile (cf_dentry f) client_pos, client_pos).

(** [filp_open(path, O_CREAT | O_RDWR, ..)]. *)
Definition filp_open_create (path : string) : kernel client_file := fun s =>
  match open_create (k_fs s) path with
  | (inl e, f) => (inl (Errno e), set_fs f s)
  | (inr d, f) => (inr (mk_cfile d 0), set_opens (k_opens s + 1) (set_fs f s))
  end.

(** Finds the last part of the file. *)
Definition last_cont_step (dentry : Z) (prev_cont : option chunkfs_continuation)
    : kernel (option chunkfs_continuation + option chunkfs_continuation) :=
  next_cont ← chunkfs_get_next_cont dentry prev_cont;
  match next_cont with
  | None => mret (inr prev_cont)
  | Some c => mret (inl (Some c))
  end.

Definition with_next (cont : chunkfs_continuation) (next : Z) : chunkfs_continuation :=
  let cd := co_cd cont in
  mk_cont (co_inode cont) (co_dentry cont) (co_mnt cont)
    (mk_cd next (cd_prev cd) (cd_start cd) (cd_len cd)) (co_chunk_id cont) (co_uino cont).

(** Appends a part after [prev_cont], the last part that was found: the client
    file, the new continuation and the position relative to it. *)
Definition create_continuation_after (pos : Z) (prev_cont : chunkfs_continuation)
    : kernel (client_file * chunkfs_continuation * Z) :=
  let from_chunk_id := co_chunk_id prev_cont in
  let from_ino := UINO_TO_INO (co_uino prev_cont) in
  let to_chunk_id := u64 (from_chunk_id + 1) in
  getname;;
  r ← try (filp_open_create (cont_path to_chunk_id from_chunk_id from_ino));
  match r with
  | inl e => kfree;; chunkfs_put_continuation prev_cont;; mthrow (Errno e)
  | inr new_file =>
      d ← dget (cf_dentry new_file);
      let start := u64 (cd_start (co_cd prev_cont) + cd_len (co_cd prev_cont)) in
      let cd := mk_cd 0 (co_uino prev_cont) start CONT_LEN in
      try (set_cont_data_dentry d cd);;
      i ← dentry_inode d;
      let prev_cont := with_next prev_cont (MAKE_UINO to_chunk_id (ci_ino_of i)) in
      try (set_cont_data_dentry (co_dentry prev_cont) (co_cd prev_cont));;
      r ← try (load_continuation d to_chunk_id);
      match r with
      | inl _ => mthrow Undef
      | inr new_cont =>
          let '(client_file, pos') :=
            chunkfs_copy_down_file pos new_file (cd_start (co_cd new_cont)) in
          kfree;;
          mret (client_file, new_cont, pos')
      end
  end.

(** Appends a part to the file, in the next chunk.  No lock is held: another
    call may run between the search for the last part and the rest. *)
Definition chunkfs_create_continuation (fuel : nat) (dentry pos : Z)
    : kernel (client_file * chunkfs_continuation * Z) :=
  o ← loop fuel NoFuel (last_cont_step dentry) None;
  prev_cont ← deref o;
  create_continuation_after pos prev_cont.
End cont.
