(* ===== verification/Inode.v ===== *)
(** * Inodes (inode.c)

    A chunkfs inode stands over the client inode of the head of the file: it
    copies its attributes, and its size is the sum of the sizes of the parts. *)

From S2P Require Import Prelude Monad Bytes OnDisk Device Decimal Client Kernel Pool Uino Cont.

(** ** File types: [S_ISLNK] and the like *)

Definition S_IFMT : Z := 0xF000.
Definition S_IFSOCK : Z := 0xC000.
Definition S_IFLNK : Z := 0xA000.
Definition S_IFREG : Z := 0x8000.
Definition S_IFBLK : Z := 0x6000.
Definition S_IFDIR : Z := 0x4000.
Definition S_IFCHR : Z := 0x2000.
Definition S_IFIFO : Z := 0x1000.

Definition is_type (mode type : Z) : bool := Z.land mode S_IFMT =? type.

Section inode.
Context `{ClientFS}.

Definition with_attr (i : inode) (a : attr) : inode :=
  mk_inode (i_ino i) (i_csize i) a (i_op i) (i_fop i) (ii_client_inode i).

Definition with_size (i : inode) (size : Z) : inode :=
  mk_inode (i_ino i) size (i_cattr i) (i_op i) (i_fop i) (ii_client_inode i).

(** [__copy_inode(inode, client_inode)]. *)
Definition copy_inode_up (i : inode) (client : cino) : kernel inode :=
  f ← gets k_fs; mret (with_attr i (i_attr f client)).

(** [__copy_inode(client_inode, inode)]. *)
Definition copy_down_inode (i : inode) (client : cino) : kernel unit :=
  client_call (fun f => (tt, set_attr f client (i_cattr i))).

(** One turn over the parts: the loop variables are [prev_inode] and
    [total_size]. *)
Definition sum_sizes_step (i : inode) (v : option cino * Z) : kernel (option cino * Z + Z) :=
  let '(prev_inode, total_size) := v in
  r ← try (chunkfs_get_next_inode i prev_inode);
  match r with
  | inl _ => mret (inr total_size)
  | inr None => mret (inr total_size)
  | inr (Some next) =>
      f ← gets k_fs;
      mret (inl (Some next, s64 (total_size + i_size f next)))
  end.

Definition chunkfs_copy_up_inode (fuel : nat) (p : Z) (client : cino) : kernel unit :=
  i ← get_inode p;
  i ← copy_inode_up i client;
  total_size ← loop fuel NoFuel (sum_sizes_step i) (None, 0);
  put_inode p (with_size i total_size).

Definition set_inode_ops (i : inode) (mode : Z) : inode :=
  let op := if is_type mode S_IFLNK then SymlinkIops
            else if is_type mode S_IFDIR then DirIops
            else if is_type mode S_IFREG then FileIops
            else SpecialIops in
  let fop := if is_type mode S_IFDIR then DirFops
             else if is_type mode S_IFREG then FileFops
             else i_fop i in
  let fop := if is_type mode S_IFBLK || is_type mode S_IFCHR ||
                is_type mode S_IFIFO || is_type mode S_IFSOCK then SpecialFops else fop in
  mk_inode (i_ino i) (i_csize i) (i_cattr i) op fop (ii_client_inode i).

(** Fills in a chunkfs inode from its client inode; [BUG_ON(!client_inode)]. *)
Definition chunkfs_start_inode (fuel : nat) (p : Z) (client : option cino) (chunk_id : Z)
    : kernel unit :=
  match client with
  | None => mthrow Bug
  | Some c =>
      i ← get_inode p;
      f ← gets k_fs;
      let i := mk_inode (MAKE_UINO chunk_id (ci_ino_of c)) (i_csize i) (i_cattr i) (i_op i)
                 (i_fop i) (Some c) in
      put_inode p (set_inode_ops i (a_mode (i_attr f c)));;
      chunkfs_copy_up_inode fuel p c
  end.

Definition chunkfs_write_inode (p : Z) : kernel Z :=
  i ← get_inode p;
  c ← deref (get_client_inode i);
  copy_down_inode i c;;
  e ← client_call (fun f => op_write_inode f c);
  mret (- e).
End inode.
