(* ===== verification/File.v ===== *)
(** * Files (file.c)

    Reading and writing at a position of the file: the part that holds the
    position is found and opened, the position is made relative to it, the
    client file system does the work, and everything is closed again.

    [ppos] is the position the caller passes by address; the modelled
    functions take its value and return the value they leave there. *)

From S2P Require Import Prelude Monad Bytes OnDisk Device Decimal Client Kernel Pool Uino Cont Inode.

Section file.
Context `{ClientFS}.

(** [file->f_dentry->d_inode]. *)
Definition file_inode (p : Z) : kernel Z :=
  f ← get_file p; inode_of_dentry (f_dentry f).

(** [file->f_pos = client_file->f_pos + client_start]. *)
Definition copy_up_file (p : Z) (client : client_file) (client_start : Z) : kernel unit :=
  f ← get_file p;
  put_file p (mk_file (f_dentry f) (s64 (u64 (cf_pos client + client_start)))).

(** [dentry_open(&co_path, ...)]. *)
Definition open_client (mnt dentry : Z) : kernel client_file := fun s =>
  let e := dentry_open (k_fs s) mnt dentry in
  if e =? 0 then (inr (mk_cfile dentry 0), set_opens (k_opens s + 1) s) else (inl (Errno e), s).

Definition chunkfs_open_cont_file (fuel : nat) (junk : option chunkfs_continuation) (p pos : Z)
    : kernel (client_file * chunkfs_continuation * Z) :=
  f ← get_file p;
  cont ← chunkfs_get_cont_at_offset fuel junk (f_dentry f) pos;
  new_file ← open_client (co_mnt cont) (co_dentry cont);
  let '(client_file, pos') := chunkfs_copy_down_file pos new_file (cd_start (co_cd cont)) in
  mret (client_file, cont, pos').

Definition chunkfs_close_cont_file (fuel : nat) (p : Z) (client : client_file)
    (cont : chunkfs_continuation) : kernel unit :=
  copy_up_file p client (cd_start (co_cd cont));;
  i ← file_inode p;
  c ← dentry_inode (cf_dentry client);
  chunkfs_copy_up_inode fuel i c;;
  chunkfs_put_continuation cont.

(** The client's [f_op->read] or [do_sync_read]: the return value, the
    position it leaves and the data. *)
Definition client_read (client : client_file) (len pos : Z) : kernel (Z * Z * list Z) :=
  client_call (fun f => file_read f (cf_dentry client) len pos).

Definition client_write (client : client_file) (data : list Z) (pos : Z) : kernel (Z * Z) :=
  client_call (fun f => file_write f (cf_dentry client) data pos).

(** The return value, the value left in [*ppos] and the data read. *)
Definition chunkfs_read (fuel : nat) (junk : option chunkfs_continuation) (p len pos : Z)
    : kernel (Z * Z * list Z) :=
  r ← try (chunkfs_open_cont_file fuel junk p pos);
  match r with
  | inl e => if e =? ENOENT then mret (0, pos, []) else mthrow (Errno e)
  | inr (client, cont, pos1) =>
      x ← client_read client len pos1;
      let '(ret, pos2, data) := x in
      let err := s32 ret in
      let err := if err =? - ENODATA then 0 else err in
      chunkfs_close_cont_file fuel p client cont;;
      mret (err, pos2, data)
  end.

(** The return value and the value left in [*ppos]. *)
Definition chunkfs_write (fuel : nat) (junk : option chunkfs_continuation) (p : Z) (data : list Z)
    (pos : Z) : kernel (Z * Z) :=
  r ← try (chunkfs_open_cont_file fuel junk p pos);
  x ← match r with
      | inr x => mret x
      | inl e =>
          if e =? ENOENT then
            f ← get_file p; chunkfs_create_continuation fuel (f_dentry f) pos
          else mthrow (Errno e)
      end;
  let '(client, cont, pos1) := x in
  y ← client_write client data pos1;
  let '(size, pos2) := y in
  chunkfs_close_cont_file fuel p client cont;;
  mret (size, pos2).

(** Opens the head and closes it again. *)
Definition chunkfs_open (fuel : nat) (junk : option chunkfs_continuation) (p : Z) : kernel unit :=
  x ← chunkfs_open_cont_file fuel junk p 0;
  let '(client, cont, _) := x in
  chunkfs_close_cont_file fuel p client cont.

(** One turn of the fan-out of fsync: the loop variables are [prev_cont] and
    [err]; an error of a part does not stop the loop, and is forgotten when a
    later part succeeds. *)
Definition fsync_step (dentry start stop_ : Z) (datasync : bool)
    (v : option chunkfs_continuation) : kernel (option chunkfs_continuation + Z) :=
  r ← try (chunkfs_get_next_cont dentry v);
  match r with
  | inl e => mret (inr (- e))
  | inr None => mret (inr 0)
  | inr (Some c) =>
      client_call (fun f => file_fsync f (co_dentry c) start stop_ datasync);;
      mret (inl (Some c))
  end.

Definition chunkfs_fsync_file (fuel : nat) (p start stop_ : Z) (datasync : bool) : kernel Z :=
  f ← get_file p;
  ip ← inode_of_dentry (f_dentry f);
  lock_list ip;;
  err ← loop fuel NoFuel (fsync_step (f_dentry f) start stop_ datasync) None;
  unlock_list ip;;
  mret err.

(** The client's own setattr, or the generic one in its three steps, after
    which the inode is marked dirty, which shows in no state. *)
Definition client_setattr (f : fs) (c : cino) (client_dentry : Z) (attr : iattr) : Z * fs :=
  if has_setattr f c then op_setattr f client_dentry attr
  else
    let e := inode_change_ok f c attr in
    let e := if e =? 0 then security_inode_setattr f client_dentry attr else e in
    if e =? 0 then (0, setattr_copy f c attr) else (e, f).

Definition chunkfs_setattr (fuel : nat) (dentry : Z) (attr : iattr) : kernel Z :=
  ip ← inode_of_dentry dentry;
  i ← get_inode ip;
  c ← deref (get_client_inode i);
  client_dentry ← get_client_dentry dentry;
  error ← client_call (fun f => client_setattr f c client_dentry attr);
  (if error =? 0 then chunkfs_copy_up_inode fuel ip c else mret tt);;
  mret (- error).

Definition chunkfs_permission (ip submask : Z) : kernel Z :=
  i ← get_inode ip;
  c ← deref (get_client_inode i);
  f ← gets k_fs;
  mret (- (if has_permission f c then op_permission f c submask else generic_permission f c submask)).
End file.
