(* ===== verification/Namei.v ===== *)
(** * Dentries and names (namei.c, symlink.c, dir.c, part of inode.c)

    A chunkfs dentry carries a client dentry and a client nameidata.  The
    operations on names call those of the client directory and then fill in a
    chunkfs inode over the client inode. *)

From S2P Require Import Prelude Monad Bytes OnDisk Device Decimal Client Kernel Pool Uino Cont Inode File.

(** The references the VFS takes and gives back around the calls are not
    counted; [k_icount] has those taken and put here. *)

(** [saved_names] has [MAX_NESTED_LINKS + 1] entries. *)
Definition MAX_NESTED_LINKS : Z := 8.

Section namei.
Context `{ClientFS}.

(** ** Chunkfs inodes *)

(** An address that no inode has. *)
Definition next_address (m : gmap Z inode) : Z := map_fold (fun p _ a => Z.max (p + 1) a) 1 m.

(** An inode of the VFS as [chunkfs_alloc_inode] and [inode_init_always] leave
    it; [ii_client_inode] is not initialised. *)
Definition blank_inode : inode := mk_inode 0 0 (mk_attr 0 0 0 0 0 0 0 0 0 1) NoOps NoFops None.

(** The new inode gets an address; [None] for NULL. *)
Definition chunkfs_alloc_inode : kernel (option Z) :=
  ok ← kalloc;
  if negb ok then mret None else
  inodes ← gets k_inodes;
  let p := next_address inodes in
  put_inode p blank_inode;;
  mret (Some p).

(** [chunkfs_new_inode]: [new_inode] counts the reference to what it
    allocates, or returns NULL, which [is_bad_inode] follows. *)
Definition chunkfs_new_inode : kernel Z :=
  o ← chunkfs_alloc_inode;
  match o with
  | None => mthrow Undef
  | Some p => modify (fun s => set_icount (<[p := 1]> (k_icount s)) s);; mret p
  end.

(** [clear_inode] of the kernel only checks the state of the inode. *)
Definition chunkfs_clear_inode (p : Z) : kernel unit :=
  i ← get_inode p;
  c ← deref (ii_client_inode i);
  iput c.

Definition chunkfs_destroy_inode (p : Z) : kernel unit :=
  modify (fun s => set_icount (delete p (k_icount s)) (set_inodes (delete p (k_inodes s)) s));;
  kfree.

(** The last [iput] of a chunkfs inode: the kernel evicts it and then has its
    memory freed. *)
Definition iput_last (p : Z) : kernel unit := chunkfs_clear_inode p;; chunkfs_destroy_inode p.

(** ** Nameidata *)

Definition set_fsdata (d : dentry) (dp : option dentry_priv) : dentry :=
  mk_dentry (de_inode d) (de_name d) (de_parent d) dp (de_dops d).

Definition put_nd (p : Z) (nd : nameidata) : kernel unit :=
  d ← get_dentry p;
  dp ← deref (de_fsdata d);
  put_dentry p (set_fsdata d (Some (mk_dpriv (dp_client_dentry dp) nd))).

Definition chunkfs_release_nd (dentry : Z) : kernel unit :=
  nd ← get_client_nd dentry;
  dput (nd_dentry nd);;
  (* mntput(NULL) does nothing *)
  if nd_mnt nd =? 0 then mret tt else mntput.

Definition chunkfs_init_nd (dentry client_dentry chunk_id : Z) : kernel unit :=
  nd ← get_client_nd dentry;
  o ← gets k_pool;
  pi ← deref o;
  match chunkfs_find_chunk pi chunk_id with
  | None => mthrow Bug
  | Some chunk =>
      d ← dget client_dentry;
      m ← mntget (ci_mnt chunk);
      put_nd dentry (mk_nd d m (nd_flags nd) (nd_seq nd) (nd_depth nd) (nd_saved_names nd))
  end.

(** The nameidata [dst] after the copy; the depth indexes an array. *)
Definition copy_nd (dst src : nameidata) : kernel nameidata :=
  let depth := nd_depth src in
  if (0 <=? depth) && (depth <=? MAX_NESTED_LINKS) then
    mret (mk_nd (nd_dentry dst) (nd_mnt dst) (nd_flags src) (nd_seq src) depth
            (match nd_saved_names src !! depth with
             | Some name => <[depth := name]> (nd_saved_names dst)
             | None => delete depth (nd_saved_names dst)
             end))
  else mthrow Undef.

Definition chunkfs_copy_up_nd (nd client_nd : nameidata) : kernel nameidata := copy_nd nd client_nd.
Definition chunkfs_copy_down_nd (nd client_nd : nameidata) : kernel nameidata := copy_nd client_nd nd.

(** ** Dentries *)

Definition chunkfs_remove_dentry (dentry : Z) : kernel unit :=
  d ← get_client_dentry dentry; dput d.

Definition chunkfs_free_dentry (dentry : Z) : kernel unit :=
  CHUNKFS_D dentry;;
  kfree;; kfree;;
  d ← get_dentry dentry;
  put_dentry dentry (set_fsdata d None).

Definition chunkfs_release_dentry (dentry : Z) : kernel unit :=
  chunkfs_release_nd dentry;;
  chunkfs_remove_dentry dentry;;
  chunkfs_free_dentry dentry.

Definition empty_nd : nameidata := mk_nd 0 0 0 0 0 ∅.

(** A dentry that [chunkfs_init_dentry] has set up. *)
Definition initialised (d : dentry) : dentry :=
  mk_dentry (de_inode d) (de_name d) (de_parent d) (Some (mk_dpriv 0 empty_nd)) true.

Definition chunkfs_init_dentry (dentry : Z) : kernel unit :=
  d ← get_dentry dentry;
  match de_fsdata d with
  | Some _ => mthrow Bug
  | None =>
      dp ← kalloc;
      if negb dp then mthrow (Errno ENOMEM) else
      nd ← kalloc;
      if negb nd then kfree;; mthrow (Errno ENOMEM) else
      put_dentry dentry (initialised d)
  end.

(** The parent is a dentry with a client dentry. *)
Definition chunkfs_clone_dentry (dentry : Z) : kernel Z :=
  d ← get_dentry dentry;
  client_parent ← get_client_dentry (de_parent d);
  o ← client_call (fun f => d_alloc_name f client_parent (de_name d));
  match o with
  | None => mthrow (Errno ENOMEM)
  | Some client_dentry => mret client_dentry
  end.

Definition chunkfs_add_dentry (dentry client_dentry : Z) : kernel unit :=
  d ← get_dentry dentry;
  dp ← deref (de_fsdata d);
  put_dentry dentry (set_fsdata d (Some (mk_dpriv client_dentry (dp_client_nd dp)))).

Definition set_d_inode (d : dentry) (inode : option Z) : dentry :=
  mk_dentry inode (de_name d) (de_parent d) (de_fsdata d) (de_dops d).

(** [d_instantiate], and [d_splice_alias] of an inode that has no other
    dentry. *)
Definition d_instantiate (dentry : Z) (inode : option Z) : kernel unit :=
  d ← get_dentry dentry;
  put_dentry dentry (set_d_inode d inode).

(** The client inode and chunk of a directory. *)
Definition client_dir (dir : Z) : kernel (cino * Z) :=
  i ← get_inode dir;
  c ← deref (get_client_inode i);
  mret (c, UINO_TO_CHUNK_ID (i_ino i)).

Definition chunkfs_lookup (fuel : nat) (dir dentry : Z) : kernel unit :=
  cd ← client_dir dir;
  let '(client_dir, chunk_id) := cd in
  r ← try (chunkfs_init_dentry dentry);
  match r with
  | inl e => chunkfs_free_dentry dentry;; mthrow (Errno e)
  | inr _ =>
      r ← try (chunkfs_clone_dentry dentry);
      match r with
      | inl _ =>
          (* [err] is still 0: ERR_PTR(0) is NULL, which reports success *)
          chunkfs_remove_dentry dentry;; chunkfs_free_dentry dentry;; mret tt
      | inr client_dentry =>
          let out_dput d err :=
            dput d;; chunkfs_release_nd dentry;; chunkfs_remove_dentry dentry;;
            chunkfs_free_dentry dentry;; mthrow (Errno err) in
          chunkfs_init_nd dentry client_dentry chunk_id;;
          client_nd ← get_client_nd dentry;
          l ← client_call (fun f => op_lookup f client_dir client_dentry (nd_flags client_nd));
          match l with
          | LookupError e => out_dput client_dentry e
          | LookupNull | LookupDentry _ =>
              client_dentry ←
                match l with
                | LookupDentry new_dentry => dput client_dentry;; mret new_dentry
                | _ => mret client_dentry
                end;
              f ← gets k_fs;
              match d_inode f client_dentry with
              | Some client_inode =>
                  inode ← chunkfs_new_inode;
                  r ← try (chunkfs_init_cont_data client_dentry);
                  match r with
                  | inl e => out_dput client_dentry e
                  | inr _ =>
                      chunkfs_start_inode fuel inode (Some client_inode) chunk_id;;
                      chunkfs_add_dentry dentry client_dentry;;
                      d_instantiate dentry (Some inode)
                  end
              | None =>
                  chunkfs_add_dentry dentry client_dentry;;
                  d_instantiate dentry None
              end
          end
      end
  end.

(** ** Making and removing names *)

(** The common body of create, mkdir, mknod and symlink: [before] is what is
    done to the nameidata before the call, [op] the client's operation on the
    client directory and the client dentry, [after] the same after it. *)
Definition make_name (fuel : nat) (dir dentry : Z) (before after : kernel unit)
    (op : fs -> cino -> Z -> Z * fs) : kernel unit :=
  cd ← client_dir dir;
  let '(client_dir, chunk_id) := cd in
  client_dentry ← get_client_dentry dentry;
  inode ← chunkfs_new_inode;
  before;;
  err ← client_call (fun f => op f client_dir client_dentry);
  if negb (err =? 0) then iput_last inode;; mthrow (Errno err) else
  r ← try (chunkfs_init_cont_data client_dentry);
  match r with
  | inl e => iput_last inode;; mthrow (Errno e)
  | inr _ =>
      f ← gets k_fs;
      chunkfs_start_inode fuel inode (d_inode f client_dentry) chunk_id;;
      chunkfs_copy_up_inode fuel dir client_dir;;
      after;;
      d_instantiate dentry (Some inode)
  end.

(** [nd] is on the stack and only its flags are set; [junk] is the rest of it.
    The client gets the address of its nameidata for the exclusive flag. *)
Definition chunkfs_create (fuel : nat) (junk : nameidata) (dir dentry mode : Z) (excl : bool)
    : kernel unit :=
  i ← get_inode dir;
  let nd := mk_nd (nd_dentry junk) (nd_mnt junk) (a_flags (i_cattr i)) (nd_seq junk) (nd_depth junk)
              (nd_saved_names junk) in
  make_name fuel dir dentry
    (client_nd ← get_client_nd dentry; nd' ← chunkfs_copy_down_nd nd client_nd; put_nd dentry nd')
    (client_nd ← get_client_nd dentry; chunkfs_copy_up_nd nd client_nd;; mret tt)
    (fun f d c => op_create f d c mode true).

Definition chunkfs_symlink (fuel : nat) (dir dentry : Z) (oldname : string) : kernel unit :=
  make_name fuel dir dentry (mret tt) (mret tt) (fun f d c => op_symlink f d c oldname).

Definition chunkfs_mkdir (fuel : nat) (dir dentry mode : Z) : kernel unit :=
  make_name fuel dir dentry (mret tt) (mret tt) (fun f d c => op_mkdir f d c mode).

Definition chunkfs_mknod (fuel : nat) (dir dentry mode dev : Z) : kernel unit :=
  make_name fuel dir dentry (mret tt) (mret tt) (fun f d c => op_mknod f d c mode dev).

Definition chunkfs_link (fuel : nat) (old_dentry dir new_dentry : Z) : kernel unit :=
  cd ← client_dir dir;
  old_inode ← inode_of_dentry old_dentry;
  oi ← get_inode old_inode;
  client_old_inode ← deref (get_client_inode oi);
  client_old_dentry ← get_client_dentry old_dentry;
  client_new_dentry ← get_client_dentry new_dentry;
  err ← client_call (fun f => op_link f client_old_dentry cd.1 client_new_dentry);
  if negb (err =? 0) then mthrow (Errno err) else
  chunkfs_copy_up_inode fuel old_inode client_old_inode;;
  modify (fun s => set_icount (<[dir := count (k_icount s) dir + 1]> (k_icount s)) s);;
  d_instantiate new_dentry (Some old_inode).

Definition chunkfs_unlink (fuel : nat) (dir dentry : Z) : kernel unit :=
  cd ← client_dir dir;
  client_dentry ← get_client_dentry dentry;
  inode ← inode_of_dentry dentry;
  i ← get_inode inode;
  client_inode ← deref (get_client_inode i);
  err ← client_call (fun f => op_unlink f cd.1 client_dentry);
  if negb (err =? 0) then mthrow (Errno err) else
  chunkfs_copy_up_inode fuel dir cd.1;;
  chunkfs_copy_up_inode fuel inode client_inode.

Definition chunkfs_rmdir (fuel : nat) (dir dentry : Z) : kernel unit :=
  cd ← client_dir dir;
  client_dentry ← get_client_dentry dentry;
  inode ← inode_of_dentry dentry;
  err ← client_call (fun f => op_rmdir f cd.1 client_dentry);
  if negb (err =? 0) then mthrow (Errno err) else
  chunkfs_copy_up_inode fuel dir cd.1;;
  i ← dentry_inode client_dentry;
  chunkfs_copy_up_inode fuel inode i.

Definition chunkfs_rename (old_dir old_dentry new_dir new_dentry : Z) : kernel unit :=
  cd ← client_dir old_dir;
  cd' ← client_dir new_dir;
  get_client_dentry old_dentry;;
  get_client_dentry new_dentry;;
  mthrow (Errno ENOSYS).

(** ** Symbolic links (symlink.c) *)

(** The client inode of a dentry. *)
Definition client_of (dentry : Z) : kernel cino :=
  ip ← inode_of_dentry dentry; i ← get_inode ip; deref (get_client_inode i).

Definition chunkfs_readlink (dentry buflen : Z) : kernel (Z * list Z) :=
  client_of dentry;;
  client_dentry ← get_client_dentry dentry;
  client_call (fun f => op_readlink f client_dentry buflen).

(** The cookie and the nameidata of the caller. *)
Definition chunkfs_follow_link (dentry : Z) (nd : nameidata) : kernel (Z * nameidata) :=
  client_of dentry;;
  client_dentry ← get_client_dentry dentry;
  client_nd ← get_client_nd dentry;
  client_nd ← chunkfs_copy_down_nd nd client_nd;
  r ← client_call (fun f => op_follow_link f client_dentry client_nd);
  let '(cookie, client_nd) := r in
  put_nd dentry client_nd;;
  nd ← chunkfs_copy_up_nd nd client_nd;
  mret (cookie, nd).

Definition chunkfs_put_link (dentry : Z) (nd : nameidata) (cookie : Z) : kernel nameidata :=
  client_inode ← client_of dentry;
  client_dentry ← get_client_dentry dentry;
  client_nd ← get_client_nd dentry;
  f ← gets k_fs;
  if has_put_link f client_inode then
    client_nd ← chunkfs_copy_down_nd nd client_nd;
    client_nd ← client_call (fun f => op_put_link f client_dentry client_nd cookie);
    put_nd dentry client_nd;;
    chunkfs_copy_up_nd nd client_nd
  else mret nd.

(** ** Directories (dir.c) *)

(** [f_pos] of the client file after it moved. *)
Definition moved (c : client_file) (pos : Z) : client_file := mk_cfile (cf_dentry c) pos.

Definition chunkfs_dir_llseek (fuel : nat) (junk : option chunkfs_continuation) (p offset origin : Z)
    : kernel Z :=
  x ← chunkfs_open_cont_file fuel junk p offset;
  let '(client, cont, offset') := x in
  y ← client_call (fun f => file_llseek f (cf_dentry client) (cf_pos client) offset' origin);
  chunkfs_close_cont_file fuel p (moved client y.2) cont;;
  mret (s32 y.1).

(** Opening makes [file->f_pos] relative, closing makes it absolute again.  The
    client reads at the position of the context, [ctx_pos], which is absolute;
    the result, the position left in the context and the names. *)
Definition chunkfs_iterate (fuel : nat) (junk : option chunkfs_continuation) (p ctx_pos : Z)
    : kernel (Z * Z * list string) :=
  fl ← get_file p;
  x ← chunkfs_open_cont_file fuel junk p (f_pos fl);
  let '(client, cont, pos') := x in
  put_file p (mk_file (f_dentry fl) pos');;
  y ← client_call (fun f => file_iterate f (cf_dentry client) ctx_pos);
  let '(ret, ctx_pos', names) := y in
  let err := if ret =? - ENODATA then 0 else ret in
  chunkfs_close_cont_file fuel p client cont;;
  mret (err, ctx_pos', names).
End namei.
