(* ===== verification/Super.v ===== *)
(** * Mounting and unmounting (super.c)

    The second half of a mount: the root directory, which is "/root" of the
    client file system of chunk 1.  [chunkfs_fill_super] unlocks the mutex
    of the module on entry and locks it on exit, as code converted from the big
    kernel lock. *)

From S2P Require Import Prelude Monad Bytes OnDisk Device Decimal Client Kernel Pool Uino Cont Inode File Namei.

Section super.
Context `{Host} `{Mutexes} `{ClientFS}.

(** An address that no dentry has. *)
Definition next_dentry_address (m : gmap Z dentry) : Z := map_fold (fun p _ a => Z.max (p + 1) a) 1 m.

(** [d_make_root]: [None] for NULL, when the inode has been put. *)
Definition d_make_root (inode : Z) : kernel (option Z) :=
  ok ← kalloc;
  if negb ok then iput_last inode;; mret None else
  dentries ← gets k_dentries;
  let p := next_dentry_address dentries in
  put_dentry p (mk_dentry (Some inode) "/" p None false);;
  mret (Some p).

(** The memory of a dentry is freed. *)
Definition free_dentry (p : Z) : kernel unit :=
  modify (fun s => set_dentries (delete p (k_dentries s)) s);; kfree.

(** The last [dput] of the root before it has private data: its inode is
    put. *)
Definition dput_root (dentry inode : Z) : kernel unit :=
  free_dentry dentry;; iput_last inode.

Definition root_path : string := "/chunk1/root/".

(** The address of the root dentry, [sb->s_root].  [attrs] is what the clock
    and [inode_init_owner] put into the new inode. *)
Definition chunkfs_read_root (fuel : nat) (attrs : attr) : kernel Z :=
  o ← gets k_pool;
  pi ← deref o;
  root_dev ← deref (pi_root_dev pi);
  di ← deref (pi_dlist pi !! root_dev);
  ci ← deref (di_root_chunk di);
  let ino := MAKE_UINO (ci_chunk_id ci) 12 in
  ok ← kalloc;
  if negb ok then mthrow Undef else
  inodes ← gets k_inodes;
  let inode := next_address inodes in
  put_inode inode (mk_inode ino 0 attrs NoOps NoFops None);;
  modify (fun s => set_icount (<[inode := 1]> (k_icount s)) s);;
  r ← try (lookup_path root_path);
  match r with
  | inl _ => mthrow Undef (* chunkfs_free_dentry(sb->s_root), which is NULL *)
  | inr (mnt, d) =>
      dentry ← dget d;
      try (chunkfs_init_cont_data dentry);;
      f ← gets k_fs;
      chunkfs_start_inode fuel inode (d_inode f dentry) (ci_chunk_id ci);;
      i ← get_inode inode;
      put_inode inode (mk_inode ino (i_csize i) (i_cattr i) (i_op i) (i_fop i) (ii_client_inode i));;
      r ← d_make_root inode;
      modify (set_root r);;
      match r with
      | None => iput_last inode;; mthrow (Errno ENOMEM)
      | Some s_root =>
          r ← try (chunkfs_init_dentry s_root);
          match r with
          | inl e => dput_root s_root inode;; iput_last inode;; mthrow (Errno e)
          | inr _ =>
              chunkfs_init_nd s_root dentry (ci_chunk_id ci);;
              chunkfs_add_dentry s_root dentry;;
              path_put mnt d;;
              mret s_root
          end
      end
  end.

(** What is shared between mount and remount: nothing so far. *)
Definition chunkfs_setup_super (read_only : bool) : kernel Z := mret 0.

(** [blocksize_ok]: the result of [sb_set_blocksize] is not 0. *)
Definition chunkfs_fill_super (fuel : nat) (attrs : attr) (blocksize_ok read_only : bool) : kernel Z :=
  unlock_kernel;;
  r ← try (if negb blocksize_ok then mthrow (Errno EINVAL) else
           pi ← chunkfs_read_pool fuel;
           modify (set_pool (Some pi));;
           root ← chunkfs_read_root fuel attrs;
           chunkfs_setup_super read_only;;
           mret root);
  lock_kernel;;
  match r with
  | inl retval => if retval =? 0 then mthrow Bug else mthrow (Errno retval)
  | inr root => mret root
  end.

(** Writing the pool summary back changes nothing: it is never modified. *)
Definition chunkfs_commit_super : kernel unit :=
  o ← gets k_pool; deref o;; mret tt.

Definition chunkfs_put_super (read_only : bool) : kernel unit :=
  o ← gets k_pool;
  (if read_only then mret tt else chunkfs_commit_super);;
  pi ← deref o;
  chunkfs_free_pool pi;;
  modify (set_pool None).

Definition chunkfs_write_super : kernel Z :=
  lock_kernel;; chunkfs_commit_super;; unlock_kernel;; mret 0.

(** [generic_shutdown_super] when only the root is left: its inode [ip] is
    put, its private data released, its dentry freed; unless the mount is
    read-only the file system is synced ([sync_filesystem]); the superblock is
    put. *)
Definition shutdown_super (root ip : Z) (read_only : bool) : kernel unit :=
  iput_last ip;; chunkfs_release_dentry root;; free_dentry root;;
  modify (set_root None);;
  (if read_only then mret tt else chunkfs_write_super;; mret tt);;
  chunkfs_put_super read_only.
End super.
