(* ===== verification/Module.v ===== *)
(** * The module and the block device (end of super.c)

    Loading and unloading the module, and the entry points of its file system
    type: [chunkfs_mount], which opens the block device around
    [chunkfs_fill_super], and [chunkfs_kill_super], with which a failed mount
    and every unmount end. *)

From S2P Require Import Prelude Monad Bytes OnDisk Device Decimal Client Kernel Pool Uino Cont Inode File Namei Super.

Section module.
Context `{Host} `{Mutexes} `{ClientFS}.

(** What the rest of the kernel holds for the module. *)
Record module := mk_module {
  m_kernel : kstate;
  m_registered : bool;   (* chunkfs_fs_type is registered *)
  m_cache : bool;        (* chunkfs_inode_cachep, [false] for NULL *)
  m_opens : Z;           (* blkdev_get minus blkdev_put of the device *)
  m_bd_super : bool;     (* bdev->bd_super, [false] for NULL *)
}.

Abbreviation system := (stm module stop).

Definition set_kernel (s : kstate) (m : module) : module :=
  mk_module s (m_registered m) (m_cache m) (m_opens m) (m_bd_super m).
Definition set_registered (b : bool) (m : module) : module :=
  mk_module (m_kernel m) b (m_cache m) (m_opens m) (m_bd_super m).
Definition set_cache (b : bool) (m : module) : module :=
  mk_module (m_kernel m) (m_registered m) b (m_opens m) (m_bd_super m).
Definition set_bdev_opens (n : Z) (m : module) : module :=
  mk_module (m_kernel m) (m_registered m) (m_cache m) n (m_bd_super m).
Definition set_bd_super (b : bool) (m : module) : module :=
  mk_module (m_kernel m) (m_registered m) (m_cache m) (m_opens m) b.

Definition lift {A} (c : kernel A) : system A := fun m =>
  let '(r, s) := c (m_kernel m) in (r, set_kernel s m).

(** ** Loading and unloading *)

(** [reg] is the error of [register_filesystem], 0 for success, [cache]
    whether [kmem_cache_create] succeeds.  The result is [err]. *)
Definition init_chunkfs_fs (reg : Z) (cache : bool) : system Z :=
  modify (fun m => if reg =? 0 then set_registered true m else m);;
  modify (set_cache cache);;
  mret (if cache then - reg else - ENOMEM).

Definition exit_chunkfs_fs : system unit :=
  modify (set_registered false);; modify (set_cache false).

(** ** Mounting and unmounting *)

Definition blkdev_put : system unit := modify (fun m => set_bdev_opens (m_opens m - 1) m).

(** [generic_shutdown_super] does nothing for a superblock without a root. *)
Definition generic_shutdown_super (read_only : bool) : kernel unit :=
  r ← gets k_root;
  match r with
  | None => mret tt
  | Some root => ip ← inode_of_dentry root; shutdown_super root ip read_only
  end.

Definition chunkfs_kill_super (read_only : bool) : system unit :=
  modify (set_bd_super false);;
  lift (generic_shutdown_super read_only);;
  blkdev_put.

(** [mount_bdev] of a device that is not mounted: it is opened, [dev] is the
    error of that; [fill] fills the superblock; when that fails the superblock
    is killed, otherwise the device gets it. *)
Definition mount_bdev (dev : Z) (fill : kernel Z) (kill : system unit) : system Z := fun m =>
  if negb (dev =? 0) then (inl (Errno dev), m) else
  let m := set_bdev_opens (m_opens m + 1) m in
  match lift fill m with
  | (inl (Errno e), m) => (kill;; mthrow (Errno e)) m
  | (inl x, m) => (inl x, m)
  | (inr root, m) => (inr root, set_bd_super true m)
  end.

Definition chunkfs_mount (fuel : nat) (attrs : attr) (dev : Z) (blocksize_ok read_only : bool) : system Z :=
  mount_bdev dev (chunkfs_fill_super fuel attrs blocksize_ok read_only) (chunkfs_kill_super read_only).
End module.
