(* ===== verification/Vfs.v ===== *)
(** * The operation tables, and the system behind them

    The module is entered through tables of functions: the inode operations
    and file operations of an inode, which [set_inode_ops] chooses, the dentry
    operations and the super operations.  A table is modelled as the function
    that gives the handler of a call, [None] for a null entry (the VFS then
    does what it does by default, without the module).  [vfs_step] is one
    step of a mounted file system: a call that returns, or what the VFS and
    the rest of the machine do to the objects between the calls, dropping
    dentries and putting their inodes among it. *)

From S2P Require Import Prelude Monad Decimal Client Kernel KernelFacts Judge Pool Uino Cont Inode File Namei Super.

(** The file types of the tables, with the arguments of the calls. *)
Inductive inode_call `{ClientFS} :=
| ICreate (dir dentry mode : Z) (excl : bool)
| ILookup (dir dentry : Z)
| ILink (old_dentry dir new_dentry : Z)
| IUnlink (dir dentry : Z)
| ISymlink (dir dentry : Z) (oldname : string)
| IMkdir (dir dentry mode : Z)
| IRmdir (dir dentry : Z)
| IMknod (dir dentry mode dev : Z)
| IRename (old_dir old_dentry new_dir new_dentry : Z)
| ISetattr (dentry : Z) (attr : iattr)
| IPermission (ip submask : Z)
| IReadlink (dentry buflen : Z)
| IFollowLink (dentry : Z) (nd : nameidata)
| IPutLink (dentry : Z) (nd : nameidata) (cookie : Z).

Inductive file_call :=
| FLlseek (p offset origin : Z)
| FRead (p len pos : Z)
| FWrite (p : Z) (data : list Z) (pos : Z)
| FOpen (p : Z)
| FFsync (p start stop_ : Z) (datasync : bool)
| FIterate (p ctx_pos : Z).

(** The super operations and the dentry operations that matter to a mount; the
    superblock is the only one. *)
Inductive super_call :=
| SAllocInode
| SDestroyInode (ip : Z)
| SDirtyInode (ip : Z)
| SWriteInode (ip : Z)
| SEvictInode (ip : Z)
| SPutSuper (read_only : bool)
| SSyncFs
| SStatfs
| SRemountFs.

Inductive dentry_call :=
| DRevalidate (p : Z)
| DDelete (p : Z)
| DRelease (p : Z).

(** What a call finds in the variables that it does not initialise, and the
    fuel of its loops. *)
Record garbage := mk_garbage {
  g_fuel : nat;
  g_cont : option chunkfs_continuation;
  g_nd : nameidata;
}.

Section vfs.
Context `{Mutexes} `{ClientFS}.
(** The functions of the VFS that the tables name. *)
Context (default_llseek : Z -> Z -> Z -> kernel Z) (generic_read_dir : kernel Z).

Definition chunkfs_llseek_file (p offset origin : Z) : kernel Z := default_llseek p offset origin.

(** The result of a handler, as the VFS sees it, is not needed. *)
Definition drop {A} (m : kernel A) : option (kernel unit) := Some (m;; mret tt).

(** ** The tables *)

Definition chunkfs_file_iops (g : garbage) (c : inode_call) : option (kernel unit) :=
  match c with
  | ISetattr dentry attr => drop (chunkfs_setattr (g_fuel g) dentry attr)
  | IPermission ip submask => drop (chunkfs_permission ip submask)
  | _ => None
  end.

Definition chunkfs_dir_iops (g : garbage) (c : inode_call) : option (kernel unit) :=
  match c with
  | ICreate dir dentry mode excl => drop (chunkfs_create (g_fuel g) (g_nd g) dir dentry mode excl)
  | ILookup dir dentry => drop (chunkfs_lookup (g_fuel g) dir dentry)
  | ILink old_dentry dir new_dentry => drop (chunkfs_link (g_fuel g) old_dentry dir new_dentry)
  | IUnlink dir dentry => drop (chunkfs_unlink (g_fuel g) dir dentry)
  | ISymlink dir dentry oldname => drop (chunkfs_symlink (g_fuel g) dir dentry oldname)
  | IMkdir dir dentry mode => drop (chunkfs_mkdir (g_fuel g) dir dentry mode)
  | IRmdir dir dentry => drop (chunkfs_rmdir (g_fuel g) dir dentry)
  | IMknod dir dentry mode dev => drop (chunkfs_mknod (g_fuel g) dir dentry mode dev)
  | IRename old_dir old_dentry new_dir new_dentry => drop (chunkfs_rename old_dir old_dentry new_dir new_dentry)
  | ISetattr dentry attr => drop (chunkfs_setattr (g_fuel g) dentry attr)
  | IPermission ip submask => drop (chunkfs_permission ip submask)
  | _ => None
  end.

Definition chunkfs_special_iops (g : garbage) (c : inode_call) : option (kernel unit) :=
  match c with
  | ISetattr dentry attr => drop (chunkfs_setattr (g_fuel g) dentry attr)
  | IPermission ip submask => drop (chunkfs_permission ip submask)
  | _ => None
  end.

Definition chunkfs_symlink_iops (g : garbage) (c : inode_call) : option (kernel unit) :=
  match c with
  | IReadlink dentry buflen => drop (chunkfs_readlink dentry buflen)
  | IFollowLink dentry nd => drop (chunkfs_follow_link dentry nd)
  | IPutLink dentry nd cookie => drop (chunkfs_put_link dentry nd cookie)
  | _ => None
  end.

Definition chunkfs_file_fops (g : garbage) (c : file_call) : option (kernel unit) :=
  match c with
  | FLlseek p offset origin => drop (chunkfs_llseek_file p offset origin)
  | FRead p len pos => drop (chunkfs_read (g_fuel g) (g_cont g) p len pos)
  | FWrite p data pos => drop (chunkfs_write (g_fuel g) (g_cont g) p data pos)
  | FOpen p => drop (chunkfs_open (g_fuel g) (g_cont g) p)
  | FFsync p start stop_ datasync => drop (chunkfs_fsync_file (g_fuel g) p start stop_ datasync)
  | FIterate _ _ => None
  end.

Definition chunkfs_dir_fops (g : garbage) (c : file_call) : option (kernel unit) :=
  match c with
  | FLlseek p offset origin => drop (chunkfs_dir_llseek (g_fuel g) (g_cont g) p offset origin)
  | FRead _ _ _ => drop generic_read_dir
  | FOpen p => drop (chunkfs_open (g_fuel g) (g_cont g) p)
  | FIterate p ctx_pos => drop (chunkfs_iterate (g_fuel g) (g_cont g) p ctx_pos)
  | FWrite _ _ _ | FFsync _ _ _ _ => None
  end.

(** The entries under [#if 0] are null. *)
Definition chunkfs_sops (c : super_call) : option (kernel unit) :=
  match c with
  | SAllocInode => drop chunkfs_alloc_inode
  | SDestroyInode ip => Some (chunkfs_destroy_inode ip)
  | SWriteInode ip => drop (chunkfs_write_inode ip)
  | SEvictInode ip => Some (chunkfs_clear_inode ip)
  | SPutSuper read_only => Some (chunkfs_put_super read_only)
  | SSyncFs => drop chunkfs_write_super
  | SDirtyInode _ | SStatfs | SRemountFs => None
  end.

Definition chunkfs_dops (c : dentry_call) : option (kernel unit) :=
  match c with
  | DRelease p => Some (chunkfs_release_dentry p)
  | DRevalidate _ | DDelete _ => None
  end.

(** [inode->i_op] and [inode->i_fop]. *)
Definition i_op_table (op : iops) : garbage -> inode_call -> option (kernel unit) :=
  match op with
  | NoOps => fun _ _ => None
  | SymlinkIops => chunkfs_symlink_iops
  | DirIops => chunkfs_dir_iops
  | FileIops => chunkfs_file_iops
  | SpecialIops => chunkfs_special_iops
  end.

Definition i_fop_table (op : fops) : garbage -> file_call -> option (kernel unit) :=
  match op with
  | DirFops => chunkfs_dir_fops
  | FileFops => chunkfs_file_fops
  | NoFops | SpecialFops => fun _ _ => None
  end.

(** The inode whose table a call is looked up in, and the file. *)
Definition called_inode (c : inode_call) : kernel Z :=
  match c with
  | ICreate dir _ _ _ | ILookup dir _ | ILink _ dir _ | IUnlink dir _ | ISymlink dir _ _ | IMkdir dir _ _
  | IRmdir dir _ | IMknod dir _ _ _ | IRename dir _ _ _ | IPermission dir _ => mret dir
  | ISetattr dentry _ | IReadlink dentry _ | IFollowLink dentry _ | IPutLink dentry _ _ => inode_of_dentry dentry
  end.

Definition called_file (c : file_call) : Z :=
  match c with
  | FLlseek p _ _ | FRead p _ _ | FWrite p _ _ | FOpen p | FFsync p _ _ _ | FIterate p _ => p
  end.

(** A call of the VFS: the handler of the table of its inode; a null entry
    does nothing here. *)
Definition vfs_inode_call (g : garbage) (c : inode_call) : kernel unit :=
  ip ← called_inode c;
  i ← get_inode ip;
  match i_op_table (i_op i) g c with Some m => m | None => mret tt end.

Definition vfs_file_call (g : garbage) (c : file_call) : kernel unit :=
  ip ← file_inode (called_file c);
  i ← get_inode ip;
  match i_fop_table (i_fop i) g c with Some m => m | None => mret tt end.

Definition vfs_super_call (c : super_call) : kernel unit :=
  match chunkfs_sops c with Some m => m | None => mret tt end.

(** [d_free] of a dentry calls the operation when [d_op] is set. *)
Definition vfs_d_release (p : Z) : kernel unit :=
  d ← get_dentry p;
  if de_dops d then match chunkfs_dops (DRelease p) with Some m => m | None => mret tt end else mret tt.

(** ** Dentries and their inodes

    A dentry with an inode holds a reference to it.  The inodes of chunkfs are
    in no hash table, so that the one whose last reference is put is evicted at
    once; [i_count] of an inode that is not there is not there either. *)

Definition vfs_iput (ip : Z) : kernel unit :=
  get_inode ip;;
  n ← gets (fun s => count (k_icount s) ip);
  if n =? 1 then iput_last ip
  else modify (fun s => set_icount (<[ip := n - 1]> (k_icount s)) s).

(** The dentry becomes negative ([d_delete], [dentry_kill]). *)
Definition dentry_iput (p : Z) : kernel unit :=
  d ← get_dentry p;
  match de_inode d with
  | Some ip => put_dentry p (set_d_inode d None);; vfs_iput ip
  | None => mret tt
  end.

(** The dentry goes. *)
Definition dentry_kill (p : Z) : kernel unit :=
  dentry_iput p;;
  vfs_d_release p;;
  modify (fun s => set_dentries (delete p (k_dentries s)) s).

(** ** The mounted system *)

(** Nothing in the dentry cache or the files needs the dentry [p]; a root is
    its own parent. *)
Definition unused (s : kstate) (p : Z) : Prop :=
  k_root s <> Some p /\
  (forall q f, k_files s !! q = Some f -> f_dentry f <> p) /\
  (forall q d, k_dentries s !! q = Some d -> de_parent d <> p).

(** Which calls are made, by their results: any, or no link that succeeds. *)
Definition any_call (c : inode_call) (r : stop + unit) : Prop := True.
Definition no_link (c : inode_call) (r : stop + unit) : Prop :=
  match c with ILink _ _ _ => r <> inr tt | _ => True end.

(** A step: a call of the module, one of those that [may] be made, that returns
    (a value or an error); the VFS allocates a dentry under a directory, opens
    or closes a file over a dentry with an inode, takes the inode from a dentry
    or drops a dentry that nothing needs, and puts the inode, writes an inode,
    syncs; and the client file systems and the allocator go their own way. *)
Inductive vfs_step (may : inode_call -> stop + unit -> Prop) (s : kstate) : kstate -> Prop :=
| step_inode g c r s' : vfs_inode_call g c s = (r, s') -> returned r = true -> may c r -> vfs_step may s s'
| step_file g c r s' : vfs_file_call g c s = (r, s') -> returned r = true -> vfs_step may s s'
| step_write_inode ip r s' : vfs_super_call (SWriteInode ip) s = (r, s') -> returned r = true -> vfs_step may s s'
| step_sync r s' : vfs_super_call SSyncFs s = (r, s') -> returned r = true -> vfs_step may s s'
| step_alloc p name parent d ip :
    k_dentries s !! p = None -> k_dentries s !! parent = Some d -> de_inode d = Some ip ->
    vfs_step may s (set_dentries (<[p := mk_dentry None name parent None false]> (k_dentries s)) s)
| step_open q p d ip :
    k_files s !! q = None -> k_dentries s !! p = Some d -> de_inode d = Some ip ->
    vfs_step may s (set_files (<[q := mk_file p 0]> (k_files s)) s)
| step_close q : vfs_step may s (set_files (delete q (k_files s)) s)
| step_forget p s' : unused s p -> dentry_iput p s = (inr tt, s') -> vfs_step may s s'
| step_release p s' : unused s p -> dentry_kill p s = (inr tt, s') -> vfs_step may s s'
| step_environment f oom : vfs_step may s (set_oom oom (set_fs f s)).
End vfs.
