(* ===== verification/Quiet.v ===== *)
(** * Calls that leave the structures of the module alone

    [quiet s s']: from [s] to [s'] the client file systems, the counts of
    references and the allocator may have changed, and client files may have
    been opened; nothing else has.  Most of the code of cont.c is quiet,
    whatever it finds. *)

From S2P Require Import Prelude Monad Decimal Client Kernel KernelFacts Judge Pool Uino Cont Inode File Namei.

Section quiet.
Context `{ClientFS}.

Record quiet (s s' : kstate) : Prop := {
  qu_data : k_data s' = k_data s;
  qu_bad : k_bad s' = k_bad s;
  qu_bh : k_bh s' = k_bh s;
  qu_opens : k_opens s <= k_opens s';
  qu_pool : k_pool s' = k_pool s;
  qu_inodes : k_inodes s' = k_inodes s;
  qu_dentries : k_dentries s' = k_dentries s;
  qu_files : k_files s' = k_files s;
  qu_locks : k_locks s' = k_locks s;
  qu_icount : k_icount s' = k_icount s;
  qu_root : k_root s' = k_root s;
}.

#[export] Instance quiet_preorder : PreOrder quiet.
Proof.
  split; [by intros s |]. intros s1 s2 s3 [] []. split; try congruence; lia.
Qed.

(** ** The services *)

Lemma quiet_modify f : (forall s, quiet s (f s)) -> keeps quiet (modify f : kernel unit).
Proof. intros Hf s. split; [apply Hf | done]. Qed.

Lemma quiet_kalloc : keeps quiet kalloc.
Proof. intros s. unfold runs, kalloc. by destruct (k_oom s) as [|[] ?]. Qed.

Lemma quiet_kfree : keeps quiet kfree.
Proof. by apply quiet_modify. Qed.

Lemma quiet_mntget m : keeps quiet (mntget m).
Proof. by intros s. Qed.

Lemma quiet_mntput : keeps quiet mntput.
Proof. by apply quiet_modify. Qed.

Lemma quiet_dget d : keeps quiet (dget d).
Proof. intros s. unfold runs, dget. by destruct (d =? 0). Qed.

Lemma quiet_dput d : keeps quiet (dput d).
Proof. intros s. unfold runs, dput. by destruct (d =? 0). Qed.

Lemma quiet_iput i : keeps quiet (iput i).
Proof. by apply quiet_modify. Qed.

Lemma quiet_iget i : keeps quiet (iget i).
Proof. intros s. unfold runs, iget. by destruct (iget_locked _ _). Qed.

Lemma quiet_client_call {A} (op : fs -> A * fs) : keeps quiet (client_call op).
Proof. intros s. unfold runs, client_call. by destruct (op _). Qed.

Lemma quiet_get_inode p : keeps quiet (get_inode p).
Proof. intros s. apply (keeps_deref (k_inodes s !! p)). Qed.

Lemma quiet_get_dentry p : keeps quiet (get_dentry p).
Proof. intros s. apply (keeps_deref (k_dentries s !! p)). Qed.

Lemma quiet_get_file p : keeps quiet (get_file p).
Proof. intros s. apply (keeps_deref (k_files s !! p)). Qed.
End quiet.

#[export] Hint Resolve quiet_preorder keeps_ret keeps_errno keeps_bug keeps_undef keeps_deref keeps_gets
  quiet_kalloc quiet_kfree quiet_mntget quiet_mntput quiet_dget quiet_dput quiet_iput quiet_iget
  quiet_client_call quiet_get_inode quiet_get_dentry quiet_get_file : quiet.

(** One step along the code, and all of them. *)
Ltac keeps1 :=
  first
    [ solve [auto with quiet]
    | simple apply keeps_bind; [| intros ?]
    | simple apply keeps_try
    | simple apply keeps_loop; intros ?
    | case_match ].
Ltac keeps := repeat keeps1.

Section code.
Context `{ClientFS}.

Lemma quiet_lookup_path p : keeps quiet (lookup_path p).
Proof.
  intros s. unfold lookup_path. destruct (kern_path (k_fs s) p) as [e | [m d]] eqn:Hp.
  - unfold runs. by rewrite Hp.
  - assert (keeps quiet (dget d;; mntget m;; mret (m, d))) as Hk by keeps.
    specialize (Hk s). unfold runs in *. by rewrite Hp.
Qed.

Lemma quiet_path_put m d : keeps quiet (path_put m d).
Proof. unfold path_put. keeps. Qed.

Lemma quiet_inode_of_dentry p : keeps quiet (inode_of_dentry p).
Proof. unfold inode_of_dentry. keeps. Qed.

Lemma quiet_CHUNKFS_D p : keeps quiet (CHUNKFS_D p).
Proof. unfold CHUNKFS_D. keeps. Qed.

#[local] Hint Resolve quiet_CHUNKFS_D : quiet.

Lemma quiet_get_client_dentry p : keeps quiet (get_client_dentry p).
Proof. unfold get_client_dentry. keeps. Qed.

Lemma quiet_get_client_nd p : keeps quiet (get_client_nd p).
Proof. unfold get_client_nd. keeps. Qed.

#[local] Hint Resolve quiet_lookup_path quiet_path_put quiet_inode_of_dentry quiet_get_client_dentry
  quiet_get_client_nd : quiet.

(** ** cont.c *)

Lemma quiet_get_set_cont_data i name value set : keeps quiet (get_set_cont_data i name value set).
Proof.
  unfold get_set_cont_data. destruct set; [| keeps].
  intros s. unfold runs. destruct (setxattr _ _ _ _) as [e f]. by destruct (e =? 0).
Qed.

Lemma quiet_dentry_inode d : keeps quiet (dentry_inode d).
Proof. unfold dentry_inode. keeps. Qed.

#[local] Hint Resolve quiet_get_set_cont_data quiet_dentry_inode : quiet.

Lemma quiet_set_cont_data i cd : keeps quiet (set_cont_data i cd).
Proof. unfold set_cont_data. keeps. Qed.

Lemma quiet_get_cont_data i : keeps quiet (get_cont_data i).
Proof. unfold get_cont_data. keeps. Qed.

#[local] Hint Resolve quiet_set_cont_data quiet_get_cont_data : quiet.

Lemma quiet_set_cont_data_dentry d cd : keeps quiet (set_cont_data_dentry d cd).
Proof. unfold set_cont_data_dentry. keeps. Qed.

#[local] Hint Resolve quiet_set_cont_data_dentry : quiet.

Lemma quiet_init_cont_data d : keeps quiet (chunkfs_init_cont_data d).
Proof. unfold chunkfs_init_cont_data. keeps. Qed.

Lemma quiet_load_continuation d chunk_id : keeps quiet (load_continuation d chunk_id).
Proof. unfold load_continuation. keeps. Qed.

Lemma quiet_put_continuation c : keeps quiet (chunkfs_put_continuation c).
Proof. unfold chunkfs_put_continuation. keeps. Qed.

Lemma quiet_getname : keeps quiet getname.
Proof. unfold getname. keeps. Qed.

#[local] Hint Resolve quiet_init_cont_data quiet_load_continuation quiet_put_continuation quiet_getname : quiet.

Lemma quiet_get_next_cont d prev : keeps quiet (chunkfs_get_next_cont d prev).
Proof. unfold chunkfs_get_next_cont. keeps. Qed.

#[local] Hint Resolve quiet_get_next_cont : quiet.

Lemma quiet_find_cont_step d offset v : keeps quiet (find_cont_step d offset v).
Proof. unfold find_cont_step. keeps. Qed.

Lemma quiet_get_next_inode i prev : keeps quiet (chunkfs_get_next_inode i prev).
Proof. unfold chunkfs_get_next_inode, get_cont_data_inode. keeps. Qed.

Lemma quiet_last_cont_step d prev : keeps quiet (last_cont_step d prev).
Proof. unfold last_cont_step. keeps. Qed.

Lemma quiet_filp_open_create path : keeps quiet (filp_open_create path).
Proof.
  intros s. unfold runs, filp_open_create. destruct (open_create _ _) as [[e|d] f]; [done |].
  split; [split; simpl; try done; lia | done].
Qed.

#[local] Hint Resolve quiet_find_cont_step quiet_get_next_inode quiet_last_cont_step
  quiet_filp_open_create : quiet.

Lemma quiet_create_continuation_after pos prev : keeps quiet (create_continuation_after pos prev).
Proof. unfold create_continuation_after. keeps. Qed.

#[local] Hint Resolve quiet_create_continuation_after : quiet.

Lemma quiet_create_continuation fuel d pos : keeps quiet (chunkfs_create_continuation fuel d pos).
Proof. unfold chunkfs_create_continuation. keeps. Qed.

(** ** inode.c, file.c, namei.c, symlink.c *)

Lemma quiet_sum_sizes_step i v : keeps quiet (sum_sizes_step i v).
Proof. unfold sum_sizes_step. keeps. Qed.

Lemma quiet_copy_inode_up i c : keeps quiet (copy_inode_up i c).
Proof. unfold copy_inode_up. keeps. Qed.

Lemma quiet_write_inode p : keeps quiet (chunkfs_write_inode p).
Proof. unfold chunkfs_write_inode, copy_down_inode. keeps. Qed.

Lemma quiet_open_client m d : keeps quiet (open_client m d).
Proof.
  intros s. unfold runs, open_client. destruct (_ =? 0); [| done].
  split; [split; simpl; try done; lia | done].
Qed.

Lemma quiet_fsync_step d start stop_ datasync v : keeps quiet (fsync_step d start stop_ datasync v).
Proof. unfold fsync_step. keeps. Qed.

Lemma quiet_permission ip submask : keeps quiet (chunkfs_permission ip submask).
Proof. unfold chunkfs_permission. keeps. Qed.

Lemma quiet_release_nd p : keeps quiet (chunkfs_release_nd p).
Proof. unfold chunkfs_release_nd. keeps. Qed.

Lemma quiet_remove_dentry p : keeps quiet (chunkfs_remove_dentry p).
Proof. unfold chunkfs_remove_dentry. keeps. Qed.

Lemma quiet_copy_nd dst src : keeps quiet (copy_nd dst src).
Proof. unfold copy_nd. keeps. Qed.

Lemma quiet_clone_dentry p : keeps quiet (chunkfs_clone_dentry p).
Proof. unfold chunkfs_clone_dentry. keeps. Qed.

Lemma quiet_client_dir p : keeps quiet (client_dir p).
Proof. unfold client_dir. keeps. Qed.

#[local] Hint Resolve quiet_client_dir : quiet.

Lemma quiet_rename od op nd np : keeps quiet (chunkfs_rename od op nd np).
Proof. unfold chunkfs_rename. keeps. Qed.

Lemma quiet_client_of p : keeps quiet (client_of p).
Proof. unfold client_of. keeps. Qed.

#[local] Hint Resolve quiet_client_of : quiet.

Lemma quiet_readlink p n : keeps quiet (chunkfs_readlink p n).
Proof. unfold chunkfs_readlink. keeps. Qed.

Lemma quiet_file_inode p : keeps quiet (file_inode p).
Proof. unfold file_inode. keeps. Qed.
End code.

#[export] Hint Resolve quiet_lookup_path quiet_path_put quiet_inode_of_dentry quiet_get_client_dentry
  quiet_get_client_nd quiet_CHUNKFS_D quiet_dentry_inode quiet_init_cont_data quiet_put_continuation
  quiet_get_next_cont quiet_find_cont_step quiet_create_continuation quiet_sum_sizes_step
  quiet_copy_inode_up quiet_write_inode quiet_open_client quiet_fsync_step quiet_permission
  quiet_release_nd quiet_remove_dentry quiet_copy_nd quiet_clone_dentry quiet_client_dir quiet_rename
  quiet_client_of quiet_readlink quiet_file_inode : quiet.
