(* ===== verification/ContData.v ===== *)
(** * The data of a continuation in its attributes

    [has_cd f i cd]: the attributes of client inode [i] say [cd].  Writing
    and reading the data are inverse for all 64-bit values, and writing the
    data of one inode leaves that of every other as it is. *)

From S2P Require Import Prelude Monad Decimal Client Kernel Cont.

Section data.
Context `{ClientFS}.

(** One attribute, as it is read. *)
Definition field_is (f : fs) (i : cino) (name : string) (x : Z) : Prop :=
  exists v, getxattr f i ("user." +:+ name) = inr v /\ (String.length v < value_str_size)%nat /\
       strtoull (v +:+ String NUL "") = x.

Record has_cd (f : fs) (i : cino) (cd : chunkfs_cont_data) : Prop := {
  hc_next : field_is f i "next" (cd_next cd);
  hc_prev : field_is f i "prev" (cd_prev cd);
  hc_start : field_is f i "start" (cd_start cd);
  hc_len : field_is f i "len" (cd_len cd);
}.

Record cd_typed (cd : chunkfs_cont_data) : Prop := {
  ct_next : is_u64 (cd_next cd);
  ct_prev : is_u64 (cd_prev cd);
  ct_start : is_u64 (cd_start cd);
  ct_len : is_u64 (cd_len cd);
}.

Lemma get_field s i name x :
  field_is (k_fs s) i name x <-> get_set_cont_data i name 0 false s = (inr x, s).
Proof.
  unfold get_set_cont_data, gets, mbind, stm_bind, field_is.
  destruct (getxattr (k_fs s) i _) as [e | v]; [split; [by intros (? & ? & _) | done] |].
  destruct (decide _) as [Hl | Hl].
  - split; [by intros (v' & [= <-] & _ & <-) | intros [= <-]; by exists v].
  - split; [by intros (v' & [= <-] & ? & _) | done].
Qed.

Lemma get_cont_data_has s i cd : has_cd (k_fs s) i cd -> get_cont_data i s = (inr cd, s).
Proof.
  intros [H1 H2 H3 H4]. apply get_field in H1, H2, H3, H4. unfold get_cont_data.
  rewrite (bind_ok _ _ _ _ _ H1), (bind_ok _ _ _ _ _ H2), (bind_ok _ _ _ _ _ H3),
    (bind_ok _ _ _ _ _ H4). by destruct cd.
Qed.

(** Reading never changes the state, and what it returns is there. *)
Lemma get_cont_data_inv s i r s' :
  get_cont_data i s = (r, s') -> s' = s /\ forall cd, r = inr cd -> has_cd (k_fs s) i cd.
Proof.
  assert (forall name, exists r, get_set_cont_data i name 0 false s = (r, s)) as Hpure.
  { intros name. unfold get_set_cont_data, gets, mbind, stm_bind.
    destruct (getxattr _ _ _); [by eexists |]. case_decide; by eexists. }
  unfold get_cont_data, mbind, stm_bind. intros Hrun.
  destruct (Hpure "next") as [[?|] H1]; rewrite H1 in Hrun; [by injection Hrun as <- <- |].
  destruct (Hpure "prev") as [[?|] H2]; rewrite H2 in Hrun; [by injection Hrun as <- <- |].
  destruct (Hpure "start") as [[?|] H3]; rewrite H3 in Hrun; [by injection Hrun as <- <- |].
  destruct (Hpure "len") as [[?|] H4]; rewrite H4 in Hrun; [by injection Hrun as <- <- |].
  injection Hrun as <- <-. split; [done |]. intros cd [= <-]. split; by apply get_field.
Qed.

Context `{!ClientLaws}.

(** One attribute of [i] is set, or not. *)
Definition one_xattr (i : cino) (f f' : fs) : Prop := exists n v e, setxattr f i n v = (e, f').

(** What a change of the attributes of [i] leaves. *)
Record xattrs_of (i : cino) (f f' : fs) : Prop := {
  xo_path p : kern_path f' p = kern_path f p;
  xo_dentry d : d_inode f' d = d_inode f d;
  xo_size j : i_size f' j = i_size f j;
  xo_bad j : is_bad_inode f' j = is_bad_inode f j;
  xo_cached j : iget_locked f j = Some f -> iget_locked f' j = Some f';
  xo_open m d : dentry_open f' m d = dentry_open f m d;
  xo_other j m : j <> i -> getxattr f' j m = getxattr f j m;
  xo_calls : rtc (one_xattr i) f f';
}.

#[export] Instance xattrs_of_preorder i : PreOrder (xattrs_of i).
Proof.
  split; [intros f; by split |]. intros f g h [P1 D1 S1 B1 C1 O1 X1 T1] [P2 D2 S2 B2 C2 O2 X2 T2].
  split; intros; [rewrite P2 | rewrite D2 | rewrite S2 | rewrite B2 | | rewrite O2 | rewrite X2 | by etransitivity]; auto.
Qed.

Lemma has_cd_other i j f f' cd : xattrs_of i f f' -> j <> i -> has_cd f j cd -> has_cd f' j cd.
Proof.
  intros Hx Hne [H1 H2 H3 H4]. unfold field_is in *.
  split; unfold field_is; by rewrite (xo_other _ _ _ Hx).
Qed.

Lemma length_nul a : String.length (a +:+ String NUL "") = S (String.length a).
Proof.
  induction a as [|c a IH]; [done |].
  change (S (String.length (a +:+ String NUL "")) = S (S (String.length a))). by rewrite IH.
Qed.

Lemma print_nul_short x : is_u64 x -> (String.length (print_llu x +:+ String NUL "") < value_str_size)%nat.
Proof.
  intros Hx. rewrite length_nul. unfold is_u64 in Hx.
  pose proof (length_print_llu x 20 ltac:(lia) ltac:(lia)). unfold value_str_size. lia.
Qed.

Lemma strtoull_value x : is_u64 x -> strtoull ((print_llu x +:+ String NUL "") +:+ String NUL "") = x.
Proof.
  intros Hx. assert (forall a b c : string, (a +:+ b) +:+ c = a +:+ (b +:+ c)) as ->.
  { intros a b c. induction a as [|z a IH]; [done |].
    change (String z ((a +:+ b) +:+ c) = String z (a +:+ (b +:+ c))). by rewrite IH. }
  apply strtoull_print; [done |]. by intros c z [= <- _].
Qed.

(** What writing one attribute does: on success it has the value, and the
    other attributes of the inode are as they were. *)
Lemma set_field s i name x r s' :
  get_set_cont_data i name x true s = (r, s') -> is_u64 x ->
  s' = set_fs (k_fs s') s /\ xattrs_of i (k_fs s) (k_fs s') /\
  (r = inr 0 -> field_is (k_fs s') i name x) /\
  (forall m y, m <> name -> field_is (k_fs s) i m y -> field_is (k_fs s') i m y).
Proof.
  unfold get_set_cont_data. intros Hrun Hx.
  destruct (setxattr (k_fs s) i ("user." +:+ name) (print_llu x +:+ String NUL "")) as [e f] eqn:Hset.
  assert (s' = set_fs f s /\ (r = inr 0 -> e = 0)) as [-> Hr].
  { destruct (Z.eqb_spec e 0) as [-> |]; by simplify_eq. }
  clear Hrun. cbn [k_fs set_fs]. split_and!; [done | split | |].
  - intros; by eapply set_kern_path.
  - intros; by eapply set_d_inode.
  - intros; by eapply set_size.
  - intros; by eapply set_bad.
  - intros; by eapply set_cached.
  - intros; by eapply set_open.
  - intros j m Hne. eapply get_set_other; [done |]. by intros [= ->].
  - apply rtc_once. by do 3 eexists.
  - intros Hr0. rewrite (Hr Hr0) in Hset. pose proof (print_nul_short x Hx) as Hl.
    exists (print_llu x +:+ String NUL ""). split_and!; [| done | by apply strtoull_value].
    eapply get_set_same; [done |]. unfold value_str_size in Hl. lia.
  - intros m y Hne (v & Hv & Hl & Hy). exists v. split; [| done]. rewrite <-Hv.
    eapply get_set_other; [done |]. intros [= Hm]. by change (m = name) in Hm.
Qed.

Lemma set_cont_data_spec s i cd r s' :
  set_cont_data i cd s = (r, s') -> cd_typed cd ->
  s' = set_fs (k_fs s') s /\ xattrs_of i (k_fs s) (k_fs s') /\
  (r = inr tt -> has_cd (k_fs s') i cd).
Proof.
  intros Hrun [T1 T2 T3 T4]. unfold set_cont_data, mbind, stm_bind in Hrun.
  assert (forall name x s r s', get_set_cont_data i name x true s = (r, s') ->
    (exists e, r = inl e) \/ r = inr 0) as Hres.
  { intros name x t q t'. unfold get_set_cont_data.
    destruct (setxattr _ _ _ _) as [e f]. destruct (e =? 0); intros [= <- <-]; eauto. }
  destruct (get_set_cont_data i "next" _ true s) as [r1 s1] eqn:H1.
  pose proof (set_field _ _ _ _ _ _ H1 T1) as (E1 & X1 & F1 & O1).
  apply Hres in H1 as [[e ->] | ->].
  { injection Hrun as <- <-. by split_and!. }
  destruct (get_set_cont_data i "prev" _ true s1) as [r2 s2] eqn:H2.
  pose proof (set_field _ _ _ _ _ _ H2 T2) as (E2 & X2 & F2 & O2).
  apply Hres in H2 as [[e ->] | ->].
  { injection Hrun as <- <-. split_and!; [by rewrite E2, E1 | by rewrite X1 | done]. }
  destruct (get_set_cont_data i "start" _ true s2) as [r3 s3] eqn:H3.
  pose proof (set_field _ _ _ _ _ _ H3 T3) as (E3 & X3 & F3 & O3).
  apply Hres in H3 as [[e ->] | ->].
  { injection Hrun as <- <-. split_and!; [by rewrite E3, E2, E1 | by rewrite X1, X2 | done]. }
  destruct (get_set_cont_data i "len" _ true s3) as [r4 s4] eqn:H4.
  pose proof (set_field _ _ _ _ _ _ H4 T4) as (E4 & X4 & F4 & O4).
  apply Hres in H4 as [[e ->] | ->]; injection Hrun as <- <-.
  { split_and!; [by rewrite E4, E3, E2, E1 | by rewrite X1, X2, X3 | done]. }
  split_and!; [by rewrite E4, E3, E2, E1 | by rewrite X1, X2, X3 |].
  intros _. split; auto 10.
Qed.

(** C28: the data of a continuation survives the trip through the text of the
    extended attributes: when [set_cont_data] reports success,
    [get_cont_data] returns exactly the four 64-bit values that were
    written, and reading any other inode gives what it gave before. *)
Theorem cont_data_roundtrip s i cd s' :
  set_cont_data i cd s = (inr tt, s') -> cd_typed cd ->
  get_cont_data i s' = (inr cd, s') /\
  forall j, j <> i -> (get_cont_data j s').1 = (get_cont_data j s).1.
Proof.
  intros Hset Ht. destruct (set_cont_data_spec _ _ _ _ _ Hset Ht) as (_ & Hx & Hcd).
  split; [by apply get_cont_data_has, Hcd |]. intros j Hne.
  assert (forall name, exists r, get_set_cont_data j name 0 false s = (r, s) /\
    get_set_cont_data j name 0 false s' = (r, s')) as Hsame.
  { intros name. unfold get_set_cont_data, gets, mbind, stm_bind. cbn beta iota.
    rewrite (xo_other _ _ _ Hx) by done. destruct (getxattr _ _ _); [by eexists |].
    case_decide; by eexists. }
  unfold get_cont_data, mbind, stm_bind.
  destruct (Hsame "next") as ([?|?] & -> & ->); [done |].
  destruct (Hsame "prev") as ([?|?] & -> & ->); [done |].
  destruct (Hsame "start") as ([?|?] & -> & ->); [done |].
  by destruct (Hsame "len") as ([?|?] & -> & ->).
Qed.
End data.

(** A client that stores the attributes it is given, as ext2 with user
    attributes does while it has room. *)
Class ClientXattrs `{ClientFS} :=
  setxattr_works f i n v : (String.length v <= 50)%nat -> exists f', setxattr f i n v = (0, f').

Lemma set_cont_data_works `{ClientFS} `{!ClientLaws} `{!ClientXattrs} s i cd :
  cd_typed cd -> exists f', set_cont_data i cd s = (inr tt, set_fs f' s) /\
    xattrs_of i (k_fs s) f' /\ has_cd f' i cd.
Proof.
  intros Ht. assert (exists s', set_cont_data i cd s = (inr tt, s')) as [s' Hrun].
  { assert (forall t name x, is_u64 x -> exists t', get_set_cont_data i name x true t = (inr 0, t')) as Hw.
    { intros t name x Hx. unfold get_set_cont_data.
      pose proof (print_nul_short x Hx) as Hl. unfold value_str_size in Hl.
      destruct (setxattr_works (k_fs t) i ("user." +:+ name) (print_llu x +:+ String NUL ""))
        as [f ->]; [lia |]. by eexists. }
    destruct Ht as [T1 T2 T3 T4]. unfold set_cont_data.
    destruct (Hw s "next" _ T1) as [s1 G1]. rewrite (bind_ok _ _ _ _ _ G1).
    destruct (Hw s1 "prev" _ T2) as [s2 G2]. rewrite (bind_ok _ _ _ _ _ G2).
    destruct (Hw s2 "start" _ T3) as [s3 G3]. rewrite (bind_ok _ _ _ _ _ G3).
    destruct (Hw s3 "len" _ T4) as [s4 G4]. rewrite (bind_ok _ _ _ _ _ G4). by eexists. }
  destruct (set_cont_data_spec _ _ _ _ _ Hrun Ht) as (E & Hx & Hcd).
  exists (k_fs s'). split_and!; [by rewrite Hrun, <-E | done | by apply Hcd].
Qed.
