(* ===== verification/Chain.v ===== *)
(** * The list of parts of a file

    [chain f pi ino d id L]: in the client file systems [f], the parts of the
    file whose head has the number [ino], from the one behind dentry [d] in
    chunk [id] on, are [L].  [file_parts s p L]: the parts of the chunkfs
    dentry [p].  The walks of cont.c are refined to functions on that list. *)

From S2P Require Import Prelude Monad Decimal Client Kernel KernelFacts Pool Uino Cont ContData.

(** The elements up to and with the first that satisfies [P]. *)
Fixpoint upto {A} (P : A -> bool) (l : list A) : list A :=
  match l with
  | [] => []
  | x :: rest => if P x then [x] else x :: upto P rest
  end.

Lemma upto_none {A} (P : A -> bool) l : List.find P l = None -> upto P l = l.
Proof.
  induction l as [|x l IH]; simpl; [done |]. destruct (P x); [done |]. intros Hf. by rewrite IH.
Qed.

Section chain.
Context `{ClientFS}.

(** ** What the walks find *)

Record loaded (f : fs) (pi : pool_info) (d id : Z) (c : chunkfs_continuation) : Prop := {
  ld_dentry : co_dentry c = d;
  ld_nonnull : d <> 0;
  ld_inode : d_inode f d = Some (co_inode c);
  ld_data : has_cd f (co_inode c) (co_cd c);
  ld_chunk : exists ci, chunkfs_find_chunk pi id = Some ci /\ co_mnt c = ci_mnt ci;
  ld_id : co_chunk_id c = id;
  ld_uino : co_uino c = MAKE_UINO id (ci_ino_of (co_inode c));
}.

(** The path that leads to the part after [c]. *)
Definition next_path (c : chunkfs_continuation) (to_chunk : Z) : string :=
  cont_path to_chunk (co_chunk_id c) (UINO_TO_INO (co_uino c)).

Inductive chain (f : fs) (pi : pool_info) (ino : Z) : Z -> Z -> list chunkfs_continuation -> Prop :=
| chain_end d id c :
    loaded f pi d id c -> cd_next (co_cd c) = ino \/ cd_next (co_cd c) = 0 ->
    chain f pi ino d id [c]
| chain_next d id c m d' L :
    loaded f pi d id c -> cd_next (co_cd c) <> ino -> cd_next (co_cd c) <> 0 ->
    kern_path f (next_path c (UINO_TO_CHUNK_ID (cd_next (co_cd c)))) = inr (m, d') ->
    chain f pi ino d' (UINO_TO_CHUNK_ID (cd_next (co_cd c))) L ->
    chain f pi ino d id (c :: L).

(** The data of every part is in its attributes. *)
Lemma chain_data f pi ino d id L c : chain f pi ino d id L -> c ∈ L -> has_cd f (co_inode c) (co_cd c).
Proof.
  induction 1 as [d id x Hl | d id x m d' L Hl _ _ _ _ IH]; intros Hin.
  - apply list_elem_of_singleton in Hin as ->. apply Hl.
  - apply elem_of_cons in Hin as [-> | Hin]; [apply Hl | auto].
Qed.

(** The dentry [p] is that of a file with the head inode [hi] over the client
    dentry [d]. *)
Definition head_of (s : kstate) (p : Z) (hi : inode) (d : Z) : Prop :=
  exists de ip dp, k_dentries s !! p = Some de /\ de_inode de = Some ip /\ k_inodes s !! ip = Some hi /\
    de_fsdata de = Some dp /\ dp_client_dentry dp = d.

Definition file_parts (s : kstate) (p : Z) (L : list chunkfs_continuation) : Prop :=
  exists pi hi d, k_pool s = Some pi /\ head_of s p hi d /\
    chain (k_fs s) pi (i_ino hi) d (UINO_TO_CHUNK_ID (i_ino hi)) L.

(** ** What the walks keep *)

(** How many of the parts have the dentry [d]. *)
Definition refs_to (d : Z) (L : list chunkfs_continuation) : Z :=
  Z.of_nat (length (filter (fun c => co_dentry c = d) L)).

Lemma refs_to_app d L1 L2 : refs_to d (L1 ++ L2) = refs_to d L1 + refs_to d L2.
Proof. unfold refs_to. rewrite filter_app, length_app. lia. Qed.

Lemma refs_to_one d c : refs_to d [c] = if decide (co_dentry c = d) then 1 else 0.
Proof. unfold refs_to. rewrite filter_cons. by case_decide. Qed.

(** From [s] to [s'] a structure was allocated and a dentry referenced for
    each part of [L], and nothing else changed. *)
Record held (L : list chunkfs_continuation) (s s' : kstate) : Prop := {
  hd_fs : k_fs s' = k_fs s;
  hd_data : k_data s' = k_data s;
  hd_bad : k_bad s' = k_bad s;
  hd_oom : k_oom s' = k_oom s;
  hd_kmem : k_kmem s' = k_kmem s + Z.of_nat (length L);
  hd_bh : k_bh s' = k_bh s;
  hd_mnt : k_mnt s' = k_mnt s;
  hd_opens : k_opens s' = k_opens s;
  hd_dref d : count (k_dref s') d = count (k_dref s) d + refs_to d L;
  hd_iref : k_iref s' = k_iref s;
  hd_pool : k_pool s' = k_pool s;
  hd_inodes : k_inodes s' = k_inodes s;
  hd_dentries : k_dentries s' = k_dentries s;
  hd_files : k_files s' = k_files s;
  hd_locks : k_locks s' = k_locks s;
  hd_icount : k_icount s' = k_icount s;
  hd_root : k_root s' = k_root s;
}.

Lemma held_nil s : held [] s s.
Proof. split; simpl; intros; unfold refs_to; simpl; lia || done. Qed.

Lemma held_app L1 L2 s1 s2 s3 : held L1 s1 s2 -> held L2 s2 s3 -> held (L1 ++ L2) s1 s3.
Proof.
  intros [] []. split; try congruence.
  - rewrite length_app. lia.
  - intros d. rewrite refs_to_app, hd_dref1, hd_dref0. lia.
Qed.

Lemma head_of_held L s s' p hi d : held L s s' -> head_of s p hi d -> head_of s' p hi d.
Proof. intros Hh. unfold head_of. by rewrite (hd_dentries _ _ _ Hh), (hd_inodes _ _ _ Hh). Qed.

Lemma file_parts_held L0 s s' p L : held L0 s s' -> file_parts s p L -> file_parts s' p L.
Proof.
  intros Hh (pi & hi & d & Hp & Hhd & Hc). exists pi, hi, d.
  rewrite (hd_pool _ _ _ Hh), (hd_fs _ _ _ Hh). eauto using head_of_held.
Qed.

(** ** The lock on the list *)

(** Nobody holds the lock on the list of parts of the file [p]. *)
Definition lock_free (s : kstate) (p : Z) : Prop :=
  exists de ip, k_dentries s !! p = Some de /\ de_inode de = Some ip /\ ip ∉ lk_inodes (k_locks s).

(** Taking the lock, and giving it back after a walk that left it. *)
Lemma list_locked s p :
  lock_free s p ->
  exists ip l, inode_of_dentry p s = (inr ip, s) /\ lock_list ip s = (inr tt, set_locks l s) /\
    forall s', k_locks s' = l -> unlock_list ip s' = (inr tt, set_locks (k_locks s) s').
Proof.
  intros (de & ip & Hde & Hip & Hfree). exists ip. eexists. split_and!.
  - unfold inode_of_dentry, get_dentry, mbind, stm_bind. rewrite Hde. simpl. by rewrite Hip.
  - unfold lock_list. by rewrite decide_False.
  - intros s' Hl. unfold unlock_list, modify. rewrite Hl. simpl. do 3 f_equal.
    destruct (k_locks s) as [b X]. simpl in *. f_equal. clear -Hfree. set_solver.
Qed.

Lemma held_locked L s l s' : held L (set_locks l s) s' -> held L s (set_locks (k_locks s) s').
Proof. intros []. by split. Qed.

Lemma held_to_locked L s l s' : held L (set_locks l s) s' -> k_locks s' = l.
Proof. by intros []. Qed.

Lemma lock_free_held L s s' p : held L s s' -> lock_free s p -> lock_free s' p.
Proof. intros Hh. unfold lock_free. by rewrite (hd_dentries _ _ _ Hh), (hd_locks _ _ _ Hh). Qed.

(** ** One step of a walk *)

Lemma load_ok s pi d id c :
  k_oom s = [] -> k_pool s = Some pi -> loaded (k_fs s) pi d id c ->
  load_continuation d id s = (inr c, set_kmem (k_kmem s + 1) s).
Proof.
  intros Ho Hp [Hd Hn Hi Hcd (ci & Hf & Hm) Hid Hu]. unfold load_continuation, kalloc.
  unfold mbind, stm_bind. rewrite Ho. cbn [negb]. rewrite (proj2 (Z.eqb_neq d 0) Hn).
  unfold gets. cbn [k_pool set_kmem].
  rewrite Hp. simpl. rewrite Hf. unfold dentry_inode. rewrite (proj2 (Z.eqb_neq d 0) Hn).
  unfold gets, mbind, stm_bind. cbn [k_fs set_kmem]. rewrite Hi. simpl. unfold try.
  rewrite (get_cont_data_has (set_kmem (k_kmem s + 1) s) (co_inode c) (co_cd c)) by done.
  destruct c; simpl in *; subst. done.
Qed.

Lemma get_head_ok s p hi d pi c :
  k_oom s = [] -> k_pool s = Some pi -> head_of s p hi d ->
  loaded (k_fs s) pi d (UINO_TO_CHUNK_ID (i_ino hi)) c ->
  exists s', chunkfs_get_next_cont p None s = (inr (Some c), s') /\ held [c] s s'.
Proof.
  intros Ho Hp (de & ip & dp & Hde & Hip & Hhi & Hdp & Hd) Hl.
  unfold chunkfs_get_next_cont, inode_of_dentry, get_client_dentry, CHUNKFS_D, get_dentry, get_inode.
  unfold mbind, stm_bind. rewrite Hde; simpl. rewrite Hip; simpl. rewrite Hhi; simpl.
  rewrite Hde; simpl. rewrite Hdp; simpl. rewrite Hd. unfold dget.
  rewrite (proj2 (Z.eqb_neq d 0) (ld_nonnull _ _ _ _ _ Hl)).
  erewrite load_ok; [| exact Ho | exact Hp | exact Hl]. eexists; split; [done |].
  split; simpl; try done. intros d'. rewrite refs_to_one, (ld_dentry _ _ _ _ _ Hl).
  case_decide; [subst; rewrite count_insert_eq; lia | rewrite count_insert_ne by done; lia].
Qed.

Lemma get_end_ok s p hi d c :
  head_of s p hi d -> cd_next (co_cd c) = i_ino hi \/ cd_next (co_cd c) = 0 ->
  chunkfs_get_next_cont p (Some c) s = (inr None, s).
Proof.
  intros (de & ip & dp & Hde & Hip & Hhi & Hdp & Hd) He.
  unfold chunkfs_get_next_cont, inode_of_dentry, get_dentry, get_inode.
  unfold mbind, stm_bind. rewrite Hde; simpl. rewrite Hip; simpl. rewrite Hhi; simpl.
  destruct (Z.eqb_spec (cd_next (co_cd c)) (i_ino hi)); [done |].
  destruct (Z.eqb_spec (cd_next (co_cd c)) 0); [done |]. by destruct He.
Qed.

Lemma get_next_ok s p hi d pi c m d' c' :
  k_oom s = [] -> k_pool s = Some pi -> head_of s p hi d ->
  cd_next (co_cd c) <> i_ino hi -> cd_next (co_cd c) <> 0 ->
  kern_path (k_fs s) (next_path c (UINO_TO_CHUNK_ID (cd_next (co_cd c)))) = inr (m, d') ->
  loaded (k_fs s) pi d' (UINO_TO_CHUNK_ID (cd_next (co_cd c))) c' ->
  exists s', chunkfs_get_next_cont p (Some c) s = (inr (Some c'), s') /\ held [c'] s s'.
Proof.
  intros Ho Hp (de & ip & dp & Hde & Hip & Hhi & Hdp & Hd) Hn1 Hn2 Hk Hl.
  unfold chunkfs_get_next_cont, inode_of_dentry, get_dentry, get_inode.
  unfold mbind, stm_bind. rewrite Hde; simpl. rewrite Hip; simpl. rewrite Hhi; simpl.
  rewrite (proj2 (Z.eqb_neq _ _) Hn1), (proj2 (Z.eqb_neq _ _) Hn2).
  unfold getname, kalloc, mbind, stm_bind. rewrite Ho. simpl.
  unfold try, lookup_path, next_path in *. cbn [k_fs set_kmem]. rewrite Hk.
  pose proof (proj2 (Z.eqb_neq d' 0) (ld_nonnull _ _ _ _ _ Hl)) as Hd0.
  unfold dget, dput, path_put, kfree, mntget, mntput, modify, mbind, stm_bind. simpl. rewrite Hd0. simpl.
  erewrite load_ok; [| exact Ho | exact Hp | exact Hl]. eexists; split; [done |].
  split; simpl; try done; try lia. intros d2. rewrite refs_to_one, (ld_dentry _ _ _ _ _ Hl).
  case_decide; [subst; rewrite !count_insert_eq; lia | rewrite !count_insert_ne by done; lia].
Qed.

(** ** Searching *)

(** The search goes on after [c]. *)
Lemma find_from s p hi dh pi offset c L d id fuel :
  k_oom s = [] -> k_pool s = Some pi -> head_of s p hi dh ->
  chain (k_fs s) pi (i_ino hi) d id (c :: L) -> (length L < fuel)%nat ->
  let P := fun c => in_cont (co_cd c) offset in
  exists s', loop fuel NoFuel (find_cont_step p offset) (Some c, Some c) s =
          (inr (0, List.find P L), s') /\ held (upto P L) s s'.
Proof.
  intros Ho Hp Hh Hc Hf P. revert c d id s fuel Ho Hp Hh Hc Hf.
  induction L as [|c' L IH]; intros c d id s fuel Ho Hp Hh Hc Hf; (destruct fuel as [|fuel]; [simpl in Hf; lia |]).
  - exists s. split; [| apply held_nil]. apply loop_done. unfold find_cont_step.
    rewrite (bind_ok _ _ s (inr None) s); [done |]. unfold try.
    erewrite get_end_ok; [done | done |]. inversion Hc as [? ? ? ? He | ? ? ? ? ? ? ? ? ? ? Hn]; [done |].
    inversion Hn.
  - inversion Hc as [| ? ? ? m d' ? Hl Hn1 Hn2 Hk Hn]; subst.
    assert (loaded (k_fs s) pi d' (UINO_TO_CHUNK_ID (cd_next (co_cd c))) c') as Hl' by by inversion Hn.
    destruct (get_next_ok s p hi dh pi c m d' c') as (s1 & Hrun & Hheld); [done.. |].
    assert (find_cont_step p offset (Some c, Some c) s =
      (if P c' then (inr (inr (0, Some c')), s1) else (inr (inl (Some c', Some c')), s1))) as Hstep.
    { unfold find_cont_step. rewrite (bind_ok _ _ s (inr (Some c')) s1); [by unfold P; destruct (in_cont _ _) |].
      unfold try. by rewrite Hrun. }
    simpl List.find. simpl upto. destruct (P c') eqn:HP.
    + exists s1. split; [by apply loop_done | done].
    + destruct (IH c' d' (UINO_TO_CHUNK_ID (cd_next (co_cd c))) s1 fuel) as (s2 & Hrun2 & Hheld2).
      * by rewrite (hd_oom _ _ _ Hheld).
      * by rewrite (hd_pool _ _ _ Hheld).
      * by eapply head_of_held.
      * by rewrite (hd_fs _ _ _ Hheld).
      * simpl in Hf. lia.
      * exists s2. split; [by rewrite (loop_next _ _ _ _ _ _ _ Hstep) |].
        by apply (held_app [c'] _ s s1 s2).
Qed.

(** The whole search, under the lock. *)
Lemma find_whole s p pi hi d L fuel junk offset :
  k_oom s = [] -> k_pool s = Some pi -> head_of s p hi d ->
  chain (k_fs s) pi (i_ino hi) d (UINO_TO_CHUNK_ID (i_ino hi)) L -> (length L < fuel)%nat ->
  let P := fun c => in_cont (co_cd c) offset in
  exists s', loop fuel NoFuel (find_cont_step p offset) (None, junk) s =
          (inr (0, List.find P L), s') /\ held (upto P L) s s'.
Proof.
  intros Ho Hp Hh Hc Hf P. destruct L as [|c L]; [inversion Hc |]. destruct fuel as [|fuel]; [lia |].
  assert (loaded (k_fs s) pi d (UINO_TO_CHUNK_ID (i_ino hi)) c) as Hl by by inversion Hc.
  destruct (get_head_ok s p hi d pi c) as (s1 & Hrun & Hheld); [done.. |].
  assert (find_cont_step p offset (None, junk) s =
    (if P c then (inr (inr (0, Some c)), s1) else (inr (inl (Some c, Some c)), s1))) as Hstep.
  { unfold find_cont_step. rewrite (bind_ok _ _ s (inr (Some c)) s1); [by unfold P; destruct (in_cont _ _) |].
    unfold try. by rewrite Hrun. }
  simpl List.find. simpl upto. destruct (P c) eqn:HP.
  - exists s1. split; [by apply loop_done | done].
  - destruct (find_from s1 p hi d pi offset c L d (UINO_TO_CHUNK_ID (i_ino hi)) fuel)
      as (s2 & Hrun2 & Hheld2).
    + by rewrite (hd_oom _ _ _ Hheld).
    + by rewrite (hd_pool _ _ _ Hheld).
    + by eapply head_of_held.
    + by rewrite (hd_fs _ _ _ Hheld).
    + simpl in Hf. lia.
    + exists s2. split; [by rewrite (loop_next _ _ _ _ _ _ _ Hstep) |].
      by apply (held_app [c] _ s s1 s2).
Qed.

Lemma find_part s p L fuel junk offset :
  k_oom s = [] -> lock_free s p -> file_parts s p L -> (length L < fuel)%nat ->
  let P := fun c => in_cont (co_cd c) offset in
  exists s', chunkfs_get_cont_at_offset fuel junk p offset s =
          (match List.find P L with Some c => inr c | None => inl (Errno ENOENT) end, s') /\
        held (upto P L) s s'.
Proof.
  intros Ho Hfree (pi & hi & d & Hp & Hh & Hc) Hf P.
  destruct (list_locked s p Hfree) as (ip & l & Hip & Hlock & Hunlock).
  destruct (find_whole (set_locks l s) p pi hi d L fuel junk offset Ho Hp Hh Hc Hf)
    as (s' & Hrun & Hheld).
  exists (set_locks (k_locks s) s'). split; [| by eapply held_locked].
  unfold chunkfs_get_cont_at_offset. rewrite (bind_ok _ _ _ _ _ Hip), (bind_ok _ _ _ _ _ Hlock).
  rewrite (bind_ok _ _ _ _ _ Hrun), (bind_ok _ _ _ _ _ (Hunlock s' (held_to_locked _ _ _ _ Hheld))).
  cbv zeta. subst P. by destruct (List.find _ L).
Qed.

(** C26: [chunkfs_get_cont_at_offset] returns the first part of the file whose
    range holds the offset and -ENOENT when there is none; with the
    lock on the list free and enough fuel for the list it always returns, the
    lock free again.  It never releases a part: every part it passed over, and
    not only the one it returns, stays allocated with a reference on its
    dentry. *)
Theorem get_cont_at_offset_first s p L fuel junk offset :
  k_oom s = [] -> lock_free s p -> file_parts s p L -> (length L < fuel)%nat ->
  let P := fun c => in_cont (co_cd c) offset in
  exists s', chunkfs_get_cont_at_offset fuel junk p offset s =
          (match List.find P L with Some c => inr c | None => inl (Errno ENOENT) end, s') /\
        held (upto P L) s s'.
Proof. apply find_part. Qed.
End chain.
