(* ===== verification/Append.v ===== *)
(** * Well-formed files, and growing them

    The parts of a well-formed file tile the range from 0 to its capacity,
    are linked both ways by their unified inode numbers and are in
    consecutive chunks.  [chunkfs_create_continuation] appends a part to a
    well-formed file and leaves a well-formed file. *)

From S2P Require Import Prelude Monad Decimal Client Kernel KernelFacts Pool Uino Cont ContData Chain.

(** ** Well-formed files *)

(** The ranges of the parts follow one another, from [x] to [y]. *)
Inductive tiles : Z -> list chunkfs_continuation -> Z -> Prop :=
| tiles_nil x : tiles x [] x
| tiles_cons x c L y :
    cd_start (co_cd c) = x -> 0 < cd_len (co_cd c) -> x + cd_len (co_cd c) < 2 ^ 63 ->
    tiles (x + cd_len (co_cd c)) L y -> tiles x (c :: L) y.

(** The links agree, and each part is in the chunk after that of the one
    before it. *)
Inductive linked : list chunkfs_continuation -> Prop :=
| linked_last c : cd_next (co_cd c) = 0 -> linked [c]
| linked_cons c c' L :
    cd_next (co_cd c) = co_uino c' -> cd_prev (co_cd c') = co_uino c ->
    co_chunk_id c' = co_chunk_id c + 1 -> linked (c' :: L) -> linked (c :: c' :: L).

(** The number of a part fits the 32 bits it is packed into. *)
Definition part_fits (c : chunkfs_continuation) : Prop :=
  0 < co_chunk_id c /\ fits_uino (co_chunk_id c) (ci_ino_of (co_inode c)) /\
  co_uino c = MAKE_UINO (co_chunk_id c) (ci_ino_of (co_inode c)).

Record wf_parts (L : list chunkfs_continuation) (size : Z) : Prop := {
  wf_tiles : tiles 0 L size;
  wf_linked : linked L;
  wf_fits : Forall part_fits L;
  wf_typed : Forall (fun c => cd_typed (co_cd c)) L;
  wf_distinct : NoDup (map co_inode L);
}.

(** A well-formed file: the list found from the dentry, whose head is the
    head inode, is well formed. *)
Definition wf_file `{ClientFS} (s : kstate) (p : Z) (L : list chunkfs_continuation) (size : Z) : Prop :=
  file_parts s p L /\ wf_parts L size /\
  exists hi d c, head_of s p hi d /\ hd_error L = Some c /\ co_uino c = i_ino hi.

(** ** The ranges *)

Lemma tiles_bounds x L y : tiles x L y -> x <= y.
Proof. induction 1; lia. Qed.

Lemma tiles_top x L y : tiles x L y -> 0 <= x < 2 ^ 63 -> y < 2 ^ 63.
Proof. induction 1; intros; [lia |]. apply IHtiles. lia. Qed.

Lemma tiles_app x L1 L2 z : tiles x (L1 ++ L2) z <-> exists y, tiles x L1 y /\ tiles y L2 z.
Proof.
  revert x; induction L1 as [|c L1 IH]; intros x; simpl.
  - split; [intros Ht; exists x; split; [constructor | done] |].
    intros (y & Hx & Ht). inversion Hx. by subst.
  - split.
    + inversion 1 as [| ? ? ? ? Hs Hl Hb Ht]; subst. apply IH in Ht as (y & H1 & H2).
      exists y. split; [by constructor | done].
    + intros (y & Hc & Ht). inversion Hc as [| ? ? ? ? Hs Hl Hb Ht1]; subst.
      constructor; auto. apply IH. eauto.
Qed.

Lemma in_cont_range cd offset :
  0 <= cd_start cd -> 0 < cd_len cd -> cd_start cd + cd_len cd < 2 ^ 63 -> 0 <= offset < 2 ^ 63 ->
  in_cont cd offset = true <-> cd_start cd <= offset < cd_start cd + cd_len cd.
Proof.
  intros ? ? ? ?. unfold in_cont. rewrite !u64_small by lia.
  rewrite andb_true_iff, Z.leb_le, Z.ltb_lt. lia.
Qed.

(** In a tiled range, the search succeeds exactly below its end, and finds
    the part that holds the offset. *)
Lemma tiles_find x L y offset :
  tiles x L y -> 0 <= x -> x <= offset < 2 ^ 63 ->
  match List.find (fun c => in_cont (co_cd c) offset) L with
  | Some c => offset < y /\ cd_start (co_cd c) <= offset < cd_start (co_cd c) + cd_len (co_cd c) /\
             0 <= cd_start (co_cd c) < 2 ^ 63
  | None => y <= offset
  end.
Proof.
  induction 1 as [x | x c L y Hs Hl Hb Ht IH]; intros Hx Ho; simpl; [lia |].
  pose proof (tiles_bounds _ _ _ Ht). subst x.
  destruct (in_cont (co_cd c) offset) eqn:Hin.
  - apply in_cont_range in Hin; lia.
  - apply IH; [lia |]. split; [| lia].
    destruct (Z.le_gt_cases (cd_start (co_cd c) + cd_len (co_cd c)) offset) as [| Hlt]; [done |].
    rewrite (proj2 (in_cont_range (co_cd c) offset ltac:(lia) Hl ltac:(lia) ltac:(lia))) in Hin; [done | lia].
Qed.

(** ** The end of the list *)

Section last.
Context `{ClientFS}.

Lemma last_from s p hi dh pi c L d id fuel :
  k_oom s = [] -> k_pool s = Some pi -> head_of s p hi dh ->
  chain (k_fs s) pi (i_ino hi) d id (c :: L) -> (length L < fuel)%nat ->
  exists s', loop fuel NoFuel (last_cont_step p) (Some c) s = (inr (last (c :: L)), s') /\ held L s s'.
Proof.
  revert c d id s fuel. induction L as [|c' L IH]; intros c d id s fuel Ho Hp Hh Hc Hf;
    (destruct fuel as [|fuel]; [simpl in Hf; lia |]).
  - exists s. split; [| apply held_nil]. apply loop_done. unfold last_cont_step.
    erewrite bind_ok; [| eapply get_end_ok; [done |]; inversion Hc as [? ? ? ? He | ? ? ? ? ? ? ? ? ? ? Hn];
      [done | inversion Hn]]. done.
  - inversion Hc as [| ? ? ? m d' ? Hl Hn1 Hn2 Hk Hn]; subst.
    assert (loaded (k_fs s) pi d' (UINO_TO_CHUNK_ID (cd_next (co_cd c))) c') as Hl' by by inversion Hn.
    destruct (get_next_ok s p hi dh pi c m d' c') as (s1 & Hrun & Hheld); [done.. |].
    destruct (IH c' d' (UINO_TO_CHUNK_ID (cd_next (co_cd c))) s1 fuel) as (s2 & Hrun2 & Hheld2).
    + by rewrite (hd_oom _ _ _ Hheld).
    + by rewrite (hd_pool _ _ _ Hheld).
    + by eapply head_of_held.
    + by rewrite (hd_fs _ _ _ Hheld).
    + simpl in Hf. lia.
    + exists s2. split; [| by apply (held_app [c'] _ s s1 s2)].
      rewrite (loop_next _ _ _ _ (Some c') _ s1); [done |]. unfold last_cont_step.
      by rewrite (bind_ok _ _ _ _ _ Hrun).
Qed.

Lemma last_part s p L fuel :
  k_oom s = [] -> file_parts s p L -> (length L < fuel)%nat ->
  exists s', loop fuel NoFuel (last_cont_step p) None s = (inr (last L), s') /\ held L s s'.
Proof.
  intros Ho (pi & hi & d & Hp & Hh & Hc) Hf.
  destruct L as [|c L]; [inversion Hc |]. destruct fuel as [|fuel]; [lia |].
  assert (loaded (k_fs s) pi d (UINO_TO_CHUNK_ID (i_ino hi)) c) as Hl by by inversion Hc.
  destruct (get_head_ok s p hi d pi c) as (s1 & Hrun & Hheld); [done.. |].
  destruct (last_from s1 p hi d pi c L d (UINO_TO_CHUNK_ID (i_ino hi)) fuel)
    as (s2 & Hrun2 & Hheld2).
  - by rewrite (hd_oom _ _ _ Hheld).
  - by rewrite (hd_pool _ _ _ Hheld).
  - by eapply head_of_held.
  - by rewrite (hd_fs _ _ _ Hheld).
  - simpl in Hf. lia.
  - exists s2. split; [| by apply (held_app [c] _ s s1 s2)].
    rewrite (loop_next _ _ _ _ (Some c) _ s1); [done |]. unfold last_cont_step.
    by rewrite (bind_ok _ _ _ _ _ Hrun).
Qed.
End last.

(** ** Appending a part *)

Section append.
Context `{ClientFS} `{!ClientLaws} `{!ClientCreateLaws} `{!ClientXattrs}.

Lemma set_dentry_works s d i cd :
  d <> 0 -> d_inode (k_fs s) d = Some i -> cd_typed cd ->
  exists f', set_cont_data_dentry d cd s = (inr tt, set_fs f' s) /\
    xattrs_of i (k_fs s) f' /\ has_cd f' i cd.
Proof.
  intros Hd Hi Ht. destruct (set_cont_data_works s i cd Ht) as (f' & Hrun & Hx & Hcd).
  exists f'. split; [| done]. unfold set_cont_data_dentry, dentry_inode, gets, mbind, stm_bind.
  rewrite (proj2 (Z.eqb_neq d 0) Hd). simpl. rewrite Hi. simpl. exact Hrun.
Qed.

Lemma linked_chunks c L c' : linked (c :: L) -> c' ∈ c :: L -> co_chunk_id c <= co_chunk_id c'.
Proof.
  revert c; induction L as [|c2 L IH]; intros c Hl Hin.
  - apply list_elem_of_singleton in Hin as ->. done.
  - inversion Hl; subst. apply elem_of_cons in Hin as [-> | Hin]; [done |].
    specialize (IH c2 ltac:(done) Hin). lia.
Qed.

Lemma linked_snoc L c u new :
  linked (L ++ [c]) -> u = co_uino new -> cd_prev (co_cd new) = co_uino c ->
  co_chunk_id new = co_chunk_id c + 1 -> cd_next (co_cd new) = 0 ->
  linked (L ++ [with_next c u; new]).
Proof.
  intros Hl Hu Hp Hc Hn. induction L as [|x L IH]; simpl in *.
  { subst u. constructor; auto using linked. }
  destruct L as [|y L]; simpl in *; inversion Hl; subst; constructor; auto.
Qed.

(** From the file systems [f] to [f'], a part is given the number [u] of a
    next part, which is found in [f'], and the parts before it are as they
    were.  The parts after it are lost. *)
Lemma chain_snoc f f' pi ino d id L c M u m dn new :
  chain f pi ino d id (L ++ c :: M) ->
  (forall q x, kern_path f q = inr x -> kern_path f' q = inr x) ->
  (forall d j, d_inode f d = Some j -> d_inode f' d = Some j) ->
  (forall c, c ∈ L -> has_cd f (co_inode c) (co_cd c) -> has_cd f' (co_inode c) (co_cd c)) ->
  has_cd f' (co_inode c) (co_cd (with_next c u)) -> u <> ino -> u <> 0 ->
  kern_path f' (next_path c (UINO_TO_CHUNK_ID u)) = inr (m, dn) ->
  loaded f' pi dn (UINO_TO_CHUNK_ID u) new -> cd_next (co_cd new) = 0 ->
  chain f' pi ino d id (L ++ [with_next c u; new]).
Proof.
  intros Hc Hpath Hdent Hcd Hlast Hu1 Hu2 Hk Hnew Hend.
  assert (forall d id x x', loaded f pi d id x -> has_cd f' (co_inode x) (co_cd x') ->
    x' = mk_cont (co_inode x) (co_dentry x) (co_mnt x) (co_cd x') (co_chunk_id x) (co_uino x) ->
    loaded f' pi d id x') as Hload.
  { intros d0 id0 x x' [] Hh ->. split; simpl; auto. }
  revert d id Hc. induction L as [|x L IH]; intros d id Hc; simpl in *.
  - assert (loaded f pi d id c) as Hl by (by inversion Hc).
    eapply (chain_next _ _ _ _ _ (with_next c u)); [by eapply Hload | done | done | exact Hk |].
    apply chain_end; [done | by right].
  - inversion Hc as [? ? ? Hl He Hnil | ? ? ? m' d' ? Hl Hn1 Hn2 Hk' Hn]; subst; [by destruct L |].
    eapply chain_next; [| done | done | by apply Hpath | apply IH; [set_solver | done]].
    eapply Hload; [done | apply Hcd; [set_solver | apply Hl] | by destruct x].
Qed.

(** A new inode is not that of a part that was there. *)
Lemma chain_inode f pi ino d id L c : chain f pi ino d id L -> c ∈ L -> exists d', d' <> 0 /\ d' = co_dentry c /\ d_inode f d' = Some (co_inode c).
Proof.
  induction 1 as [d id x Hl | d id x m d' L Hl _ _ _ _ IH]; intros Hin.
  - apply list_elem_of_singleton in Hin as ->. destruct Hl. by eexists.
  - apply elem_of_cons in Hin as [-> | Hin]; [destruct Hl; by eexists | auto].
Qed.

(** The new part, over the inode [i] behind the dentry [d]. *)
Definition new_part (ci : chunk_info) (prev : chunkfs_continuation) (d : Z) (i : cino)
    : chunkfs_continuation :=
  let to_chunk := co_chunk_id prev + 1 in
  mk_cont i d (ci_mnt ci)
    (mk_cd 0 (co_uino prev) (cd_start (co_cd prev) + cd_len (co_cd prev)) CONT_LEN)
    to_chunk (MAKE_UINO to_chunk (ci_ino_of i)).

(** The conditions under which a part can be added after [prev]: the next
    chunk exists and its number fits, no part is there yet, and the client
    file system can create the file [d] with the inode [i]. *)
Record can_append (s : kstate) (ci : chunk_info) (prev : chunkfs_continuation) (d : Z) (i : cino)
    (f1 : fs) : Prop := {
  ca_chunk : exists pi, k_pool s = Some pi /\ chunkfs_find_chunk pi (co_chunk_id prev + 1) = Some ci;
  ca_fits : fits_uino (co_chunk_id prev + 1) (ci_ino_of i);
  ca_free : exists e, kern_path (k_fs s) (next_path prev (co_chunk_id prev + 1)) = inl e;
  ca_create : open_create (k_fs s) (next_path prev (co_chunk_id prev + 1)) = (inr d, f1);
  ca_inode : d_inode f1 d = Some i;
}.

(** What the run needs of them; a file may be there, unless it is a part. *)
Record can_extend (s : kstate) (ci : chunk_info) (prev : chunkfs_continuation) (d : Z) (i : cino)
    (f1 : fs) : Prop := {
  ce_chunk : exists pi, k_pool s = Some pi /\ chunkfs_find_chunk pi (co_chunk_id prev + 1) = Some ci;
  ce_fits : fits_uino (co_chunk_id prev + 1) (ci_ino_of i);
  ce_create : open_create (k_fs s) (next_path prev (co_chunk_id prev + 1)) = (inr d, f1);
  ce_inode : d_inode f1 d = Some i;
  ce_paths q x : kern_path (k_fs s) q = inr x -> kern_path f1 q = inr x;
}.

Lemma can_append_extend s ci prev d i f1 : can_append s ci prev d i f1 -> can_extend s ci prev d i f1.
Proof.
  intros [Hci Hfit [e Hfree] Hcr Hi]. split; try done. intros q x Hq.
  rewrite (create_other_path _ _ _ _ q Hcr); [done |]. intros ->. congruence.
Qed.

(** A new inode is not that of a part of the file. *)
Lemma can_append_new s p ci prev d i f1 L :
  can_append s ci prev d i f1 -> file_parts s p L -> Forall (fun c => co_inode c <> i) L.
Proof.
  intros [_ _ [e Hfree] Hcr Hi] (pi & hi & dh & _ & _ & Hc). apply Forall_forall. intros c Hcin Heq.
  destruct (chain_inode _ _ _ _ _ _ _ Hc Hcin) as (d' & _ & _ & Hdc).
  eapply create_new_inode; [exact Hcr | exact Hfree | exact Hi |]. rewrite <-Heq. exact Hdc.
Qed.

Lemma can_extend_held L s s' ci prev d i f1 :
  held L s s' -> can_extend s ci prev d i f1 -> can_extend s' ci prev d i f1.
Proof. intros Hh []. split; rewrite ?(hd_pool _ _ _ Hh), ?(hd_fs _ _ _ Hh); done. Qed.

(** The attributes of the new part, then those of the part before it. *)
Lemma append_writes s pi ci prev d i :
  let new := new_part ci prev d i in
  d <> 0 -> d_inode (k_fs s) d = Some i ->
  co_dentry prev <> 0 -> d_inode (k_fs s) (co_dentry prev) = Some (co_inode prev) -> co_inode prev <> i ->
  chunkfs_find_chunk pi (co_chunk_id prev + 1) = Some ci ->
  cd_typed (co_cd new) -> cd_typed (co_cd (with_next prev (co_uino new))) ->
  exists f2 f3,
    set_cont_data_dentry d (co_cd new) s = (inr tt, set_fs f2 s) /\
    set_cont_data_dentry (co_dentry prev) (co_cd (with_next prev (co_uino new))) (set_fs f2 s) =
      (inr tt, set_fs f3 s) /\
    xattrs_of i (k_fs s) f2 /\ has_cd f2 i (co_cd new) /\
    xattrs_of (co_inode prev) f2 f3 /\ has_cd f3 (co_inode prev) (co_cd (with_next prev (co_uino new))) /\
    loaded f3 pi d (co_chunk_id prev + 1) new.
Proof.
  intros new Hdn Hi Hd Hpi Hneq Hci Htn Htp.
  destruct (set_dentry_works s d i (co_cd new) Hdn Hi Htn) as (f2 & Hset1 & Hx1 & Hcd1).
  destruct (set_dentry_works (set_fs f2 s) (co_dentry prev) (co_inode prev)
    (co_cd (with_next prev (co_uino new)))) as (f3 & Hset2 & Hx2 & Hcd2); [done | | done |].
  { simpl. by rewrite (xo_dentry _ _ _ Hx1). }
  exists f2, f3. split_and!; try done. split; simpl; try done.
  - by rewrite (xo_dentry _ _ _ Hx2), (xo_dentry _ _ _ Hx1).
  - by eapply has_cd_other.
  - by exists ci.
Qed.

Lemma part_fits_u64 c : part_fits c -> is_u64 (co_uino c).
Proof. intros (_ & Hf & ->). rewrite make_uino_fits by done. destruct Hf. unfold is_u64. lia. Qed.

Lemma append_run s pos prev ci d i f1 size :
  k_oom s = [] -> can_extend s ci prev d i f1 -> part_fits prev -> cd_typed (co_cd prev) ->
  cd_start (co_cd prev) + cd_len (co_cd prev) = size -> 0 <= size -> size + CONT_LEN < 2 ^ 63 ->
  0 <= pos < 2 ^ 63 -> co_dentry prev <> 0 -> d_inode (k_fs s) (co_dentry prev) = Some (co_inode prev) ->
  co_inode prev <> i ->
  exists f2 f3 s',
    xattrs_of i f1 f2 /\ has_cd f2 i (co_cd (new_part ci prev d i)) /\
    xattrs_of (co_inode prev) f2 f3 /\
    has_cd f3 (co_inode prev) (co_cd (with_next prev (co_uino (new_part ci prev d i)))) /\
    create_continuation_after pos prev s =
      (inr (mk_cfile d (pos - size), new_part ci prev d i, pos - size), s') /\
    s' = set_kmem (k_kmem s + 1) (set_dref (k_dref s') (set_opens (k_opens s + 1) (set_fs f3 s))) /\
    forall d', count (k_dref s') d' = count (k_dref s) d' + if decide (d' = d) then 1 else 0.
Proof.
  intros Ho [(pi & Hp & Hci) Hfit Hcr Hi _] (Hid & Hpf & Hpu) Ht Hsz Hs0 Hs1 Hpos Hd Hpi Hneq.
  destruct (create_path _ _ _ _ Hcr) as [Hdn [m Hm]].
  assert (d_inode f1 (co_dentry prev) = Some (co_inode prev)) as Hpi1 by by eapply create_keeps_dentry.
  set (new := new_part ci prev d i).
  pose proof (part_fits_u64 prev (conj Hid (conj Hpf Hpu))) as Hup.
  assert (is_u64 (co_uino new)) as Hun.
  { simpl. rewrite make_uino_fits by done. destruct Hfit as [? ?]. unfold is_u64. lia. }
  set (s2 := set_dref (<[d := count (k_dref s) d + 1]> (k_dref s))
    (set_opens (k_opens s + 1) (set_fs f1 (set_kmem (k_kmem s + 1) s)))).
  destruct (append_writes s2 pi ci prev d i) as (f2 & f3 & Hset1 & Hset2 & Hx1 & Hcd1 & Hx2 & Hcd2 & Hld); try done.
  { split; simpl; unfold is_u64, CONT_LEN in *; lia. }
  { destruct Ht. by split. }
  exists f2, f3, (set_kmem (k_kmem s + 1) (set_fs f3 s2)). split_and!; try done.
  - unfold create_continuation_after. cbv zeta.
    rewrite (u64_small (co_chunk_id prev + 1)) by (destruct Hfit; lia).
    rewrite (u64_small (cd_start (co_cd prev) + _)) by (unfold CONT_LEN in *; lia).
    assert (getname s = (inr tt, set_kmem (k_kmem s + 1) s)) as Hgn.
    { unfold getname, kalloc, mbind, stm_bind. by rewrite Ho. }
    rewrite (bind_ok _ _ _ _ _ Hgn). unfold next_path in Hcr.
    rewrite (bind_ok _ _ _ (inr (mk_cfile d 0)) (set_opens (k_opens s + 1) (set_fs f1 (set_kmem (k_kmem s + 1) s))))
      by (unfold try, filp_open_create; cbn [k_fs set_kmem]; by rewrite Hcr).
    rewrite (bind_ok _ _ _ d s2) by (unfold dget; cbn [cf_dentry]; by rewrite (proj2 (Z.eqb_neq d 0) Hdn)).
    rewrite (bind_ok _ _ _ (inr tt) (set_fs f2 s2)) by (by apply try_ok).
    rewrite (bind_ok _ _ _ i (set_fs f2 s2)).
    2: { unfold dentry_inode, gets, mbind, stm_bind. rewrite (proj2 (Z.eqb_neq d 0) Hdn). simpl.
         rewrite (xo_dentry _ _ _ Hx1). simpl. by rewrite Hi. }
    rewrite (bind_ok _ _ _ (inr tt) (set_fs f3 s2)) by (by apply try_ok).
    rewrite (bind_ok _ _ _ (inr new) (set_kmem (k_kmem s + 1 + 1) (set_fs f3 s2))).
    2: { apply try_ok. by rewrite (load_ok (set_fs f3 s2) pi d (co_chunk_id prev + 1) new). }
    unfold chunkfs_copy_down_file, kfree, modify, mbind, stm_bind. cbn [new new_part co_cd cd_start].
    rewrite s64_u64, s64_small by (unfold CONT_LEN in *; lia). cbn [cf_dentry]. rewrite Hsz. simpl. f_equal.
    unfold set_kmem; simpl. f_equal. lia.
  - simpl. intros d'. case_decide; [subst; by rewrite count_insert_eq | rewrite count_insert_ne by done; lia].
Qed.

(** The list with the new part is well formed. *)
Lemma wf_snoc L prev size ci d i :
  wf_parts (L ++ [prev]) size -> fits_uino (co_chunk_id prev + 1) (ci_ino_of i) ->
  size + CONT_LEN < 2 ^ 63 -> i ∉ map co_inode (L ++ [prev]) ->
  let new := new_part ci prev d i in
  wf_parts (L ++ [with_next prev (co_uino new); new]) (size + CONT_LEN).
Proof.
  intros [Ht Hl Hf Hy Hd] Hfit Hsz Hi new.
  pose proof (proj1 (tiles_app _ _ _ _) Ht) as (y & Ht1 & Ht2).
  inversion Ht2 as [| ? ? ? ? Hs Hlen Hb Hnil]; subst. inversion Hnil; subst.
  pose proof (tiles_bounds _ _ _ Ht1) as Hy0.
  apply Forall_app in Hf as [Hf1 Hf2]; rewrite Forall_singleton in Hf2.
  apply Forall_app in Hy as [Hy1 Hy2]; rewrite Forall_singleton in Hy2.
  destruct Hf2 as (Hpos & Hpf & Hpu).
  assert (part_fits new) as Hfn by (split_and!; simpl; [lia | done | done]).
  assert (0 < CONT_LEN) as HC by done. split.
  - apply tiles_app. exists (cd_start (co_cd prev)). split; [done |].
    constructor; simpl; auto. constructor; simpl; auto. constructor.
  - by apply (linked_snoc L prev (co_uino new) new).
  - apply Forall_app; split; [done |]. rewrite !Forall_cons. split_and!; done.
  - assert (is_u64 (co_uino prev) /\ is_u64 (co_uino new)) as [Hup Hun].
    { rewrite Hpu. simpl. rewrite !make_uino_fits by done. destruct Hfit, Hpf. unfold is_u64. lia. }
    apply Forall_app; split; [done |]. rewrite !Forall_cons. destruct Hy2.
    split_and!; [split; done | split; simpl; try done; unfold is_u64; unfold CONT_LEN in *; lia | done].
  - rewrite map_app in *. simpl in *.
    apply NoDup_app in Hd as (Hd1 & Hd2 & Hd3). apply NoDup_app. split_and!; [done | |].
    + intros x Hx Hin. apply elem_of_cons in Hin as [-> | Hin].
      * apply (Hd2 _ Hx). set_solver.
      * apply list_elem_of_singleton in Hin as ->. apply Hi. set_solver.
    + constructor; [| constructor; [set_solver | constructor]].
      intros Hin. apply list_elem_of_singleton in Hin as He. apply Hi. set_solver.
Qed.

(** The attributes of the parts survive the creation of a file. *)
Lemma has_cd_create f path r f' d i cd :
  open_create f path = (r, f') -> d_inode f d = Some i -> has_cd f i cd -> has_cd f' i cd.
Proof.
  intros Hcr Hd [H1' H2' H3' H4']. unfold field_is in *.
  split; unfold field_is; by rewrite (create_keeps_xattr _ _ _ _ _ _ _ Hcr Hd).
Qed.

(** The number of the new part is not that of the head. *)
Lemma new_uino_fresh L prev ci d i size ch :
  wf_parts (L ++ [prev]) size -> fits_uino (co_chunk_id prev + 1) (ci_ino_of i) ->
  hd_error (L ++ [prev]) = Some ch ->
  let u := co_uino (new_part ci prev d i) in
  u <> co_uino ch /\ u <> 0 /\ UINO_TO_CHUNK_ID u = co_chunk_id prev + 1.
Proof.
  intros Hwf Hfit Hhd u. pose proof (wf_fits _ _ Hwf) as HF. rewrite Forall_forall in HF.
  destruct (make_uino_unpack _ _ Hfit) as [Hu _]. change (UINO_TO_CHUNK_ID u = co_chunk_id prev + 1) in Hu.
  assert (ch ∈ L ++ [prev] /\ co_chunk_id ch <= co_chunk_id prev) as [Hch Hle].
  { pose proof (wf_linked _ _ Hwf) as Hl. destruct (L ++ [prev]) as [|c L'] eqn:HL; [done |].
    injection Hhd as ->. split; [set_solver |]. eapply linked_chunks; [exact Hl |].
    rewrite <-HL. set_solver. }
  destruct (HF _ Hch) as (Hp1 & Hp2 & Hp3). destruct (make_uino_unpack _ _ Hp2) as [Hc _].
  split_and!; [| | done].
  - intros He. assert (co_chunk_id prev + 1 = co_chunk_id ch) by (rewrite <-Hu, <-Hc, <-Hp3; by f_equal).
    lia.
  - intros He. assert (UINO_TO_CHUNK_ID u = 0) as Hz by by rewrite He.
    rewrite Hz in Hu. lia.
Qed.

Lemma with_next_same c : with_next c (cd_next (co_cd c)) = c.
Proof. by destruct c as [? ? ? []]. Qed.

Lemma append_chain s pi hi dh id L x M prev size ci d i f1 f2 f3 ch :
  chain (k_fs s) pi (i_ino hi) dh id (L ++ with_next prev x :: M) -> wf_parts (L ++ [prev]) size ->
  k_pool s = Some pi -> can_extend s ci prev d i f1 ->
  hd_error (L ++ [prev]) = Some ch -> co_uino ch = i_ino hi ->
  let new := new_part ci prev d i in
  xattrs_of i f1 f2 -> has_cd f2 i (co_cd new) ->
  xattrs_of (co_inode prev) f2 f3 ->
  has_cd f3 (co_inode prev) (co_cd (with_next prev (co_uino new))) ->
  Forall (fun c => co_inode c <> i) (L ++ [prev]) ->
  chain f3 pi (i_ino hi) dh id (L ++ [with_next prev (co_uino new); new]).
Proof.
  intros Hc Hwf Hp [(pi' & Hp' & Hci) Hfit Hcr Hi Hpaths] Hhd Hino new Hx1 Hcd1 Hx2 Hcd2 Hne.
  rewrite Forall_forall in Hne.
  assert (pi' = pi) as -> by congruence.
  destruct (new_uino_fresh L prev ci d i size ch Hwf Hfit Hhd) as (Hu1 & Hu2 & Hu3).
  change (co_uino (new_part ci prev d i)) with (co_uino new) in Hu1, Hu2, Hu3.
  destruct (create_path _ _ _ _ Hcr) as [Hdn [m Hm]].
  apply (chain_snoc (k_fs s) f3 pi (i_ino hi) dh id L (with_next prev x) M (co_uino new) m d new);
    [exact Hc | | | | exact Hcd2 | by rewrite <-Hino | exact Hu2 | | | done].
  - intros q y Hq. rewrite (xo_path _ _ _ Hx2), (xo_path _ _ _ Hx1). by apply Hpaths.
  - intros d' j Hj. rewrite (xo_dentry _ _ _ Hx2), (xo_dentry _ _ _ Hx1). by eapply create_keeps_dentry.
  - intros c Hcin Hcd. destruct (chain_inode _ _ _ _ _ _ c Hc ltac:(set_solver)) as (d' & _ & _ & Hd').
    eapply has_cd_other; [exact Hx2 | |].
    { pose proof (wf_distinct _ _ Hwf) as Hnd. rewrite map_app in Hnd.
      apply NoDup_app in Hnd as (_ & Hnd & _). intros He. apply (Hnd (co_inode c)).
      - apply list_elem_of_fmap. eauto.
      - rewrite He. set_solver. }
    eapply has_cd_other; [exact Hx1 | apply Hne; set_solver |]. by eapply has_cd_create.
  - rewrite Hu3, (xo_path _ _ _ Hx2), (xo_path _ _ _ Hx1). exact Hm.
  - rewrite Hu3. split; simpl; try done.
    + by rewrite (xo_dentry _ _ _ Hx2), (xo_dentry _ _ _ Hx1).
    + eapply has_cd_other; [exact Hx2 | | exact Hcd1]. intros He. apply (Hne prev); [set_solver | done].
    + by exists ci.
Qed.

(** What the run of [chunkfs_create_continuation] leaves: the file systems
    [f3], the walked parts held, and the new part on the dentry [d]. *)
Record appended (s s' : kstate) (f3 : fs) (walked : list chunkfs_continuation) (d : Z) : Prop := {
  ap_fs : k_fs s' = f3;
  ap_oom : k_oom s' = k_oom s;
  ap_kmem : k_kmem s' = k_kmem s + Z.of_nat (length walked) + 1;
  ap_opens : k_opens s' = k_opens s + 1;
  ap_dref d' : count (k_dref s') d' = count (k_dref s) d' + refs_to d' walked + if decide (d' = d) then 1 else 0;
  ap_iref : k_iref s' = k_iref s;
  ap_pool : k_pool s' = k_pool s;
  ap_inodes : k_inodes s' = k_inodes s;
  ap_dentries : k_dentries s' = k_dentries s;
  ap_files : k_files s' = k_files s;
  ap_locks : k_locks s' = k_locks s;
}.

(** The structures the list of a file is found from are the same. *)
Record same_objects (s s' : kstate) : Prop := {
  sj_pool : k_pool s' = k_pool s;
  sj_inodes : k_inodes s' = k_inodes s;
  sj_dentries : k_dentries s' = k_dentries s;
}.

Lemma appended_same s s' f3 W d : appended s s' f3 W d -> same_objects s s'.
Proof. by intros []. Qed.

Lemma head_of_same s s' p hi dh : same_objects s s' -> head_of s p hi dh -> head_of s' p hi dh.
Proof. intros [_ Hi Hd]. unfold head_of. by rewrite Hi, Hd. Qed.

(** The file has the parts [L] and then [prev], whatever the number of the next
    part and the further parts [M] are; up to [prev] it is well formed. *)
Record wf_upto (s : kstate) (p : Z) (L : list chunkfs_continuation) (prev : chunkfs_continuation)
    (M : list chunkfs_continuation) (size : Z) : Prop := {
  wu_parts : exists x, file_parts s p (L ++ with_next prev x :: M);
  wu_wf : wf_parts (L ++ [prev]) size;
  wu_head : exists hi d c, head_of s p hi d /\ hd_error (L ++ [prev]) = Some c /\ co_uino c = i_ino hi;
}.

Lemma wf_file_upto s p L prev size : wf_file s p (L ++ [prev]) size -> wf_upto s p L prev [] size.
Proof.
  intros (Hparts & Hwf & Hhd). split; try done. exists (cd_next (co_cd prev)). by rewrite with_next_same.
Qed.

Lemma wf_upto_held L0 s s' p L prev M size :
  held L0 s s' -> wf_upto s p L prev M size -> wf_upto s' p L prev M size.
Proof.
  intros Hh [[x Hp] Hwf (hi & d & c & Hhd & Hrest)]. split; [exists x; by eapply file_parts_held | done |].
  exists hi, d, c. split; [by eapply head_of_held | done].
Qed.

(** The file the run leaves is well formed. *)
Lemma append_wf s s' p L prev M size ci d i f1 f2 f3 :
  wf_upto s p L prev M size -> can_extend s ci prev d i f1 -> size + CONT_LEN < 2 ^ 63 ->
  Forall (fun c => co_inode c <> i) (L ++ [prev]) ->
  let new := new_part ci prev d i in
  xattrs_of i f1 f2 -> has_cd f2 i (co_cd new) -> xattrs_of (co_inode prev) f2 f3 ->
  has_cd f3 (co_inode prev) (co_cd (with_next prev (co_uino new))) ->
  k_fs s' = f3 -> same_objects s s' ->
  wf_file s' p (L ++ [with_next prev (co_uino new); new]) (size + CONT_LEN).
Proof.
  intros [[x (pi & hi' & dh' & Hp & Hh' & Hc)] Hwf (hi & dh & ch & Hh & Hhd & Hino)] Hca Hsz Hne new Hx1 Hcd1 Hx2 Hcd2 Hfs Hso.
  assert (hi' = hi /\ dh' = dh) as [-> ->].
  { destruct Hh as (? & ? & ? & ? & ? & ? & ? & ?), Hh' as (? & ? & ? & ? & ? & ? & ? & ?). by simplify_eq. }
  pose proof (head_of_same _ _ _ _ _ Hso Hh) as Hh1.
  split_and!.
  - exists pi, hi, dh. rewrite (sj_pool _ _ Hso), Hfs.
    split_and!; [done | done |]. by eapply append_chain.
  - apply wf_snoc; auto; [apply Hca |]. rewrite list_elem_of_fmap. intros (c & -> & Hcin).
    rewrite Forall_forall in Hne. by apply (Hne c).
  - exists hi, dh. destruct L as [|x' L]; simpl in *.
    + exists (with_next prev (co_uino new)). injection Hhd as <-. done.
    + by exists ch.
Qed.

(** The second half of the run, from the state [s]. *)
Lemma append_after s p L prev M size pos ci d i f1 :
  k_oom s = [] -> wf_upto s p L prev M size ->
  can_extend s ci prev d i f1 -> Forall (fun c => co_inode c <> i) (L ++ [prev]) ->
  size + CONT_LEN < 2 ^ 63 -> 0 <= pos < 2 ^ 63 ->
  let new := new_part ci prev d i in
  exists f2 f3 s', create_continuation_after pos prev s =
          (inr (mk_cfile d (pos - size), new, pos - size), s') /\
    xattrs_of i f1 f2 /\ xattrs_of (co_inode prev) f2 f3 /\
    wf_file s' p (L ++ [with_next prev (co_uino new); new]) (size + CONT_LEN) /\
    appended s s' f3 [] d.
Proof.
  intros Ho Hup Hca Hne Hsz Hpos new. pose proof (wu_wf _ _ _ _ _ _ Hup) as Hwf.
  destruct (wu_parts _ _ _ _ _ _ Hup) as (x & pi & hi & dh & Hp & Hh & Hc).
  pose proof (wf_fits _ _ Hwf) as HF. rewrite Forall_forall in HF.
  assert (prev ∈ L ++ [prev]) as Hin by set_solver. pose proof (HF _ Hin) as Hpf.
  pose proof (wf_typed _ _ Hwf) as HT. rewrite Forall_forall in HT.
  pose proof (proj1 (tiles_app _ _ _ _) (wf_tiles _ _ Hwf)) as (y & Ht1 & Ht2).
  inversion Ht2 as [| ? ? ? ? Hs Hlen Hb Hnil]; subst. inversion Hnil; subst.
  pose proof (tiles_bounds _ _ _ Ht1) as Hy0.
  destruct (chain_inode _ _ _ _ _ _ (with_next prev x) Hc ltac:(set_solver)) as (dp & Hdp & -> & Hdi).
  destruct (append_run s pos prev ci d i f1 (cd_start (co_cd prev) + cd_len (co_cd prev)))
    as (f2 & f3 & s' & Hx1 & Hcd1 & Hx2 & Hcd2 & Hrun & Hs' & Href); try done; try lia.
  { by apply HT. }
  { rewrite Forall_forall in Hne. by apply Hne. }
  assert (appended s s' f3 [] d) as Hap.
  { rewrite Hs'. split; simpl; try done; try lia. intros d'. rewrite Href. unfold refs_to. simpl. lia. }
  exists f2, f3, s'. split_and!; [done | done | done | | done]. eapply append_wf; try done; [apply (ap_fs _ _ _ _ _ Hap) | by eapply appended_same].
Qed.

Lemma appended_held W s s1 s' f3 d : held W s s1 -> appended s1 s' f3 [] d -> appended s s' f3 W d.
Proof.
  intros Hh Ha. pose proof (hd_kmem _ _ _ Hh). pose proof (hd_opens _ _ _ Hh).
  pose proof (ap_kmem _ _ _ _ _ Ha). pose proof (ap_opens _ _ _ _ _ Ha). simpl in *.
  split; try lia; try (by destruct Hh, Ha; congruence).
  intros d'. rewrite (ap_dref _ _ _ _ _ Ha), (hd_dref _ _ _ Hh). unfold refs_to at 2. simpl. lia.
Qed.

Lemma wf_file_held L0 s s' p L size : held L0 s s' -> wf_file s p L size -> wf_file s' p L size.
Proof.
  intros Hh (Hp & Hwf & hi & d & c & Hhd & Hrest). split_and!; [by eapply file_parts_held | done |].
  exists hi, d, c. split; [by eapply head_of_held | done].
Qed.

Lemma append_part s p L prev size fuel pos ci d i f1 :
  k_oom s = [] -> wf_file s p (L ++ [prev]) size -> (length (L ++ [prev]) < fuel)%nat ->
  can_extend s ci prev d i f1 -> Forall (fun c => co_inode c <> i) (L ++ [prev]) ->
  size + CONT_LEN < 2 ^ 63 -> 0 <= pos < 2 ^ 63 ->
  let new := new_part ci prev d i in
  exists f2 f3 s', chunkfs_create_continuation fuel p pos s =
          (inr (mk_cfile d (pos - size), new, pos - size), s') /\
    xattrs_of i f1 f2 /\ xattrs_of (co_inode prev) f2 f3 /\
    wf_file s' p (L ++ [with_next prev (co_uino new); new]) (size + CONT_LEN) /\
    appended s s' f3 (L ++ [prev]) d.
Proof.
  intros Ho Hwf Hf Hca Hne Hsz Hpos new.
  destruct (last_part s p _ fuel Ho (proj1 Hwf) Hf) as (s1 & Hlast & Hheld). rewrite last_snoc in Hlast.
  destruct (append_after s1 p L prev [] size pos ci d i f1) as (f2 & f3 & s' & Hrun & Hx1 & Hx2 & Hwf' & Hap);
    [by rewrite (hd_oom _ _ _ Hheld) | eapply wf_upto_held; [exact Hheld | by apply wf_file_upto]
    | by eapply can_extend_held; [exact Hheld | exact Hca] | done | lia | lia |].
  exists f2, f3, s'. split_and!; [| done | done | done | by eapply appended_held].
  unfold chunkfs_create_continuation. rewrite (bind_ok _ _ _ _ _ Hlast). by rewrite (bind_ok _ _ s1 prev s1).
Qed.

(** C14: appending keeps a file well formed.  When the next chunk exists and
    its number fits, no continuation is in the way and the client can create
    a file, [chunkfs_create_continuation] returns the client file open at the
    position less the old capacity and the new part; the file it leaves is
    well formed, with the same parts, the last one now linked to the new one,
    and a capacity that is [CONT_LEN] larger.  The parts it walked over stay
    allocated. *)
Theorem create_continuation_appends s p L prev size fuel pos ci d i f1 :
  k_oom s = [] -> wf_file s p (L ++ [prev]) size -> (length (L ++ [prev]) < fuel)%nat ->
  can_append s ci prev d i f1 -> size + CONT_LEN < 2 ^ 63 -> 0 <= pos < 2 ^ 63 ->
  let new := new_part ci prev d i in
  exists s', chunkfs_create_continuation fuel p pos s =
          (inr (mk_cfile d (pos - size), new, pos - size), s') /\
    wf_file s' p (L ++ [with_next prev (co_uino new); new]) (size + CONT_LEN) /\
    k_opens s' = k_opens s + 1 /\ k_kmem s' = k_kmem s + Z.of_nat (length L) + 2.
Proof.
  intros Ho Hwf Hf Hca Hsz Hpos new.
  destruct (append_part s p L prev size fuel pos ci d i f1 Ho Hwf Hf (can_append_extend _ _ _ _ _ _ Hca)
    (can_append_new _ _ _ _ _ _ _ _ Hca (proj1 Hwf)) Hsz Hpos) as (f2 & f3 & s' & Hrun & _ & _ & Hwf' & Hap).
  exists s'. split_and!; [done | done | by apply Hap |].
  rewrite (ap_kmem _ _ _ _ _ Hap), length_app. simpl. lia.
Qed.
End append.
