(* ===== verification/Race.v ===== *)
(** * Appending where a file is already, and appending twice at once

    A continuation is named after the part before it, and opening its name
    with O_CREAT takes what is there.  That a file of this name is there
    happens in three ways: it is left of a file that was removed (see
    [unlink_head_only]), of an append that a crash cut off (see Crash.v), or
    another call has appended a part since this one looked for the last
    part, which no lock prevents. *)

From S2P Require Import Prelude Monad Decimal Client Kernel KernelFacts Pool Uino Cont ContData Chain Append.

Section reopen.
Context `{ClientFS} `{!ClientLaws} `{!ClientCreateLaws} `{!ClientXattrs} `{!ClientBytes} `{!ClientReopenLaws}.

(** A file behind the path of the next part can be made a part. *)
Lemma reopen_extend s ci prev m d i d' f1 :
  (exists pi, k_pool s = Some pi /\ chunkfs_find_chunk pi (co_chunk_id prev + 1) = Some ci) ->
  fits_uino (co_chunk_id prev + 1) (ci_ino_of i) ->
  kern_path (k_fs s) (next_path prev (co_chunk_id prev + 1)) = inr (m, d) ->
  d_inode (k_fs s) d = Some i ->
  open_create (k_fs s) (next_path prev (co_chunk_id prev + 1)) = (inr d', f1) ->
  d' = d /\ can_extend s ci prev d i f1.
Proof.
  intros Hci Hfit Hp Hi Hcr. destruct (reopen _ _ _ _ _ _ Hp Hcr) as [-> Hp'].
  split; [done |]. split; try done; [by eapply create_keeps_dentry |]. intros q x Hq.
  destruct (decide (q = next_path prev (co_chunk_id prev + 1))) as [-> | Hne]; [congruence |].
  by rewrite (create_other_path _ _ _ _ q Hcr).
Qed.

Lemma xattrs_keep_bytes i f f' j k : xattrs_of i f f' -> byte f' j k = byte f j k.
Proof.
  intros Hx. apply (rtc_ind_r (R := one_xattr i) (fun g => byte g j k = byte f j k) f); [done | | apply (xo_calls _ _ _ Hx)].
  intros g h _ (n & v & e & Hset) <-. exact (set_keeps_bytes _ _ _ _ _ _ _ _ Hset).
Qed.

Context `{!ClientCacheLaws}.

(** C18: a continuation that is in the way is taken over with its contents.
    When the path of the next part leads to a file that is no part of this
    one, as that of a removed file does, [chunkfs_create_continuation]
    succeeds, makes it the last part, and leaves its size and its bytes: the
    file now ends in the data of another file. *)
Theorem append_takes_over s p L prev size fuel pos ci m d i d' f1 :
  k_oom s = [] -> wf_file s p (L ++ [prev]) size -> (length (L ++ [prev]) < fuel)%nat ->
  (exists pi, k_pool s = Some pi /\ chunkfs_find_chunk pi (co_chunk_id prev + 1) = Some ci) ->
  fits_uino (co_chunk_id prev + 1) (ci_ino_of i) ->
  kern_path (k_fs s) (next_path prev (co_chunk_id prev + 1)) = inr (m, d) -> d_inode (k_fs s) d = Some i ->
  Forall (fun c => co_inode c <> i) (L ++ [prev]) ->
  open_create (k_fs s) (next_path prev (co_chunk_id prev + 1)) = (inr d', f1) ->
  size + CONT_LEN < 2 ^ 63 -> 0 <= pos < 2 ^ 63 ->
  let new := new_part ci prev d i in
  exists s', chunkfs_create_continuation fuel p pos s =
          (inr (mk_cfile d (pos - size), new, pos - size), s') /\
    wf_file s' p (L ++ [with_next prev (co_uino new); new]) (size + CONT_LEN) /\
    i_size (k_fs s') i = i_size (k_fs s) i /\ forall k, byte (k_fs s') i k = byte (k_fs s) i k.
Proof.
  intros Ho Hwf Hf Hci Hfit Hp Hi Hne Hcr Hsz Hpos new.
  destruct (reopen_extend s ci prev m d i d' f1) as [-> Hce]; try done.
  destruct (append_part s p L prev size fuel pos ci d i f1 Ho Hwf Hf Hce Hne Hsz Hpos)
    as (f2 & f3 & s' & Hrun & Hx1 & Hx2 & Hwf' & Hap).
  exists s'. rewrite (ap_fs _ _ _ _ _ Hap). split_and!; [done | done | |].
  - rewrite (xo_size _ _ _ Hx2), (xo_size _ _ _ Hx1).
    by destruct (create_keeps_cached _ _ _ _ _ _ Hcr Hi) as (_ & _ & ? & _).
  - intros k. rewrite (xattrs_keep_bytes _ _ _ _ _ Hx2), (xattrs_keep_bytes _ _ _ _ _ Hx1).
    by eapply create_keeps_bytes.
Qed.

(** ** Two appends *)

Lemma chain_at f pi ino d id L c c' M :
  chain f pi ino d id (L ++ c :: c' :: M) ->
  exists m, kern_path f (next_path c (UINO_TO_CHUNK_ID (cd_next (co_cd c)))) = inr (m, co_dentry c') /\
    d_inode f (co_dentry c') = Some (co_inode c').
Proof.
  revert d id. induction L as [|x L IH]; intros d id Hc; simpl in *.
  - inversion Hc as [| ? ? ? m d' ? _ _ _ Hk Hn]; subst. exists m.
    assert (loaded f pi d' (UINO_TO_CHUNK_ID (cd_next (co_cd c))) c') as [-> _ Hi _ _ _ _] by by inversion Hn.
    done.
  - inversion Hc as [| ? ? ? m d' ? _ _ _ _ Hn]; subst; [by destruct L |]. by eapply IH.
Qed.

(** Another call, or several, appended parts after [prev] since this one
    found that [prev] is the last part. *)
Lemma raced_extend s p L prev new v M size ci d i d' f1 :
  new = new_part ci prev d i ->
  wf_file s p (L ++ with_next prev (co_uino new) :: with_next new v :: M) size ->
  (exists pi, k_pool s = Some pi /\ chunkfs_find_chunk pi (co_chunk_id prev + 1) = Some ci) ->
  open_create (k_fs s) (next_path prev (co_chunk_id prev + 1)) = (inr d', f1) ->
  d' = d /\ can_extend s ci prev d i f1 /\ Forall (fun c => co_inode c <> i) (L ++ [prev]).
Proof.
  intros Hnew (Hparts & Hwf & _) Hci Hcr.
  pose proof (wf_fits _ _ Hwf) as HF. rewrite !Forall_app, !Forall_cons in HF.
  destruct HF as (_ & _ & (_ & Hfit & _) & _). rewrite Hnew in Hfit. simpl in Hfit.
  destruct (make_uino_unpack _ _ Hfit) as [Hid _].
  destruct Hparts as (pi & hi & dh & Hp & Hh & Hc).
  destruct (chain_at _ _ _ _ _ _ _ _ _ Hc) as (m & Hk & Hi).
  change (UINO_TO_CHUNK_ID (cd_next (co_cd (with_next prev (co_uino new)))))
    with (UINO_TO_CHUNK_ID (co_uino new)) in Hk.
  rewrite Hnew in Hk, Hi. simpl in Hk, Hi. rewrite Hid in Hk.
  destruct (reopen_extend s ci prev m d i d' f1) as [-> Hce]; try done. split_and!; [done.. |].
  pose proof (wf_distinct _ _ Hwf) as Hnd. rewrite map_app, Hnew in Hnd. simpl in Hnd.
  apply NoDup_app in Hnd as (_ & Hd & Hnd). apply NoDup_cons in Hnd as [Hni _].
  apply Forall_app. split; [| rewrite Forall_singleton; set_solver].
  apply Forall_forall. intros c Hin Heq. apply (Hd (co_inode c)).
  - apply list_elem_of_fmap. eauto.
  - rewrite Heq. set_solver.
Qed.

(** C17: two appends at once.  No lock is held between the search for the last
    part and the rest of [chunkfs_create_continuation], so that in between
    other calls can append parts after [prev], first [new] and then [M].  This
    call then takes [new] over and writes its attributes again: it succeeds,
    and the file ends in [new].  When only one part was appended in between the
    two calls share it; any further parts, and their bytes, are cut off. *)
Theorem append_race s s1 s2 p L prev size size' fuel pos v M ci d i d' f1 :
  wf_file s p (L ++ [prev]) size ->
  loop fuel NoFuel (last_cont_step p) None s = (inr (Some prev), s1) ->
  let new := new_part ci prev d i in
  k_oom s2 = [] -> wf_file s2 p (L ++ with_next prev (co_uino new) :: with_next new v :: M) size' ->
  (exists pi, k_pool s2 = Some pi /\ chunkfs_find_chunk pi (co_chunk_id prev + 1) = Some ci) ->
  open_create (k_fs s2) (next_path prev (co_chunk_id prev + 1)) = (inr d', f1) ->
  size + CONT_LEN < 2 ^ 63 -> 0 <= pos < 2 ^ 63 ->
  chunkfs_create_continuation fuel p pos s = create_continuation_after pos prev s1 /\
  exists s', create_continuation_after pos prev s2 = (inr (mk_cfile d (pos - size), new, pos - size), s') /\
    wf_file s' p (L ++ [with_next prev (co_uino new); new]) (size + CONT_LEN).
Proof.
  intros Hwf Hwalk new Ho2 Hwf2 Hci Hcr Hsz Hpos. split.
  { unfold chunkfs_create_continuation. rewrite (bind_ok _ _ _ _ _ Hwalk). by rewrite (bind_ok _ _ s1 prev s1). }
  destruct (raced_extend s2 p L prev new v M size' ci d i d' f1 eq_refl Hwf2 Hci Hcr) as (-> & Hce & Hne).
  assert (wf_upto s2 p L prev (with_next new v :: M) size) as Hup.
  { destruct Hwf2 as (Hparts & _ & hi & dh & c & Hhd & Hh & Hino). split; [by eexists | apply Hwf |].
    exists hi, dh. destruct L as [|x L]; simpl in *; [| by exists c].
    exists prev. injection Hh as <-. done. }
  destruct (append_after s2 p L prev _ size pos ci d i f1 Ho2 Hup Hce Hne Hsz Hpos)
    as (f2 & f3 & s' & Hrun & _ & _ & Hwf' & _). by exists s'.
Qed.
End reopen.
