(* ===== verification/Crash.v ===== *)
(** * Appending to a disk that stops taking changes

    A file system goes read-only when its disk fails, and a crash leaves on
    the disk what was there at that moment.  [limited n] is any implementation
    of the client file systems, of which only the first [n] changes to the
    disk take place: the further ones return -EIO and leave it alone.  What
    [chunkfs_create_continuation] leaves on such a disk is what a crash after
    [n] changes leaves, with every [n] covered; what it returns there is what
    the caller sees of a disk that went read-only. *)

From S2P Require Import Prelude Monad Decimal Client Kernel KernelFacts Pool Uino Cont ContData Chain Append Race.

(** ** Disks with a limit *)

Section limited.
Context `{ClientFS}.

(** A call that changes the disk: [bad] is its result when it may not. *)
Definition disk_call {A} (n : nat) (bad : A) (op : fs -> A * fs) (f : fs * nat) : A * (fs * nat) :=
  if decide (f.2 < n)%nat then let '(a, g) := op f.1 in (a, (g, S f.2)) else (bad, f).

(** A call that only works on what is in memory. *)
Definition cache_call {A} (op : fs -> A * fs) (f : fs * nat) : A * (fs * nat) :=
  let '(a, g) := op f.1 in (a, (g, f.2)).

Definition limited (n : nat) : ClientFS := {|
  fs := fs * nat;
  mnt_sb := mnt_sb;
  kern_path f := kern_path f.1;
  d_inode f := d_inode f.1;
  i_attr f := i_attr f.1;
  i_size f := i_size f.1;
  is_bad_inode f := is_bad_inode f.1;
  iget_locked f i := g ← iget_locked f.1 i; Some (g, f.2);
  getxattr f := getxattr f.1;
  setxattr f i m v := disk_call n EIO (fun f => setxattr f i m v) f;
  open_create f p := disk_call n (inl EIO) (fun f => open_create f p) f;
  dentry_open f := dentry_open f.1;
  file_read f d len pos := cache_call (fun f => file_read f d len pos) f;
  file_write f d data pos := disk_call n (- EIO, pos) (fun f => file_write f d data pos) f;
  file_fsync f d start stop ds := disk_call n EIO (fun f => file_fsync f d start stop ds) f;
  set_attr f i a := (set_attr f.1 i a, f.2);
  op_write_inode f i := disk_call n EIO (fun f => op_write_inode f i) f;
  iattr := iattr;
  has_setattr f := has_setattr f.1;
  op_setattr f d a := disk_call n EIO (fun f => op_setattr f d a) f;
  inode_change_ok f := inode_change_ok f.1;
  security_inode_setattr f := security_inode_setattr f.1;
  setattr_copy f i a := (setattr_copy f.1 i a, f.2);
  has_permission f := has_permission f.1;
  op_permission f := op_permission f.1;
  generic_permission f := generic_permission f.1;
  d_alloc_name f d m := cache_call (fun f => d_alloc_name f d m) f;
  op_lookup f i d flags := cache_call (fun f => op_lookup f i d flags) f;
  op_create f i d mode excl := disk_call n EIO (fun f => op_create f i d mode excl) f;
  op_link f d i d' := disk_call n EIO (fun f => op_link f d i d') f;
  op_unlink f i d := disk_call n EIO (fun f => op_unlink f i d) f;
  op_symlink f i d m := disk_call n EIO (fun f => op_symlink f i d m) f;
  op_mkdir f i d mode := disk_call n EIO (fun f => op_mkdir f i d mode) f;
  op_rmdir f i d := disk_call n EIO (fun f => op_rmdir f i d) f;
  op_mknod f i d mode dev := disk_call n EIO (fun f => op_mknod f i d mode dev) f;
  op_readlink f d len := cache_call (fun f => op_readlink f d len) f;
  op_follow_link f d nd := cache_call (fun f => op_follow_link f d nd) f;
  has_put_link f := has_put_link f.1;
  op_put_link f d nd c := cache_call (fun f => op_put_link f d nd c) f;
  file_llseek f d offset origin pos := cache_call (fun f => file_llseek f d offset origin pos) f;
  file_iterate f d pos := cache_call (fun f => file_iterate f d pos) f;
|}.

(** The same state over the limited disk, before any change, and over the disk
    that is left. *)
Definition on_limited (n : nat) (s : kstate) : @kstate (limited n) :=
  @mk_kstate (limited n) (k_fs s, O) (k_data s) (k_bad s) (k_oom s) (k_kmem s) (k_bh s) (k_mnt s) (k_opens s)
    (k_dref s) (k_iref s) (k_pool s) (k_inodes s) (k_dentries s) (k_files s) (k_locks s) (k_icount s) (k_root s).

Definition left_by {n} (s : @kstate (limited n)) : kstate :=
  mk_kstate _ (@k_fs (limited n) s).1 (k_data s) (k_bad s) (k_oom s) (k_kmem s) (k_bh s) (k_mnt s) (k_opens s)
    (k_dref s) (k_iref s) (k_pool s) (k_inodes s) (k_dentries s) (k_files s) (k_locks s) (k_icount s) (k_root s).
End limited.

(** ** Calls that change nothing the list of a file is found from *)

(** However it ends, [m] relates the states before and after it by [R]. *)
Definition always `{ClientFS} {A} (R : relation kstate) (m : kernel A) : Prop := forall s, R s (m s).2.

Section untouched.
Context `{ClientFS}.

Record untouched (s s' : kstate) : Prop := {
  ut_fs : k_fs s' = k_fs s;
  ut_objects : same_objects s s';
}.

#[export] Instance same_objects_preorder : PreOrder same_objects.
Proof. split; [by intros s |]. intros s1 s2 s3 [] []. split; congruence. Qed.

#[export] Instance untouched_preorder : PreOrder untouched.
Proof. split; [by intros s |]. intros s1 s2 s3 [] []. split; [congruence | by etransitivity]. Qed.

Lemma always_bind {A B} (m : kernel A) (f : A -> kernel B) :
  always untouched m -> (forall a, always untouched (f a)) -> always untouched (m ≫= f).
Proof.
  intros Hm Hf s. unfold mbind, stm_bind. specialize (Hm s). destruct (m s) as [[e|a] s1]; [done |].
  etransitivity; [exact Hm | apply Hf].
Qed.

Lemma always_try {A} (m : kernel A) : always untouched m -> always untouched (try m).
Proof. intros Hm s. specialize (Hm s). unfold try. by destruct (m s) as [[[]|a] s1]. Qed.

Lemma always_ret {A} (a : A) : always untouched (mret a).
Proof. by intros s. Qed.

Lemma always_throw {A} (e : stop) : always untouched (mthrow e : kernel A).
Proof. by intros s. Qed.

Lemma always_gets {A} (f : kstate -> A) : always untouched (gets f).
Proof. by intros s. Qed.

Lemma always_deref {A} (o : option A) : always untouched (deref o).
Proof. by destruct o. Qed.

Lemma always_kalloc : always untouched kalloc.
Proof. intros s. unfold kalloc. by destruct (k_oom s) as [|[] ?]. Qed.

Lemma always_kfree : always untouched kfree.
Proof. by intros s. Qed.

Lemma always_dget d : always untouched (dget d).
Proof. intros s. unfold dget. simpl. by destruct (d =? 0). Qed.

Lemma always_dput d : always untouched (dput d).
Proof. intros s. unfold dput. simpl. by destruct (d =? 0). Qed.
End untouched.

#[local] Hint Resolve always_ret always_throw always_gets always_deref always_kalloc always_kfree always_dget
  always_dput : core.

Ltac always := repeat first [solve [auto] | simple apply always_bind; [| intros ?] | simple apply always_try | case_match].

Section untouched_code.
Context `{ClientFS}.

Lemma always_getname : always untouched getname.
Proof. unfold getname. always. Qed.

Lemma always_load d id : always untouched (load_continuation d id).
Proof. unfold load_continuation, get_cont_data, get_set_cont_data, dentry_inode. always. Qed.

Lemma always_put_cont c : always untouched (chunkfs_put_continuation c).
Proof. unfold chunkfs_put_continuation. always. Qed.

(** What [create_continuation_after] does when the attributes are written. *)
Definition finish (d id pos : Z) (fl : client_file) : kernel (client_file * chunkfs_continuation * Z) :=
  r ← try (load_continuation d id);
  match r with
  | inl _ => mthrow Undef
  | inr c => let '(cf, pos') := chunkfs_copy_down_file pos fl (cd_start (co_cd c)) in kfree;; mret (cf, c, pos')
  end.

(** What is not loaded is followed all the same. *)
Lemma load_refused s pi ci d id i pos fl r :
  k_oom s = [] -> k_pool s = Some pi -> chunkfs_find_chunk pi id = Some ci -> d <> 0 -> d_inode (k_fs s) d = Some i ->
  let s1 := set_kmem (k_kmem s + 1) s in
  try (get_cont_data i) s1 = (r, s1) -> r = inl Undef \/ (exists e, r = inr (inl e)) ->
  (finish d id pos fl s).1 = inl Undef.
Proof.
  intros Ho Hp Hci Hd Hi s1 Hget Hr.
  assert (exists r' s', try (load_continuation d id) s = (r', s') /\ (r' = inl Undef \/ exists e, r' = inr (inl e)))
    as (r' & s' & Hl & Hr').
  { unfold load_continuation, try at 1. rewrite (bind_ok _ _ s true s1) by (unfold kalloc; by rewrite Ho). cbn [negb].
    rewrite (proj2 (Z.eqb_neq d 0) Hd), (bind_ok _ _ s1 (Some pi) s1) by (unfold gets; simpl; by rewrite Hp).
    rewrite (bind_ok _ _ s1 pi s1), Hci by done.
    rewrite (bind_ok _ _ s1 i s1).
    2: { unfold dentry_inode. rewrite (proj2 (Z.eqb_neq d 0) Hd), (bind_ok _ _ s1 (k_fs s) s1) by done. by rewrite Hi. }
    destruct Hr as [-> | [e ->]].
    - rewrite (bind_stop _ _ _ _ _ Hget). eauto.
    - rewrite (bind_ok _ _ _ _ _ Hget). eexists _, _. split; [done | eauto]. }
  unfold finish. destruct Hr' as [-> | [e ->]]; [by rewrite (bind_stop _ _ _ _ _ Hl) | by rewrite (bind_ok _ _ _ _ _ Hl)].
Qed.

Lemma always_finish d id pos fl : always untouched (finish d id pos fl).
Proof. unfold finish. pose proof (always_load d id). always. Qed.
End untouched_code.

(** ** Attributes on a limited disk *)

Section attributes.
Context `{ClientFS} `{!ClientLaws} `{!ClientXattrs}.

(** One attribute, while the disk takes changes. *)
Lemma limited_field n (s : @kstate (limited n)) f k i name x :
  @k_fs (limited n) s = (f, k) -> (k < n)%nat -> is_u64 x ->
  exists g, @get_set_cont_data (limited n) i name x true s = (inr 0, @set_fs (limited n) (g, S k) s) /\
    xattrs_of i f g /\ field_is g i name x /\
    (forall m y, m <> name -> field_is f i m y -> field_is g i m y) /\
    (forall m, m <> "user." +:+ name -> getxattr g i m = getxattr f i m).
Proof.
  intros Hs Hk Hx. pose proof (print_nul_short x Hx) as Hl. unfold value_str_size in Hl.
  destruct (setxattr_works f i ("user." +:+ name) (print_llu x +:+ String NUL "") ltac:(lia)) as [g Hg].
  assert (@get_set_cont_data H i name x true (set_fs f (left_by s)) = (inr 0, set_fs g (left_by s))) as Hrun.
  { unfold get_set_cont_data. cbn [k_fs set_fs]. by rewrite Hg. }
  destruct (set_field _ _ _ _ _ _ Hrun Hx) as (_ & Hxo & Hf & Ho). exists g. split_and!; [| exact Hxo | by apply Hf | exact Ho
    | intros m Hm; eapply get_set_other; [exact Hg | congruence]].
  unfold get_set_cont_data, setxattr. simpl. unfold disk_call. rewrite Hs. simpl.
  rewrite decide_True by done. by rewrite Hg.
Qed.

(** Then it does not. *)
Lemma limited_full n (s : @kstate (limited n)) f i name x :
  @k_fs (limited n) s = (f, n) ->
  @get_set_cont_data (limited n) i name x true s = (inl (Errno EIO), @set_fs (limited n) (f, n) s).
Proof.
  intros Hs. unfold get_set_cont_data, setxattr. simpl. unfold disk_call. rewrite Hs. simpl.
  by rewrite decide_False by lia.
Qed.

Definition differ_in_next (cd0 cd : chunkfs_cont_data) : Prop :=
  cd_prev cd0 = cd_prev cd /\ cd_start cd0 = cd_start cd /\ cd_len cd0 = cd_len cd.

(** All four: as many as the disk takes. *)
Lemma limited_set n (s : @kstate (limited n)) f k i cd :
  @k_fs (limited n) s = (f, k) -> (k <= n)%nat -> cd_typed cd ->
  exists r g, try (@set_cont_data (limited n) i cd) s = (inr r, @set_fs (limited n) (g, min n (k + 4)) s) /\
    xattrs_of i f g /\
    ((k + 4 <= n)%nat -> has_cd g i cd) /\
    (k = n -> g = f) /\
    ((k < n)%nat -> forall cd0, has_cd f i cd0 -> differ_in_next cd0 cd -> has_cd g i cd) /\
    ((n < k + 4)%nat -> getxattr g i "user.len" = getxattr f i "user.len").
Proof.
  intros Hs Hk [T1 T2 T3 T4]. unfold try, set_cont_data.
  assert (forall cd0, has_cd f i cd0 -> differ_in_next cd0 cd -> field_is f i "prev" (cd_prev cd) /\
    field_is f i "start" (cd_start cd) /\ field_is f i "len" (cd_len cd)) as Hold
    by (intros cd0 [_ A2 A3 A4] (<- & <- & <-); done).
  destruct (decide (k = n)) as [-> | N0].
  { erewrite bind_stop by (by apply limited_full). replace (min n (n + 4)) with n by lia.
    exists (inl EIO), f. split_and!; [done | done | lia | done | lia | done]. }
  destruct (limited_field n s f k i "next" (cd_next cd)) as (g1 & R1 & X1 & F1 & O1 & G1); [done | lia | done |].
  rewrite (bind_ok _ _ _ _ _ R1). destruct (decide (S k = n)) as [E1 | N1].
  { erewrite bind_stop by exact (limited_full n (@set_fs (limited n) (g1, S k) s) g1 i _ _ (f_equal (pair g1) E1)). replace (min n (k + 4)) with n by lia.
    exists (inl EIO), g1. split_and!; [done | done | lia | lia | | intros _; by apply G1].
    intros _ cd0 Hh Hd. destruct (Hold cd0 Hh Hd) as (? & ? & ?). split; auto 10. }
  destruct (limited_field n (@set_fs (limited n) (g1, S k) s) g1 (S k) i "prev" (cd_prev cd)) as (g2 & R2 & X2 & F2 & O2 & G2); [done | lia | done |].
  rewrite (bind_ok _ _ _ _ _ R2). destruct (decide (S (S k) = n)) as [E2 | N2].
  { erewrite bind_stop by exact (limited_full n (@set_fs (limited n) (g2, S (S k)) s) g2 i _ _ (f_equal (pair g2) E2)). replace (min n (k + 4)) with n by lia.
    exists (inl EIO), g2. split_and!; [done | by etransitivity | lia | lia | | intros _; by rewrite G2, G1].
    intros _ cd0 Hh Hd. destruct (Hold cd0 Hh Hd) as (? & ? & ?). split; auto 10. }
  destruct (limited_field n (@set_fs (limited n) (g2, S (S k)) s) g2 (S (S k)) i "start" (cd_start cd)) as (g3 & R3 & X3 & F3 & O3 & G3); [done | lia | done |].
  rewrite (bind_ok _ _ _ _ _ R3). destruct (decide (S (S (S k)) = n)) as [E3 | N3].
  { erewrite bind_stop by exact (limited_full n (@set_fs (limited n) (g3, S (S (S k))) s) g3 i _ _ (f_equal (pair g3) E3)). replace (min n (k + 4)) with n by lia.
    exists (inl EIO), g3. split_and!; [done | by do 2 (etransitivity; [eassumption |]) | lia | lia | | intros _; by rewrite G3, G2, G1].
    intros _ cd0 Hh Hd. destruct (Hold cd0 Hh Hd) as (? & ? & ?). split; auto 10. }
  destruct (limited_field n (@set_fs (limited n) (g3, S (S (S k))) s) g3 (S (S (S k))) i "len" (cd_len cd)) as (g4 & R4 & X4 & F4 & O4 & G4); [done | lia | done |].
  rewrite (bind_ok _ _ _ _ _ R4). replace (min n (k + 4)) with (S (S (S (S k)))) by lia.
  assert (has_cd g4 i cd) as Hg by (split; auto 10).
  exists (inr tt), g4. split_and!; [done | by do 3 (etransitivity; [eassumption |]) | done | lia | done | lia].
Qed.
End attributes.

(** ** The run *)

Section crash.
Context `{ClientFS} `{!ClientLaws} `{!ClientCreateLaws} `{!ClientXattrs}.

Lemma limited_set_dentry n (s : @kstate (limited n)) f k d i cd :
  @k_fs (limited n) s = (f, k) -> (k <= n)%nat -> cd_typed cd -> d <> 0 -> d_inode f d = Some i ->
  exists r g, try (@set_cont_data_dentry (limited n) d cd) s = (inr r, @set_fs (limited n) (g, min n (k + 4)) s) /\
    xattrs_of i f g /\
    ((k + 4 <= n)%nat -> has_cd g i cd) /\
    (k = n -> g = f) /\
    ((k < n)%nat -> forall cd0, has_cd f i cd0 -> differ_in_next cd0 cd -> has_cd g i cd) /\
    ((n < k + 4)%nat -> getxattr g i "user.len" = getxattr f i "user.len").
Proof.
  intros Hs Hk Ht Hd Hi. destruct (limited_set n s f k i cd Hs Hk Ht) as (r & g & Hrun & Hrest).
  exists r, g. split; [| exact Hrest]. rewrite <-Hrun. unfold try, set_cont_data_dentry, dentry_inode, gets, mbind, stm_bind.
  rewrite (proj2 (Z.eqb_neq d 0) Hd). simpl. rewrite Hs. simpl. by rewrite Hi.
Qed.

(** The first change does not take place. *)
Lemma crash_open n (s : @kstate (limited n)) f pos prev :
  n = O -> @k_fs (limited n) s = (f, O) -> k_oom s = [] -> 0 <= co_chunk_id prev < 2 ^ 63 ->
  @untouched (limited n) s (@create_continuation_after (limited n) pos prev s).2 /\
  (@create_continuation_after (limited n) pos prev s).1 = inl (Errno EIO).
Proof.
  intros Hn Hs Ho Hid. unfold create_continuation_after. cbv zeta.
  rewrite !(bind_ok _ _ s tt (@set_kmem (limited n) (k_kmem s + 1) s))
    by (unfold getname, kalloc, mbind, stm_bind; by rewrite Ho).
  set (a := @set_kmem (limited n) (k_kmem s + 1) s). assert (@untouched (limited n) s a) as Ha by (by split).
  assert (forall path, try (@filp_open_create (limited n) path) a = (inr (inl EIO), @set_fs (limited n) (f, O) a)) as Hopen.
  { intros path. unfold try, filp_open_create, open_create. simpl. unfold disk_call. rewrite Hs. simpl.
    by rewrite decide_False by lia. }
  rewrite !(bind_ok _ _ _ _ _ (Hopen _)). split; [| done]. transitivity a; [exact Ha |].
  transitivity (@set_fs (limited n) (f, O) a); [split; [simpl; by rewrite Hs | by split] |].
  apply (always_bind kfree); [apply always_kfree | intros []].
  apply always_bind; [apply always_put_cont | intros []]. apply always_throw.
Qed.

(** The run from [s], up to the loading of the new part from [s3]. *)
Record crashed (n : nat) (s : @kstate (limited n)) (f : fs) (prev new : chunkfs_continuation) (i : cino) (f1 f2 f3 : fs)
    (s3 : @kstate (limited n)) : Prop := {
  cr_fs : (@k_fs (limited n) s3).1 = f3;
  cr_oom : k_oom s3 = [];
  cr_objects : same_objects (left_by s) (left_by s3);
  cr_new : xattrs_of i f1 f2;
  cr_prev : xattrs_of (co_inode prev) f2 f3;
  cr_unlinked : (n < 6)%nat -> f3 = f2;
  cr_written : (5 <= n)%nat -> has_cd f2 i (co_cd new);
  cr_linked : (6 <= n)%nat -> has_cd f3 (co_inode prev) (co_cd (with_next prev (co_uino new)));
  cr_unwritten : (n < 5)%nat -> getxattr f2 i "user.len" = getxattr f1 i "user.len";
}.

Lemma crash_run n (s : @kstate (limited n)) f pos prev ci d i f1 size :
  @k_fs (limited n) s = (f, O) -> k_oom s = [] -> can_extend (left_by s) ci prev d i f1 ->
  part_fits prev -> cd_typed (co_cd prev) ->
  cd_start (co_cd prev) + cd_len (co_cd prev) = size -> 0 <= size -> size + CONT_LEN < 2 ^ 63 ->
  co_dentry prev <> 0 -> d_inode f (co_dentry prev) = Some (co_inode prev) -> co_inode prev <> i ->
  has_cd f (co_inode prev) (co_cd prev) -> (0 < n)%nat ->
  exists f2 f3 s3,
    @create_continuation_after (limited n) pos prev s =
      @finish (limited n) d (co_chunk_id prev + 1) pos (mk_cfile d 0) s3 /\
    crashed n s f prev (new_part ci prev d i) i f1 f2 f3 s3.
Proof.
  intros Hs Ho [(pi & Hp & Hci) Hfit Hcr Hi _] Hpf Ht Hsz Hs0 Hs1 Hd Hpi Hneq Hcd Hn.
  set (new := new_part ci prev d i).
  simpl in Hcr. rewrite Hs in Hcr. simpl in Hcr. destruct (create_path _ _ _ _ Hcr) as [Hdn _].
  assert (d_inode f1 (co_dentry prev) = Some (co_inode prev)) as Hpi1 by by eapply create_keeps_dentry.
  assert (has_cd f1 (co_inode prev) (co_cd prev)) as Hcd1 by by eapply has_cd_create.
  pose proof (part_fits_u64 prev Hpf) as Hup.
  assert (is_u64 (co_uino new)) as Hun.
  { simpl. rewrite make_uino_fits by done. destruct Hfit as [? ?]. unfold is_u64. lia. }
  set (s2 := @set_dref (limited n) (<[d := count (k_dref s) d + 1]> (k_dref s))
    (@set_opens (limited n) (k_opens s + 1) (@set_fs (limited n) (f1, 1%nat) (@set_kmem (limited n) (k_kmem s + 1) s)))).
  destruct (limited_set_dentry n s2 f1 1 d i (co_cd new)) as (r1 & f2 & R1 & X1 & C1 & _ & _ & U1); [done | lia | | done | done |].
  { split; simpl; unfold is_u64, CONT_LEN in *; lia. }
  destruct (limited_set_dentry n (@set_fs (limited n) (f2, min n 5) s2) f2 (min n 5) (co_dentry prev) (co_inode prev)
    (co_cd (with_next prev (co_uino new)))) as (r2 & f3 & R2 & X2 & _ & E2 & C2 & _); [done | lia | | done | |].
  { destruct Ht. by split. }
  { by rewrite (xo_dentry _ _ _ X1). }
  exists f2, f3, (@set_fs (limited n) (f3, min n (min n 5 + 4)) s2). split.
  - unfold create_continuation_after. cbv zeta.
    rewrite (u64_small (co_chunk_id prev + 1)) by (destruct Hfit; destruct Hpf; lia).
    rewrite (u64_small (cd_start (co_cd prev) + _)) by (unfold CONT_LEN in *; lia).
    rewrite (bind_ok _ _ s tt (@set_kmem (limited n) (k_kmem s + 1) s))
      by (unfold getname, kalloc, mbind, stm_bind; by rewrite Ho).
    rewrite (bind_ok _ _ _ (inr (mk_cfile d 0))
      (@set_opens (limited n) (k_opens s + 1) (@set_fs (limited n) (f1, 1%nat) (@set_kmem (limited n) (k_kmem s + 1) s)))).
    2: { unfold try, filp_open_create, open_create. simpl. unfold disk_call. rewrite Hs. simpl.
         rewrite decide_True by done. unfold next_path in Hcr. by rewrite Hcr. }
    rewrite (bind_ok _ _ _ d s2) by (unfold dget; cbn [cf_dentry]; by rewrite (proj2 (Z.eqb_neq d 0) Hdn)).
    rewrite Hsz. unfold new in R1. simpl in R1. rewrite Hsz in R1. rewrite (bind_ok _ _ _ _ _ R1).
    rewrite (bind_ok _ _ _ i (@set_fs (limited n) (f2, min n 5) s2)).
    2: { unfold dentry_inode, gets, mbind, stm_bind. rewrite (proj2 (Z.eqb_neq d 0) Hdn). simpl.
         rewrite (xo_dentry _ _ _ X1). simpl. by rewrite Hi. }
    rewrite (bind_ok _ _ _ _ _ R2). reflexivity.
  - split; try done; [intros Hlt; apply E2; lia |]. intros Hge. apply (C2 ltac:(lia) (co_cd prev)); [| done]. by eapply has_cd_other.
Qed.

Lemma loaded_limited n f k pi d id c : loaded f pi d id c -> @loaded (limited n) (f, k) pi d id c.
Proof. intros [? ? ? [] ? ? ?]. by split. Qed.

(** The data of a part cannot be read without its last attribute. *)
Lemma get_without_len n (s : @kstate (limited n)) i e :
  getxattr (@k_fs (limited n) s).1 i "user.len" = inl e ->
  exists r, try (@get_cont_data (limited n) i) s = (r, s) /\ (r = inl Undef \/ exists e', r = inr (inl e')).
Proof.
  intros He.
  assert (forall name, (exists x, @get_set_cont_data (limited n) i name 0 false s = (inr x, s)) \/
    (exists e', @get_set_cont_data (limited n) i name 0 false s = (inl (Errno e'), s)) \/
    @get_set_cont_data (limited n) i name 0 false s = (inl Undef, s)) as Hcase.
  { intros name. unfold get_set_cont_data, gets, mbind, stm_bind. destruct (@getxattr (limited n) _ _ _); [right; left; by eexists |].
    case_decide; [left; by eexists | by right; right]. }
  unfold try, get_cont_data, mbind, stm_bind.
  destruct (Hcase "next") as [[? ->] | [[? ->] | ->]]; [| by eauto 10..].
  destruct (Hcase "prev") as [[? ->] | [[? ->] | ->]]; [| by eauto 10..].
  destruct (Hcase "start") as [[? ->] | [[? ->] | ->]]; [| by eauto 10..].
  assert (@get_set_cont_data (limited n) i "len" 0 false s = (inl (Errno e), s)) as ->; [| by eauto 10].
  unfold get_set_cont_data, gets, mbind, stm_bind. change (@getxattr (limited n) (@k_fs (limited n) s) i ("user." +:+ "len"))
    with (getxattr (@k_fs (limited n) s).1 i "user.len"). by rewrite He.
Qed.

(** The new part is loaded when it was written, and followed without having
    been loaded when it was not. *)
Lemma crash_result n (s : @kstate (limited n)) f pos prev ci d i f1 f2 f3 s3 size :
  crashed n s f prev (new_part ci prev d i) i f1 f2 f3 s3 -> can_extend (left_by s) ci prev d i f1 ->
  cd_start (co_cd prev) + cd_len (co_cd prev) = size -> 0 <= size < 2 ^ 63 -> 0 <= pos < 2 ^ 63 -> co_inode prev <> i ->
  (exists e, getxattr f1 i "user.len" = inl e) ->
  (@finish (limited n) d (co_chunk_id prev + 1) pos (mk_cfile d 0) s3).1 =
    if decide (n < 5)%nat then inl Undef
    else inr (mk_cfile d (pos - size), new_part ci prev d i, pos - size).
Proof.
  intros Hcr [(pi & Hp & Hci) _ Hc Hi _] Hsz Hs0 Hpos Hne [e He]. destruct (create_path _ _ _ _ Hc) as [Hdn _].
  destruct Hcr as [Hf3 Ho Hso X1 X2 E5 E6 _ E8].
  assert (k_pool s3 = Some pi) as Hp3 by (rewrite <-Hp; apply (sj_pool _ _ Hso)).
  assert (d_inode f3 d = Some i) as Hi3 by by rewrite (xo_dentry _ _ _ X2), (xo_dentry _ _ _ X1).
  unfold finish. case_decide as Hn.
  - destruct (get_without_len n (@set_kmem (limited n) (k_kmem s3 + 1) s3) i e) as (r & Hr & Hno).
    { simpl. rewrite Hf3, (E5 ltac:(lia)), (E8 Hn). exact He. }
    apply (load_refused (H := limited n) s3 pi ci d _ i pos _ r Ho Hp3 Hci Hdn); [simpl; by rewrite Hf3 | done | done].
  - assert (@loaded (limited n) (@k_fs (limited n) s3) pi d (co_chunk_id prev + 1) (new_part ci prev d i)) as Hl.
    { destruct (@k_fs (limited n) s3) as [g m] eqn:Hg. simpl in Hf3. subst g. apply loaded_limited.
      split; try done; [eapply has_cd_other; [exact X2 | intros Heq; by apply Hne | apply E6; lia] | by exists ci]. }
    rewrite (bind_ok _ _ _ _ _ (try_ok _ _ _ _ (load_ok (H := limited n) s3 pi d _ _ Ho Hp3 Hl))).
    unfold chunkfs_copy_down_file. cbn [new_part co_cd cd_start cf_dentry]. rewrite Hsz.
    by rewrite s64_u64, s64_small by lia.
Qed.

(** ** The list that is left *)

Lemma chain_kept f f' pi ino d id L :
  chain f pi ino d id L ->
  (forall q x, kern_path f q = inr x -> kern_path f' q = inr x) ->
  (forall d j, d_inode f d = Some j -> d_inode f' d = Some j) ->
  (forall c, c ∈ L -> has_cd f (co_inode c) (co_cd c) -> has_cd f' (co_inode c) (co_cd c)) ->
  chain f' pi ino d id L.
Proof.
  intros Hc Hp Hd. assert (forall d id c, loaded f pi d id c ->
    (has_cd f (co_inode c) (co_cd c) -> has_cd f' (co_inode c) (co_cd c)) -> loaded f' pi d id c) as Hl.
  { intros ? ? ? [] Hk. split; auto. }
  induction Hc as [d id c Hl0 He | d id c m d' L Hl0 N1 N2 Hk _ IH]; intros Hcd.
  - apply chain_end; [| done]. apply Hl; [done |]. apply Hcd. set_solver.
  - eapply chain_next; [| done | done | by apply Hp |].
    + apply Hl; [done |]. apply Hcd. set_solver.
    + apply IH. intros c' Hin. apply Hcd. set_solver.
Qed.

Lemma wf_file_kept s s' p L size :
  wf_file s p L size -> same_objects s s' ->
  (forall q x, kern_path (k_fs s) q = inr x -> kern_path (k_fs s') q = inr x) ->
  (forall d j, d_inode (k_fs s) d = Some j -> d_inode (k_fs s') d = Some j) ->
  (forall c, c ∈ L -> has_cd (k_fs s) (co_inode c) (co_cd c) -> has_cd (k_fs s') (co_inode c) (co_cd c)) ->
  wf_file s' p L size.
Proof.
  intros ((pi & hi & dh & Hp & Hh & Hc) & Hwf & hi' & d' & c & Hh' & Hrest) Hso Hpath Hdent Hcd.
  split_and!; [| done | exists hi', d', c; split; [by eapply head_of_same | done]].
  exists pi, hi, dh. rewrite (sj_pool _ _ Hso). split_and!; [done | by eapply head_of_same |].
  by eapply chain_kept.
Qed.

(** The list is the same on the disk with a limit. *)
Lemma chain_limited n f k pi ino d id L :
  chain f pi ino d id L -> @chain (limited n) (f, k) pi ino d id L.
Proof.
  induction 1 as [d id c Hl0 He | d id c m d' L Hl0 N1 N2 Hk _ IH]; [apply chain_end; [by apply loaded_limited | done] |].
  by eapply (chain_next (H := limited n)); [by apply loaded_limited | | | exact Hk |].
Qed.

Lemma file_parts_limited n s p L : file_parts s p L -> @file_parts (limited n) (on_limited n s) p L.
Proof.
  intros (pi & hi & dh & Hp & Hh & Hc). exists pi, hi, dh. split_and!; [done | done |]. by apply chain_limited.
Qed.

Context `{!ClientBytes} `{!ClientReopenLaws}.

(** What the run needs of the part before the new one. *)
Lemma before_new n (s : @kstate (limited n)) f p L prev size ci d i f1 :
  @k_fs (limited n) s = (f, O) -> wf_file (left_by s) p (L ++ [prev]) size -> can_append (left_by s) ci prev d i f1 ->
  part_fits prev /\ cd_typed (co_cd prev) /\ cd_start (co_cd prev) + cd_len (co_cd prev) = size /\ 0 <= size /\
  co_dentry prev <> 0 /\ d_inode f (co_dentry prev) = Some (co_inode prev) /\ co_inode prev <> i /\
  has_cd f (co_inode prev) (co_cd prev) /\ 0 <= co_chunk_id prev < 2 ^ 63.
Proof.
  intros Hs (Hparts & Hwfp & _) Hca. assert (prev ∈ L ++ [prev]) as Hin by set_solver.
  pose proof (can_append_new _ _ _ _ _ _ _ _ Hca Hparts) as Hne. rewrite Forall_forall in Hne.
  pose proof (wf_fits _ _ Hwfp) as HF. rewrite Forall_forall in HF. pose proof (HF _ Hin) as Hpf.
  pose proof (wf_typed _ _ Hwfp) as HT. rewrite Forall_forall in HT.
  pose proof (proj1 (tiles_app _ _ _ _) (wf_tiles _ _ Hwfp)) as (y & Ht1 & Ht2).
  inversion Ht2 as [| ? ? ? ? Hst Hlen Hb Hnil]; subst. inversion Hnil; subst.
  pose proof (tiles_bounds _ _ _ Ht1) as Hy0.
  destruct Hparts as (pi & hi & dh & Hp & Hh & Hc). simpl in Hc. rewrite Hs in Hc. simpl in Hc.
  destruct (chain_inode _ _ _ _ _ _ prev Hc Hin) as (d' & ? & -> & ?).
  destruct (ce_fits _ _ _ _ _ _ (can_append_extend _ _ _ _ _ _ Hca)), Hpf as [? ?].
  split_and!; try done; try lia; [by apply HT | by apply Hne | by eapply chain_data].
Qed.

(** The end of the run, from the state after the walk. *)
Lemma crash_after n (s : @kstate (limited n)) f p L prev size pos ci d i f1 :
  @k_fs (limited n) s = (f, O) -> k_oom s = [] -> wf_file (left_by s) p (L ++ [prev]) size ->
  can_append (left_by s) ci prev d i f1 -> size + CONT_LEN < 2 ^ 63 ->
  let new := new_part ci prev d i in
  let s' := left_by (@create_continuation_after (limited n) pos prev s).2 in
  (if decide (n < 6)%nat then wf_file s' p (L ++ [prev]) size
   else wf_file s' p (L ++ [with_next prev (co_uino new); new]) (size + CONT_LEN)) /\
  forall c k, c ∈ L ++ [prev] -> byte (k_fs s') (co_inode c) k = byte f (co_inode c) k.
Proof.
  intros Hs Ho Hwf Hca Hsz new s'.
  destruct (before_new _ _ _ _ _ _ _ _ _ _ _ Hs Hwf Hca) as (Hpf & Ht & Hend & Hs0 & Hd & Hdi & Hnp & Hcd0 & Hid).
  pose proof Hwf as (Hparts & _). pose proof (can_append_extend _ _ _ _ _ _ Hca) as Hce.
  pose proof (can_append_new _ _ _ _ _ _ _ _ Hca Hparts) as Hne. rewrite Forall_forall in Hne.
  assert (k_fs (left_by s) = f) as Hf by (simpl; by rewrite Hs).
  destruct Hparts as (pi & hi & dh & Hp & Hh & Hc). rewrite Hf in Hc.
  assert (forall c, c ∈ L ++ [prev] -> d_inode f (co_dentry c) = Some (co_inode c)) as Hdent.
  { intros c Hcin. by destruct (chain_inode _ _ _ _ _ _ c Hc Hcin) as (d' & ? & -> & ?). }
  pose proof (ce_create _ _ _ _ _ _ Hce) as Hcr. rewrite Hf in Hcr.
  destruct (decide (n = O)) as [Hn | Hn].
  { destruct (crash_open n s f pos prev Hn Hs Ho Hid) as [[Hfs [O1 O2 O3]] _].
    assert (k_fs s' = f) as Hfs' by (unfold s'; simpl; by rewrite Hfs, Hs).
    rewrite decide_True by lia. split; [| intros; by rewrite Hfs'].
    eapply wf_file_kept; [exact Hwf | by split | rewrite Hfs', Hf; done..]. }
  destruct (crash_run n s f pos prev ci d i f1 size) as (f2 & f3 & s3 & Hrun & [Hf3 _ Hso X1 X2 E5 E6 E7 _]); try done; [lia |].
  destruct (always_finish (H := limited n) d (co_chunk_id prev + 1) pos (mk_cfile d 0) s3) as [Hff [F1 F2 F3]].
  rewrite <-Hrun in Hff, F1, F2, F3.
  assert (k_fs s' = f3) as Hfs' by (unfold s'; simpl; by rewrite Hff).
  assert (same_objects (left_by s) s') as Hso' by (etransitivity; [exact Hso | split; [exact F1 | exact F2 | exact F3]]).
  split.
  - destruct (decide (n < 6)%nat) as [Hlt | Hge].
    + eapply wf_file_kept; [exact Hwf | exact Hso' | ..]; rewrite Hfs', (E5 Hlt).
      * intros q x Hq. rewrite (xo_path _ _ _ X1). by apply (ce_paths _ _ _ _ _ _ Hce).
      * intros d' j Hj. rewrite (xo_dentry _ _ _ X1). rewrite Hf in Hj. by eapply create_keeps_dentry.
      * intros c Hcin Hcd. rewrite Hf in Hcd. eapply has_cd_other; [exact X1 | by apply Hne |].
        eapply has_cd_create; [exact Hcr | by apply Hdent | done].
    + eapply append_wf; [by apply wf_file_upto | exact Hce | done | by apply Forall_forall | exact X1 | apply E6; lia | exact X2
        | apply E7; lia | done | exact Hso'].
  - intros c k Hcin. rewrite Hfs', (xattrs_keep_bytes _ _ _ _ _ X2), (xattrs_keep_bytes _ _ _ _ _ X1).
    eapply create_keeps_bytes; [exact Hcr | by apply Hdent].
Qed.

Lemma result_after n (s : @kstate (limited n)) f p L prev size pos ci d i f1 :
  @k_fs (limited n) s = (f, O) -> k_oom s = [] -> wf_file (left_by s) p (L ++ [prev]) size ->
  can_append (left_by s) ci prev d i f1 -> size + CONT_LEN < 2 ^ 63 -> 0 <= pos < 2 ^ 63 ->
  (exists e, getxattr f1 i "user.len" = inl e) ->
  (@create_continuation_after (limited n) pos prev s).1 =
    if decide (n = O) then inl (Errno EIO)
    else if decide (n < 5)%nat then inl Undef
    else inr (mk_cfile d (pos - size), new_part ci prev d i, pos - size).
Proof.
  intros Hs Ho Hwf Hca Hsz Hpos He.
  destruct (before_new _ _ _ _ _ _ _ _ _ _ _ Hs Hwf Hca) as (Hpf & Ht & Hend & Hs0 & Hd & Hdi & Hne & Hcd & Hid).
  pose proof (can_append_extend _ _ _ _ _ _ Hca) as Hce. case_decide as Hn.
  - by apply (crash_open n s f pos prev Hn Hs Ho Hid).
  - destruct (crash_run n s f pos prev ci d i f1 size) as (f2 & f3 & s3 & -> & Hcr); try done; [lia |].
    eapply crash_result; try done. unfold CONT_LEN in *. lia.
Qed.

(** The walk to the last part changes nothing of this. *)
Lemma crash_walk n s p L prev size fuel pos ci d i f1 :
  k_oom s = [] -> wf_file s p (L ++ [prev]) size -> (length (L ++ [prev]) < fuel)%nat -> can_append s ci prev d i f1 ->
  exists s1 : @kstate (limited n),
    @chunkfs_create_continuation (limited n) fuel p pos (on_limited n s) = @create_continuation_after (limited n) pos prev s1 /\
    @k_fs (limited n) s1 = (k_fs s, O) /\ k_oom s1 = [] /\ wf_file (left_by s1) p (L ++ [prev]) size /\
    can_append (left_by s1) ci prev d i f1.
Proof.
  intros Ho Hwf Hf Hca.
  destruct (last_part (H := limited n) (on_limited n s) p _ fuel Ho (file_parts_limited n _ _ _ (proj1 Hwf)) Hf)
    as (s1 & Hlast & Hh). rewrite last_snoc in Hlast. exists s1.
  pose proof (hd_fs (H := limited n) _ _ _ Hh) as Hfs. simpl in Hfs.
  assert (k_fs (left_by s1) = k_fs s) as Hfs1 by (simpl; by rewrite Hfs).
  assert (same_objects s (left_by s1)) as Hso by (by destruct Hh).
  split_and!; [| done | by rewrite (hd_oom (H := limited n) _ _ _ Hh) | |].
  - unfold chunkfs_create_continuation. by rewrite (bind_ok _ _ _ _ _ Hlast), (bind_ok _ _ s1 prev s1).
  - eapply wf_file_kept; [exact Hwf | exact Hso | rewrite Hfs1; done..].
  - destruct Hca. split; rewrite ?Hfs1, ?(sj_pool _ _ Hso); done.
Qed.

(** C15: appending is safe against a crash.  Let the disk take only the first
    [n] changes that [chunkfs_create_continuation] makes, for any [n].  Up to
    five changes, which create the client file and write the attributes of the
    new part, the file is the old one; from the sixth on, which is the link
    from the part before, it is the new one with a complete new part.  Nothing
    in between is ever on the disk, and the bytes of the parts stay. *)
Theorem append_crash_safe n s p L prev size fuel pos ci d i f1 :
  k_oom s = [] -> wf_file s p (L ++ [prev]) size -> (length (L ++ [prev]) < fuel)%nat ->
  can_append s ci prev d i f1 -> size + CONT_LEN < 2 ^ 63 ->
  let new := new_part ci prev d i in
  let s' := left_by (@chunkfs_create_continuation (limited n) fuel p pos (on_limited n s)).2 in
  (if decide (n < 6)%nat then wf_file s' p (L ++ [prev]) size
   else wf_file s' p (L ++ [with_next prev (co_uino new); new]) (size + CONT_LEN)) /\
  forall c k, c ∈ L ++ [prev] -> byte (k_fs s') (co_inode c) k = byte (k_fs s) (co_inode c) k.
Proof.
  intros Ho Hwf Hf Hca Hsz new s'.
  destruct (crash_walk n s p L prev size fuel pos ci d i f1 Ho Hwf Hf Hca) as (s1 & Hrun & Hfs & Ho1 & Hwf1 & Hca1).
  unfold s'. rewrite Hrun. by apply (crash_after n s1 (k_fs s) p L prev size pos ci d i f1).
Qed.

(** C16: what an append on a disk that refuses its later changes returns.  If
    the client file cannot be created, -EIO.  If an attribute of the new part
    is refused, the error is dropped and the part is loaded without having been
    written: [new_cont], which [load_continuation] did not set, is followed.
    If the link from the part before is refused, the call still reports success
    and returns the new part, although the file on the disk is the old one
    ([append_crash_safe] with [n = 5]): what is then written to the part is
    not in the file. *)
Theorem append_refused_result n s p L prev size fuel pos ci d i f1 :
  k_oom s = [] -> wf_file s p (L ++ [prev]) size -> (length (L ++ [prev]) < fuel)%nat ->
  can_append s ci prev d i f1 -> size + CONT_LEN < 2 ^ 63 -> 0 <= pos < 2 ^ 63 ->
  (exists e, getxattr f1 i "user.len" = inl e) ->
  (@chunkfs_create_continuation (limited n) fuel p pos (on_limited n s)).1 =
    if decide (n = O) then inl (Errno EIO)
    else if decide (n < 5)%nat then inl Undef
    else inr (mk_cfile d (pos - size), new_part ci prev d i, pos - size).
Proof.
  intros Ho Hwf Hf Hca Hsz Hpos Hlen.
  destruct (crash_walk n s p L prev size fuel pos ci d i f1 Ho Hwf Hf Hca) as (s1 & -> & Hfs & Ho1 & Hwf1 & Hca1).
  by apply (result_after n s1 (k_fs s) p L prev size pos ci d i f1).
Qed.
End crash.
