(* ===== verification/InodeProps.v ===== *)
(** * The size of a file

    [chunkfs_copy_up_inode] computes the size of a file from the inodes of
    its parts, which it reaches through the inode cache. *)

From S2P Require Import Prelude Monad Decimal Client Kernel KernelFacts Pool Uino Cont ContData Chain Append Inode.

Section sizes.
Context `{ClientFS}.

(** The inode of a part is in the cache, sound, and on the superblock of its
    chunk. *)
Record in_cache (f : fs) (pi : pool_info) (c : chunkfs_continuation) : Prop := {
  ic_cached : iget_locked f (co_inode c) = Some f;
  ic_good : is_bad_inode f (co_inode c) = false;
  ic_chunk : exists ci, chunkfs_find_chunk pi (co_chunk_id c) = Some ci /\ ci_sb ci = ci_sb_of (co_inode c);
  ic_data : has_cd f (co_inode c) (co_cd c);
  ic_size : 0 <= i_size f (co_inode c);
}.

Fixpoint total_size (f : fs) (L : list chunkfs_continuation) : Z :=
  match L with [] => 0 | c :: rest => i_size f (co_inode c) + total_size f rest end.

Lemma total_size_pos f pi L : Forall (in_cache f pi) L -> 0 <= total_size f L.
Proof. induction 1 as [|c L Hc _ IH]; simpl; [lia |]. pose proof (ic_size _ _ _ Hc). lia. Qed.

(** The state with one reference more on the inode [o]. *)
Definition holding (o : option cino) (s s' : kstate) : Prop :=
  exists m, s' = set_iref m s /\
    forall j, count m j = count (k_iref s) j + if decide (o = Some j) then 1 else 0.

Lemma holding_none s : holding None s s.
Proof.
  exists (k_iref s). split; [by destruct s |]. intros j. rewrite decide_False by done. lia.
Qed.

Lemma iput_holding i s s' : holding (Some i) s s' -> exists s2, iput i s' = (inr tt, s2) /\ holding None s s2.
Proof.
  intros (m & -> & Hm). eexists; split; [done |]. eexists; split; [done |].
  intros j. rewrite (decide_False (P := None = Some j)) by done. specialize (Hm j).
  destruct (decide (i = j)) as [<- | Hne].
  - cbn [k_iref set_iref]. rewrite count_insert_eq, Hm, decide_True by done. lia.
  - cbn [k_iref set_iref]. rewrite count_insert_ne, Hm, decide_False by naive_solver. lia.
Qed.

Lemma iget_holding i s s' :
  holding None s s' -> iget_locked (k_fs s) i = Some (k_fs s) ->
  exists s2, iget i s' = (inr (Some i), s2) /\ holding (Some i) s s2.
Proof.
  intros (m & -> & Hm) Hi. unfold iget. simpl. rewrite Hi. eexists; split; [done |].
  exists (<[i := count m i + 1]> m). split; [by destruct s |].
  intros j. specialize (Hm j). rewrite decide_False in Hm by done.
  destruct (decide (i = j)) as [<- | Hne].
  - rewrite count_insert_eq, Hm, decide_True by done. lia.
  - rewrite count_insert_ne, Hm, decide_False by naive_solver. lia.
Qed.

Lemma holding_fs o s s' : holding o s s' -> k_fs s' = k_fs s.
Proof. by intros (m & -> & _). Qed.

(** ** One step over the inodes *)

Lemma next_inode_head s i i0 pi c :
  ii_client_inode i0 = Some (co_inode c) -> i = i0 -> in_cache (k_fs s) pi c ->
  exists s', chunkfs_get_next_inode i None s = (inr (Some (co_inode c)), s') /\
        holding (Some (co_inode c)) s s'.
Proof.
  intros Hi -> [Hc Hg _ _ _]. unfold chunkfs_get_next_inode, get_client_inode. rewrite Hi.
  rewrite (bind_ok _ _ s (co_inode c) s) by done.
  destruct (iget_holding (co_inode c) s s (holding_none s) Hc) as (s' & Hrun & Hh).
  exists s'. split; [| done]. rewrite (bind_ok _ _ _ _ _ Hrun).
  unfold gets, mbind, stm_bind. by rewrite (holding_fs _ _ _ Hh), Hg.
Qed.

Lemma next_inode_end s s1 i pi c :
  holding (Some (co_inode c)) s s1 -> in_cache (k_fs s) pi c -> cd_next (co_cd c) = 0 ->
  exists s', chunkfs_get_next_inode i (Some (co_inode c)) s1 = (inr None, s') /\ holding None s s'.
Proof.
  intros Hh [_ _ _ Hcd _] Hn. unfold chunkfs_get_next_inode.
  destruct (iput_holding _ _ _ Hh) as (s2 & Hput & Hh2). exists s2. split; [| done].
  rewrite (bind_ok _ _ _ _ _ Hput). unfold get_cont_data_inode.
  rewrite (bind_ok _ _ s2 (co_cd c) s2); [by rewrite Hn |].
  apply get_cont_data_has. by rewrite (holding_fs _ _ _ Hh2).
Qed.

Lemma next_inode_more s s1 i pi c c' :
  holding (Some (co_inode c)) s s1 -> in_cache (k_fs s) pi c -> in_cache (k_fs s) pi c' ->
  k_pool s = Some pi -> cd_next (co_cd c) = co_uino c' -> part_fits c' ->
  exists s', chunkfs_get_next_inode i (Some (co_inode c)) s1 = (inr (Some (co_inode c')), s') /\
        holding (Some (co_inode c')) s s'.
Proof.
  intros Hh [_ _ _ Hcd _] [Hc' Hg' (ci & Hci & Hsb) _ _] Hp Hn (Hpos & Hfit & Hu).
  destruct (make_uino_unpack _ _ Hfit) as [Hu1 Hu2].
  unfold chunkfs_get_next_inode.
  destruct (iput_holding _ _ _ Hh) as (s2 & Hput & Hh2).
  rewrite (bind_ok _ _ _ _ _ Hput). unfold get_cont_data_inode.
  rewrite (bind_ok _ _ s2 (co_cd c) s2) by (apply get_cont_data_has; by rewrite (holding_fs _ _ _ Hh2)).
  cbv zeta. rewrite Hn, Hu.
  destruct (Z.eqb_spec (MAKE_UINO (co_chunk_id c') (ci_ino_of (co_inode c'))) 0) as [Hz |].
  { rewrite Hz in Hu1. change (UINO_TO_CHUNK_ID 0) with 0 in Hu1. lia. }
  rewrite Hu1, Hu2. destruct (iget_holding (co_inode c') s s2 Hh2 Hc') as (s' & Hrun & Hh').
  exists s'. split; [| done].
  rewrite (bind_ok _ _ s2 (Some pi) s2) by (unfold gets; destruct Hh2 as (m & -> & _); simpl; by rewrite Hp).
  rewrite (bind_ok _ _ s2 pi s2) by done. rewrite Hci, Hsb.
  rewrite <-(surjective_pairing (co_inode c')). rewrite (bind_ok _ _ _ _ _ Hrun).
  unfold gets, mbind, stm_bind. by rewrite (holding_fs _ _ _ Hh'), Hg'.
Qed.

(** ** The sum *)

Lemma sum_from s s1 i pi c L total fuel :
  k_pool s = Some pi -> holding (Some (co_inode c)) s s1 -> linked (c :: L) ->
  Forall part_fits (c :: L) -> Forall (in_cache (k_fs s) pi) (c :: L) ->
  0 <= total -> total + total_size (k_fs s) L < 2 ^ 63 -> (length L < fuel)%nat ->
  exists s', loop fuel NoFuel (sum_sizes_step i) (Some (co_inode c), total) s1 =
          (inr (total + total_size (k_fs s) L), s') /\ holding None s s'.
Proof.
  intros Hp. revert c s1 total fuel. induction L as [|c' L IH];
    intros c s1 total fuel Hh Hl Hf Hc H0 Ht Hfuel; (destruct fuel as [|fuel]; [simpl in Hfuel; lia |]).
  - apply Forall_cons in Hc as [Hc _].
    destruct (next_inode_end s s1 i pi c Hh Hc) as (s' & Hrun & Hh'); [by inversion Hl |].
    exists s'. split; [| done]. simpl total_size. rewrite Z.add_0_r. apply loop_done.
    unfold sum_sizes_step. by rewrite (bind_ok _ _ _ _ _ (try_ok _ _ _ _ Hrun)).
  - apply Forall_cons in Hc as [Hc HcL]. pose proof HcL as [Hc' _]%Forall_cons.
    apply Forall_cons in Hf as [_ HfL]. pose proof HfL as [Hf' _]%Forall_cons.
    inversion Hl as [| ? ? ? Hn Hpv Hid Hl']; subst.
    destruct (next_inode_more s s1 i pi c c' Hh Hc Hc' Hp Hn Hf') as (s2 & Hrun & Hh2).
    pose proof (ic_size _ _ _ Hc') as Hs'. apply Forall_cons in HcL as HcL'. destruct HcL' as [_ HcL'].
    pose proof (total_size_pos _ _ _ HcL') as Hpos. simpl in Ht.
    destruct (IH c' s2 (total + i_size (k_fs s) (co_inode c')) fuel) as (s3 & Hrun3 & Hh3);
      [done | done | done | done | lia | lia | simpl in Hfuel; lia |].
    exists s3. split; [| done]. rewrite (loop_next _ _ _ _ (Some (co_inode c'), total + i_size (k_fs s) (co_inode c')) _ s2).
    { rewrite Hrun3. simpl. do 2 f_equal. lia. }
    unfold sum_sizes_step. rewrite (bind_ok _ _ _ _ _ (try_ok _ _ _ _ Hrun)).
    unfold gets, mbind, stm_bind. rewrite (holding_fs _ _ _ Hh2), s64_small by lia. done.
Qed.

(** The parts of the file with the head inode [ip] are [L]. *)
Record sized (s : kstate) (ip : Z) (i : inode) (L : list chunkfs_continuation) : Prop := {
  sz_inode : k_inodes s !! ip = Some i;
  sz_head : exists c, hd_error L = Some c /\ ii_client_inode i = Some (co_inode c);
  sz_linked : linked L;
  sz_fits : Forall part_fits L;
  sz_cached : exists pi, k_pool s = Some pi /\ Forall (in_cache (k_fs s) pi) L;
  sz_bound : total_size (k_fs s) L < 2 ^ 63;
}.

Lemma copy_up_ok s ip i L client fuel :
  sized s ip i L -> (length L < fuel)%nat ->
  exists m, chunkfs_copy_up_inode fuel ip client s =
    (inr tt, set_inodes (<[ip := with_size (with_attr i (i_attr (k_fs s) client)) (total_size (k_fs s) L)]>
               (k_inodes s)) (set_iref m s)) /\
    forall j, count m j = count (k_iref s) j.
Proof.
  intros [Hi (c & Hhd & Hci) Hl Hf (pi & Hp & Hc) Hb] Hfuel.
  destruct L as [|c' L]; [done |]. injection Hhd as ->.
  unfold chunkfs_copy_up_inode.
  rewrite (bind_ok _ _ s i s) by (unfold get_inode; by rewrite Hi).
  set (i' := with_attr i (i_attr (k_fs s) client)).
  rewrite (bind_ok _ _ s i' s) by done.
  destruct fuel as [|fuel]; [simpl in Hfuel; lia |].
  pose proof Hc as [Hc1 HcL]%Forall_cons. pose proof (total_size_pos _ _ _ HcL) as Hpos.
  pose proof (ic_size _ _ _ Hc1) as Hs1. simpl in Hb.
  destruct (next_inode_head s i' i' pi c) as (s1 & Hrun & Hh); [done | done | done |].
  destruct (sum_from s s1 i' pi c L (i_size (k_fs s) (co_inode c)) fuel) as (s2 & Hrun2 & Hh2);
    [done | done | done | done | done | lia | lia | simpl in Hfuel; lia |].
  assert (loop (S fuel) NoFuel (sum_sizes_step i') (None, 0) s =
    (inr (total_size (k_fs s) (c :: L)), s2)) as Hloop.
  { rewrite (loop_next _ _ _ _ (Some (co_inode c), i_size (k_fs s) (co_inode c)) _ s1); [exact Hrun2 |].
    unfold sum_sizes_step. rewrite (bind_ok _ _ _ _ _ (try_ok _ _ _ _ Hrun)).
    unfold gets, mbind, stm_bind. rewrite (holding_fs _ _ _ Hh), s64_small by lia. done. }
  rewrite (bind_ok _ _ _ _ _ Hloop). destruct Hh2 as (m & -> & Hm). exists m. split; [done |].
  intros j. rewrite Hm, decide_False by done. lia.
Qed.

(** C27: the size of a file.  When the inodes of its parts are in the cache,
    [chunkfs_copy_up_inode] makes the size of the head inode the sum of the
    sizes of all the parts and copies the attributes of the inode it is given;
    every inode it takes a reference to it gives back, and enough fuel for the
    list is enough. *)
Theorem copy_up_inode_size s ip i L client fuel :
  sized s ip i L -> (length L < fuel)%nat ->
  exists s' m, chunkfs_copy_up_inode fuel ip client s = (inr tt, s') /\
    s' = set_inodes (<[ip := with_size (with_attr i (i_attr (k_fs s) client)) (total_size (k_fs s) L)]>
           (k_inodes s)) (set_iref m s) /\
    forall j, count m j = count (k_iref s) j.
Proof.
  intros Hs Hf. destruct (copy_up_ok s ip i L client fuel Hs Hf) as (m & Hrun & Hm). eauto.
Qed.
End sizes.
