(* ===== verification/FileProps.v ===== *)
(** * Reading and writing

    On a well-formed file, reading and writing at a position are those
    operations of the client file system on the part that holds the position,
    at the position relative to the start of the part. *)

From S2P Require Import Prelude Monad Decimal Client Kernel KernelFacts Pool Uino Cont ContData Chain Append Inode InodeProps File.

Section io.
Context `{ClientFS}.

(** The chunkfs file [fp] is open on the dentry [p], whose inode is [ip]; the
    file is well formed with the parts [L], the inodes of the parts are in the
    cache, the client lets each of them be opened, and nobody holds the lock on
    the list. *)
Record open_file (s : kstate) (fp p ip : Z) (hi : inode) (L : list chunkfs_continuation) (size : Z)
    : Prop := {
  of_file : exists fl, k_files s !! fp = Some fl /\ f_dentry fl = p;
  of_inode : exists de, k_dentries s !! p = Some de /\ de_inode de = Some ip;
  of_wf : wf_file s p L size;
  of_sized : sized s ip hi L;
  of_opens : Forall (fun c => dentry_open (k_fs s) (co_mnt c) (co_dentry c) = 0) L;
  of_unlocked : ip ∉ lk_inodes (k_locks s);
}.

(** The head inode after an operation on the part [c] that led to [f']. *)
Definition updated (hi : inode) (f' : fs) (c : chunkfs_continuation) (L : list chunkfs_continuation) : inode :=
  with_size (with_attr hi (i_attr f' (co_inode c))) (total_size f' L).

(** The state after the operation [f'] of the client on the part [c] of [L],
    where [before] parts come before it. *)
Record io_done (s : kstate) (f' : fs) (fp p ip pos : Z) (hi : inode) (L : list chunkfs_continuation)
    (before : list chunkfs_continuation) (c : chunkfs_continuation) (s' : kstate) : Prop := {
  id_fs : k_fs s' = f';
  id_oom : k_oom s' = k_oom s;
  id_opens : k_opens s' = k_opens s + 1;
  id_kmem : k_kmem s' = k_kmem s + Z.of_nat (length before);
  id_dref d : count (k_dref s') d = count (k_dref s) d + refs_to d before;
  id_iref i : count (k_iref s') i = count (k_iref s) i;
  id_file : k_files s' = <[fp := mk_file p pos]> (k_files s);
  id_inodes : k_inodes s' = <[ip := updated hi f' c L]> (k_inodes s);
  id_dentries : k_dentries s' = k_dentries s;
  id_pool : k_pool s' = k_pool s;
  id_locks : k_locks s' = k_locks s;
  id_icount : k_icount s' = k_icount s;
  id_root : k_root s' = k_root s;
}.

Lemma open_lock_free s fp p ip hi L size : open_file s fp p ip hi L size -> lock_free s p.
Proof. intros Hof. destruct (of_inode _ _ _ _ _ _ _ Hof) as (de & Hde & Hip). exists de, ip. by destruct Hof. Qed.

(** ** The parts before the one found *)

Lemma find_upto {A} (P : A -> bool) l c :
  List.find P l = Some c -> exists before, upto P l = before ++ [c] /\ P c = true /\ c ∈ l.
Proof.
  induction l as [|x l IH]; simpl; [done |]. destruct (P x) eqn:HP.
  - intros [= ->]. exists []. split_and!; [done | done | set_solver].
  - intros Hf. destruct (IH Hf) as (b & -> & Hc & Hin). exists (x :: b). split_and!; [done | done | set_solver].
Qed.

Lemma part_at s p L size pos c :
  wf_file s p L size -> 0 <= pos < 2 ^ 63 -> List.find (fun c => in_cont (co_cd c) pos) L = Some c ->
  pos < size /\ 0 <= cd_start (co_cd c) <= pos.
Proof.
  intros (_ & Hwf & _) Hpos Hf.
  pose proof (tiles_find 0 L size pos (wf_tiles _ _ Hwf) ltac:(lia) Hpos) as Ht. rewrite Hf in Ht. lia.
Qed.

(** ** Opening and closing *)

Lemma open_part s fp p ip hi L size pos fuel junk c before :
  open_file s fp p ip hi L size -> k_oom s = [] -> 0 <= pos < 2 ^ 63 -> (length L < fuel)%nat ->
  List.find (fun c => in_cont (co_cd c) pos) L = Some c ->
  upto (fun c => in_cont (co_cd c) pos) L = before ++ [c] ->
  exists s1, held (before ++ [c]) s s1 /\
    chunkfs_open_cont_file fuel junk fp pos s =
      (inr (mk_cfile (co_dentry c) (pos - cd_start (co_cd c)), c, pos - cd_start (co_cd c)),
       set_opens (k_opens s1 + 1) s1).
Proof.
  intros Hof Ho Hpos Hf Hfind Hup. pose proof (open_lock_free _ _ _ _ _ _ _ Hof) as Hfree.
  destruct Hof as [(fl & Hfl & Hp) _ Hwf _ Hop _].
  destruct (find_part s p L fuel junk pos Ho Hfree (proj1 Hwf) Hf) as (s1 & Hrun & Hh).
  cbv zeta in Hrun, Hh. rewrite Hfind in Hrun. rewrite Hup in Hh. exists s1. split; [done |].
  unfold chunkfs_open_cont_file.
  rewrite (bind_ok _ _ s fl s) by (unfold get_file; by rewrite Hfl). rewrite Hp, (bind_ok _ _ _ _ _ Hrun).
  destruct (find_upto _ _ _ Hfind) as (_ & _ & _ & Hin). rewrite Forall_forall in Hop.
  rewrite (bind_ok _ _ s1 (mk_cfile (co_dentry c) 0) (set_opens (k_opens s1 + 1) s1)).
  2: { unfold open_client. rewrite (hd_fs _ _ _ Hh), (Hop c Hin). done. }
  destruct (part_at _ _ _ _ _ _ Hwf Hpos Hfind) as [_ Hst].
  unfold chunkfs_copy_down_file. by rewrite s64_u64, s64_small by lia.
Qed.

Lemma close_part s fp p ip hi L fuel client c pos :
  (exists fl, k_files s !! fp = Some fl /\ f_dentry fl = p) ->
  (exists de, k_dentries s !! p = Some de /\ de_inode de = Some ip) ->
  sized s ip hi L -> (length L < fuel)%nat -> c ∈ L ->
  cf_dentry client = co_dentry c -> co_dentry c <> 0 -> d_inode (k_fs s) (co_dentry c) = Some (co_inode c) ->
  cf_pos client + cd_start (co_cd c) = pos -> 0 <= pos < 2 ^ 63 ->
  exists s', chunkfs_close_cont_file fuel fp client c s = (inr tt, s') /\
    k_fs s' = k_fs s /\ k_oom s' = k_oom s /\ k_opens s' = k_opens s /\ k_kmem s' = k_kmem s - 1 /\
    (forall d, count (k_dref s') d = count (k_dref s) d - refs_to d [c]) /\
    (forall i, count (k_iref s') i = count (k_iref s) i) /\
    k_files s' = <[fp := mk_file p pos]> (k_files s) /\
    k_inodes s' = <[ip := updated hi (k_fs s) c L]> (k_inodes s) /\
    k_dentries s' = k_dentries s /\ k_pool s' = k_pool s /\
    k_locks s' = k_locks s /\ k_icount s' = k_icount s /\ k_root s' = k_root s.
Proof.
  intros (fl & Hfl & Hp) (de & Hde & Hip) Hsz Hf Hin Hcd Hnz Hi Hpos Hb.
  set (s1 := set_files (<[fp := mk_file p pos]> (k_files s)) s).
  assert (sized s1 ip hi L) as Hsz1 by (destruct Hsz; by split).
  destruct (copy_up_ok s1 ip hi L (co_inode c) fuel Hsz1 Hf) as (m & Hrun & Hm).
  eexists. split; [| split_and!].
  - unfold chunkfs_close_cont_file, copy_up_file.
    erewrite bind_ok.
    2: { erewrite bind_ok; [| unfold get_file; by rewrite Hfl].
         unfold put_file, modify. rewrite Hpos, Hp, s64_u64, s64_small by lia. done. }
    fold s1. rewrite (bind_ok _ _ s1 ip s1).
    2: { unfold file_inode, inode_of_dentry, get_file, get_dentry, mbind, stm_bind.
         simpl. rewrite lookup_insert_eq. simpl. rewrite Hde. simpl. by rewrite Hip. }
    rewrite (bind_ok _ _ s1 (co_inode c) s1).
    2: { unfold dentry_inode. rewrite Hcd, (proj2 (Z.eqb_neq _ _) Hnz).
         unfold gets, mbind, stm_bind. simpl. by rewrite Hi. }
    rewrite (bind_ok _ _ _ _ _ Hrun). unfold chunkfs_put_continuation, dput, kfree, modify, mbind, stm_bind.
    rewrite (proj2 (Z.eqb_neq _ _) Hnz). done.
  - done.
  - done.
  - done.
  - done.
  - intros d. rewrite refs_to_one. simpl. case_decide.
    + subst. rewrite count_insert_eq. lia.
    + rewrite count_insert_ne by done. lia.
  - intros i. simpl. apply Hm.
  - done.
  - done.
  - done.
  - done.
  - done.
  - done.
  - done.
Qed.

(** ** What an operation of the client keeps *)

Lemma has_cd_io f f' i cd : io_keeps f f' -> has_cd f i cd -> has_cd f' i cd.
Proof.
  intros Hk [D1 D2 D3 D4]. unfold field_is in *. split; unfold field_is; by rewrite (io_xattr _ _ Hk).
Qed.

Lemma loaded_io f f' pi d id c : io_keeps f f' -> loaded f pi d id c -> loaded f' pi d id c.
Proof.
  intros Hk []. split; try done; [by rewrite (io_dentry _ _ Hk) | by eapply has_cd_io].
Qed.

Lemma chain_io f f' pi ino d id L : io_keeps f f' -> chain f pi ino d id L -> chain f' pi ino d id L.
Proof.
  intros Hk. induction 1 as [d id c Hl He | d id c m d' L Hl Hn1 Hn2 Hp Hc IH].
  - apply chain_end; [by eapply loaded_io | done].
  - eapply chain_next; [by eapply loaded_io | done | done | by rewrite (io_path _ _ Hk) | done].
Qed.

(** The operation of the client keeps the file as [close] needs it. *)
Lemma sized_io s ip hi L f' s1 :
  sized s ip hi L -> io_keeps (k_fs s) f' -> k_inodes s1 = k_inodes s -> k_pool s1 = k_pool s ->
  k_fs s1 = f' -> (forall c, c ∈ L -> 0 <= i_size f' (co_inode c)) -> total_size f' L < 2 ^ 63 ->
  sized s1 ip hi L.
Proof.
  intros [Hi Hhd Hl Hf (pi & Hp & Hc) Hb] Hk Hin Hpool Hfs Hsz Hb'.
  split; rewrite ?Hin, ?Hfs; try done. exists pi. split; [congruence |].
  rewrite Forall_forall in *. intros c HcL. destruct (Hc c HcL) as [C1 C2 C3 C4 C5]. split; auto.
  - by apply (io_cached _ _ Hk).
  - by rewrite (io_bad _ _ Hk).
  - by eapply has_cd_io.
Qed.

Lemma total_size_ext f f' L : (forall c, i_size f' (co_inode c) = i_size f (co_inode c)) -> total_size f' L = total_size f L.
Proof. intros He. induction L as [|c L IH]; simpl; [done |]. by rewrite He, IH. Qed.

Lemma total_size_nonneg f L : (forall c, c ∈ L -> 0 <= i_size f (co_inode c)) -> 0 <= total_size f L.
Proof.
  induction L as [|c L IH]; intros Hc; simpl; [lia |].
  specialize (IH ltac:(intros; apply Hc; set_solver)). specialize (Hc c ltac:(set_solver)). lia.
Qed.

(** The part found is one of the chain, behind its dentry. *)
Lemma part_dentry s p L size c : wf_file s p L size -> c ∈ L -> co_dentry c <> 0 /\ d_inode (k_fs s) (co_dentry c) = Some (co_inode c).
Proof.
  intros ((pi & hi & d & _ & _ & Hc) & _) Hin.
  by destruct (chain_inode _ _ _ _ _ _ _ Hc Hin) as (d' & Hd & -> & Hi).
Qed.

(** Closing after the operation of the client that led to [f']. *)
Lemma io_close s s1 fp p ip hi L size pos fuel c before f' :
  open_file s fp p ip hi L size -> 0 <= pos < 2 ^ 63 -> (length L < fuel)%nat -> c ∈ L ->
  held (before ++ [c]) s s1 -> io_keeps (k_fs s) f' ->
  (forall c, c ∈ L -> 0 <= i_size f' (co_inode c)) -> total_size f' L < 2 ^ 63 ->
  exists s', chunkfs_close_cont_file fuel fp (mk_cfile (co_dentry c) (pos - cd_start (co_cd c))) c
           (set_fs f' (set_opens (k_opens s1 + 1) s1)) = (inr tt, s') /\
    io_done s f' fp p ip pos hi L before c s'.
Proof.
  intros Hof Hpos Hf Hin Hh Hk Hsz Htot.
  destruct (part_dentry _ _ _ _ c (of_wf _ _ _ _ _ _ _ Hof) Hin) as [Hnz Hi].
  destruct (close_part (set_fs f' (set_opens (k_opens s1 + 1) s1)) fp p ip hi L fuel
    (mk_cfile (co_dentry c) (pos - cd_start (co_cd c))) c pos) as (s' & Hrun & R1 & R0 & R2 & R3 & R4 & R5 & R6 & R7 & R8 & R9 & R10 & R11 & R12);
    simpl; try done; try lia.
  - rewrite (hd_files _ _ _ Hh). apply Hof.
  - rewrite (hd_dentries _ _ _ Hh). apply Hof.
  - eapply sized_io; [apply Hof | exact Hk | | | done | done | done]; simpl; apply Hh.
  - by rewrite (io_dentry _ _ Hk).
  - exists s'. split; [exact Hrun |]. simpl in *. split; rewrite ?R1, ?R0, ?R2, ?R3, ?R6, ?R7, ?R8, ?R9, ?R10, ?R11, ?R12; try done.
    + by rewrite (hd_oom _ _ _ Hh).
    + by rewrite (hd_opens _ _ _ Hh).
    + rewrite (hd_kmem _ _ _ Hh), length_app. simpl. lia.
    + intros d. rewrite R4, (hd_dref _ _ _ Hh), refs_to_app. lia.
    + intros i. by rewrite R5, (hd_iref _ _ _ Hh).
    + by rewrite (hd_files _ _ _ Hh).
    + by rewrite (hd_inodes _ _ _ Hh).
    + apply Hh.
    + apply Hh.
    + apply Hh.
    + apply Hh.
    + apply Hh.
Qed.

(** The file is still open and well formed when the structures are as
    [close] leaves them. *)
Lemma open_file_after s s' f' fp p ip pos hi L size c :
  open_file s fp p ip hi L size -> io_keeps (k_fs s) f' ->
  (forall c, c ∈ L -> 0 <= i_size f' (co_inode c)) -> total_size f' L < 2 ^ 63 ->
  k_fs s' = f' -> k_files s' = <[fp := mk_file p pos]> (k_files s) ->
  k_inodes s' = <[ip := updated hi f' c L]> (k_inodes s) ->
  k_dentries s' = k_dentries s -> k_pool s' = k_pool s -> k_locks s' = k_locks s ->
  open_file s' fp p ip (updated hi f' c L) L size.
Proof.
  intros [Hfile (de & Hde & Hip) (Hparts & Hwf & hi0 & dh & c0 & Hh & Hhd & Hino) Hsz Hop Hlk] Hk Hpos Htot
    Efs Efile Einodes Edentries Epool Elocks.
  assert (forall h d, head_of s p h d -> h = hi /\ head_of s' p (updated hi f' c L) d) as Hhead.
  { intros h d (de' & ip' & dp & H1 & H2 & H3 & H4 & H5).
    assert (de' = de /\ ip' = ip) as [-> ->] by (rewrite Hde in H1; injection H1 as <-; split; congruence).
    pose proof (sz_inode _ _ _ _ Hsz) as Hi. split; [congruence |].
    exists de, ip, dp. rewrite Edentries, Einodes, lookup_insert_eq. done. }
  destruct (Hhead _ _ Hh) as [-> Hh'].
  assert (sized (set_inodes (k_inodes s) s') ip hi L) as Hsz1.
  { eapply sized_io; [exact Hsz | exact Hk | done | done | done | done | done]. }
  split.
  - exists (mk_file p pos). by rewrite Efile, lookup_insert_eq.
  - exists de. by rewrite Edentries.
  - split_and!; [| done | exists (updated hi f' c L), dh, c0; done].
    destruct Hparts as (pi & h & d & Hp & Hh1 & Hc). destruct (Hhead _ _ Hh1) as [-> Hh1'].
    exists pi, (updated hi f' c L), d. rewrite Epool, Efs. split_and!; [done | done |]. by eapply chain_io.
  - destruct Hsz1 as [_ Z2 Z3 Z4 Z5 Z6]. split; try done.
    by rewrite Einodes, lookup_insert_eq.
  - rewrite Efs. eapply Forall_impl; [exact Hop |]. intros x Hx. by rewrite (io_open _ _ Hk).
  - by rewrite Elocks.
Qed.

Lemma io_done_open s f' fp p ip pos hi L size before c s' :
  open_file s fp p ip hi L size -> io_keeps (k_fs s) f' ->
  (forall c, c ∈ L -> 0 <= i_size f' (co_inode c)) -> total_size f' L < 2 ^ 63 ->
  io_done s f' fp p ip pos hi L before c s' -> open_file s' fp p ip (updated hi f' c L) L size.
Proof. intros Hof Hk Hpos Htot []. by eapply open_file_after. Qed.

Context `{Hio : !ClientIoLaws}.

(** What [read] makes of the return value of the client. *)
Definition read_result (ret : Z) : Z := if s32 ret =? - ENODATA then 0 else s32 ret.

Lemma read_run s fp p ip hi L size fuel junk len pos :
  open_file s fp p ip hi L size -> k_oom s = [] -> 0 <= pos < 2 ^ 63 -> (length L < fuel)%nat ->
  match List.find (fun c => in_cont (co_cd c) pos) L with
  | None =>
      size <= pos /\
      exists s', chunkfs_read fuel junk fp len pos s = (inr (0, pos, []), s') /\ held L s s'
  | Some c =>
      pos < size /\ cd_start (co_cd c) <= pos < cd_start (co_cd c) + cd_len (co_cd c) /\
      forall ret cpos data f',
        file_read (k_fs s) (co_dentry c) len (pos - cd_start (co_cd c)) = (ret, cpos, data, f') ->
        exists before s', chunkfs_read fuel junk fp len pos s = (inr (read_result ret, cpos, data), s') /\
          upto (fun c => in_cont (co_cd c) pos) L = before ++ [c] /\
          io_done s f' fp p ip pos hi L before c s' /\
          open_file s' fp p ip (updated hi f' c L) L size
  end.
Proof.
  intros Hof Ho Hpos Hf. pose proof (of_wf _ _ _ _ _ _ _ Hof) as Hwf.
  pose proof (tiles_find 0 L size pos (wf_tiles _ _ (proj1 (proj2 Hwf))) ltac:(lia) Hpos) as Ht.
  destruct (List.find _ L) as [c|] eqn:Hfind.
  - split_and!; [lia.. |]. intros ret cpos data f' Hrd.
    destruct (find_upto _ _ _ Hfind) as (before & Hup & _ & Hin).
    destruct (open_part s fp p ip hi L size pos fuel junk c before) as (s1 & Hh & Hrun); [done.. |].
    pose proof (of_sized _ _ _ _ _ _ _ Hof) as Hsz.
    assert (total_size f' L = total_size (k_fs s) L) as Htot.
    { apply total_size_ext. intros x. by eapply read_size. }
    destruct (io_close s s1 fp p ip hi L size pos fuel c before f') as (s' & Hclose & Hdone); try done.
    { by eapply read_keeps. }
    { intros x Hx. rewrite (read_size _ _ _ _ _ _ _ Hrd).
      destruct (sz_cached _ _ _ _ Hsz) as (pi & _ & Hc). rewrite Forall_forall in Hc. by destruct (Hc x Hx). }
    { rewrite Htot. apply Hsz. }
    exists before, s'. split_and!; [| done | done |].
    2: { eapply io_done_open; [exact Hof | by eapply read_keeps | | rewrite Htot; apply Hsz | exact Hdone].
         intros x Hx. rewrite (read_size _ _ _ _ _ _ _ Hrd).
         destruct (sz_cached _ _ _ _ Hsz) as (pi & _ & Hc). rewrite Forall_forall in Hc. by destruct (Hc x Hx). }
    unfold chunkfs_read.
    rewrite (bind_ok _ _ _ _ _ (try_ok _ _ _ _ Hrun)).
    rewrite (bind_ok _ _ _ (ret, cpos, data) (set_fs f' (set_opens (k_opens s1 + 1) s1))).
    2: { unfold client_read, client_call. cbn [k_fs set_opens cf_dentry]. by rewrite (hd_fs _ _ _ Hh), Hrd. }
    by rewrite (bind_ok _ _ _ _ _ Hclose).
  - split; [lia |]. destruct (find_part s p L fuel junk pos Ho (open_lock_free _ _ _ _ _ _ _ Hof) (proj1 Hwf) Hf) as (s' & Hrun & Hh).
    cbv zeta in Hrun, Hh. rewrite Hfind in Hrun. exists s'.
    split; [| by rewrite (upto_none _ _ Hfind) in Hh].
    destruct (of_file _ _ _ _ _ _ _ Hof) as (fl & Hfl & Hp). unfold chunkfs_read, chunkfs_open_cont_file.
    rewrite (bind_ok _ _ _ (inl ENOENT) s'); [done |]. apply try_errno.
    rewrite (bind_ok _ _ s fl s) by (unfold get_file; by rewrite Hfl). subst p.
    by rewrite (bind_stop _ _ _ _ _ Hrun).
Qed.

(** C19: reading.  Past the capacity of the file nothing is read and the
    result is 0.  Otherwise the part that holds the position is read at the
    position less the start of the part, and the result and the data are the
    client's; the position left for the caller is the client's too, relative to
    the part.  The client file is opened and not closed; the parts before the
    one read stay allocated and referenced; the references to inodes balance;
    the size of the inode is the sum of the sizes of the parts; the file is
    left open and well formed. *)
Theorem chunkfs_read_spec s fp p ip hi L size fuel junk len pos :
  open_file s fp p ip hi L size -> k_oom s = [] -> 0 <= pos < 2 ^ 63 -> (length L < fuel)%nat ->
  match List.find (fun c => in_cont (co_cd c) pos) L with
  | None =>
      size <= pos /\
      exists s', chunkfs_read fuel junk fp len pos s = (inr (0, pos, []), s') /\ held L s s'
  | Some c =>
      pos < size /\ cd_start (co_cd c) <= pos < cd_start (co_cd c) + cd_len (co_cd c) /\
      forall ret cpos data f',
        file_read (k_fs s) (co_dentry c) len (pos - cd_start (co_cd c)) = (ret, cpos, data, f') ->
        exists before s', chunkfs_read fuel junk fp len pos s = (inr (read_result ret, cpos, data), s') /\
          upto (fun c => in_cont (co_cd c) pos) L = before ++ [c] /\
          io_done s f' fp p ip pos hi L before c s' /\
          open_file s' fp p ip (updated hi f' c L) L size
  end.
Proof. apply read_run. Qed.

Lemma write_run s fp p ip hi L size fuel junk data pos c ret cpos f' :
  open_file s fp p ip hi L size -> k_oom s = [] -> 0 <= pos < 2 ^ 63 -> (length L < fuel)%nat ->
  List.find (fun c => in_cont (co_cd c) pos) L = Some c ->
  file_write (k_fs s) (co_dentry c) data (pos - cd_start (co_cd c)) = (ret, cpos, f') ->
  total_size f' L < 2 ^ 63 ->
  exists before s', chunkfs_write fuel junk fp data pos s = (inr (ret, cpos), s') /\
    upto (fun c => in_cont (co_cd c) pos) L = before ++ [c] /\
    io_done s f' fp p ip pos hi L before c s' /\
    open_file s' fp p ip (updated hi f' c L) L size /\
    total_size f' L = total_size (k_fs s) L + i_size f' (co_inode c) - i_size (k_fs s) (co_inode c).
Proof.
  intros Hof Ho Hpos Hf Hfind Hwr Htot. pose proof (of_wf _ _ _ _ _ _ _ Hof) as Hwf.
  destruct (find_upto _ _ _ Hfind) as (before & Hup & _ & Hin).
  destruct (open_part s fp p ip hi L size pos fuel junk c before) as (s1 & Hh & Hrun); [done.. |].
  pose proof (of_sized _ _ _ _ _ _ _ Hof) as Hsz.
  destruct (sz_cached _ _ _ _ Hsz) as (pi & _ & Hc). rewrite Forall_forall in Hc.
  destruct (io_close s s1 fp p ip hi L size pos fuel c before f') as (s' & Hclose & Hdone); try done.
  { by eapply write_keeps. }
  { intros x Hx. eapply write_size; [exact Hwr |]. by destruct (Hc x Hx). }
  exists before, s'. split_and!; [| done | done | |].
  2: { eapply io_done_open; [exact Hof | by eapply write_keeps | | done | exact Hdone].
       intros x Hx. eapply write_size; [exact Hwr |]. by destruct (Hc x Hx). }
  - unfold chunkfs_write. rewrite (bind_ok _ _ _ _ _ (try_ok _ _ _ _ Hrun)).
    rewrite (bind_ok _ _ _ (mk_cfile (co_dentry c) (pos - cd_start (co_cd c)), c,
      pos - cd_start (co_cd c)) (set_opens (k_opens s1 + 1) s1)) by done.
    rewrite (bind_ok _ _ _ (ret, cpos) (set_fs f' (set_opens (k_opens s1 + 1) s1))).
    2: { unfold client_write, client_call. cbn [k_fs set_opens cf_dentry]. by rewrite (hd_fs _ _ _ Hh), Hwr. }
    by rewrite (bind_ok _ _ _ _ _ Hclose).
  - destruct (part_dentry _ _ _ _ c Hwf Hin) as [_ Hi].
    pose proof (wf_distinct _ _ (proj1 (proj2 Hwf))) as Hnd. clear Hf Hof Hwf Hfind Hup Hrun Hh Hclose Hdone Htot Hsz Hc.
    induction L as [|x L IH]; simpl in *; [set_solver |].
    apply NoDup_cons in Hnd as [Hx Hnd]. apply elem_of_cons in Hin as [-> | Hin].
    + assert (total_size f' L = total_size (k_fs s) L) as ->; [| lia].
      clear IH Hnd. induction L as [|y L IH]; simpl in *; [done |].
      rewrite IH by set_solver. f_equal. eapply write_other_size; [exact Hwr |]. rewrite Hi.
      intros [= He]. apply Hx. rewrite He. set_solver.
    + rewrite IH by done. enough (i_size f' (co_inode x) = i_size (k_fs s) (co_inode x)) by lia.
      eapply write_other_size; [exact Hwr |]. rewrite Hi. intros [= He]. apply Hx.
      rewrite <-He. apply list_elem_of_fmap. eauto.
Qed.

(** C20: writing within the capacity.  The part that holds the position is
    written at the position less the start of the part, and the result is the
    client's; the data is not clipped to the part.  As for reading the
    position left is relative to the part and the client file is never closed,
    and the size of the inode is the new sum of the sizes of the parts; the
    file is left open and well formed. *)
Theorem chunkfs_write_spec s fp p ip hi L size fuel junk data pos c ret cpos f' :
  open_file s fp p ip hi L size -> k_oom s = [] -> 0 <= pos < 2 ^ 63 -> (length L < fuel)%nat ->
  List.find (fun c => in_cont (co_cd c) pos) L = Some c ->
  file_write (k_fs s) (co_dentry c) data (pos - cd_start (co_cd c)) = (ret, cpos, f') ->
  total_size f' L < 2 ^ 63 ->
  exists before s', chunkfs_write fuel junk fp data pos s = (inr (ret, cpos), s') /\
    upto (fun c => in_cont (co_cd c) pos) L = before ++ [c] /\
    io_done s f' fp p ip pos hi L before c s' /\
    open_file s' fp p ip (updated hi f' c L) L size /\
    total_size f' L = total_size (k_fs s) L + i_size f' (co_inode c) - i_size (k_fs s) (co_inode c).
Proof. apply write_run. Qed.

(** ** fsync *)

(** The client file systems after syncing the parts in order. *)
Definition sync_all (f : fs) (start stop_ : Z) (datasync : bool) (L : list chunkfs_continuation) : fs :=
  fold_left (fun f c => (file_fsync f (co_dentry c) start stop_ datasync).2) L f.

(** One part is found and synced. *)
Lemma fsync_found s s1 p v c start stop_ datasync :
  chunkfs_get_next_cont p v s = (inr (Some c), s1) -> held [c] s s1 ->
  let f' := (file_fsync (k_fs s) (co_dentry c) start stop_ datasync).2 in
  fsync_step p start stop_ datasync v s = (inr (inl (Some c)), set_fs f' s1) /\ io_keeps (k_fs s) f'.
Proof.
  intros Hrun Hh f'. split.
  - unfold fsync_step. rewrite (bind_ok _ _ _ _ _ (try_ok _ _ _ _ Hrun)).
    unfold client_call, mbind, stm_bind. rewrite (hd_fs _ _ _ Hh). unfold f'.
    by destruct (file_fsync _ _ _ _ _).
  - unfold f'. destruct (file_fsync _ _ _ _ _) as [e f1] eqn:Hs. by eapply fsync_keeps.
Qed.

Lemma held_set_fs L s s' f g : held L (set_fs f s) s' -> k_fs s = g -> held L s (set_fs g s').
Proof. intros [] <-. by split. Qed.

Lemma fsync_from s p hi dh pi start stop_ datasync c L d id fuel :
  k_oom s = [] -> k_pool s = Some pi -> head_of s p hi dh ->
  chain (k_fs s) pi (i_ino hi) d id (c :: L) -> (length L < fuel)%nat ->
  exists s2, loop fuel NoFuel (fsync_step p start stop_ datasync) (Some c) s =
          (inr 0, set_fs (sync_all (k_fs s) start stop_ datasync L) s2) /\ held L s s2.
Proof.
  revert c d id s fuel. induction L as [|c' L IH]; intros c d id s fuel Ho Hp Hh Hc Hf;
    (destruct fuel as [|fuel]; [simpl in Hf; lia |]).
  - exists s. split; [| apply held_nil]. replace (set_fs _ s) with s by by destruct s.
    apply loop_done. unfold fsync_step. rewrite (bind_ok _ _ s (inr None) s); [done |].
    apply try_ok. eapply get_end_ok; [done |].
    inversion Hc as [? ? ? ? He | ? ? ? ? ? ? ? ? ? ? Hn]; [done | inversion Hn].
  - inversion Hc as [| ? ? ? m d' ? Hl Hn1 Hn2 Hk Hn]; subst.
    assert (loaded (k_fs s) pi d' (UINO_TO_CHUNK_ID (cd_next (co_cd c))) c') as Hl' by by inversion Hn.
    destruct (get_next_ok s p hi dh pi c m d' c') as (s1 & Hrun & Hheld); [done.. |].
    destruct (fsync_found _ _ _ _ _ start stop_ datasync Hrun Hheld) as [Hstep Hkeep].
    cbv zeta in Hstep, Hkeep. set (f' := (file_fsync _ _ _ _ _).2) in *.
    destruct (IH c' d' (UINO_TO_CHUNK_ID (cd_next (co_cd c))) (set_fs f' s1) fuel) as (s2 & Hrun2 & Hheld2).
    + simpl. by rewrite (hd_oom _ _ _ Hheld).
    + simpl. by rewrite (hd_pool _ _ _ Hheld).
    + by pose proof (head_of_held _ _ _ _ _ _ Hheld Hh).
    + by eapply chain_io.
    + simpl in Hf. lia.
    + exists (set_fs (k_fs s1) s2). split.
      * rewrite (loop_next _ _ _ _ _ _ _ Hstep). exact Hrun2.
      * apply (held_app [c'] _ s s1); [done |]. by apply held_set_fs with f'.
Qed.

(** The whole walk, under the lock. *)
Lemma fsync_whole s p hi d pi start stop_ datasync L fuel :
  k_oom s = [] -> k_pool s = Some pi -> head_of s p hi d ->
  chain (k_fs s) pi (i_ino hi) d (UINO_TO_CHUNK_ID (i_ino hi)) L -> (length L < fuel)%nat ->
  exists s2, loop fuel NoFuel (fsync_step p start stop_ datasync) None s =
    (inr 0, set_fs (sync_all (k_fs s) start stop_ datasync L) s2) /\ held L s s2.
Proof.
  intros Ho Hp Hh Hc Hf.
  destruct L as [|c L]; [inversion Hc |]. destruct fuel as [|fuel]; [lia |].
  assert (loaded (k_fs s) pi d (UINO_TO_CHUNK_ID (i_ino hi)) c) as Hl by by inversion Hc.
  destruct (get_head_ok s p hi d pi c) as (s1 & Hrun & Hheld); [done.. |].
  destruct (fsync_found _ _ _ _ _ start stop_ datasync Hrun Hheld) as [Hstep Hkeep].
  cbv zeta in Hstep, Hkeep. set (f' := (file_fsync _ _ _ _ _).2) in *.
  destruct (fsync_from (set_fs f' s1) p hi d pi start stop_ datasync c L d (UINO_TO_CHUNK_ID (i_ino hi)) fuel)
    as (s2 & Hrun2 & Hheld2).
  - simpl. by rewrite (hd_oom _ _ _ Hheld).
  - simpl. by rewrite (hd_pool _ _ _ Hheld).
  - by pose proof (head_of_held _ _ _ _ _ _ Hheld Hh).
  - by eapply chain_io.
  - simpl in Hf. lia.
  - exists (set_fs (k_fs s1) s2). split.
    + rewrite (loop_next _ _ _ _ _ _ _ Hstep). exact Hrun2.
    + apply (held_app [c] _ s s1); [done |]. by apply held_set_fs with f'.
Qed.

(** C31: fsync.  Every part of the file is synced, in order, and the result is
    0: an error of a part is forgotten, even when every part fails.  A
    structure and a reference for each part are never given back. *)
Theorem fsync_loses_errors s fp fl p L fuel start stop_ datasync :
  k_files s !! fp = Some fl -> f_dentry fl = p -> k_oom s = [] -> lock_free s p -> file_parts s p L ->
  (length L < fuel)%nat ->
  exists s2, chunkfs_fsync_file fuel fp start stop_ datasync s =
    (inr 0, set_fs (sync_all (k_fs s) start stop_ datasync L) s2) /\ held L s s2.
Proof.
  intros Hfl Hfp Ho Hfree (pi & hi & d & Hp & Hh & Hc) Hf. unfold chunkfs_fsync_file.
  rewrite (bind_ok _ _ s fl s) by (unfold get_file; by rewrite Hfl). rewrite Hfp.
  destruct (list_locked s p Hfree) as (ip & l & Hip & Hlock & Hunlock).
  destruct (fsync_whole (set_locks l s) p hi d pi start stop_ datasync L fuel Ho Hp Hh Hc Hf) as (s2 & Hrun & Hheld).
  exists (set_locks (k_locks s) s2). split; [| by eapply held_locked].
  rewrite (bind_ok _ _ _ _ _ Hip), (bind_ok _ _ _ _ _ Hlock), (bind_ok _ _ _ _ _ Hrun).
  rewrite (bind_ok _ _ _ _ _ (Hunlock (set_fs _ s2) (held_to_locked _ _ _ _ Hheld))). done.
Qed.
End io.
