(* ===== verification/Grow.v ===== *)
(** * Writing past the end of a file

    A write at a position behind the capacity of a file appends a part and
    writes to it. *)

From S2P Require Import Prelude Monad Decimal Client Kernel KernelFacts Pool Uino Cont ContData Chain Append Inode InodeProps File FileProps.

Lemma total_size_app `{ClientFS} f L1 L2 : total_size f (L1 ++ L2) = total_size f L1 + total_size f L2.
Proof. induction L1 as [|c L1 IH]; simpl; lia. Qed.

Section grow.
Context `{ClientFS} `{!ClientLaws} `{!ClientCreateLaws} `{!ClientXattrs} `{!ClientCacheLaws} `{!ClientIoLaws}.

(** The inodes of the old parts stay in the cache, with their sizes. *)
Lemma grow_old f f1 f2 f3 path r d i j c :
  open_create f path = (r, f1) -> d_inode f d = Some (co_inode c) ->
  xattrs_of i f1 f2 -> xattrs_of j f2 f3 ->
  (iget_locked f (co_inode c) = Some f -> iget_locked f3 (co_inode c) = Some f3) /\
  is_bad_inode f3 (co_inode c) = is_bad_inode f (co_inode c) /\
  i_size f3 (co_inode c) = i_size f (co_inode c) /\
  forall m, dentry_open f3 m d = dentry_open f m d.
Proof.
  intros Hcr Hd Hx1 Hx2. destruct (create_keeps_cached _ _ _ _ _ _ Hcr Hd) as (C1 & C2 & C3 & C4).
  split_and!.
  - intros Hc. apply (xo_cached _ _ _ Hx2), (xo_cached _ _ _ Hx1), C1, Hc.
  - by rewrite (xo_bad _ _ _ Hx2), (xo_bad _ _ _ Hx1).
  - by rewrite (xo_size _ _ _ Hx2), (xo_size _ _ _ Hx1).
  - intros m. by rewrite (xo_open _ _ _ Hx2), (xo_open _ _ _ Hx1).
Qed.

(** A new part that is empty adds nothing to the size. *)
Lemma grow_total f f3 L prev u new :
  (forall c, c ∈ L ++ [prev] -> i_size f3 (co_inode c) = i_size f (co_inode c)) ->
  i_size f3 (co_inode new) = 0 ->
  total_size f3 (L ++ [with_next prev u; new]) = total_size f (L ++ [prev]).
Proof.
  intros Hold Hnew. rewrite !total_size_app. simpl. rewrite Hnew, (Hold prev) by set_solver.
  enough (total_size f3 L = total_size f L) by lia.
  assert (forall c, c ∈ L -> i_size f3 (co_inode c) = i_size f (co_inode c)) as He
    by (intros c Hin; apply Hold; set_solver).
  clear -He. induction L as [|x L IH]; simpl; [done |]. rewrite (He x), IH; [done | | ]; set_solver.
Qed.

(** A part of the longer list is an old one, but for its data, or the new
    one. *)
Lemma grow_cases L prev u new c :
  c ∈ L ++ [with_next prev u; new] ->
  (exists c0, c0 ∈ L ++ [prev] /\ co_inode c = co_inode c0 /\ co_dentry c = co_dentry c0 /\
     co_mnt c = co_mnt c0 /\ co_chunk_id c = co_chunk_id c0) \/ c = new.
Proof.
  rewrite !elem_of_app, !elem_of_cons.
  intros [Hin | [-> | [-> | Hin]]]; [left; exists c; set_solver | | by right | by apply not_elem_of_nil in Hin].
  left. exists prev. split; [set_solver | done].
Qed.

(** The file after the part was appended is open, when the new inode is on the
    superblock of its chunk. *)
Lemma grow_open s s' fp p ip hi L prev size ci d i f1 f2 f3 :
  open_file s fp p ip hi (L ++ [prev]) size -> can_append s ci prev d i f1 -> ci_sb ci = ci_sb_of i ->
  let new := new_part ci prev d i in
  let L2 := L ++ [with_next prev (co_uino new); new] in
  xattrs_of i f1 f2 -> xattrs_of (co_inode prev) f2 f3 ->
  wf_file s' p L2 (size + CONT_LEN) -> appended s s' f3 (L ++ [prev]) d ->
  open_file s' fp p ip hi L2 (size + CONT_LEN) /\
  total_size f3 L2 = total_size (k_fs s) (L ++ [prev]).
Proof.
  intros [Hfile Hinode Hwf Hsz Hop Hlk] [(pi & Hp & Hci) Hfit [e Hfree] Hcr Hi] Hsb new L2 Hx1 Hx2 Hwf' Hap.
  pose proof (create_new_cached _ _ _ _ _ Hcr Hi) as (N1 & N2 & N3).
  pose proof (create_new_size _ _ _ _ _ _ Hcr Hfree Hi) as N4.
  pose proof (fun c Hin => part_dentry _ _ _ _ c Hwf Hin) as Hdent.
  assert (forall c, c ∈ L ++ [prev] -> _) as Hold
    by (intros c Hin; exact (grow_old _ _ _ _ _ _ _ _ _ c Hcr (proj2 (Hdent c Hin)) Hx1 Hx2)).
  destruct (sz_cached _ _ _ _ Hsz) as (pi' & Hp' & Hc). assert (pi' = pi) as -> by congruence.
  rewrite Forall_forall in Hc, Hop.
  assert (forall c, c ∈ L2 -> has_cd f3 (co_inode c) (co_cd c)) as Hdata.
  { intros c Hin. destruct Hwf' as ((pi2 & hi2 & d2 & _ & _ & Hch) & _).
    rewrite (ap_fs _ _ _ _ _ Hap) in Hch. by eapply chain_data. }
  assert (total_size f3 L2 = total_size (k_fs s) (L ++ [prev])) as Htot.
  { apply grow_total; [intros c Hin; apply (Hold c Hin) |].
    simpl. by rewrite (xo_size _ _ _ Hx2), (xo_size _ _ _ Hx1). }
  split; [| exact Htot]. split.
  - by rewrite (ap_files _ _ _ _ _ Hap).
  - by rewrite (ap_dentries _ _ _ _ _ Hap).
  - exact Hwf'.
  - destruct Hsz as [Z1 (c0 & Z2 & Z2') Z3 Z4 Z5 Z6].
    split; rewrite ?(ap_inodes _ _ _ _ _ Hap), ?(ap_fs _ _ _ _ _ Hap), ?(ap_pool _ _ _ _ _ Hap); try done.
    + unfold L2. destruct L as [|x L]; simpl in *; [| by exists c0].
      exists (with_next prev (co_uino new)). split; [done |]. by injection Z2 as <-.
    + apply Hwf'.
    + apply Hwf'.
    + exists pi. split; [done |]. apply Forall_forall. intros c Hin.
      destruct (grow_cases _ _ _ _ _ Hin) as [(c1 & Hin1 & E1 & _ & _ & E4) | ->].
      * destruct (Hold c1 Hin1) as (O1 & O2 & O3 & _), (Hc c1 Hin1) as [C1 C2 C3 _ C5].
        split; [rewrite E1; auto | by rewrite E1, O2 | by rewrite E1, E4 | by apply Hdata | by rewrite E1, O3].
      * split; simpl.
        -- apply (xo_cached _ _ _ Hx2), (xo_cached _ _ _ Hx1), N1.
        -- by rewrite (xo_bad _ _ _ Hx2), (xo_bad _ _ _ Hx1).
        -- by exists ci.
        -- by apply (Hdata new).
        -- rewrite (xo_size _ _ _ Hx2), (xo_size _ _ _ Hx1), N4. done.
    + by rewrite Htot.
  - rewrite (ap_fs _ _ _ _ _ Hap). apply Forall_forall. intros c Hin.
    destruct (grow_cases _ _ _ _ _ Hin) as [(c1 & Hin1 & _ & E2 & E3 & _) | ->].
    + rewrite E2, E3. destruct (Hold c1 Hin1) as (_ & _ & _ & O4). rewrite O4. by apply Hop.
    + simpl. by rewrite (xo_open _ _ _ Hx2), (xo_open _ _ _ Hx1).
  - by rewrite (ap_locks _ _ _ _ _ Hap).
Qed.

Lemma open_file_held L0 s s' fp p ip hi L size :
  held L0 s s' -> open_file s fp p ip hi L size -> open_file s' fp p ip hi L size.
Proof.
  intros Hh [Hfile Hinode (Hparts & Hwf & hi0 & dh & c0 & Hhd & Hrest) [Z1 Z2 Z3 Z4 Z5 Z6] Hop Hlk].
  pose proof (file_parts_held _ _ _ _ _ Hh Hparts) as Hparts'.
  pose proof (head_of_held _ _ _ _ _ _ Hh Hhd) as Hhd'.
  split; rewrite ?(hd_files _ _ _ Hh), ?(hd_dentries _ _ _ Hh), ?(hd_fs _ _ _ Hh), ?(hd_locks _ _ _ Hh); try done.
  - split; [exact Hparts' | split; [exact Hwf | by exists hi0, dh, c0]].
  - split; rewrite ?(hd_inodes _ _ _ Hh), ?(hd_fs _ _ _ Hh), ?(hd_pool _ _ _ Hh); done.
Qed.

(** The write on the new part, and closing. *)
Lemma grow_close s s' fp p ip hi L size pos fuel c f' :
  open_file s fp p ip hi L size -> (length L < fuel)%nat -> c ∈ L -> 0 <= pos < 2 ^ 63 ->
  io_keeps (k_fs s) f' -> (forall c, c ∈ L -> 0 <= i_size f' (co_inode c)) -> total_size f' L < 2 ^ 63 ->
  s' = set_fs f' s ->
  exists s2, chunkfs_close_cont_file fuel fp (mk_cfile (co_dentry c) (pos - cd_start (co_cd c))) c s' = (inr tt, s2) /\
    k_fs s2 = f' /\ k_opens s2 = k_opens s /\ k_kmem s2 = k_kmem s - 1 /\ k_oom s2 = k_oom s /\ k_pool s2 = k_pool s /\
    open_file s2 fp p ip (updated hi f' c L) L size.
Proof.
  intros Hof Hf Hin Hpos Hk Hsz Htot ->.
  destruct (part_dentry _ _ _ _ c (of_wf _ _ _ _ _ _ _ Hof) Hin) as [Hnz Hi].
  destruct (close_part (set_fs f' s) fp p ip hi L fuel (mk_cfile (co_dentry c) (pos - cd_start (co_cd c))) c pos)
    as (s2 & Hrun & R1 & R0 & R2 & R3 & _ & _ & R6 & R7 & R8 & R9 & R10 & R11 & R12); simpl; try done; try lia; try apply Hof.
  - eapply sized_io; [apply Hof | exact Hk | done..].
  - by rewrite (io_dentry _ _ Hk).
  - exists s2. split_and!; try done. by eapply (open_file_after s).
Qed.

(** The write, with the states of the client file systems on the way: [f1]
    when the file is created, [f2] and [f3] when the attributes of the new part
    and of the one before it are written. *)
Lemma grow_run s fp p ip hi L prev size fuel junk data pos ci d i f1 :
  open_file s fp p ip hi (L ++ [prev]) size -> k_oom s = [] ->
  (S (length (L ++ [prev])) < fuel)%nat -> size <= pos < 2 ^ 63 -> size + CONT_LEN < 2 ^ 63 ->
  can_append s ci prev d i f1 -> ci_sb ci = ci_sb_of i ->
  let new := new_part ci prev d i in
  let L2 := L ++ [with_next prev (co_uino new); new] in
  exists f2 f3, xattrs_of i f1 f2 /\ xattrs_of (co_inode prev) f2 f3 /\ wf_parts L2 (size + CONT_LEN) /\
    cd_start (co_cd new) = size /\ total_size f3 L2 = total_size (k_fs s) (L ++ [prev]) /\
    forall ret cpos f', file_write f3 d data (pos - size) = (ret, cpos, f') -> total_size f' L2 < 2 ^ 63 ->
    exists s', chunkfs_write fuel junk fp data pos s = (inr (ret, cpos), s') /\ k_fs s' = f' /\
      k_oom s' = [] /\ k_pool s' = k_pool s /\
      open_file s' fp p ip (updated hi f' new L2) L2 (size + CONT_LEN) /\
      k_opens s' = k_opens s + 1 /\
      k_kmem s' = k_kmem s + 2 * Z.of_nat (length (L ++ [prev])).
Proof.
  intros Hof Ho Hf Hpos Hsz Hca Hsb new L2. pose proof (of_wf _ _ _ _ _ _ _ Hof) as Hwf.
  pose proof (tiles_bounds _ _ _ (wf_tiles _ _ (proj1 (proj2 Hwf)))) as Hs0.
  pose proof (tiles_find 0 _ size pos (wf_tiles _ _ (proj1 (proj2 Hwf))) ltac:(lia) ltac:(lia)) as Ht.
  destruct (List.find _ (L ++ [prev])) as [?|] eqn:Hfind; [lia |]. clear Ht.
  destruct (find_part s p (L ++ [prev]) fuel junk pos Ho (open_lock_free _ _ _ _ _ _ _ Hof) (proj1 Hwf) ltac:(lia)) as (s1 & Hrun1 & Hh).
  cbv zeta in Hrun1, Hh. rewrite Hfind in Hrun1. rewrite (upto_none _ _ Hfind) in Hh.
  pose proof (open_file_held _ _ _ _ _ _ _ _ _ Hh Hof) as Hof1.
  assert (can_append s1 ci prev d i f1) as Hca1.
  { destruct Hca. split; rewrite ?(hd_pool _ _ _ Hh), ?(hd_fs _ _ _ Hh); done. }
  destruct (append_part s1 p L prev size fuel pos ci d i f1) as (f2 & f3 & s2 & Hrun2 & Hx1 & Hx2 & Hwf2 & Hap);
    [by rewrite (hd_oom _ _ _ Hh) | apply Hof1 | lia | by apply can_append_extend
    | eapply can_append_new; [exact Hca1 | apply Hof1] | done | lia |].
  destruct (grow_open s1 s2 fp p ip hi L prev size ci d i f1 f2 f3 Hof1 Hca1 Hsb Hx1 Hx2 Hwf2 Hap) as [Hof2 Htot].
  assert (cd_start (co_cd new) = size) as Hst.
  { pose proof (proj1 (tiles_app _ _ _ _) (wf_tiles _ _ (proj1 (proj2 Hwf)))) as (y & _ & Hl).
    inversion Hl as [| ? ? ? ? Hs _ _ Hn]; subst. by inversion Hn; subst. }
  exists f2, f3. split_and!; [done | done | apply Hwf2 | done | rewrite <-(hd_fs _ _ _ Hh); exact Htot |]. intros ret cpos f' Hwr Hb.
  destruct (grow_close s2 (set_fs f' s2) fp p ip hi L2 (size + CONT_LEN) pos fuel new f')
    as (s3 & Hclose & E1 & E2 & E3 & E4 & E5 & Hof3); try done; try lia.
  { unfold L2. rewrite length_app in *. simpl in *. lia. }
  { unfold L2. set_solver. }
  { rewrite (ap_fs _ _ _ _ _ Hap). by eapply write_keeps. }
  { intros c Hin. eapply write_size; [exact Hwr |]. destruct (sz_cached _ _ _ _ (of_sized _ _ _ _ _ _ _ Hof2)) as (pi & _ & Hc).
    rewrite Forall_forall, (ap_fs _ _ _ _ _ Hap) in Hc. by destruct (Hc c Hin). }
  exists s3. split_and!; [| done | by rewrite E4, (ap_oom _ _ _ _ _ Hap), (hd_oom _ _ _ Hh)
    | by rewrite E5, (ap_pool _ _ _ _ _ Hap), (hd_pool _ _ _ Hh) | done | by rewrite E2, (ap_opens _ _ _ _ _ Hap), (hd_opens _ _ _ Hh)
    | rewrite E3, (ap_kmem _ _ _ _ _ Hap), (hd_kmem _ _ _ Hh); lia].
  unfold chunkfs_write.
  destruct (of_file _ _ _ _ _ _ _ Hof) as (fl & Hfl & Hp). rewrite Hst in Hclose.
  rewrite (bind_ok _ _ _ (inl ENOENT) s1).
  2: { apply try_errno. unfold chunkfs_open_cont_file.
       rewrite (bind_ok _ _ s fl s) by (unfold get_file; by rewrite Hfl). rewrite Hp. by rewrite (bind_stop _ _ _ _ _ Hrun1). }
  rewrite (bind_ok _ _ _ (mk_cfile d (pos - size), new, pos - size) s2).
  2: { change (ENOENT =? ENOENT) with true. cbv iota.
       rewrite (bind_ok _ _ s1 fl s1) by (unfold get_file; by rewrite (hd_files _ _ _ Hh), Hfl).
       rewrite Hp. exact Hrun2. }
  rewrite (bind_ok _ _ _ (ret, cpos) (set_fs f' s2)).
  2: { unfold client_write, client_call. cbn [cf_dentry]. by rewrite (ap_fs _ _ _ _ _ Hap), Hwr. }
  by rewrite (bind_ok _ _ _ _ _ Hclose).
Qed.

(** C21: writing past the capacity.  When a part can be appended, a write at
    any position behind the capacity of the file appends one and is the write
    of the client on the new part, at the position less the old capacity; the
    file is left open and well formed, with the new part and [CONT_LEN] more
    capacity.  The parts walked over stay allocated once for the search and
    once for the append. *)
Theorem chunkfs_write_grows s fp p ip hi L prev size fuel junk data pos ci d i f1 :
  open_file s fp p ip hi (L ++ [prev]) size -> k_oom s = [] ->
  (S (length (L ++ [prev])) < fuel)%nat -> size <= pos < 2 ^ 63 -> size + CONT_LEN < 2 ^ 63 ->
  can_append s ci prev d i f1 -> ci_sb ci = ci_sb_of i ->
  let new := new_part ci prev d i in
  let L2 := L ++ [with_next prev (co_uino new); new] in
  exists f3, total_size f3 L2 = total_size (k_fs s) (L ++ [prev]) /\
    forall ret cpos f', file_write f3 d data (pos - size) = (ret, cpos, f') -> total_size f' L2 < 2 ^ 63 ->
    exists s', chunkfs_write fuel junk fp data pos s = (inr (ret, cpos), s') /\ k_fs s' = f' /\
      open_file s' fp p ip (updated hi f' new L2) L2 (size + CONT_LEN) /\
      k_opens s' = k_opens s + 1 /\
      k_kmem s' = k_kmem s + 2 * Z.of_nat (length (L ++ [prev])).
Proof.
  intros Hof Ho Hf Hpos Hsz Hca Hsb new L2.
  destruct (grow_run s fp p ip hi L prev size fuel junk data pos ci d i f1) as (f2 & f3 & _ & _ & _ & _ & Htot & Hrun); try done.
  exists f3. split; [exact Htot |]. intros ret cpos f' Hwr Hb.
  destruct (Hrun ret cpos f' Hwr Hb) as (s' & R1 & R2 & _ & _ & R3 & R4 & R5). by exists s'.
Qed.
End grow.
