(* ===== verification/NameiProps.v ===== *)
(** * What looking up a name does to a file

    [chunkfs_lookup] writes fresh continuation data to the inode it finds, so
    a file that had several parts has one from then on.  The paths taken when
    memory is short or a client refuses. *)

From S2P Require Import Prelude Monad Decimal Client Kernel KernelFacts Pool Uino Cont Inode File Namei ContData Chain Append InodeProps.

Section start.
Context `{ClientFS} `{!ClientLaws} `{!ClientXattrs}.

(** The data of a file that has one part. *)
Definition fresh_cd : chunkfs_cont_data := mk_cd 0 0 0 CONT_LEN.

Lemma fresh_cd_typed : cd_typed fresh_cd.
Proof. by split. Qed.

(** The only part of a file over the client inode [c], behind [d]. *)
Definition only_part (ci : chunk_info) (chunk_id d : Z) (c : cino) : chunkfs_continuation :=
  mk_cont c d (ci_mnt ci) fresh_cd chunk_id (MAKE_UINO chunk_id (ci_ino_of c)).

Lemma init_cont_data_ok s d c :
  d <> 0 -> d_inode (k_fs s) d = Some c ->
  exists f', chunkfs_init_cont_data d s = (inr tt, set_fs f' s) /\
    xattrs_of c (k_fs s) f' /\ has_cd f' c fresh_cd.
Proof.
  intros Hd Hc. destruct (set_cont_data_works s c fresh_cd fresh_cd_typed) as (f' & Hrun & Hx & Hcd).
  exists f'. split; [| done]. unfold chunkfs_init_cont_data, set_cont_data_dentry, dentry_inode, gets, mbind, stm_bind.
  rewrite (proj2 (Z.eqb_neq d 0) Hd). simpl. rewrite Hc. simpl. exact Hrun.
Qed.

(** A chunkfs inode over the client inode [c]. *)
Definition started (f : fs) (i : inode) (c : cino) (chunk_id : Z) : inode :=
  with_size (with_attr (set_inode_ops (mk_inode (MAKE_UINO chunk_id (ci_ino_of c)) (i_csize i) (i_cattr i)
    (i_op i) (i_fop i) (Some c)) (a_mode (i_attr f c))) (i_attr f c)) (i_size f c).

(** What starting an inode over [c] needs of the client and the pool. *)
Record can_start (f : fs) (pi : pool_info) (ci : chunk_info) (chunk_id : Z) (c : cino) : Prop := {
  cs_chunk : chunkfs_find_chunk pi chunk_id = Some ci;
  cs_sb : ci_sb ci = ci_sb_of c;
  cs_pos : 0 < chunk_id;
  cs_fits : fits_uino chunk_id (ci_ino_of c);
  cs_cached : iget_locked f c = Some f;
  cs_good : is_bad_inode f c = false;
  cs_size : 0 <= i_size f c < 2 ^ 63;
}.

Lemma can_start_xattrs j f f' pi ci chunk_id c :
  xattrs_of j f f' -> can_start f pi ci chunk_id c -> can_start f' pi ci chunk_id c.
Proof.
  intros Hx []. split; auto.
  - by apply (xo_cached _ _ _ Hx).
  - by rewrite (xo_bad _ _ _ Hx).
  - by rewrite (xo_size _ _ _ Hx).
Qed.

Lemma start_ok s p i pi ci chunk_id c fuel :
  k_inodes s !! p = Some i -> k_pool s = Some pi -> can_start (k_fs s) pi ci chunk_id c ->
  has_cd (k_fs s) c fresh_cd -> (1 < fuel)%nat ->
  exists m, chunkfs_start_inode fuel p (Some c) chunk_id s =
    (inr tt, set_inodes (<[p := started (k_fs s) i c chunk_id]> (k_inodes s)) (set_iref m s)) /\
    forall j, count m j = count (k_iref s) j.
Proof.
  intros Hi Hp [] Hcd Hf. unfold chunkfs_start_inode.
  rewrite (bind_ok _ _ s i s) by (unfold get_inode; by rewrite Hi).
  rewrite (bind_ok _ _ s (k_fs s) s) by done. cbv zeta.
  set (i1 := set_inode_ops _ _). set (s1 := set_inodes (<[p := i1]> (k_inodes s)) s).
  rewrite (bind_ok _ _ s tt s1) by done.
  destruct (copy_up_ok s1 p i1 [only_part ci chunk_id 1 c] c fuel) as (m & Hrun & Hm).
  - split.
    + simpl. by rewrite lookup_insert_eq.
    + by eexists.
    + by constructor.
    + rewrite Forall_singleton. by split_and!.
    + exists pi. split; [done |]. rewrite Forall_singleton. split; [done | done | by exists ci | done | simpl; lia].
    + simpl. lia.
  - simpl. lia.
  - exists m. split; [| done]. rewrite Hrun. simpl. rewrite insert_insert_eq, Z.add_0_r. done.
Qed.
End start.

(** ** The accessors and small operations, run *)

Section access.
Context `{ClientFS}.

Lemma get_client_nd_ok s p d dp :
  k_dentries s !! p = Some d -> de_fsdata d = Some dp -> get_client_nd p s = (inr (dp_client_nd dp), s).
Proof.
  intros Hd Hp. unfold get_client_nd, CHUNKFS_D, get_dentry, mbind, stm_bind. rewrite Hd. simpl.
  by rewrite Hp.
Qed.

Lemma get_client_dentry_ok s p d dp :
  k_dentries s !! p = Some d -> de_fsdata d = Some dp -> get_client_dentry p s = (inr (dp_client_dentry dp), s).
Proof.
  intros Hd Hp. unfold get_client_dentry, CHUNKFS_D, get_dentry, mbind, stm_bind. rewrite Hd. simpl.
  by rewrite Hp.
Qed.

Lemma init_dentry_ok s p d :
  k_oom s = [] -> k_dentries s !! p = Some d -> de_fsdata d = None ->
  chunkfs_init_dentry p s =
    (inr tt, set_dentries (<[p := initialised d]> (k_dentries s))
               (set_kmem (k_kmem s + 2) s)).
Proof.
  intros Ho Hd Hp. unfold chunkfs_init_dentry, get_dentry, mbind, stm_bind. rewrite Hd. simpl. rewrite Hp.
  unfold kalloc. rewrite Ho. simpl. rewrite Ho. simpl.
  by replace (k_kmem s + 2) with (k_kmem s + 1 + 1) by lia.
Qed.

Lemma init_nd_ok s p d dp pi ci chunk_id c :
  k_dentries s !! p = Some d -> de_fsdata d = Some dp -> k_pool s = Some pi ->
  chunkfs_find_chunk pi chunk_id = Some ci -> c <> 0 ->
  chunkfs_init_nd p c chunk_id s =
    (inr tt, set_dentries (<[p := set_fsdata d (Some (mk_dpriv (dp_client_dentry dp)
       (mk_nd c (ci_mnt ci) (nd_flags (dp_client_nd dp)) (nd_seq (dp_client_nd dp))
          (nd_depth (dp_client_nd dp)) (nd_saved_names (dp_client_nd dp)))))]> (k_dentries s))
      (set_mnt (k_mnt s + 1) (set_dref (<[c := count (k_dref s) c + 1]> (k_dref s)) s))).
Proof.
  intros Hd Hp Hpool Hci Hc. unfold chunkfs_init_nd. rewrite (bind_ok _ _ _ _ _ (get_client_nd_ok _ _ _ _ Hd Hp)).
  unfold gets, mbind, stm_bind. rewrite Hpool. simpl. rewrite Hci. unfold dget.
  rewrite (proj2 (Z.eqb_neq c 0) Hc). unfold mntget, put_nd, get_dentry, mbind, stm_bind. simpl.
  rewrite Hd. simpl. rewrite Hp. simpl. done.
Qed.

Lemma new_inode_ok s :
  k_oom s = [] ->
  let p := next_address (k_inodes s) in
  chunkfs_new_inode s = (inr p, set_icount (<[p := 1]> (k_icount s))
    (set_inodes (<[p := blank_inode]> (k_inodes s)) (set_kmem (k_kmem s + 1) s))).
Proof.
  intros Ho. unfold chunkfs_new_inode, chunkfs_alloc_inode, kalloc, mbind, stm_bind. rewrite Ho. done.
Qed.

(** The dentry gets its client dentry and its inode. *)
Lemma finish_dentry_ok s p d dp c (inode : Z) :
  k_dentries s !! p = Some d -> de_fsdata d = Some dp ->
  (chunkfs_add_dentry p c;; d_instantiate p (Some inode)) s =
    (inr tt, set_dentries (<[p := set_d_inode (set_fsdata d (Some (mk_dpriv c (dp_client_nd dp)))) (Some inode)]> (k_dentries s)) s).
Proof.
  intros Hd Hp. unfold chunkfs_add_dentry, d_instantiate, get_dentry, put_dentry, modify, mbind, stm_bind. rewrite Hd.
  cbn -[insert lookup]. rewrite Hp. cbn -[insert lookup]. rewrite lookup_insert_eq. cbn -[insert lookup].
  unfold set_dentries. cbn -[insert lookup]. by rewrite insert_insert_eq.
Qed.

Lemma next_address_fresh m : m !! next_address m = None.
Proof.
  assert (forall p i, m !! p = Some i -> p < next_address m) as Habove.
  { unfold next_address. apply (map_fold_weak_ind (fun (a : Z) (m : gmap Z inode) => forall p i, m !! p = Some i -> p < a)).
    - intros p i Hd. by rewrite lookup_empty in Hd.
    - intros p0 i0 m' a _ IH p i Hd. apply lookup_insert_Some in Hd as [[<- _] | [_ Hd]]; [lia |].
      specialize (IH _ _ Hd). lia. }
  destruct (m !! next_address m) eqn:He; [| done]. apply Habove in He. lia.
Qed.
End access.

(** ** Looking up a file *)

Section lookup.
Context `{ClientFS} `{!ClientLaws} `{!ClientXattrs}.

(** The file over [c] in a chunkfs dentry [p]: one part. *)
Lemma only_part_wf s p de inode hi dp pi ci chunk_id d c :
  k_dentries s !! p = Some de -> de_inode de = Some inode -> k_inodes s !! inode = Some hi ->
  de_fsdata de = Some dp -> dp_client_dentry dp = d -> d <> 0 -> k_pool s = Some pi ->
  i_ino hi = MAKE_UINO chunk_id (ci_ino_of c) -> d_inode (k_fs s) d = Some c ->
  can_start (k_fs s) pi ci chunk_id c -> has_cd (k_fs s) c fresh_cd ->
  wf_file s p [only_part ci chunk_id d c] CONT_LEN.
Proof.
  intros Hde Hin Hhi Hdp Hd Hnz Hp Hino Hc [] Hcd.
  assert (head_of s p hi d) as Hh by by exists de, inode, dp.
  destruct (make_uino_unpack _ _ cs_fits0) as [Hu _].
  split; [| split].
  - exists pi, hi, d. split; [done |]. split; [done |]. rewrite Hino, Hu. apply chain_end; [| by right].
    split; try done. by exists ci.
  - split.
    + apply (tiles_cons 0 (only_part ci chunk_id d c) [] CONT_LEN); [done | done | done | constructor].
    + by constructor.
    + rewrite Forall_singleton. by split_and!.
    + rewrite Forall_singleton. apply fresh_cd_typed.
    + constructor; [apply not_elem_of_nil | constructor].
  - by exists hi, d, (only_part ci chunk_id d c).
Qed.

(** The dentry [p] has the inode [ip] over the client inode [c] behind [d], a
    file of one part. *)
Record one_part_at (s : kstate) (p ip : Z) (hi : inode) (pi : pool_info) (ci : chunk_info) (chunk_id d : Z)
    (c : cino) : Prop := {
  oa_dentry : exists de dp, k_dentries s !! p = Some de /\ de_inode de = Some ip /\ de_fsdata de = Some dp /\
    dp_client_dentry dp = d;
  oa_inode : k_inodes s !! ip = Some hi;
  oa_ino : i_ino hi = MAKE_UINO chunk_id (ci_ino_of c);
  oa_client : ii_client_inode hi = Some c;
  oa_pool : k_pool s = Some pi;
  oa_oom : k_oom s = [];
  oa_nonnull : d <> 0;
  oa_found : d_inode (k_fs s) d = Some c;
  oa_start : can_start (k_fs s) pi ci chunk_id c;
  oa_data : has_cd (k_fs s) c fresh_cd;
}.

Lemma one_part_at_wf s p ip hi pi ci chunk_id d c :
  one_part_at s p ip hi pi ci chunk_id d c -> wf_file s p [only_part ci chunk_id d c] CONT_LEN.
Proof. intros [(de & dp & ? & ? & ? & ?)]. by eapply only_part_wf. Qed.

(** Filling in a dentry: a new inode over the client inode [c] behind the
    client dentry [d], which becomes that of the dentry. *)
Lemma fill_dentry_ok s p de dp pi ci chunk_id d c fuel (K : Z -> kernel unit) :
  k_oom s = [] -> k_pool s = Some pi -> k_dentries s !! p = Some de -> de_fsdata de = Some dp ->
  d <> 0 -> d_inode (k_fs s) d = Some c -> can_start (k_fs s) pi ci chunk_id c -> (1 < fuel)%nat ->
  exists s' ip hi,
    (inode ← chunkfs_new_inode;
     r ← try (chunkfs_init_cont_data d);
     match r with
     | inl e => K e
     | inr _ =>
         chunkfs_start_inode fuel inode (Some c) chunk_id;;
         chunkfs_add_dentry p d;;
         d_instantiate p (Some inode)
     end) s = (inr tt, s') /\
    one_part_at s' p ip hi pi ci chunk_id d c /\
    k_inodes s !! ip = None /\ i_csize hi = i_size (k_fs s) c /\
    k_kmem s' = k_kmem s + 1 /\ k_mnt s' = k_mnt s /\
    (forall i, count (k_iref s') i = count (k_iref s) i) /\
    xattrs_of c (k_fs s) (k_fs s') /\ k_locks s' = k_locks s.
Proof.
  intros Ho Hp Hde Hdp Hnz Hc Hst Hf. set (ip := next_address (k_inodes s)).
  pose proof (new_inode_ok s Ho) as R1. cbv zeta in R1. fold ip in R1. set (s1 := set_icount _ _) in R1.
  destruct (init_cont_data_ok s1 d c Hnz Hc) as (f2 & R2 & Hx & Hdata). set (s2 := set_fs f2 s1) in *.
  assert (can_start f2 pi ci chunk_id c) as Hst2 by by eapply can_start_xattrs.
  destruct (start_ok s2 ip blank_inode pi ci chunk_id c fuel) as (m & R3 & Hm); try done.
  { simpl. by rewrite lookup_insert_eq. }
  set (s3 := set_inodes _ (set_iref m s2)) in R3.
  pose proof (finish_dentry_ok s3 p de dp d ip Hde Hdp) as R4. set (s4 := set_dentries _ s3) in R4.
  exists s4, ip, (started f2 blank_inode c chunk_id). split_and!; try done.
  - by rewrite (bind_ok _ _ _ _ _ R1), (bind_ok _ _ _ _ _ (try_ok _ _ _ _ R2)), (bind_ok _ _ _ _ _ R3).
  - split; try done; simpl.
    + eexists _, _. rewrite lookup_insert_eq. by split_and!.
    + by rewrite lookup_insert_eq.
    + by rewrite (xo_dentry _ _ _ Hx).
  - apply next_address_fresh.
  - simpl. by rewrite (xo_size _ _ _ Hx).
Qed.

(** A lookup that finds the client inode [c]: the directory [dir], the new
    dentry [p], the client dentry [cd] that is made for it. *)
Record finds (s : kstate) (dir p : Z) (pi : pool_info) (ci : chunk_info) (chunk_id cd : Z) (c : cino)
    (f2 : fs) : Prop := {
  fi_oom : k_oom s = [];
  fi_pool : k_pool s = Some pi;
  fi_dir : exists di cdir de pde pdp f1,
    k_inodes s !! dir = Some di /\ ii_client_inode di = Some cdir /\
    UINO_TO_CHUNK_ID (i_ino di) = chunk_id /\
    k_dentries s !! p = Some de /\ de_fsdata de = None /\ de_parent de <> p /\
    k_dentries s !! de_parent de = Some pde /\ de_fsdata pde = Some pdp /\
    d_alloc_name (k_fs s) (dp_client_dentry pdp) (de_name de) = (Some cd, f1) /\
    op_lookup f1 cdir cd 0 = (LookupNull, f2);
  fi_nonnull : cd <> 0;
  fi_found : d_inode f2 cd = Some c;
  fi_start : can_start f2 pi ci chunk_id c;
}.

(** The VFS looks the new dentry [p] up in the directory [dir] over [cdir]:
    the client dentry [cd] is made for it, and the client, then in [f2], has
    been asked. *)
Record asks (s : kstate) (dir p : Z) (di : inode) (cdir : cino) (pi : pool_info) (ci : chunk_info) (cd : Z)
    (f2 : fs) : Prop := {
  as_oom : k_oom s = [];
  as_pool : k_pool s = Some pi;
  as_dir : k_inodes s !! dir = Some di /\ ii_client_inode di = Some cdir;
  as_chunk : chunkfs_find_chunk pi (UINO_TO_CHUNK_ID (i_ino di)) = Some ci;
  as_dentry : exists de pde pdp f1,
    k_dentries s !! p = Some de /\ de_fsdata de = None /\ de_parent de <> p /\
    k_dentries s !! de_parent de = Some pde /\ de_fsdata pde = Some pdp /\
    d_alloc_name (k_fs s) (dp_client_dentry pdp) (de_name de) = (Some cd, f1) /\
    op_lookup f1 cdir cd 0 = (LookupNull, f2);
  as_nonnull : cd <> 0;
}.

(** The state when the client has answered. *)
Record asked (s : kstate) (p : Z) (f2 : fs) (s4 : kstate) (de : dentry) (nd : nameidata) : Prop := {
  ad_dentry : k_dentries s4 !! p = Some de;
  ad_fsdata : de_fsdata de = Some (mk_dpriv 0 nd);
  ad_fs : k_fs s4 = f2;
  ad_oom : k_oom s4 = [];
  ad_pool : k_pool s4 = k_pool s;
  ad_inodes : k_inodes s4 = k_inodes s;
  ad_kmem : k_kmem s4 = k_kmem s + 2;
  ad_mnt : k_mnt s4 = k_mnt s + 1;
  ad_iref : k_iref s4 = k_iref s;
  ad_locks : k_locks s4 = k_locks s;
}.

Lemma lookup_asked s dir p di cdir pi ci cd f2 fuel :
  asks s dir p di cdir pi ci cd f2 ->
  exists s4 de nd K, asked s p f2 s4 de nd /\
    chunkfs_lookup fuel dir p s =
      match d_inode f2 cd with
      | Some c =>
          inode ← chunkfs_new_inode;
          r ← try (chunkfs_init_cont_data cd);
          match r with
          | inl e => K e
          | inr _ =>
              chunkfs_start_inode fuel inode (Some c) (UINO_TO_CHUNK_ID (i_ino di));;
              chunkfs_add_dentry p cd;;
              d_instantiate p (Some inode)
          end
      | None => chunkfs_add_dentry p cd;; d_instantiate p None
      end s4.
Proof.
  intros [Ho Hpool [Hdi Hcd] Hci (de & pde & pdp & f1 & Hde & Hfs & Hne & Hpde & Hpfs & Hal & Hlk) Hnz].
  set (s1 := set_dentries (<[p := initialised de]> (k_dentries s))
               (set_kmem (k_kmem s + 2) s)).
  pose proof (init_dentry_ok s p de Ho Hde Hfs) as R1. fold s1 in R1.
  set (s2 := set_fs f1 s1).
  assert (chunkfs_clone_dentry p s1 = (inr cd, s2)) as R2.
  { unfold chunkfs_clone_dentry. rewrite (bind_ok _ _ s1 (initialised de) s1)
      by (unfold get_dentry; simpl; by rewrite lookup_insert_eq).
    rewrite (bind_ok _ _ _ _ _ (get_client_dentry_ok s1 (de_parent de) pde pdp
      ltac:(simpl; by rewrite lookup_insert_ne) Hpfs)).
    unfold client_call, mbind, stm_bind. simpl. by rewrite Hal. }
  pose proof (init_nd_ok s2 p (initialised de) (mk_dpriv 0 empty_nd) pi ci (UINO_TO_CHUNK_ID (i_ino di)) cd
    ltac:(simpl; by rewrite lookup_insert_eq) eq_refl Hpool Hci Hnz) as R3.
  simpl dp_client_nd in R3. simpl dp_client_dentry in R3.
  set (nd := mk_nd cd _ _ _ _ _) in R3. set (s3 := set_dentries _ (set_mnt _ _)) in R3.
  set (de3 := set_fsdata (initialised de) (Some (mk_dpriv 0 nd))) in *.
  assert (k_dentries s3 !! p = Some de3) as Hde3 by (simpl; by rewrite lookup_insert_eq).
  set (s4 := set_fs f2 s3). exists s4, de3, nd. eexists. split; [by split |].
  unfold chunkfs_lookup. rewrite (bind_ok _ _ s (cdir, UINO_TO_CHUNK_ID (i_ino di)) s).
  2: { unfold client_dir, get_inode, mbind, stm_bind. rewrite Hdi. simpl. unfold get_client_inode. by rewrite Hcd. }
  rewrite (bind_ok _ _ _ _ _ (try_ok _ _ _ _ R1)), (bind_ok _ _ _ _ _ (try_ok _ _ _ _ R2)). cbv zeta.
  rewrite (bind_ok _ _ _ _ _ R3), (bind_ok _ _ _ _ _ (get_client_nd_ok s3 p de3 _ Hde3 eq_refl)).
  rewrite (bind_ok _ _ _ LookupNull s4) by (unfold client_call; simpl; by rewrite Hlk).
  rewrite (bind_ok _ _ _ cd s4) by done. rewrite (bind_ok _ _ _ f2 s4) by done.
  destruct (d_inode f2 cd); reflexivity.
Qed.

Lemma lookup_run s dir p pi ci chunk_id cd c f2 fuel :
  finds s dir p pi ci chunk_id cd c f2 -> (1 < fuel)%nat ->
  exists s' ip hi, chunkfs_lookup fuel dir p s = (inr tt, s') /\
    one_part_at s' p ip hi pi ci chunk_id cd c /\
    k_inodes s !! ip = None /\ i_csize hi = i_size f2 c /\
    k_kmem s' = k_kmem s + 3 /\ k_mnt s' = k_mnt s + 1 /\
    (forall i, count (k_iref s') i = count (k_iref s) i) /\
    xattrs_of c f2 (k_fs s') /\ k_locks s' = k_locks s.
Proof.
  intros [Ho Hpool (di & cdir & de & pde & pdp & f1 & Hdi & Hcd & <- & Hrest) Hnz Hfound Hst] Hf.
  destruct (lookup_asked s dir p di cdir pi ci cd f2 fuel) as (s4 & de4 & nd & K & [D1 D2 D3 D4 D5 D6 D7 D8 D9 D10] & ->).
  { split; try done; [apply Hst | by exists de, pde, pdp, f1]. }
  rewrite Hfound. subst f2.
  destruct (fill_dentry_ok s4 p de4 (mk_dpriv 0 nd) pi ci (UINO_TO_CHUNK_ID (i_ino di)) cd c fuel K)
    as (s' & ip & hi & R4 & Hone & Hip & Hsz & Hkm & Hmn & Hir & Hx & Hlk); try done; [by rewrite D5 |].
  exists s', ip, hi. split_and!; try done; [congruence | lia | lia | intros i; by rewrite Hir, D9 | congruence].
Qed.

(** The client does not know the name: the dentry is negative. *)
Lemma lookup_absent s dir p di cdir pi ci cd f2 fuel :
  asks s dir p di cdir pi ci cd f2 -> d_inode f2 cd = None ->
  exists s' de nd, chunkfs_lookup fuel dir p s = (inr tt, s') /\ k_dentries s' !! p = Some de /\
    de_fsdata de = Some (mk_dpriv cd nd) /\ k_fs s' = f2 /\ k_oom s' = [] /\ k_pool s' = k_pool s /\
    k_inodes s' = k_inodes s /\ k_locks s' = k_locks s.
Proof.
  intros Has Hnone. destruct (lookup_asked s dir p di cdir pi ci cd f2 fuel Has)
    as (s4 & de4 & nd & K & [D1 D2 D3 D4 D5 D6 D7 D8 D9 D10] & ->). rewrite Hnone.
  eexists _, _, nd. split.
  - unfold chunkfs_add_dentry, d_instantiate, get_dentry, put_dentry, modify, mbind, stm_bind. rewrite D1.
    cbn -[insert lookup]. rewrite D2. cbn -[insert lookup]. rewrite lookup_insert_eq. cbn -[insert lookup]. reflexivity.
  - split_and!; [simpl; by rewrite lookup_insert_eq | done | exact D3 | exact D4 | exact D5 | exact D6 | exact D10].
Qed.

(** Looking a file up leaves it with one part.  When the client finds the
    name, [chunkfs_lookup] succeeds and the dentry has a well-formed file of
    exactly one part with the capacity [CONT_LEN] and the size of the client
    inode, whatever parts the attributes of the inode linked before: data in
    further chunks can no longer be reached. *)
Theorem chunkfs_lookup_one_part s dir p pi ci chunk_id cd c f2 fuel :
  finds s dir p pi ci chunk_id cd c f2 -> (1 < fuel)%nat ->
  exists s' ip hi, chunkfs_lookup fuel dir p s = (inr tt, s') /\
    wf_file s' p [only_part ci chunk_id cd c] CONT_LEN /\
    k_inodes s' !! ip = Some hi /\ k_inodes s !! ip = None /\ i_csize hi = i_size f2 c /\
    k_kmem s' = k_kmem s + 3 /\ k_mnt s' = k_mnt s + 1 /\
    forall i, count (k_iref s') i = count (k_iref s) i.
Proof.
  intros Hfi Hf. destruct (lookup_run s dir p pi ci chunk_id cd c f2 fuel Hfi Hf) as (s' & ip & hi & Hrun & Hone & Hrest).
  exists s', ip, hi. split_and!; try apply Hrest; [done | by eapply one_part_at_wf | apply Hone].
Qed.
End lookup.

(** ** When memory is short or the client refuses *)

Section failures.
Context `{ClientFS}.

(** The directory [dir] over the client directory [cdir]; the dentry [p] has
    no private data yet, its parent has a client dentry. *)
Record looks_up (s : kstate) (dir p : Z) (cdir : cino) (de : dentry) (parent : Z) : Prop := {
  lu_dir : exists di, k_inodes s !! dir = Some di /\ ii_client_inode di = Some cdir;
  lu_dentry : k_dentries s !! p = Some de /\ de_fsdata de = None /\ de_parent de <> p;
  lu_parent : exists pde pdp, k_dentries s !! de_parent de = Some pde /\ de_fsdata pde = Some pdp /\
    dp_client_dentry pdp = parent;
}.

Lemma client_dir_ok s dir di cdir :
  k_inodes s !! dir = Some di -> ii_client_inode di = Some cdir ->
  client_dir dir s = (inr (cdir, UINO_TO_CHUNK_ID (i_ino di)), s).
Proof.
  intros Hdi Hc. unfold client_dir, get_inode, get_client_inode, mbind, stm_bind. rewrite Hdi. simpl.
  by rewrite Hc.
Qed.

(** A lookup without memory.  When the private data of the dentry cannot
    be allocated, the error path follows the null [d_fsdata]; when the client
    dentry cannot be allocated, the lookup reports success, and the dentry is
    left without private data, with everything allocated given back. *)
Theorem chunkfs_lookup_no_memory s dir p cdir de parent fuel :
  looks_up s dir p cdir de parent ->
  (forall rest, k_oom s = true :: rest -> (chunkfs_lookup fuel dir p s).1 = inl Undef) /\
  (forall f1, k_oom s = [] -> d_alloc_name (k_fs s) parent (de_name de) = (None, f1) ->
     exists s', chunkfs_lookup fuel dir p s = (inr tt, s') /\ k_dentries s' !! p = Some (set_fsdata (initialised de) None) /\
       k_kmem s' = k_kmem s).
Proof.
  intros [(di & Hdi & Hc) (Hde & Hfs & Hne) (pde & pdp & Hpde & Hpfs & Hpar)].
  unfold chunkfs_lookup. rewrite (bind_ok _ _ _ _ _ (client_dir_ok _ _ _ _ Hdi Hc)). split.
  - intros rest Ho. rewrite (bind_ok _ _ _ (inl ENOMEM) (set_oom rest s)).
    2: { apply try_errno. unfold chunkfs_init_dentry, get_dentry, kalloc, mbind, stm_bind. rewrite Hde. simpl.
         rewrite Hfs, Ho. done. }
    unfold chunkfs_free_dentry, CHUNKFS_D, get_dentry, mbind, stm_bind. simpl. rewrite Hde. simpl. by rewrite Hfs.
  - intros f1 Ho Hal. rewrite (bind_ok _ _ _ _ _ (try_ok _ _ _ _ (init_dentry_ok _ _ _ Ho Hde Hfs))).
    set (s1 := set_dentries _ _).
    rewrite (bind_ok _ _ s1 (inl ENOMEM) (set_fs f1 s1)).
    2: { apply try_errno. unfold chunkfs_clone_dentry, get_dentry.
         rewrite (bind_ok _ _ s1 (initialised de) s1)
           by (simpl; by rewrite lookup_insert_eq).
         rewrite (bind_ok _ _ _ _ _ (get_client_dentry_ok s1 (de_parent de) pde pdp
           ltac:(simpl; by rewrite lookup_insert_ne) Hpfs)).
         unfold client_call, mbind, stm_bind. simpl. rewrite Hpar. by rewrite Hal. }
    eexists. split; [| split].
    + unfold chunkfs_remove_dentry, chunkfs_free_dentry, get_client_dentry, CHUNKFS_D, get_dentry, mbind, stm_bind.
      cbn -[insert lookup]. rewrite lookup_insert_eq. cbn -[insert lookup]. rewrite lookup_insert_eq.
      cbn -[insert lookup]. rewrite lookup_insert_eq. cbn -[insert lookup]. done.
    + cbn -[insert lookup]. by rewrite lookup_insert_eq.
    + simpl. lia.
Qed.

(** When the client refuses to make a name, the error path of create,
    mkdir, mknod and symlink puts the new inode, whose client inode was never
    set: an uninitialised pointer is followed. *)
Theorem make_name_refused s dir p di cdir d dp op err f' fuel :
  k_oom s = [] -> k_inodes s !! dir = Some di -> ii_client_inode di = Some cdir ->
  k_dentries s !! p = Some d -> de_fsdata d = Some dp ->
  op (k_fs s) cdir (dp_client_dentry dp) = (err, f') -> err <> 0 ->
  (make_name fuel dir p (mret tt) (mret tt) op s).1 = inl Undef.
Proof.
  intros Ho Hdi Hc Hd Hdp Hop Herr. unfold make_name.
  rewrite (bind_ok _ _ _ _ _ (client_dir_ok _ _ _ _ Hdi Hc)).
  rewrite (bind_ok _ _ _ _ _ (get_client_dentry_ok _ _ _ _ Hd Hdp)).
  rewrite (bind_ok _ _ _ _ _ (new_inode_ok s Ho)). set (s1 := set_icount _ _).
  rewrite (bind_ok _ _ s1 tt s1) by done.
  rewrite (bind_ok _ _ s1 err (set_fs f' s1)) by (unfold client_call; simpl; by rewrite Hop).
  rewrite (proj2 (Z.eqb_neq err 0) Herr). simpl.
  unfold iput_last, chunkfs_clear_inode, chunkfs_destroy_inode, get_inode, mbind, stm_bind. cbn -[insert lookup]. rewrite lookup_insert_eq. done.
Qed.
End failures.
