(* ===== verification/Memory.v ===== *)
(** * Memory in use and memory allocated

    [slack s]: what is allocated and is neither a chunkfs inode nor the
    private data of a dentry, which has two parts.  [costs k m g]: the call
    [m], given [k] allocated objects that it may free, hands [g a] such objects
    to its caller together with its result [a], and leaves the slack otherwise
    no smaller.  What costs nothing frees only what it has allocated, or an
    object together with its memory; that the object is not in use is the
    matter of Counts. *)

From S2P Require Import Prelude Monad Decimal Client Kernel KernelFacts Judge Pool Uino Cont Inode File Namei Super Vfs Quiet NameiProps.

Create HintDb costs.
Create HintDb credits.

(** ** Objects in use *)

Section slack.
Context `{ClientFS}.

Definition has_fsdata (d : dentry) : Z := match de_fsdata d with Some _ => 1 | None => 0 end.

(** How many dentries have private data. *)
Definition privs (m : gmap Z dentry) : Z := map_fold (fun _ d n => has_fsdata d + n) 0 m.

Definition slack (s : kstate) : Z := k_kmem s - Z.of_nat (size (k_inodes s)) - 2 * privs (k_dentries s).

Lemma privs_insert_new m p d : m !! p = None -> privs (<[p := d]> m) = has_fsdata d + privs m.
Proof.
  intros Hp. unfold privs. apply (map_fold_insert_L (fun _ d n => has_fsdata d + n)); [| done]. intros. lia.
Qed.

Lemma privs_delete m p d : m !! p = Some d -> privs m = has_fsdata d + privs (delete p m).
Proof.
  intros Hp. rewrite <-(insert_delete_id m p d Hp) at 1. apply privs_insert_new. apply lookup_delete_eq.
Qed.

Lemma privs_insert m p d d0 : m !! p = Some d0 -> privs (<[p := d]> m) = privs m + has_fsdata d - has_fsdata d0.
Proof.
  intros Hp. rewrite <-insert_delete_eq, privs_insert_new by apply lookup_delete_eq.
  rewrite (privs_delete m p d0 Hp). lia.
Qed.

Lemma privs_nonneg m : 0 <= privs m.
Proof.
  unfold privs. apply (map_fold_weak_ind (fun n _ => 0 <= n)); [lia |]. intros p d m' n _ Hn.
  unfold has_fsdata. destruct (de_fsdata d); lia.
Qed.

(** ** The judgement *)

Definition costs {A} (k : Z) (m : kernel A) (g : A -> Z) : Prop := forall s,
  match m s with
  | (inr a, s') => slack s - k + g a <= slack s'
  | (inl (Errno _), s') => slack s - k <= slack s'
  | (inl _, _) => True
  end.

Abbreviation neutral m := (costs 0 m (fun _ => 0)).

Lemma costs_bind {A B} k (m : kernel A) (f : A -> kernel B) g h :
  costs k m g -> (forall a, costs (g a) (f a) h) -> costs k (m ≫= f) h.
Proof.
  intros Hm Hf s. unfold mbind, stm_bind. specialize (Hm s). destruct (m s) as [[[]|a] s1]; try done.
  specialize (Hf a s1). destruct (f a s1) as [[[]|b] s2]; try done; lia.
Qed.

Lemma costs_weaken {A} k k' (m : kernel A) g h :
  costs k m g -> k <= k' -> (forall a, h a - g a <= k' - k) -> costs k' m h.
Proof.
  intros Hm Hk Hg s. specialize (Hm s). destruct (m s) as [[[]|a] s1]; try done; [lia |].
  specialize (Hg a). lia.
Qed.

(** What is left over can be kept. *)
Lemma costs_frame {A} k (m : kernel A) : 0 <= k -> neutral m -> costs k m (fun _ => k).
Proof. intros Hk Hm. eapply costs_weaken; [exact Hm | lia | intros; simpl; lia]. Qed.

Lemma neutral_bind {A B} k (m : kernel A) (f : A -> kernel B) h :
  0 <= k -> neutral m -> (forall a, costs k (f a) h) -> costs k (m ≫= f) h.
Proof. intros Hk Hm Hf. eapply costs_bind; [by apply costs_frame | done]. Qed.

Lemma costs_try {A} k (m : kernel A) g :
  costs k m g -> costs k (try m) (fun r => match r with inr a => g a | inl _ => 0 end).
Proof. intros Hm s. specialize (Hm s). unfold try. destruct (m s) as [[[]|a] s1]; try done; simpl; lia. Qed.

Lemma neutral_try {A} (m : kernel A) : neutral m -> neutral (try m).
Proof. intros Hm s. specialize (Hm s). unfold try. destruct (m s) as [[[]|a] s1]; try done; simpl; lia. Qed.

Lemma costs_ret {A} k (a : A) g : g a <= k -> costs k (mret a) g.
Proof. intros Hg s. simpl. lia. Qed.

Lemma costs_errno {A} k e (g : A -> Z) : 0 <= k -> costs k (mthrow (Errno e)) g.
Proof. intros Hk s. simpl. lia. Qed.

Lemma costs_bug {A} k (g : A -> Z) : costs k (mthrow Bug) g.
Proof. done. Qed.

Lemma costs_undef {A} k (g : A -> Z) : costs k (mthrow Undef) g.
Proof. done. Qed.

Lemma costs_loop {A B} fuel (body : A -> kernel (A + B)) (I : A -> Z) g a :
  (forall a, costs (I a) (body a) (fun r => match r with inl a' => I a' | inr b => g b end)) ->
  costs (I a) (loop fuel NoFuel body a) g.
Proof.
  intros Hb. revert a. induction fuel as [|n IH]; intros a; simpl; [done |].
  eapply costs_bind; [apply Hb | intros [a'|b]; [apply IH | by apply costs_ret]].
Qed.

Lemma neutral_loop {A B} fuel (body : A -> kernel (A + B)) a :
  (forall a, neutral (body a)) -> neutral (loop fuel NoFuel body a).
Proof.
  intros Hb. apply (costs_loop fuel body (fun _ => 0)). intros a'.
  eapply costs_weaken; [apply Hb | lia | intros [|]; simpl; lia].
Qed.

(** ** The services *)

(** Calls that leave the objects and the allocator alone. *)
Lemma neutral_still {A} (m : kernel A) :
  (forall s, k_kmem (m s).2 = k_kmem s /\ k_inodes (m s).2 = k_inodes s /\ k_dentries (m s).2 = k_dentries s) ->
  neutral m.
Proof.
  intros Hm s. destruct (Hm s) as (H1 & H2 & H3). assert (slack (m s).2 = slack s) as Hs
    by (unfold slack; by rewrite H1, H2, H3).
  destruct (m s) as [[[]|a] s1]; simpl in *; try done; lia.
Qed.

Lemma neutral_gets {A} (f : kstate -> A) : neutral (gets f).
Proof. by apply neutral_still. Qed.

Lemma neutral_deref {A} (o : option A) : neutral (deref o).
Proof. apply neutral_still. by destruct o. Qed.

Lemma neutral_get_inode p : neutral (get_inode p).
Proof. apply neutral_still. intros s. unfold get_inode. by destruct (_ !! _). Qed.

Lemma neutral_get_dentry p : neutral (get_dentry p).
Proof. apply neutral_still. intros s. unfold get_dentry. by destruct (_ !! _). Qed.

Lemma neutral_get_file p : neutral (get_file p).
Proof. apply neutral_still. intros s. unfold get_file. by destruct (_ !! _). Qed.

Lemma neutral_put_file p f : neutral (put_file p f).
Proof. by apply neutral_still. Qed.

Lemma neutral_dget d : neutral (dget d).
Proof. apply neutral_still. intros s. unfold dget. simpl. by destruct (d =? 0). Qed.

Lemma neutral_dput d : neutral (dput d).
Proof. apply neutral_still. intros s. unfold dput. simpl. by destruct (d =? 0). Qed.

Lemma neutral_mntget m : neutral (mntget m).
Proof. by apply neutral_still. Qed.

Lemma neutral_mntput : neutral mntput.
Proof. by apply neutral_still. Qed.

Lemma neutral_iput i : neutral (iput i).
Proof. by apply neutral_still. Qed.

Lemma neutral_iget i : neutral (iget i).
Proof. apply neutral_still. intros s. unfold iget. by destruct (iget_locked _ _). Qed.

Lemma neutral_client_call {A} (op : fs -> A * fs) : neutral (client_call op).
Proof. apply neutral_still. intros s. unfold client_call. by destruct (op _). Qed.

Lemma neutral_lock_list p : neutral (lock_list p).
Proof. apply neutral_still. intros s. unfold lock_list. by case_decide. Qed.

Lemma neutral_unlock_list p : neutral (unlock_list p).
Proof. by apply neutral_still. Qed.

Lemma neutral_lookup_path p : neutral (lookup_path p).
Proof.
  apply neutral_still. intros s. unfold lookup_path, dget, mntget, mbind, stm_bind.
  destruct (kern_path _ _) as [e | [m d]]; [done |]. simpl. by destruct (d =? 0).
Qed.

Lemma costs_kalloc : costs 0 kalloc (fun ok => if ok : bool then 1 else 0).
Proof. intros s. unfold kalloc, slack. destruct (k_oom s) as [|[] ?]; simpl; lia. Qed.

Lemma costs_kfree : costs 1 kfree (fun _ => 0).
Proof. intros s. unfold kfree, modify, slack. simpl. lia. Qed.

(** A call that hands out credits, on top of those that are held. *)
Lemma credit_bind {A B} k (m : kernel A) (f : A -> kernel B) g h :
  0 <= k -> costs 0 m g -> (forall a, costs (k + g a) (f a) h) -> costs k (m ≫= f) h.
Proof.
  intros Hk Hm Hf s. unfold mbind, stm_bind. specialize (Hm s). destruct (m s) as [[[]|a] s1]; try done; [lia |].
  specialize (Hf a s1). destruct (f a s1) as [[[]|b] s2]; try done; lia.
Qed.

(** A call that takes a credit. *)
Lemma pay_bind {A B} k c (m : kernel A) (f : A -> kernel B) h :
  c <= k -> costs c m (fun _ => 0) -> (forall a, costs (k - c) (f a) h) -> costs k (m ≫= f) h.
Proof.
  intros Hk Hm Hf. eapply (costs_bind _ _ _ (fun _ => k - c)); [| done].
  eapply costs_weaken; [exact Hm | done | intros; simpl; lia].
Qed.
End slack.

Abbreviation neutral m := (costs 0 m (fun _ => 0)).

#[export] Hint Resolve neutral_gets neutral_deref neutral_get_inode neutral_get_dentry neutral_get_file
  neutral_put_file neutral_dget neutral_dput neutral_mntget neutral_mntput neutral_iput neutral_iget
  neutral_client_call neutral_lock_list neutral_unlock_list neutral_lookup_path costs_bug costs_undef costs_kfree : costs.
#[export] Hint Resolve costs_kalloc costs_try : credits.
#[export] Hint Extern 1 (costs _ (mthrow (Errno _)) _) => (apply costs_errno; lia) : costs.
#[export] Hint Extern 1 (costs _ (mret _) _) => (apply costs_ret; simpl; lia) : costs.

(** One step along the code, and all of them. *)
Ltac pays1 :=
  first
    [ solve [auto with costs]
    | solve [auto with credits]
    | simple apply neutral_bind; [lia | solve [auto with costs] | intros ?]
    | eapply credit_bind; [lia | solve [eauto 3 with credits] | intros ?; cbn beta; simpl Z.add]
    | eapply (pay_bind _ 1); [lia | solve [auto with costs] | intros ?; simpl Z.sub]
    | simple apply neutral_bind; [lia | | intros ?]
    | simple apply neutral_try
    | simple apply neutral_loop; intros ?
    | case_match; simpl Z.add ].
Ltac pays := repeat pays1.

Section code.
Context `{ClientFS}.

(** ** cont.c *)

Lemma neutral_get_set_cont_data i name value set : neutral (get_set_cont_data i name value set).
Proof.
  unfold get_set_cont_data. destruct set; [| pays].
  apply neutral_still. intros s. destruct (setxattr _ _ _ _) as [e f]. by destruct (e =? 0).
Qed.

#[local] Hint Resolve neutral_get_set_cont_data : costs.

Lemma neutral_get_cont_data i : neutral (get_cont_data i).
Proof. unfold get_cont_data. pays. Qed.

Lemma neutral_dentry_inode d : neutral (dentry_inode d).
Proof. unfold dentry_inode. pays. Qed.

#[local] Hint Resolve neutral_get_cont_data neutral_dentry_inode : costs.

Lemma neutral_set_cont_data_dentry d cd : neutral (set_cont_data_dentry d cd).
Proof. unfold set_cont_data_dentry, set_cont_data. pays. Qed.

#[local] Hint Resolve neutral_set_cont_data_dentry : costs.

Lemma neutral_init_cont_data d : neutral (chunkfs_init_cont_data d).
Proof. unfold chunkfs_init_cont_data. pays. Qed.

(** A continuation that was loaded may be freed once. *)
Lemma costs_load d id : costs 0 (load_continuation d id) (fun _ => 1).
Proof. unfold load_continuation. pays. Qed.

Lemma costs_put_continuation c : costs 1 (chunkfs_put_continuation c) (fun _ => 0).
Proof. unfold chunkfs_put_continuation. pays. Qed.

#[local] Hint Resolve costs_put_continuation : costs.

Lemma costs_getname : costs 0 getname (fun _ => 1).
Proof. unfold getname. pays. Qed.

(** Whether a continuation was loaded. *)
Definition loaded_cont (o : option chunkfs_continuation) : Z := match o with Some _ => 1 | None => 0 end.

Lemma neutral_inode_of_dentry p : neutral (inode_of_dentry p).
Proof. unfold inode_of_dentry. pays. Qed.

Lemma neutral_get_client_dentry p : neutral (get_client_dentry p).
Proof. unfold get_client_dentry, CHUNKFS_D. pays. Qed.

Lemma neutral_get_client_nd p : neutral (get_client_nd p).
Proof. unfold get_client_nd, CHUNKFS_D. pays. Qed.

#[local] Hint Resolve neutral_init_cont_data neutral_inode_of_dentry neutral_get_client_dentry
  neutral_get_client_nd : costs.
#[local] Hint Resolve costs_load costs_getname : credits.

Lemma costs_get_next_cont d prev : costs 0 (chunkfs_get_next_cont d prev) loaded_cont.
Proof. unfold chunkfs_get_next_cont, path_put. pays. Qed.

(** ** Searching *)

(** Every errno that [m] returns is an error. *)
Definition real_errors {A} (m : kernel A) : Prop := forall s e s', m s = (inl (Errno e), s') -> e <> 0.

Lemma real_bind {A B} (m : kernel A) (f : A -> kernel B) :
  real_errors m -> (forall a, real_errors (f a)) -> real_errors (m ≫= f).
Proof.
  intros Hm Hf s e s'. unfold mbind, stm_bind. destruct (m s) as [[x|a] s1] eqn:He; [| apply Hf].
  intros [= -> ->]. by eapply Hm.
Qed.

Lemma real_errno {A} e : e <> 0 -> real_errors (mthrow (Errno e) : kernel A).
Proof. by intros He s e' s' [= <-]. Qed.

Lemma real_none {A} (m : kernel A) : no_errno m -> real_errors m.
Proof. intros Hm s e s' He. by destruct (Hm s e s'). Qed.

(** The error of a call that is tested is one. *)
Lemma real_try_bind {A B} (m : kernel A) (f : Z + A -> kernel B) :
  real_errors m -> (forall r, (forall e, r = inl e -> e <> 0) -> real_errors (f r)) -> real_errors (try m ≫= f).
Proof.
  intros Hm Hf s e s'. unfold mbind, stm_bind, try. destruct (m s) as [[[x| | | |]|a] s1] eqn:He; try done.
  - apply (Hf (inl x)). intros x' [= <-]. by eapply Hm.
  - by apply (Hf (inr a)).
Qed.

Lemma real_kfree : real_errors kfree.
Proof. by intros s e s'. Qed.

Lemma real_mntput : real_errors mntput.
Proof. by intros s e s'. Qed.

Lemma real_lookup_any {A} (m : kernel A) (e0 : Z) (f : A -> kernel (option chunkfs_continuation)) :
  e0 <> 0 -> (forall a, real_errors (f a)) ->
  real_errors (r ← try m; kfree;; match r with inl _ => mthrow (Errno e0) | inr a => f a end).
Proof.
  intros He Hf. apply real_bind; [apply real_none, no_errno_try | intros r].
  apply real_bind; [apply real_kfree | intros []]. destruct r; [by apply real_errno | apply Hf].
Qed.

Context `{!ClientErrors}.

Ltac real := repeat first
  [ solve [auto using real_kfree, real_mntput]
  | solve [apply real_none; no_errno]
  | simple apply real_try_bind; [| intros ? ?]
  | simple apply real_bind; [| intros ?]
  | solve [apply real_errno; (done || auto)]
  | case_match; subst ].

Lemma real_get_set i name : real_errors (get_set_cont_data i name 0 false).
Proof.
  unfold get_set_cont_data. apply real_bind; [real | intros f].
  destruct (getxattr f i _) as [e|v] eqn:He; [apply real_errno; by eapply getxattr_error | real].
Qed.

Lemma real_dentry_inode d : real_errors (dentry_inode d).
Proof. unfold dentry_inode. real. Qed.

#[local] Hint Resolve real_get_set real_dentry_inode : core.

Lemma real_load d id : real_errors (load_continuation d id).
Proof. unfold load_continuation, get_cont_data. real. Qed.

#[local] Hint Resolve real_load : core.

Lemma real_get_next_cont d prev : real_errors (chunkfs_get_next_cont d prev).
Proof.
  unfold chunkfs_get_next_cont, inode_of_dentry, get_client_dentry, CHUNKFS_D, getname, path_put.
  apply real_bind; [real | intros head]. apply real_bind; [real | intros hi].
  destruct prev as [prev|]; [| real]. cbv zeta. destruct (_ =? _); [real |]. destruct (_ =? _); [real |].
  apply real_bind; [real | intros []]. apply real_lookup_any; [done |]. intros [m d']. real.
Qed.

(** The search hands out the part that it returns. *)
Lemma costs_get_cont_at_offset fuel junk d offset :
  costs 0 (chunkfs_get_cont_at_offset fuel junk d offset) (fun _ => 1).
Proof.
  unfold chunkfs_get_cont_at_offset. do 2 pays1.
  eapply credit_bind with (g := fun v => if v.1 =? 0 then loaded_cont v.2 else 0); [lia | |].
  - apply (costs_loop fuel _ (fun _ => 0)). intros [prev next]. intros s. unfold find_cont_step, mbind, stm_bind, try.
    pose proof (costs_get_next_cont d prev s) as Hc. pose proof (real_get_next_cont d prev s) as Hr.
    destruct (chunkfs_get_next_cont d prev s) as [[[e| | | |]|[c|]] s1]; try done; simpl in *.
    + specialize (Hr e s1 eq_refl). rewrite (proj2 (Z.eqb_neq e 0) Hr). lia.
    + destruct (in_cont _ _); simpl; lia.
  - intros [e [c|]]; simpl fst; simpl snd; simpl loaded_cont; [| destruct (e =? 0); pays].
    destruct (e =? 0); simpl Z.add; pays.
Qed.

#[local] Hint Resolve costs_get_cont_at_offset : credits.

Lemma neutral_filp_open_create path : neutral (filp_open_create path).
Proof. apply neutral_still. intros s. unfold filp_open_create. by destruct (open_create _ _) as [[|] ?]. Qed.

#[local] Hint Resolve neutral_filp_open_create : costs.

Lemma costs_last_cont fuel d : costs 0 (loop fuel NoFuel (last_cont_step d) None) loaded_cont.
Proof.
  apply (costs_loop fuel _ loaded_cont loaded_cont None). intros prev. unfold last_cont_step.
  apply (credit_bind (loaded_cont prev) _ _ loaded_cont); [by destruct prev | apply costs_get_next_cont |].
  intros [c|]; destruct prev as [c'|]; simpl; pays.
Qed.

Lemma costs_create_continuation fuel d pos : costs 0 (chunkfs_create_continuation fuel d pos) (fun _ => 1).
Proof.
  unfold chunkfs_create_continuation. eapply credit_bind; [lia | apply costs_last_cont |].
  intros [prev|]; simpl; [| pays]. unfold create_continuation_after. cbv zeta. pays.
Qed.

#[local] Hint Resolve costs_create_continuation : credits.

(** ** inode.c *)

Lemma neutral_put_inode p i s r s' :
  is_Some (k_inodes s !! p) -> put_inode p i s = (r, s') -> slack s' = slack s.
Proof.
  intros [i0 Hp] [= _ <-]. unfold slack. simpl. by rewrite map_size_insert_Some.
Qed.

Lemma neutral_sum_sizes fuel i v : neutral (loop fuel NoFuel (sum_sizes_step i) v).
Proof. apply neutral_loop. intros v'. unfold sum_sizes_step, chunkfs_get_next_inode, get_cont_data_inode. pays. Qed.

Lemma neutral_copy_up_inode fuel p c : neutral (chunkfs_copy_up_inode fuel p c).
Proof.
  intros s. unfold chunkfs_copy_up_inode, copy_inode_up, get_inode, gets, mbind, stm_bind.
  destruct (k_inodes s !! p) as [i|] eqn:Hp; [| done]. simpl. set (i' := with_attr i _).
  assert (keeps quiet (loop fuel NoFuel (sum_sizes_step i') (None, 0))) as Hq by keeps.
  specialize (Hq s). pose proof (neutral_sum_sizes fuel i' (None, 0) s) as Hn. unfold runs in Hq.
  destruct (loop fuel NoFuel (sum_sizes_step i') (None, 0) s) as [[[]|n] s1]; try done. destruct Hq as [Hq _].
  destruct (put_inode p (with_size i' n) s1) as [r s2] eqn:Hput.
  assert (slack s2 = slack s1) as Hs by (eapply neutral_put_inode; [| exact Hput]; rewrite (qu_inodes _ _ Hq), Hp; by eexists).
  injection Hput as <- <-. lia.
Qed.

#[local] Hint Resolve neutral_copy_up_inode : costs.

Lemma neutral_start_inode fuel p c chunk_id : neutral (chunkfs_start_inode fuel p c chunk_id).
Proof.
  unfold chunkfs_start_inode. destruct c as [c|]; [| pays]. intros s. unfold get_inode, gets, mbind, stm_bind.
  destruct (k_inodes s !! p) as [i|] eqn:Hp; [| done]. simpl.
  match goal with |- context [chunkfs_copy_up_inode fuel p c ?st] =>
    pose proof (neutral_copy_up_inode fuel p c st) as Hn;
    assert (slack st = slack s) as Hs by (unfold slack; simpl; by rewrite map_size_insert_Some by by eexists)
  end.
  destruct (chunkfs_copy_up_inode _ _ _ _) as [[[]|n] s1]; try done; lia.
Qed.

Lemma neutral_write_inode p : neutral (chunkfs_write_inode p).
Proof. unfold chunkfs_write_inode, copy_down_inode. pays. Qed.

#[local] Hint Resolve neutral_start_inode : costs.

(** ** file.c and dir.c *)

Lemma neutral_open_client m d : neutral (open_client m d).
Proof. apply neutral_still. intros s. unfold open_client. by destruct (_ =? _). Qed.

Lemma neutral_file_inode p : neutral (file_inode p).
Proof. unfold file_inode. pays. Qed.

#[local] Hint Resolve neutral_open_client neutral_file_inode : costs.

Lemma costs_open_cont_file fuel junk p pos : costs 0 (chunkfs_open_cont_file fuel junk p pos) (fun _ => 1).
Proof. unfold chunkfs_open_cont_file. pays. Qed.

Lemma costs_close_cont_file fuel p client cont : costs 1 (chunkfs_close_cont_file fuel p client cont) (fun _ => 0).
Proof. unfold chunkfs_close_cont_file, copy_up_file. pays. Qed.

#[local] Hint Resolve costs_open_cont_file : credits.
#[local] Hint Resolve costs_close_cont_file : costs.

Lemma neutral_read fuel junk p len pos : neutral (chunkfs_read fuel junk p len pos).
Proof. unfold chunkfs_read, client_read. pays. Qed.

Lemma neutral_write fuel junk p data pos : neutral (chunkfs_write fuel junk p data pos).
Proof.
  unfold chunkfs_write. eapply credit_bind; [lia | apply costs_try, costs_open_cont_file |].
  intros r. eapply (costs_bind _ _ _ (fun _ => 1)); [destruct r; simpl Z.add; pays |]. intros [[c cont] pos'].
  unfold client_write. pays.
Qed.

Lemma neutral_open fuel junk p : neutral (chunkfs_open fuel junk p).
Proof. unfold chunkfs_open. pays. Qed.

Lemma neutral_fsync fuel p start stop_ datasync : neutral (chunkfs_fsync_file fuel p start stop_ datasync).
Proof.
  unfold chunkfs_fsync_file. do 3 pays1. apply neutral_bind; [lia | | intros; pays].
  apply neutral_loop. intros v. unfold fsync_step.
  eapply (credit_bind _ _ _ (fun r => match r with inr o => loaded_cont o | inl _ => 0 end)); [lia | apply costs_try, costs_get_next_cont |].
  intros [e|[c|]]; simpl; pays.
Qed.

Lemma neutral_setattr fuel d attr : neutral (chunkfs_setattr fuel d attr).
Proof. unfold chunkfs_setattr. pays. Qed.

Lemma neutral_permission ip submask : neutral (chunkfs_permission ip submask).
Proof. unfold chunkfs_permission. pays. Qed.

Lemma neutral_dir_llseek fuel junk p offset origin : neutral (chunkfs_dir_llseek fuel junk p offset origin).
Proof. unfold chunkfs_dir_llseek. pays. Qed.

Lemma neutral_iterate fuel junk p ctx_pos : neutral (chunkfs_iterate fuel junk p ctx_pos).
Proof. unfold chunkfs_iterate. pays. Qed.

(** ** namei.c *)

(** A dentry is changed without a change of who has private data. *)
Lemma slack_put_dentry p d d0 s :
  k_dentries s !! p = Some d0 ->
  slack (set_dentries (<[p := d]> (k_dentries s)) s) = slack s - 2 * (has_fsdata d - has_fsdata d0).
Proof. intros Hp. unfold slack. simpl. rewrite (privs_insert _ _ _ _ Hp). lia. Qed.

Lemma neutral_put_nd p nd : neutral (put_nd p nd).
Proof.
  intros s. unfold put_nd, get_dentry, put_dentry, modify, mbind, stm_bind.
  destruct (k_dentries s !! p) as [d|] eqn:Hp; [| done]. simpl. destruct (de_fsdata d) as [dp|] eqn:Hd; [| done]. simpl.
  rewrite (slack_put_dentry _ _ _ _ Hp). unfold has_fsdata. rewrite Hd. simpl. lia.
Qed.

Lemma neutral_add_dentry p d : neutral (chunkfs_add_dentry p d).
Proof.
  intros s. unfold chunkfs_add_dentry, get_dentry, put_dentry, modify, mbind, stm_bind.
  destruct (k_dentries s !! p) as [de|] eqn:Hp; [| done]. simpl. destruct (de_fsdata de) as [dp|] eqn:Hd; [| done]. simpl.
  rewrite (slack_put_dentry _ _ _ _ Hp). unfold has_fsdata. rewrite Hd. simpl. lia.
Qed.

Lemma neutral_d_instantiate p i : neutral (d_instantiate p i).
Proof.
  intros s. unfold d_instantiate, get_dentry, put_dentry, modify, mbind, stm_bind.
  destruct (k_dentries s !! p) as [d|] eqn:Hp; [| done]. simpl. rewrite (slack_put_dentry _ _ _ _ Hp).
  unfold has_fsdata. simpl. lia.
Qed.

(** The two parts of the private data. *)
Lemma neutral_free_dentry p : neutral (chunkfs_free_dentry p).
Proof.
  intros s. unfold chunkfs_free_dentry, CHUNKFS_D, kfree, get_dentry, put_dentry, modify, mbind, stm_bind.
  destruct (k_dentries s !! p) as [d|] eqn:Hp; [| done]. simpl. destruct (de_fsdata d) as [dp|] eqn:Hd; [| done]. simpl.
  rewrite Hp. simpl. unfold slack. simpl. rewrite (privs_insert _ _ _ _ Hp). unfold has_fsdata. rewrite Hd. simpl. lia.
Qed.

Lemma neutral_init_dentry p : neutral (chunkfs_init_dentry p).
Proof.
  intros s. unfold chunkfs_init_dentry, kalloc, kfree, put_dentry, get_dentry, modify, mbind, stm_bind.
  destruct (k_dentries s !! p) as [d|] eqn:Hp; [| done]. simpl. destruct (de_fsdata d) as [dp|] eqn:Hd; [done |].
  assert (forall d', has_fsdata d' <= 1 -> privs (<[p := d']> (k_dentries s)) <= privs (k_dentries s) + 1) as Hi.
  { intros d' Hd'. rewrite (privs_insert _ _ _ _ Hp). unfold has_fsdata at 2. rewrite Hd. lia. }
  specialize (Hi (initialised d) ltac:(done)).
  destruct (k_oom s) as [|[] [|[] ?]] eqn:Ho; simpl; rewrite ?Ho; simpl; unfold slack; simpl; lia.
Qed.

Lemma neutral_new_inode : neutral chunkfs_new_inode.
Proof.
  intros s. unfold chunkfs_new_inode, chunkfs_alloc_inode, kalloc, put_inode, gets, modify, mbind, stm_bind.
  assert (forall s0 b, k_inodes s0 = k_inodes s ->
    size (<[next_address (k_inodes s0) := b]> (k_inodes s0)) = S (size (k_inodes s))) as Hs.
  { intros s0 b ->. apply map_size_insert_None, next_address_fresh. }
  destruct (k_oom s) as [|[] ?]; simpl; unfold slack; simpl; try done; rewrite Hs by done; lia.
Qed.

(** An inode goes with its memory. *)
Lemma neutral_iput_last p : neutral (iput_last p).
Proof.
  intros s. unfold iput_last, chunkfs_clear_inode, chunkfs_destroy_inode, get_inode, iput, kfree, modify, mbind, stm_bind.
  destruct (k_inodes s !! p) as [i|] eqn:Hp; [| done]. simpl. destruct (ii_client_inode i); [| done]. simpl.
  unfold slack. simpl. rewrite map_size_delete_Some by by eexists.
  assert (size (k_inodes s) <> O) as Hne; [| lia]. intros Hz. apply map_size_empty_inv in Hz. rewrite Hz in Hp.
  by rewrite lookup_empty in Hp.
Qed.
#[local] Hint Resolve neutral_put_nd neutral_add_dentry neutral_d_instantiate neutral_free_dentry neutral_init_dentry
  neutral_new_inode neutral_iput_last : costs.

Lemma neutral_release_nd p : neutral (chunkfs_release_nd p).
Proof. unfold chunkfs_release_nd. pays. Qed.

Lemma neutral_init_nd p c id : neutral (chunkfs_init_nd p c id).
Proof. unfold chunkfs_init_nd. pays. Qed.

Lemma neutral_remove_dentry p : neutral (chunkfs_remove_dentry p).
Proof. unfold chunkfs_remove_dentry. pays. Qed.

Lemma neutral_clone_dentry p : neutral (chunkfs_clone_dentry p).
Proof. unfold chunkfs_clone_dentry. pays. Qed.

Lemma neutral_client_dir p : neutral (client_dir p).
Proof. unfold client_dir. pays. Qed.

Lemma neutral_client_of p : neutral (client_of p).
Proof. unfold client_of. pays. Qed.

Lemma neutral_copy_nd dst src : neutral (copy_nd dst src).
Proof. unfold copy_nd. pays. Qed.

#[local] Hint Resolve neutral_release_nd neutral_init_nd neutral_remove_dentry neutral_clone_dentry neutral_client_dir
  neutral_client_of neutral_copy_nd : costs.

Lemma neutral_release_dentry p : neutral (chunkfs_release_dentry p).
Proof. unfold chunkfs_release_dentry. pays. Qed.

Lemma neutral_lookup fuel dir p : neutral (chunkfs_lookup fuel dir p).
Proof. unfold chunkfs_lookup. pays. Qed.

Lemma neutral_make_name fuel dir p before after op :
  neutral before -> neutral after -> neutral (make_name fuel dir p before after op).
Proof. intros Hb Ha. unfold make_name. pays. Qed.

Lemma neutral_create fuel junk dir p mode excl : neutral (chunkfs_create fuel junk dir p mode excl).
Proof.
  unfold chunkfs_create, chunkfs_copy_down_nd, chunkfs_copy_up_nd. pays1. apply neutral_make_name; pays.
Qed.

Lemma neutral_symlink fuel dir p name : neutral (chunkfs_symlink fuel dir p name).
Proof. apply neutral_make_name; pays. Qed.

Lemma neutral_mkdir fuel dir p mode : neutral (chunkfs_mkdir fuel dir p mode).
Proof. apply neutral_make_name; pays. Qed.

Lemma neutral_mknod fuel dir p mode dev : neutral (chunkfs_mknod fuel dir p mode dev).
Proof. apply neutral_make_name; pays. Qed.

Lemma neutral_count f : neutral (modify (fun s => set_icount (f s) s)).
Proof. by apply neutral_still. Qed.

#[local] Hint Resolve neutral_count : costs.

Lemma neutral_link fuel old dir new : neutral (chunkfs_link fuel old dir new).
Proof. unfold chunkfs_link. pays. Qed.

Lemma neutral_unlink fuel dir p : neutral (chunkfs_unlink fuel dir p).
Proof. unfold chunkfs_unlink. pays. Qed.

Lemma neutral_rmdir fuel dir p : neutral (chunkfs_rmdir fuel dir p).
Proof. unfold chunkfs_rmdir. pays. Qed.

Lemma neutral_rename a b c d : neutral (chunkfs_rename a b c d).
Proof. unfold chunkfs_rename. pays. Qed.

Lemma neutral_readlink p buflen : neutral (chunkfs_readlink p buflen).
Proof. unfold chunkfs_readlink. pays. Qed.

Lemma neutral_follow_link p nd : neutral (chunkfs_follow_link p nd).
Proof. unfold chunkfs_follow_link, chunkfs_copy_down_nd, chunkfs_copy_up_nd. pays. Qed.

Lemma neutral_put_link p nd cookie : neutral (chunkfs_put_link p nd cookie).
Proof. unfold chunkfs_put_link, chunkfs_copy_down_nd, chunkfs_copy_up_nd. pays. Qed.

#[local] Hint Resolve neutral_release_dentry neutral_lookup neutral_create neutral_symlink neutral_mkdir neutral_mknod
  neutral_link neutral_unlink neutral_rmdir neutral_rename neutral_readlink neutral_follow_link neutral_put_link
  neutral_read neutral_write neutral_open neutral_fsync neutral_setattr neutral_permission neutral_dir_llseek
  neutral_iterate neutral_write_inode : costs.

(** ** Every step *)

Context `{Mutexes} (default_llseek : Z -> Z -> Z -> kernel Z) (generic_read_dir : kernel Z).
Hypothesis llseek_neutral : forall p offset origin, neutral (default_llseek p offset origin).
Hypothesis read_dir_neutral : neutral generic_read_dir.

Lemma neutral_inode_call g c : neutral (vfs_inode_call g c).
Proof.
  unfold vfs_inode_call. apply neutral_bind; [lia | destruct c; simpl; pays |]. intros ip.
  apply neutral_bind; [lia | pays |]. intros i. destruct (i_op i), c; simpl; pays.
Qed.

Lemma neutral_file_call g c : neutral (vfs_file_call default_llseek generic_read_dir g c).
Proof using All.
  unfold vfs_file_call. apply neutral_bind; [lia | pays |]. intros ip. apply neutral_bind; [lia | pays |].
  intros i. destruct (i_fop i), c; simpl; pays.
Qed.

Lemma neutral_returned {A} (m : kernel A) s r s' :
  neutral m -> m s = (r, s') -> returned r = true -> slack s <= slack s'.
Proof. intros Hm He Hr. specialize (Hm s). rewrite He in Hm. destruct r as [[]|]; try done; lia. Qed.

Lemma neutral_write_super : neutral chunkfs_write_super.
Proof.
  assert (neutral lock_kernel) by (apply neutral_still; intros s; unfold lock_kernel; by destruct (_ <=? 0)).
  assert (neutral unlock_kernel) by by apply neutral_still.
  unfold chunkfs_write_super, chunkfs_commit_super. pays.
Qed.

#[local] Hint Resolve neutral_write_super : costs.

Lemma neutral_d_release p : neutral (vfs_d_release p).
Proof. unfold vfs_d_release. simpl. pays. Qed.

Lemma neutral_vfs_iput ip : neutral (vfs_iput ip).
Proof. unfold vfs_iput. pays. Qed.

#[local] Hint Resolve neutral_vfs_iput : costs.

Lemma neutral_dentry_iput p : neutral (dentry_iput p).
Proof.
  intros s. unfold dentry_iput, get_dentry. unfold mbind at 1, stm_bind at 1. unfold deref.
  destruct (k_dentries s !! p) as [d|] eqn:Hp; simpl; [| done]. destruct (de_inode d) as [ip|]; [| simpl; lia].
  set (s1 := set_dentries (<[p := set_d_inode d None]> (k_dentries s)) s).
  rewrite (bind_ok _ _ s tt s1) by done. pose proof (neutral_vfs_iput ip s1) as Hi.
  assert (slack s1 = slack s) as Hs by (unfold s1; rewrite (slack_put_dentry _ _ _ _ Hp); unfold has_fsdata; simpl; lia).
  destruct (vfs_iput ip s1) as [[[]|[]] s2]; simpl in *; lia || done.
Qed.

(** A dentry that goes takes the objects of its private data out of use. *)
Lemma slack_delete s p : slack s <= slack (set_dentries (delete p (k_dentries s)) s).
Proof.
  unfold slack. simpl. destruct (k_dentries s !! p) as [d|] eqn:Hp; [| by rewrite delete_id].
  rewrite (privs_delete _ _ _ Hp). unfold has_fsdata. destruct (de_fsdata d); lia.
Qed.

Lemma slack_kill s p s' : dentry_kill p s = (inr tt, s') -> slack s <= slack s'.
Proof.
  intros He. unfold dentry_kill in He. apply bind_inv_ok in He as ([] & s1 & Hi & He).
  apply bind_inv_ok in He as ([] & s2 & Hr & He). injection He as <-.
  pose proof (neutral_returned _ _ _ _ (neutral_dentry_iput p) Hi eq_refl).
  pose proof (neutral_returned _ _ _ _ (neutral_d_release p) Hr eq_refl). pose proof (slack_delete s2 p). lia.
Qed.

Lemma slack_step may s s' : vfs_step default_llseek generic_read_dir may s s' -> slack s <= slack s'.
Proof using All.
  intros Hs. destruct Hs as [g c r s' He Hr _|g c r s' He Hr|ip r s' He Hr|r s' He Hr|p name parent d ip Hp _ _
    |q p d ip _ _ _|q|p s' _ He|p s' _ He|f oom].
  - eapply neutral_returned; [apply neutral_inode_call | done..].
  - eapply neutral_returned; [apply neutral_file_call | done..].
  - eapply neutral_returned; [| exact He | done]. unfold vfs_super_call. simpl. pays.
  - eapply neutral_returned; [| exact He | done]. unfold vfs_super_call. simpl. pays.
  - unfold slack. simpl. rewrite privs_insert_new by done. unfold has_fsdata. simpl. lia.
  - done.
  - done.
  - by eapply neutral_returned; [apply neutral_dentry_iput | exact He |].
  - by eapply slack_kill.
  - done.
Qed.
End code.
