(* ===== verification/Counts.v ===== *)
(** * Reference counts of chunkfs inodes

    [names_of m ip]: how many of the dentries [m] have the inode [ip].
    [counted s]: the count of every inode covers its dentries, and the inodes
    that are there are those with a positive count.  [stays m]: the call [m],
    when it returns, leaves all of this alone; [tallies m]: it keeps the counts
    right; [spends ip m]: it does when it is given one reference to [ip] that
    no dentry holds.  None of them touches the mutex of the module. *)

From S2P Require Import Prelude Monad Decimal Client Kernel KernelFacts Judge Pool Uino Cont Inode File Namei NameiProps Quiet Vfs.

Create HintDb counts.

(** ** Names *)

(** How many dentries have the inode [ip]. *)
Definition names_of (m : gmap Z dentry) (ip : Z) : nat :=
  size (filter (fun x => de_inode x.2 = Some ip) m).

(** 1 when the dentry has the inode. *)
Definition has_name (d : dentry) (ip : Z) : nat := if decide (de_inode d = Some ip) then 1 else 0.

Lemma names_of_new m p d ip : m !! p = None -> names_of (<[p := d]> m) ip = (names_of m ip + has_name d ip)%nat.
Proof.
  intros Hp. unfold names_of, has_name. case_decide as Hd.
  - rewrite map_filter_insert_True by done. rewrite map_size_insert_None; [lia |].
    apply map_lookup_filter_None. by left.
  - rewrite map_filter_insert_False by done. rewrite delete_id by done. lia.
Qed.

Lemma names_of_delete m p d ip : m !! p = Some d -> names_of m ip = (names_of (delete p m) ip + has_name d ip)%nat.
Proof.
  intros Hp. rewrite <-(insert_delete_id m p d Hp) at 1. apply names_of_new. apply lookup_delete_eq.
Qed.

Lemma names_of_insert m p d d0 ip :
  m !! p = Some d0 -> (names_of (<[p := d]> m) ip + has_name d0 ip = names_of m ip + has_name d ip)%nat.
Proof.
  intros Hp. rewrite <-insert_delete_eq, names_of_new, (names_of_delete m p d0) by (done || apply lookup_delete_eq). lia.
Qed.

(** Only the inodes of the dentries matter. *)
Lemma names_of_same m m' ip : de_inode <$> m = de_inode <$> m' -> names_of m ip = names_of m' ip.
Proof.
  assert (forall n : gmap Z dentry, names_of n ip = size (filter (fun x => x.2 = Some ip) (de_inode <$> n))) as Hn.
  { intros n. unfold names_of. by rewrite map_filter_fmap, map_size_fmap. }
  intros He. by rewrite !Hn, He.
Qed.

Lemma names_of_none m ip : names_of m ip = 0%nat -> forall p d, m !! p = Some d -> de_inode d <> Some ip.
Proof.
  intros Hn p d Hp Hd. rewrite (names_of_delete _ _ _ _ Hp) in Hn. unfold has_name in Hn. rewrite decide_True in Hn by done. lia.
Qed.

(** A negative dentry becomes a name of the inode. *)
Lemma names_of_more m p de de' ip :
  m !! p = Some de -> de_inode de = None -> de_inode de' = Some ip ->
  names_of (<[p := de']> m) ip = S (names_of m ip).
Proof.
  intros Hp Hn Hs. pose proof (names_of_insert m p de' de ip Hp) as Hi. unfold has_name in Hi.
  rewrite Hn, Hs, decide_False, decide_True in Hi by done. lia.
Qed.

Section counts.
Context `{ClientFS}.

(** ** The invariant *)

Record counted (s : kstate) : Prop := {
  ct_names ip : Z.of_nat (names_of (k_dentries s) ip) <= count (k_icount s) ip;
  ct_alive ip : is_Some (k_inodes s !! ip) <-> 0 < count (k_icount s) ip;
}.

Record still (s s' : kstate) : Prop := {
  sl_icount : k_icount s' = k_icount s;
  sl_inodes ip : is_Some (k_inodes s' !! ip) <-> is_Some (k_inodes s !! ip);
  sl_dentries : de_inode <$> k_dentries s' = de_inode <$> k_dentries s;
  sl_mutex : lk_kernel (k_locks s') = lk_kernel (k_locks s);
}.

#[export] Instance still_preorder : PreOrder still.
Proof.
  split; [by intros s |]. intros s1 s2 s3 [] []. split; try congruence.
  intros ip. by rewrite sl_inodes1.
Qed.

Lemma still_names s s' ip : still s s' -> names_of (k_dentries s') ip = names_of (k_dentries s) ip.
Proof. intros []. by apply names_of_same. Qed.

Lemma counted_still s s' : counted s -> still s s' -> counted s'.
Proof.
  intros [] Hst. split; intros ip.
  - by rewrite (still_names _ _ _ Hst), (sl_icount _ _ Hst).
  - by rewrite (sl_inodes _ _ Hst), (sl_icount _ _ Hst).
Qed.

Lemma quiet_still s s' : quiet s s' -> still s s'.
Proof. intros []. split; congruence || (intros; by rewrite qu_inodes). Qed.

(** A dentry is written and keeps its inode. *)
Lemma still_put_dentry s p d d0 :
  k_dentries s !! p = Some d0 -> de_inode d = de_inode d0 -> still s (set_dentries (<[p := d]> (k_dentries s)) s).
Proof.
  intros Hp Hd. split; try done. simpl. rewrite fmap_insert, Hd. apply insert_id. by rewrite lookup_fmap, Hp.
Qed.

(** An inode that is there is written. *)
Lemma still_put_inode s p i : is_Some (k_inodes s !! p) -> still s (set_inodes (<[p := i]> (k_inodes s)) s).
Proof.
  intros Hp. split; try done. intros ip. simpl. destruct (decide (p = ip)) as [-> |]; [| by rewrite lookup_insert_ne].
  by rewrite lookup_insert_eq.
Qed.

(** ** Calls that leave the counts alone *)

(** From [s]; and from every state. *)
Definition stays_at {A} (s : kstate) (m : kernel A) : Prop :=
  forall r s', m s = (r, s') -> returned r = true -> still s s'.
Definition stays {A} (m : kernel A) : Prop := forall s, stays_at s m.

Lemma bind_returned {A B} (m : kernel A) (f : A -> kernel B) s r s' :
  (m ≫= f) s = (r, s') -> returned r = true ->
  (exists e, m s = (inl (Errno e), s') /\ r = inl (Errno e)) \/ exists a s1, m s = (inr a, s1) /\ f a s1 = (r, s').
Proof.
  unfold mbind, stm_bind. destruct (m s) as [[e|a] s1]; [| intros; right; by exists a, s1].
  intros [= <- <-] Hr. destruct e; try done. left. by eexists.
Qed.

Lemma stays_at_bind {A B} s (m : kernel A) (f : A -> kernel B) :
  stays_at s m -> (forall a s1, m s = (inr a, s1) -> still s s1 -> stays_at s1 (f a)) -> stays_at s (m ≫= f).
Proof.
  intros Hm Hf r s' He Hr. destruct (bind_returned _ _ _ _ _ He Hr) as [(e & H1 & ->) | (a & s1 & H1 & H2)].
  - by apply (Hm _ _ H1).
  - pose proof (Hm _ _ H1 eq_refl) as Hst. transitivity s1; [done |]. by eapply Hf.
Qed.

Lemma stays_bind {A B} (m : kernel A) (f : A -> kernel B) : stays m -> (forall a, stays (f a)) -> stays (m ≫= f).
Proof. intros Hm Hf s. apply stays_at_bind; [apply Hm |]. intros a s1 _ _. apply Hf. Qed.

Lemma stays_try {A} (m : kernel A) : stays m -> stays (try m).
Proof.
  intros Hm s r s'. unfold try. destruct (m s) as [[[e| | | |]|a] s1] eqn:He; intros [= <- <-] Hr; try done;
    by apply (Hm _ _ _ He).
Qed.

Lemma stays_quiet {A} (m : kernel A) : keeps quiet m -> stays m.
Proof.
  intros Hm s r s' He Hr. specialize (Hm s). unfold runs in Hm. rewrite He in Hm.
  destruct r as [[]|]; try done; apply quiet_still; [done | by destruct Hm].
Qed.

(** A computation that changes the state in a way that is known. *)
Lemma stays_modify f : (forall s, still s (f s)) -> stays (modify f : kernel unit).
Proof. intros Hf s r s' [= <- <-] _. apply Hf. Qed.

Lemma stays_lock_list p : stays (lock_list p).
Proof. intros s r s'. unfold lock_list. case_decide; intros [= <- <-] Hr; [done |]. by split. Qed.

Lemma stays_unlock_list p : stays (unlock_list p).
Proof. apply stays_modify. intros s. by split. Qed.

Lemma stays_put_file p f : stays (put_file p f).
Proof. apply stays_modify. intros s. by split. Qed.

(** What was there is looked up, quiet code runs, and it is written over. *)
Lemma stays_get_dentry {A} p (k : dentry -> kernel A) :
  (forall s d, k_dentries s !! p = Some d -> stays_at s (k d)) -> stays (d ← get_dentry p; k d).
Proof.
  intros Hk s r s'. unfold get_dentry. unfold mbind, stm_bind. destruct (k_dentries s !! p) as [d|] eqn:Hp.
  - apply (Hk s d Hp).
  - by intros [= <- <-].
Qed.

Lemma stays_get_inode {A} p (k : inode -> kernel A) :
  (forall s i, k_inodes s !! p = Some i -> stays_at s (k i)) -> stays (i ← get_inode p; k i).
Proof.
  intros Hk s r s'. unfold get_inode. unfold mbind, stm_bind. destruct (k_inodes s !! p) as [i|] eqn:Hp.
  - apply (Hk s i Hp).
  - by intros [= <- <-].
Qed.

Lemma stays_at_quiet {A B} s (m : kernel A) (f : A -> kernel B) :
  keeps quiet m -> (forall a s1, quiet s s1 -> stays_at s1 (f a)) -> stays_at s (m ≫= f).
Proof.
  intros Hm Hf. apply stays_at_bind; [by apply stays_quiet |]. intros a s1 He _. apply Hf.
  specialize (Hm s). unfold runs in Hm. rewrite He in Hm. apply Hm.
Qed.

Lemma stays_at_put_dentry s p d d0 :
  k_dentries s !! p = Some d0 -> de_inode d = de_inode d0 -> stays_at s (put_dentry p d).
Proof. intros Hp Hd r s' [= <- <-] _. by eapply still_put_dentry. Qed.

Lemma stays_at_put_inode s p i : is_Some (k_inodes s !! p) -> stays_at s (put_inode p i).
Proof. intros Hp r s' [= <- <-] _. by apply still_put_inode. Qed.
End counts.

#[export] Hint Resolve stays_quiet stays_lock_list stays_unlock_list stays_put_file : counts.

(** One step along the code, and all of them. *)
Ltac stays1 :=
  first
    [ solve [auto with counts quiet]
    | simple apply stays_bind; [| intros ?]
    | simple apply stays_try
    | case_match ].
Ltac stays := repeat stays1.

Section code.
Context `{ClientFS}.

(** ** inode.c *)

Lemma stays_copy_up_inode fuel p c : stays (chunkfs_copy_up_inode fuel p c).
Proof.
  apply stays_get_inode. intros s i Hi. apply stays_at_quiet; [keeps | intros j s1 H1].
  apply stays_at_quiet; [keeps | intros n s2 H2]. apply stays_at_put_inode.
  rewrite (qu_inodes _ _ H2), (qu_inodes _ _ H1), Hi. by eexists.
Qed.

#[local] Hint Resolve stays_copy_up_inode : counts.

Lemma stays_start_inode fuel p c chunk_id : stays (chunkfs_start_inode fuel p c chunk_id).
Proof.
  unfold chunkfs_start_inode. destruct c as [c|]; [| stays]. apply stays_get_inode. intros s i Hi.
  apply stays_at_quiet; [keeps | intros f s1 H1].
  apply stays_at_bind; [apply stays_at_put_inode; rewrite (qu_inodes _ _ H1), Hi; by eexists |].
  intros [] s2 _ _. apply stays_copy_up_inode.
Qed.

(** ** Dentries *)

Lemma stays_put_nd p nd : stays (put_nd p nd).
Proof.
  apply stays_get_dentry. intros s d Hd. apply stays_at_quiet; [keeps | intros dp s1 H1].
  eapply stays_at_put_dentry; [by rewrite (qu_dentries _ _ H1) | done].
Qed.

Lemma stays_add_dentry p d : stays (chunkfs_add_dentry p d).
Proof.
  apply stays_get_dentry. intros s de Hd. apply stays_at_quiet; [keeps | intros dp s1 H1].
  eapply stays_at_put_dentry; [by rewrite (qu_dentries _ _ H1) | done].
Qed.

Lemma stays_init_dentry p : stays (chunkfs_init_dentry p).
Proof.
  apply stays_get_dentry. intros s d Hd. destruct (de_fsdata d); [by apply stays_quiet |].
  apply stays_at_quiet; [keeps | intros [] s1 H1]; cbn [negb]; [| by apply stays_quiet, keeps_errno].
  apply stays_at_quiet; [keeps | intros [] s2 H2]; cbn [negb]; [| apply stays_quiet; keeps].
  eapply stays_at_put_dentry; [by rewrite (qu_dentries _ _ H2), (qu_dentries _ _ H1) | done].
Qed.

Lemma stays_free_dentry p : stays (chunkfs_free_dentry p).
Proof.
  unfold chunkfs_free_dentry. do 3 (apply stays_bind; [stays | intros ?]).
  apply stays_get_dentry. intros s d Hd. by eapply stays_at_put_dentry.
Qed.

#[local] Hint Resolve stays_start_inode stays_put_nd stays_add_dentry stays_init_dentry stays_free_dentry : counts.

Lemma stays_init_nd p d chunk_id : stays (chunkfs_init_nd p d chunk_id).
Proof. unfold chunkfs_init_nd. stays. Qed.

Lemma stays_release_dentry p : stays (chunkfs_release_dentry p).
Proof. unfold chunkfs_release_dentry. stays. Qed.

(** ** file.c *)

Lemma stays_copy_up_file p c start : stays (copy_up_file p c start).
Proof. unfold copy_up_file. stays. Qed.

Lemma stays_get_cont_at_offset fuel junk d offset : stays (chunkfs_get_cont_at_offset fuel junk d offset).
Proof. unfold chunkfs_get_cont_at_offset. stays. apply stays_quiet. keeps. Qed.

#[local] Hint Resolve stays_init_nd stays_copy_up_file stays_get_cont_at_offset : counts.

Lemma stays_open_cont_file fuel junk p pos : stays (chunkfs_open_cont_file fuel junk p pos).
Proof. unfold chunkfs_open_cont_file. stays. Qed.

Lemma stays_close_cont_file fuel p c cont : stays (chunkfs_close_cont_file fuel p c cont).
Proof. unfold chunkfs_close_cont_file. stays. Qed.

#[local] Hint Resolve stays_open_cont_file stays_close_cont_file : counts.

Lemma stays_read fuel junk p len pos : stays (chunkfs_read fuel junk p len pos).
Proof. unfold chunkfs_read, client_read. stays. Qed.

Lemma stays_write fuel junk p data pos : stays (chunkfs_write fuel junk p data pos).
Proof. unfold chunkfs_write, client_write. stays. Qed.

Lemma stays_open fuel junk p : stays (chunkfs_open fuel junk p).
Proof. unfold chunkfs_open. stays. Qed.

Lemma stays_fsync fuel p start stop_ datasync : stays (chunkfs_fsync_file fuel p start stop_ datasync).
Proof. unfold chunkfs_fsync_file. stays. apply stays_quiet. keeps. Qed.

Lemma stays_setattr fuel d attr : stays (chunkfs_setattr fuel d attr).
Proof. unfold chunkfs_setattr. stays. Qed.

(** ** namei.c, dir.c, symlink.c *)

Lemma stays_unlink fuel dir d : stays (chunkfs_unlink fuel dir d).
Proof. unfold chunkfs_unlink. stays. Qed.

Lemma stays_rmdir fuel dir d : stays (chunkfs_rmdir fuel dir d).
Proof. unfold chunkfs_rmdir. stays. Qed.

Lemma stays_dir_llseek fuel junk p offset origin : stays (chunkfs_dir_llseek fuel junk p offset origin).
Proof. unfold chunkfs_dir_llseek. stays. Qed.

Lemma stays_iterate fuel junk p ctx_pos : stays (chunkfs_iterate fuel junk p ctx_pos).
Proof. unfold chunkfs_iterate. stays. Qed.

Lemma stays_follow_link d nd : stays (chunkfs_follow_link d nd).
Proof. unfold chunkfs_follow_link, chunkfs_copy_down_nd, chunkfs_copy_up_nd. stays. Qed.

Lemma stays_put_link d nd cookie : stays (chunkfs_put_link d nd cookie).
Proof. unfold chunkfs_put_link, chunkfs_copy_down_nd, chunkfs_copy_up_nd. stays. Qed.
End code.

#[export] Hint Resolve stays_copy_up_inode stays_start_inode stays_put_nd stays_add_dentry stays_init_dentry
  stays_free_dentry stays_init_nd stays_release_dentry stays_read stays_write stays_open stays_fsync stays_setattr
  stays_unlink stays_rmdir stays_dir_llseek stays_iterate stays_follow_link stays_put_link : counts.

(** ** Calls that keep the counts right *)

Section tallies.
Context `{ClientFS}.

Definition tallies {A} (m : kernel A) : Prop := forall s r s', m s = (r, s') -> returned r = true ->
  lk_kernel (k_locks s') = lk_kernel (k_locks s) /\ (counted s -> counted s').

(** One reference to [ip], and no dentry has it. *)
Definition spare (ip : Z) (s : kstate) : Prop :=
  counted s /\ names_of (k_dentries s) ip = 0%nat /\ count (k_icount s) ip = 1.

Definition spends {A} (ip : Z) (m : kernel A) : Prop := forall s r s', m s = (r, s') -> returned r = true ->
  lk_kernel (k_locks s') = lk_kernel (k_locks s) /\ (spare ip s -> counted s').

Lemma tallies_stays {A} (m : kernel A) : stays m -> tallies m.
Proof.
  intros Hm s r s' He Hr. pose proof (Hm _ _ _ He Hr) as Hst. split; [apply Hst | intros Hc; by eapply counted_still].
Qed.

Lemma tallies_bind {A B} (m : kernel A) (f : A -> kernel B) :
  stays m -> (forall a, tallies (f a)) -> tallies (m ≫= f).
Proof.
  intros Hm Hf s r s' He Hr. destruct (bind_returned _ _ _ _ _ He Hr) as [(e & H1 & ->) | (a & s1 & H1 & H2)].
  - by apply (tallies_stays m Hm _ _ _ H1).
  - destruct (tallies_stays m Hm _ _ _ H1 eq_refl) as [L1 C1]. destruct (Hf _ _ _ _ H2 Hr) as [L2 C2].
    split; [congruence | auto].
Qed.

Lemma spare_still ip s s' : spare ip s -> still s s' -> spare ip s'.
Proof.
  intros (Hc & Hn & H1) Hst. split; [by eapply counted_still |].
  by rewrite (still_names _ _ _ Hst), (sl_icount _ _ Hst).
Qed.

Lemma spends_stays {A} ip (m : kernel A) : stays m -> spends ip m.
Proof.
  intros Hm s r s' He Hr. destruct (tallies_stays m Hm _ _ _ He Hr) as [Hl Hc]. split; [done | intros [? _]; auto].
Qed.

Lemma spends_bind {A B} ip (m : kernel A) (f : A -> kernel B) :
  stays m -> (forall a, spends ip (f a)) -> spends ip (m ≫= f).
Proof.
  intros Hm Hf s r s' He Hr. destruct (bind_returned _ _ _ _ _ He Hr) as [(e & H1 & ->) | (a & s1 & H1 & H2)].
  - by apply (spends_stays ip m Hm _ _ _ H1).
  - pose proof (Hm _ _ _ H1 eq_refl) as Hst. destruct (Hf _ _ _ _ H2 Hr) as [L2 C2].
    split; [by rewrite L2, (sl_mutex _ _ Hst) | intros Hs; by eapply C2, spare_still].
Qed.

(** A new inode has one reference. *)
Lemma new_inode_spare s ip s' :
  chunkfs_new_inode s = (inr ip, s') ->
  lk_kernel (k_locks s') = lk_kernel (k_locks s) /\ (counted s -> spare ip s').
Proof.
  intros He. unfold chunkfs_new_inode, chunkfs_alloc_inode in He.
  apply bind_inv_ok in He as (o & s2 & He & Hk). apply bind_inv_ok in He as (b & s1 & Ha & He).
  pose proof (quiet_kalloc s) as Hq. unfold runs in Hq. rewrite Ha in Hq. destruct Hq as [Hq%quiet_still _].
  destruct b; simpl in He; [| injection He as <- <-; done].
  injection He as <- <-. injection Hk as <- <-. set (p := next_address (k_inodes s1)).
  pose proof (next_address_fresh (k_inodes s1)) as Hnew. fold p in Hnew. split; [apply Hq |]. intros Hc0. pose proof (counted_still _ _ Hc0 Hq) as Hc.
  assert (count (k_icount s1) p <= 0) as H0.
  { destruct (decide (0 < count (k_icount s1) p)) as [Hp%(ct_alive _ Hc) |]; [| lia]. rewrite Hnew in Hp. by destruct Hp. }
  pose proof (ct_names _ Hc p) as Hn. unfold spare. simpl. rewrite count_insert_eq. split_and!; [| lia | done].
  split; intros q; simpl; (destruct (decide (p = q)) as [<- | Hne]; [rewrite count_insert_eq | rewrite count_insert_ne by done]).
  - lia.
  - apply (ct_names _ Hc).
  - rewrite lookup_insert_eq. split; [lia | by eexists].
  - rewrite lookup_insert_ne by done. apply (ct_alive _ Hc).
Qed.

Lemma tallies_new_inode {A} (f : Z -> kernel A) :
  (forall ip, spends ip (f ip)) -> tallies (ip ← chunkfs_new_inode; f ip).
Proof.
  intros Hf s r s' He Hr. destruct (bind_returned _ _ _ _ _ He Hr) as [(e & H1 & ->) | (ip & s1 & H1 & H2)].
  - exfalso. revert H1. unfold chunkfs_new_inode, chunkfs_alloc_inode, kalloc, mbind, stm_bind.
    destruct (k_oom s) as [|[] ?]; done.
  - destruct (new_inode_spare _ _ _ H1) as [L1 C1]. destruct (Hf _ _ _ _ H2 Hr) as [L2 C2]. split; [congruence | auto].
Qed.

(** A dentry gets the inode of the reference, or none. *)
Lemma counted_put_dentry s p d d0 :
  counted s -> k_dentries s !! p = Some d0 ->
  (forall ip, Z.of_nat (names_of (k_dentries s) ip + has_name d ip) <= count (k_icount s) ip + Z.of_nat (has_name d0 ip)) ->
  counted (set_dentries (<[p := d]> (k_dentries s)) s).
Proof.
  intros [Hn Ha] Hp Hle. split; intros ip; simpl; [| apply Ha].
  pose proof (names_of_insert (k_dentries s) p d d0 ip Hp). specialize (Hle ip). lia.
Qed.

Lemma d_instantiate_inv p o s r s' :
  d_instantiate p o s = (r, s') -> returned r = true ->
  exists d, k_dentries s !! p = Some d /\ s' = set_dentries (<[p := set_d_inode d o]> (k_dentries s)) s.
Proof.
  unfold d_instantiate, get_dentry, put_dentry, modify, mbind, stm_bind.
  destruct (k_dentries s !! p) as [d|]; simpl; intros [= <- <-] Hr; [by exists d | done].
Qed.

Lemma spends_instantiate ip p : spends ip (d_instantiate p (Some ip)).
Proof.
  intros s r s' He Hr. destruct (d_instantiate_inv _ _ _ _ _ He Hr) as (d & Hd & ->). split; [done |].
  intros (Hc & Hn & H1). eapply counted_put_dentry; [done | exact Hd |]. intros j. pose proof (ct_names _ Hc j).
  unfold has_name at 1. simpl. case_decide as Hj; [injection Hj as <-; rewrite Hn, H1 |]; lia.
Qed.

Lemma tallies_negative p : tallies (d_instantiate p None).
Proof.
  intros s r s' He Hr. destruct (d_instantiate_inv _ _ _ _ _ He Hr) as (d & Hd & ->). split; [done |].
  intros Hc. eapply counted_put_dentry; [done | exact Hd |]. intros j. pose proof (ct_names _ Hc j).
  unfold has_name at 1. simpl. lia.
Qed.

(** The inode that no dentry has goes, with its count. *)
Lemma counted_evict s ip : counted s -> names_of (k_dentries s) ip = 0%nat ->
  counted (set_icount (delete ip (k_icount s)) (set_inodes (delete ip (k_inodes s)) s)).
Proof.
  intros [Hn Ha] H0. split; intros j; simpl; unfold count; rewrite ?lookup_delete.
  - case_decide as Hj; [subst; by rewrite H0 | apply Hn].
  - case_decide as Hj; [split; [by intros [] | simpl; lia] | apply Ha].
Qed.

Lemma iput_last_inv ip s r s' :
  iput_last ip s = (r, s') -> returned r = true ->
  exists f k, s' = set_kmem k (set_icount (delete ip (k_icount s)) (set_inodes (delete ip (k_inodes s)) (set_iref f s))).
Proof.
  unfold iput_last, chunkfs_clear_inode, chunkfs_destroy_inode, get_inode, deref, iput, kfree, modify, mbind, stm_bind.
  destruct (k_inodes s !! ip) as [i|]; simpl; [| by intros [= <- <-]].
  destruct (ii_client_inode i); simpl; [| by intros [= <- <-]]. intros [= _ <-] _. by eexists _, _.
Qed.

Lemma spends_iput_last ip : spends ip (iput_last ip).
Proof.
  intros s r s' He Hr. destruct (iput_last_inv _ _ _ _ He Hr) as (f & k & ->). split; [done |].
  intros (Hc & Hn & _). destruct (counted_evict s ip Hc Hn). by split.
Qed.
End tallies.

#[export] Hint Resolve spends_instantiate spends_iput_last tallies_negative tallies_stays spends_stays : counts.

Section handlers.
Context `{ClientFS}.

(** The error paths after the allocation; [iput_last] ends in an errno. *)
Lemma spends_then {A B} ip (m : kernel A) (k : kernel B) : spends ip m -> stays k -> spends ip (m;; k).
Proof.
  intros Hm Hk s r s' He Hr. destruct (bind_returned _ _ _ _ _ He Hr) as [(e & H1 & ->) | (a & s1 & H1 & H2)].
  - by apply (Hm _ _ _ H1).
  - destruct (Hm _ _ _ H1 eq_refl) as [L1 C1]. destruct (tallies_stays k Hk _ _ _ H2 Hr) as [L2 C2].
    split; [congruence | auto].
Qed.

Lemma tallies_make_name fuel dir p before after op :
  stays before -> stays after -> tallies (make_name fuel dir p before after op).
Proof.
  intros Hb Ha. unfold make_name. apply tallies_bind; [stays | intros [c chunk_id]].
  apply tallies_bind; [stays | intros d]. apply tallies_new_inode. intros ip.
  apply spends_bind; [done | intros _]. apply spends_bind; [stays | intros e].
  destruct (e =? 0); cbn [negb]; [| apply spends_then; [apply spends_iput_last | stays]].
  apply spends_bind; [stays | intros [e' | []]]; [apply spends_then; [apply spends_iput_last | stays] |].
  apply spends_bind; [stays | intros f]. do 2 (apply spends_bind; [stays | intros _]).
  apply spends_bind; [done | intros _]. apply spends_instantiate.
Qed.

Lemma tallies_create fuel junk dir p mode excl : tallies (chunkfs_create fuel junk dir p mode excl).
Proof.
  unfold chunkfs_create, chunkfs_copy_down_nd, chunkfs_copy_up_nd. apply tallies_bind; [stays | intros i].
  apply tallies_make_name; stays.
Qed.

Lemma tallies_symlink fuel dir p name : tallies (chunkfs_symlink fuel dir p name).
Proof. apply tallies_make_name; stays. Qed.

Lemma tallies_mkdir fuel dir p mode : tallies (chunkfs_mkdir fuel dir p mode).
Proof. apply tallies_make_name; stays. Qed.

Lemma tallies_mknod fuel dir p mode dev : tallies (chunkfs_mknod fuel dir p mode dev).
Proof. apply tallies_make_name; stays. Qed.

(** The end of lookup, when the client has answered. *)
Lemma tallies_found fuel p (m : kernel Z) chunk_id (out : Z -> Z -> kernel unit) :
  stays m -> (forall d e, stays (out d e)) ->
  tallies
    (d ← m; f ← gets k_fs;
     match d_inode f d with
     | Some c =>
         inode ← chunkfs_new_inode;
         r ← try (chunkfs_init_cont_data d);
         match r with
         | inl e => out d e
         | inr _ =>
             chunkfs_start_inode fuel inode (Some c) chunk_id;; chunkfs_add_dentry p d;; d_instantiate p (Some inode)
         end
     | None => chunkfs_add_dentry p d;; d_instantiate p None
     end).
Proof.
  intros Hm Hout. apply tallies_bind; [done | intros d]. apply tallies_bind; [stays | intros f].
  destruct (d_inode f d) as [c|]; [| apply tallies_bind; [stays | intros _; apply tallies_negative]].
  apply tallies_new_inode. intros ip. apply spends_bind; [stays | intros [e | []]]; [by apply spends_stays |].
  do 2 (apply spends_bind; [stays | intros _]). apply spends_instantiate.
Qed.

Lemma tallies_lookup fuel dir p : tallies (chunkfs_lookup fuel dir p).
Proof.
  unfold chunkfs_lookup. apply tallies_bind; [stays | intros [c chunk_id]].
  apply tallies_bind; [stays | intros [e | []]]; [apply tallies_stays; stays |].
  apply tallies_bind; [stays | intros [e | d]]; [apply tallies_stays; stays |].
  do 2 (apply tallies_bind; [stays | intros ?]). apply tallies_bind; [stays | intros [|d'|e]].
  - apply tallies_found; [stays | intros; stays].
  - apply tallies_found; [stays | intros; stays].
  - apply tallies_stays. stays.
Qed.

(** A link that fails leaves everything as it was; one that succeeds gives the
    second dentry an inode without a reference. *)
Lemma link_returned fuel old dir new s r s' :
  chunkfs_link fuel old dir new s = (r, s') -> returned r = true ->
  lk_kernel (k_locks s') = lk_kernel (k_locks s) /\ (r <> inr tt -> still s s').
Proof.
  assert (forall ip, let m := modify (fun s => set_icount (<[dir := count (k_icount s) dir + 1]> (k_icount s)) s);;
      d_instantiate new (Some ip) in
    forall s r s', m s = (r, s') -> returned r = true -> lk_kernel (k_locks s') = lk_kernel (k_locks s) /\ r = inr tt) as Hend.
  { intros ip m s1 r1 s1' He Hr. unfold m in He. rewrite (bind_ok _ _ s1 tt
      (set_icount (<[dir := count (k_icount s1) dir + 1]> (k_icount s1)) s1)) in He by done.
    destruct (d_instantiate_inv _ _ _ _ _ He Hr) as (d & Hd & ->). split; [done |].
    revert He. unfold d_instantiate, get_dentry, put_dentry, modify, mbind, stm_bind. rewrite Hd. by intros [= <-]. }
  set (P := fun (m : kernel unit) => forall s r s', m s = (r, s') -> returned r = true ->
    lk_kernel (k_locks s') = lk_kernel (k_locks s) /\ (r <> inr tt -> still s s')).
  assert (forall A (m : kernel A) f, stays m -> (forall a, P (f a)) -> P (m ≫= f)) as Hb.
  { intros A m f Hm Hf s1 r1 s2 He Hr. destruct (bind_returned _ _ _ _ _ He Hr) as [(e & H1 & ->) | (a & s3 & H1 & H2)].
    - pose proof (Hm _ _ _ H1 eq_refl) as Hst. by split; [apply Hst |].
    - pose proof (Hm _ _ _ H1 eq_refl) as Hst. destruct (Hf _ _ _ _ H2 Hr) as [L1 C1].
      split; [by rewrite L1, (sl_mutex _ _ Hst) | intros Hne; transitivity s3; auto]. }
  revert s r s'. change (P (chunkfs_link fuel old dir new)). unfold chunkfs_link.
  do 7 (apply Hb; [stays | intros ?]). case_match.
  - intros s1 r1 s2 [= <- <-] _. by split.
  - apply Hb; [stays | intros _]. intros s1 r1 s2 He Hr. destruct (Hend _ _ _ _ He Hr) as [? ->]. by split.
Qed.
End handlers.

#[export] Hint Resolve tallies_create tallies_symlink tallies_mkdir tallies_mknod tallies_lookup : counts.
