(* ===== verification/Iget.v ===== *)
(** * Inodes by number (inode.c: chunkfs_iget)

    [chunkfs_iget] asks the inode cache of the VFS for the inode of a number
    and fills in one that is new.  An inode that is new is locked until it
    is filled in: who looks it up waits.  No function of the module calls it. *)

From S2P Require Import Prelude Monad Decimal Client Kernel KernelFacts Judge Pool Uino Cont Inode File Namei NameiProps.

Section iget.
Context `{ClientFS}.
(** Whether a client inode is in the cache of the VFS. *)
Context (client_cached : fs -> cino -> bool).

(** The module and the inode cache: the inodes of the module by number, and
    which inodes have the flag I_NEW. *)
Record icache := mk_icache {
  ic_kernel : kstate;
  ic_hash : gmap Z Z;
  ic_new : gset Z;
  ic_client_new : gset cino;
}.

Abbreviation caching := (stm icache stop).

Definition on_kernel {A} (m : kernel A) : caching A := fun x =>
  let '(r, s) := m (ic_kernel x) in (r, mk_icache s (ic_hash x) (ic_new x) (ic_client_new x)).

(** [iget_locked] of the module: [None] for NULL. *)
Definition iget_locked_module (ino : Z) : caching (option Z) := fun x =>
  match ic_hash x !! ino with
  | Some p =>
      if decide (p ∈ ic_new x) then (inl Blocked, x)
      else on_kernel (modify (fun s => set_icount (<[p := count (k_icount s) p + 1]> (k_icount s)) s);; mret (Some p)) x
  | None =>
      match on_kernel kalloc x with
      | (inr true, x) =>
          let p := next_address (k_inodes (ic_kernel x)) in
          on_kernel (put_inode p (mk_inode ino 0 (i_cattr blank_inode) NoOps NoFops None);;
                     modify (fun s => set_icount (<[p := 1]> (k_icount s)) s);; mret (Some p))
            (mk_icache (ic_kernel x) (<[ino := p]> (ic_hash x)) ({[ p ]} ∪ ic_new x) (ic_client_new x))
      | (_, x) => (inr None, x)
      end
  end.

(** The same of a client file system. *)
Definition iget_locked_client (c : cino) : caching (option cino) := fun x =>
  if decide (c ∈ ic_client_new x) then (inl Blocked, x) else
  let new := if client_cached (k_fs (ic_kernel x)) c then ∅ else {[ c ]} in
  on_kernel (iget c) (mk_icache (ic_kernel x) (ic_hash x) (ic_new x) (new ∪ ic_client_new x)).

(** chunkfs_i.h: [unlock_inode], of an inode of the module and of a client. *)
Definition unlock_inode (p : Z) : caching unit :=
  modify (fun x => mk_icache (ic_kernel x) (ic_hash x) (ic_new x ∖ {[ p ]}) (ic_client_new x)).
Definition unlock_client_inode (c : cino) : caching unit :=
  modify (fun x => mk_icache (ic_kernel x) (ic_hash x) (ic_new x) (ic_client_new x ∖ {[ c ]})).

(** The address of the inode, [None] for NULL; ERR_PTR is an errno. *)
Definition chunkfs_iget (fuel : nat) (ino : Z) : caching (option Z) :=
  o ← iget_locked_module ino;
  match o with
  | None => mthrow (Errno ENOMEM)
  | Some p =>
      new ← gets (fun x => bool_decide (p ∈ ic_new x));
      if negb new then mret None else
      i ← on_kernel (get_inode p);
      let chunk_id := UINO_TO_CHUNK_ID (i_ino i) in
      let client_ino := UINO_TO_INO (i_ino i) in
      pi ← on_kernel (o ← gets k_pool; deref o);
      match chunkfs_find_chunk pi chunk_id with
      | None => mthrow Bug
      | Some ci =>
          o ← iget_locked_client (ci_sb ci, client_ino);
          match o with
          | None => mthrow Undef
          | Some c =>
              new ← gets (fun x => bool_decide (c ∈ ic_client_new x));
              if negb new then mret None else
              f ← gets (fun x => k_fs (ic_kernel x));
              if is_bad_inode f c then mthrow Bug else
              on_kernel (chunkfs_start_inode fuel p (Some c) chunk_id);;
              unlock_inode p;;
              unlock_client_inode c;;
              mret None
          end
      end
  end.

(** ** It finds nothing *)

(** A computation whose results are all [None]. *)
Definition finds_nothing {S E A} (m : stm S E (option A)) : Prop :=
  forall s a s', m s = (inr a, s') -> a = None.

Lemma finds_nothing_bind {S E A B} (m : stm S E A) (f : A -> stm S E (option B)) :
  (forall a, finds_nothing (f a)) -> finds_nothing (m ≫= f).
Proof. intros Hf s b s' Hr. apply bind_inv_ok in Hr as (a & s1 & _ & Hr). by eapply Hf. Qed.

Lemma finds_nothing_none {S E A} : finds_nothing (mret None : stm S E (option A)).
Proof. intros s a s'. simpl. by intros [= <-]. Qed.

Lemma finds_nothing_throw {S E A} (e : E) : finds_nothing (mthrow e : stm S E (option A)).
Proof. by intros s a s'. Qed.

(** C40: chunkfs_iget never finds an inode: all it returns is NULL or
    -ENOMEM.  And when the client inode is in the cache of the VFS already,
    as it is when anything uses it, the new inode stays locked: the next
    lookup of the number waits forever; its memory and a reference to the
    client inode stay too. *)
Theorem iget_locks_out fuel ino :
  (forall x r x', chunkfs_iget fuel ino x = (inr r, x') -> r = None) /\
  forall x pi ci, let c := (ci_sb ci, UINO_TO_INO ino) in
    k_oom (ic_kernel x) = [] -> k_pool (ic_kernel x) = Some pi ->
    ic_hash x !! ino = None -> c ∉ ic_client_new x ->
    chunkfs_find_chunk pi (UINO_TO_CHUNK_ID ino) = Some ci ->
    iget_locked (k_fs (ic_kernel x)) c = Some (k_fs (ic_kernel x)) -> client_cached (k_fs (ic_kernel x)) c = true ->
    exists x', chunkfs_iget fuel ino x = (inr None, x') /\
      k_kmem (ic_kernel x') = k_kmem (ic_kernel x) + 1 /\
      count (k_iref (ic_kernel x')) c = count (k_iref (ic_kernel x)) c + 1 /\
      chunkfs_iget fuel ino x' = (inl Blocked, x').
Proof.
  split.
  - intros x r x' Hr. revert x r x' Hr. change (finds_nothing (chunkfs_iget fuel ino)). unfold chunkfs_iget.
    repeat first [ apply finds_nothing_throw | apply finds_nothing_none | apply finds_nothing_bind; intros ? | case_match ].
  - intros x pi ci c Ho Hp Hh Hc Hci Hg Hcached. destruct x as [s hash new cnew]. simpl in *.
    set (p := next_address (k_inodes s)). set (i0 := mk_inode ino 0 (i_cattr blank_inode) NoOps NoFops None).
    set (s1 := set_icount (<[p := 1]> (k_icount s)) (set_inodes (<[p := i0]> (k_inodes s)) (set_kmem (k_kmem s + 1) s))).
    set (x1 := mk_icache s1 (<[ino := p]> hash) ({[ p ]} ∪ new) cnew).
    assert (iget_locked_module ino (mk_icache s hash new cnew) = (inr (Some p), x1)) as R1.
    { unfold iget_locked_module, on_kernel, kalloc. simpl. rewrite Hh, Ho. done. }
    set (s2 := set_iref (<[c := count (k_iref s) c + 1]> (k_iref s)) (set_fs (k_fs s) s1)).
    set (x2 := mk_icache s2 (<[ino := p]> hash) ({[ p ]} ∪ new) (∅ ∪ cnew)).
    assert (iget_locked_client c x1 = (inr (Some c), x2)) as R2.
    { unfold iget_locked_client. simpl. rewrite decide_False by done. rewrite Hcached. unfold on_kernel, iget. simpl.
      by rewrite Hg. }
    exists x2. split_and!; [| done | simpl; by rewrite count_insert_eq |].
    + unfold chunkfs_iget. rewrite (bind_ok _ _ _ _ _ R1), (bind_ok _ _ _ true x1).
      2: { unfold gets. simpl. rewrite bool_decide_eq_true_2; [done | set_solver]. }
      cbn [negb]. rewrite (bind_ok _ _ _ i0 x1) by (unfold on_kernel, get_inode; simpl; by rewrite lookup_insert_eq).
      cbv zeta. change (i_ino i0) with ino.
      rewrite (bind_ok _ _ _ pi x1) by (unfold on_kernel, gets, mbind, stm_bind; simpl; by rewrite Hp).
      rewrite Hci, (bind_ok _ _ _ _ _ R2), (bind_ok _ _ _ false x2).
      2: { unfold gets. simpl. rewrite bool_decide_eq_false_2; [done | set_solver]. }
      done.
    + unfold chunkfs_iget. apply bind_stop. unfold iget_locked_module. simpl. rewrite lookup_insert_eq.
      by rewrite decide_True by set_solver.
Qed.
End iget.
