(* ===== verification/Evolve.v ===== *)
(** * How calls change the structures of the module

    [evolves x s s'] is what a call may do to the inodes, dentries and files
    of the module: an inode with a client inode keeps one, a dentry keeps its
    parent and its private data, a positive dentry stays positive, and a
    dentry is only given an inode when it has private data and the inode has a
    client inode.  The dentry [x] is excepted: it is being set up.  Every
    function of inode.c, file.c, namei.c, symlink.c and dir.c evolves the
    state so, and gives back each mutex it takes. *)

From S2P Require Import Prelude Monad Decimal Client Kernel KernelFacts Judge Pool Uino Cont Inode File Namei NameiProps Quiet.

Section evolves.
Context `{ClientFS}.

(** The inode has a client inode; the dentry has private data, an inode. *)
Definition has_client (s : kstate) (ip : Z) : Prop :=
  exists i c, k_inodes s !! ip = Some i /\ ii_client_inode i = Some c.
Definition has_priv (s : kstate) (p : Z) : Prop :=
  exists de dp, k_dentries s !! p = Some de /\ de_fsdata de = Some dp.
Definition positive (s : kstate) (p : Z) : Prop :=
  exists de ip, k_dentries s !! p = Some de /\ de_inode de = Some ip.

(** The dentry [p] has the inode [ip]. *)
Definition leads_to (s : kstate) (p ip : Z) : Prop :=
  exists de, k_dentries s !! p = Some de /\ de_inode de = Some ip.

Record evolves (x : option Z) (s s' : kstate) : Prop := {
  ev_data : k_data s' = k_data s;
  ev_bad : k_bad s' = k_bad s;
  ev_bh : k_bh s' = k_bh s;
  ev_opens : k_opens s <= k_opens s';
  ev_pool : k_pool s' = k_pool s;
  ev_locks : k_locks s' = k_locks s;
  ev_root : k_root s' = k_root s;
  ev_parent p : de_parent <$> k_dentries s' !! p = de_parent <$> k_dentries s !! p;
  ev_file q : f_dentry <$> k_files s' !! q = f_dentry <$> k_files s !! q;
  ev_client ip : has_client s ip -> has_client s' ip;
  ev_priv p : Some p <> x -> has_priv s p -> has_priv s' p;
  ev_positive p : Some p <> x -> positive s p -> positive s' p;
  ev_setup p : Some p = x -> de_inode <$> k_dentries s' !! p = de_inode <$> k_dentries s !! p;
  ev_leads p ip : Some p <> x -> leads_to s' p ip -> leads_to s p ip \/ has_client s' ip /\ has_priv s' p;
}.

#[export] Instance evolves_preorder x : PreOrder (evolves x).
Proof.
  split; [by intros s; split; auto |]. intros s1 s2 s3 [] []. split; try congruence; try lia; auto.
  { intros p Hx. by rewrite ev_setup1, ev_setup0. }
  intros p ip Hx Hl. destruct (ev_leads1 _ _ Hx Hl) as [Hl1 | ?]; [| by right].
  destruct (ev_leads0 _ _ Hx Hl1) as [? | []]; [by left | right; auto].
Qed.

(** A dentry that was being set up, and has no inode yet, is no exception. *)
Lemma evolves_blank x s s' : evolves (Some x) s s' -> ~ has_priv s x -> ~ positive s x -> evolves None s s'.
Proof.
  intros He Hf Hn. pose proof (ev_setup _ _ _ He x eq_refl) as Hx.
  destruct He. split; try done.
  - intros p _ Hp. destruct (decide (p = x)) as [-> |]; [done | apply ev_priv0; congruence].
  - intros p _ Hp. destruct (decide (p = x)) as [-> |]; [done | apply ev_positive0; congruence].
  - intros p ip _ Hl. destruct (decide (p = x)) as [-> |]; [| apply ev_leads0; congruence].
    exfalso. apply Hn. destruct Hl as (de & Hde & Hin). rewrite Hde in Hx. simpl in Hx.
    destruct (k_dentries s !! x) as [de0|] eqn:He0; [| done]. simpl in Hx. exists de0, ip. split; [done | congruence].
Qed.

(** Equal structures. *)
Lemma evolves_same x s s' :
  k_data s' = k_data s -> k_bad s' = k_bad s -> k_bh s' = k_bh s -> k_opens s <= k_opens s' ->
  k_pool s' = k_pool s -> k_locks s' = k_locks s -> k_root s' = k_root s -> k_dentries s' = k_dentries s ->
  (forall q, f_dentry <$> k_files s' !! q = f_dentry <$> k_files s !! q) ->
  (forall ip, has_client s ip -> has_client s' ip) -> evolves x s s'.
Proof.
  intros ??????? Hd Hf Hc. split; try done; unfold has_priv, positive, leads_to; rewrite ?Hd; auto.
Qed.

Lemma quiet_evolves x s s' : quiet s s' -> evolves x s s'.
Proof.
  intros Hq. apply evolves_same; try apply Hq; intros ?; unfold has_client.
  - by rewrite (qu_files _ _ Hq).
  - by rewrite (qu_inodes _ _ Hq).
Qed.

(** ** Calls

    [steps x m Q s]: from [s], where no list of parts is locked, [m] evolves
    the state; a value satisfies [Q].  Only functions that neither take a
    mutex that is held nor wait have this. *)
Definition unlocked (s : kstate) : Prop := lk_inodes (k_locks s) = ∅.

Definition calls {A} (m : kernel A) : Prop :=
  forall x s, unlocked s -> runs (evolves x) m (fun _ _ => True) s.

Lemma unlocked_evolves x s s' : evolves x s s' -> unlocked s -> unlocked s'.
Proof. unfold unlocked. intros []. by rewrite ev_locks0. Qed.

Lemma quiet_runs {A} x (m : kernel A) s : keeps quiet m -> runs (evolves x) m (fun _ s' => quiet s s') s.
Proof.
  intros Hm. specialize (Hm s). unfold runs in *.
  destruct (m s) as [[[]|a] s']; try done; [by apply quiet_evolves | destruct Hm; split; [by apply quiet_evolves | done]].
Qed.

Lemma calls_quiet {A} (m : kernel A) : keeps quiet m -> calls m.
Proof. intros Hm x s _. eapply runs_weaken. by apply quiet_runs. Qed.

Lemma calls_bind {A B} (m : kernel A) (f : A -> kernel B) :
  calls m -> (forall a, calls (f a)) -> calls (m ≫= f).
Proof.
  intros Hm Hf x s Hs. eapply runs_bind; [by apply Hm |]. intros a s' He _. apply Hf. by eapply unlocked_evolves.
Qed.

Lemma calls_try {A} (m : kernel A) : calls m -> calls (try m).
Proof. intros Hm x s Hs. eapply runs_mono; [by apply runs_try, Hm | done]. Qed.

(** A mutex that is taken and given back around quiet code. *)
Lemma calls_locked {A} p (m : kernel A) : keeps quiet m -> no_errno m -> calls (lock_list p;; v ← m; unlock_list p;; mret v).
Proof.
  intros Hm Hn x s Hs. unfold unlocked in Hs. unfold runs, lock_list, unlock_list, modify.
  unfold mbind at 1, stm_bind at 1. rewrite decide_False by (rewrite Hs; apply not_elem_of_empty).
  set (s1 := set_locks _ s). specialize (Hm s1). unfold runs in Hm.
  unfold mbind, stm_bind. destruct (m s1) as [[[e| | | |]|a] s2] eqn:He; try done; [by apply Hn in He |].
  simpl. destruct Hm as [Hq _]. split; [| done].
  apply evolves_same; simpl; try apply Hq.
  - rewrite (qu_locks _ _ Hq). unfold s1. simpl. rewrite Hs. destruct (k_locks s) as [k l]. simpl in *. subst l.
    f_equal. set_solver.
  - intros q. by rewrite (qu_files _ _ Hq).
  - intros ip. unfold has_client. simpl. by rewrite (qu_inodes _ _ Hq).
Qed.

Lemma calls_lock {A B} p (m : kernel A) (f : A -> kernel B) :
  keeps quiet m -> no_errno m -> (forall v, calls (f v)) -> calls (lock_list p;; v ← m; unlock_list p;; f v).
Proof.
  intros Hm Hn Hf x s Hs.
  pose proof (calls_bind (lock_list p;; v ← m; unlock_list p;; mret v) f (calls_locked p m Hm Hn) Hf x s Hs) as Hc.
  unfold runs in *. enough ((lock_list p;; v ← m; unlock_list p;; f v) s =
    ((lock_list p;; v ← m; unlock_list p;; mret v) ≫= f) s) as -> by done.
  unfold mbind, stm_bind. destruct (lock_list p s) as [[]]; [done |]. by destruct (m k) as [[]].
Qed.

(** ** The objects *)

Lemma runs_get_inode x p s : runs (evolves x) (get_inode p) (fun i s' => s' = s /\ k_inodes s !! p = Some i) s.
Proof. unfold runs, get_inode. destruct (k_inodes s !! p); [| done]. by split. Qed.

Lemma runs_get_dentry x p s : runs (evolves x) (get_dentry p) (fun d s' => s' = s /\ k_dentries s !! p = Some d) s.
Proof. unfold runs, get_dentry. destruct (k_dentries s !! p); [| done]. by split. Qed.

(** An inode is written that has a client inode where one is due. *)
Lemma runs_put_inode x p i s :
  (forall i0, k_inodes s !! p = Some i0 -> ii_client_inode i0 <> None -> ii_client_inode i <> None) ->
  runs (evolves x) (put_inode p i) (fun _ s' => s' = set_inodes (<[p := i]> (k_inodes s)) s) s.
Proof.
  intros Hi. split; [| done]. apply evolves_same; try done.
  intros ip (j & c & Hj & Hc). unfold has_client. simpl. destruct (decide (ip = p)) as [-> | Hne].
  - rewrite lookup_insert_eq. specialize (Hi _ Hj ltac:(congruence)). destruct (ii_client_inode i) eqn:He; [| done].
    by eauto.
  - rewrite lookup_insert_ne by done. by eauto.
Qed.

(** A dentry is written: all but its inode and private data is as before. *)
Lemma evolves_put_dentry x p d d0 s :
  k_dentries s !! p = Some d0 -> de_parent d = de_parent d0 ->
  (Some p <> x -> (de_fsdata d0 <> None -> de_fsdata d <> None) /\ (de_inode d0 <> None -> de_inode d <> None) /\
    forall ip, de_inode d = Some ip -> de_inode d0 = Some ip \/ has_client s ip /\ de_fsdata d <> None) ->
  (Some p = x -> de_inode d = de_inode d0) ->
  evolves x s (set_dentries (<[p := d]> (k_dentries s)) s).
Proof.
  intros H0 Hp Hx Hs. split; try done; simpl.
  - intros q. destruct (decide (q = p)) as [-> |]; [rewrite lookup_insert_eq, H0; simpl; congruence | by rewrite lookup_insert_ne].
  - intros q Hq (de & dp & Hd & He). unfold has_priv. simpl. destruct (decide (q = p)) as [-> |].
    + rewrite lookup_insert_eq. destruct (Hx Hq) as [Hf _]. assert (de = d0) as -> by congruence.
      specialize (Hf ltac:(congruence)). destruct (de_fsdata d) eqn:Hfd; [by eauto | done].
    + rewrite lookup_insert_ne by done. by eauto.
  - intros q Hq (de & ip & Hd & He). unfold positive. simpl. destruct (decide (q = p)) as [-> |].
    + rewrite lookup_insert_eq. destruct (Hx Hq) as [_ [Hf _]]. assert (de = d0) as -> by congruence.
      specialize (Hf ltac:(congruence)). destruct (de_inode d) eqn:Hfd; [by eauto | done].
    + rewrite lookup_insert_ne by done. by eauto.
  - intros q Hq. destruct (decide (q = p)) as [-> |]; [rewrite lookup_insert_eq, H0; simpl; f_equal; auto | by rewrite lookup_insert_ne].
  - intros q ip Hq (de & Hd & He). unfold leads_to, has_priv. simpl in *. destruct (decide (q = p)) as [-> |].
    + rewrite lookup_insert_eq in Hd. injection Hd as <-. destruct (Hx Hq) as (_ & _ & Hl).
      destruct (Hl _ He) as [? | [? Hf]]; [left; by eauto | right]. rewrite lookup_insert_eq.
      destruct (de_fsdata d) eqn:Hfd; [| done]. split; [done | by eauto].
    + rewrite lookup_insert_ne in Hd by done. left. by eauto.
Qed.

Lemma runs_put_dentry x p d d0 s :
  k_dentries s !! p = Some d0 -> de_parent d = de_parent d0 ->
  (Some p <> x -> (de_fsdata d0 <> None -> de_fsdata d <> None) /\ (de_inode d0 <> None -> de_inode d <> None) /\
    forall ip, de_inode d = Some ip -> de_inode d0 = Some ip \/ has_client s ip /\ de_fsdata d <> None) ->
  (Some p = x -> de_inode d = de_inode d0) ->
  runs (evolves x) (put_dentry p d) (fun _ s' => s' = set_dentries (<[p := d]> (k_dentries s)) s) s.
Proof. intros H0 Hp Hx Hs. split; [by eapply evolves_put_dentry | done]. Qed.
End evolves.

#[export] Hint Resolve calls_quiet : evolves.

Ltac calls1 :=
  first
    [ solve [auto with evolves quiet]
    | simple apply calls_bind; [| intros ?]
    | simple apply calls_try
    | case_match ].
Ltac calls := repeat calls1.

Section code.
Context `{ClientFS}.

(** ** inode.c *)

Lemma runs_copy_inode_up x i c s :
  runs (evolves x) (copy_inode_up i c) (fun j s' => s' = s /\ ii_client_inode j = ii_client_inode i) s.
Proof. done. Qed.

Lemma calls_copy_up_inode fuel p c : calls (chunkfs_copy_up_inode fuel p c).
Proof.
  intros x s Hs. unfold chunkfs_copy_up_inode. eapply runs_bind; [apply runs_get_inode |].
  intros i s1 _ [-> Hi]. eapply runs_bind; [apply runs_copy_inode_up |]. intros j s2 _ [-> Hj].
  eapply runs_bind; [apply quiet_runs; keeps |]. intros total s3 _ Hq. eapply runs_weaken, runs_put_inode.
  rewrite (qu_inodes _ _ Hq), Hi. intros i0 [= <-]. simpl. congruence.
Qed.

(** The inode gets a client inode. *)
Lemma runs_start_inode x fuel p c chunk_id s :
  unlocked s -> runs (evolves x) (chunkfs_start_inode fuel p c chunk_id) (fun _ s' => has_client s' p) s.
Proof.
  intros Hs. unfold chunkfs_start_inode. destruct c as [c|]; [| done]. eapply runs_bind; [apply runs_get_inode |].
  intros i s1 _ [-> Hi]. eapply runs_bind; [by apply runs_gets with (Q := fun _ s' => s' = s) |]. intros f s1 _ ->.
  eapply runs_bind; [by apply runs_put_inode |]. intros [] s2 He ->.
  eapply runs_mono; [apply calls_copy_up_inode; by eapply unlocked_evolves |].
  intros [] s3 He3 _. apply (ev_client _ _ _ He3). unfold has_client. simpl. rewrite lookup_insert_eq.
  eexists _, c. split; [done |]. by unfold set_inode_ops.
Qed.

Lemma calls_start_inode fuel p c chunk_id : calls (chunkfs_start_inode fuel p c chunk_id).
Proof. intros x s Hs. by eapply runs_weaken, runs_start_inode. Qed.

(** A new inode has no client inode yet, and is that of no dentry. *)
Lemma runs_alloc_inode x s :
  runs (evolves x) chunkfs_alloc_inode
    (fun o s' => match o with Some p => k_inodes s' !! p = Some blank_inode | None => True end) s.
Proof.
  unfold chunkfs_alloc_inode. eapply runs_bind; [apply quiet_runs, quiet_kalloc |].
  intros [] s1 _ Hq; cbn [negb]; [| by split; [apply evolves_same |]].
  eapply runs_bind; [by apply runs_gets with (Q := fun a s' => s' = s1 /\ a = k_inodes s1) |]. intros m s2 _ [-> ->].
  eapply runs_bind; [apply runs_put_inode |].
  { intros i0 Hi. by rewrite next_address_fresh in Hi. }
  intros [] s3 _ ->. unfold runs. simpl. split; [by apply evolves_same | by rewrite lookup_insert_eq].
Qed.

Lemma runs_new_inode x s :
  runs (evolves x) chunkfs_new_inode (fun p s' => k_inodes s' !! p = Some blank_inode) s.
Proof.
  unfold chunkfs_new_inode. eapply runs_bind; [apply runs_alloc_inode |]. intros [p|] s1 _ Hp; [| done].
  unfold runs. simpl. split; [by apply evolves_same | done].
Qed.

Lemma calls_new_inode : calls chunkfs_new_inode.
Proof. intros x s _. eapply runs_weaken, runs_new_inode. Qed.

(** ** Dentries *)

Lemma runs_put_nd x p nd s :
  runs (evolves x) (put_nd p nd) (fun _ s' => k_inodes s' = k_inodes s) s.
Proof.
  unfold put_nd. eapply runs_bind; [apply runs_get_dentry |]. intros d s1 _ [-> Hd].
  eapply runs_bind; [by apply runs_deref with (Q := fun dp s' => s' = s /\ de_fsdata d = Some dp) |].
  intros dp s1 _ [-> Hdp]. eapply runs_mono; [eapply runs_put_dentry; [exact Hd | done | | done] | by intros _ s' _ ->].
  intros _. split_and!; try done. simpl. auto.
Qed.

Lemma calls_put_nd p nd : calls (put_nd p nd).
Proof. intros x s _. eapply runs_weaken, runs_put_nd. Qed.

#[local] Hint Resolve calls_put_nd calls_copy_up_inode calls_start_inode calls_new_inode : evolves.

Lemma calls_init_nd p d chunk_id : calls (chunkfs_init_nd p d chunk_id).
Proof. unfold chunkfs_init_nd. calls. Qed.

Lemma calls_init_dentry p : calls (chunkfs_init_dentry p).
Proof.
  intros x s Hs. unfold chunkfs_init_dentry. eapply runs_bind; [apply runs_get_dentry |]. intros d s1 _ [-> Hd].
  destruct (de_fsdata d) eqn:Hf; [done |]. eapply runs_bind; [apply quiet_runs, quiet_kalloc |].
  intros [] s1 _ Hq1; cbn [negb]; [| apply runs_errno]. eapply runs_bind; [apply quiet_runs, quiet_kalloc |].
  intros [] s2 _ Hq2; cbn [negb].
  - eapply runs_weaken, runs_put_dentry; [by rewrite (qu_dentries _ _ Hq2), (qu_dentries _ _ Hq1) | done | | done].
    intros _. split_and!; try done. simpl. auto.
  - eapply runs_weaken, quiet_runs. keeps.
Qed.

(** The dentry has private data. *)
Lemma runs_add_dentry x p d s : runs (evolves x) (chunkfs_add_dentry p d) (fun _ s' => has_priv s' p) s.
Proof.
  unfold chunkfs_add_dentry. eapply runs_bind; [apply runs_get_dentry |]. intros de s1 _ [-> Hd].
  eapply runs_bind; [by apply runs_deref with (Q := fun dp s' => s' = s /\ de_fsdata de = Some dp) |].
  intros dp s1 _ [-> Hdp]. eapply runs_mono; [eapply runs_put_dentry; [exact Hd | done | | done] | intros _ s' _ ->].
  - intros _. split_and!; try done. simpl. auto.
  - unfold has_priv. simpl. rewrite lookup_insert_eq. by eauto.
Qed.

Lemma calls_add_dentry p d : calls (chunkfs_add_dentry p d).
Proof. intros x s _. eapply runs_weaken, runs_add_dentry. Qed.

Lemma runs_get_client_dentry p s :
  runs (evolves None) (get_client_dentry p) (fun _ s' => has_priv s' p) s.
Proof.
  unfold get_client_dentry, CHUNKFS_D. unfold runs, get_dentry, mbind, stm_bind.
  destruct (k_dentries s !! p) as [de|] eqn:Hd; simpl; [| done]. destruct (de_fsdata de) eqn:Hf; simpl; [| done].
  split; [done |]. by eexists _, _.
Qed.

(** A dentry with private data gets an inode that has a client inode. *)
Lemma runs_d_instantiate p ip s :
  has_client s ip -> has_priv s p -> runs (evolves None) (d_instantiate p (Some ip)) (fun _ _ => True) s.
Proof.
  intros Hc (de & dp & Hd & Hf). unfold d_instantiate. eapply runs_bind; [apply runs_get_dentry |].
  intros de' s1 _ [-> Hd']. assert (de' = de) as -> by congruence.
  eapply runs_weaken, runs_put_dentry; [exact Hd | done | | done]. intros _. split_and!; try done.
  simpl. intros ip' [= <-]. right. split; [done | congruence].
Qed.

(** ** file.c *)

Lemma calls_put_file p f : calls (fl ← get_file p; put_file p (mk_file (f_dentry fl) (f fl))).
Proof.
  intros x s _. unfold runs, get_file, mbind, stm_bind. destruct (k_files s !! p) as [fl|] eqn:Hf; simpl; [| done].
  split; [| done]. apply evolves_same; try done. intros q. simpl.
  destruct (decide (q = p)) as [-> |]; [by rewrite lookup_insert_eq, Hf | by rewrite lookup_insert_ne].
Qed.

Lemma calls_copy_up_file p c start : calls (copy_up_file p c start).
Proof. apply (calls_put_file p (fun fl => s64 (u64 (cf_pos c + start)))). Qed.

Lemma calls_get_cont_at_offset fuel junk d offset : calls (chunkfs_get_cont_at_offset fuel junk d offset).
Proof.
  unfold chunkfs_get_cont_at_offset. apply calls_bind; [auto with quiet evolves | intros ip]. apply calls_lock.
  - keeps.
  - apply no_errno_loop. intros v. unfold find_cont_step. no_errno.
  - intros v. calls.
Qed.

#[local] Hint Resolve calls_copy_up_file calls_get_cont_at_offset : evolves.

Lemma calls_open_cont_file fuel junk p pos : calls (chunkfs_open_cont_file fuel junk p pos).
Proof. unfold chunkfs_open_cont_file. calls. Qed.

Lemma calls_close_cont_file fuel p c cont : calls (chunkfs_close_cont_file fuel p c cont).
Proof. unfold chunkfs_close_cont_file. calls. Qed.

#[local] Hint Resolve calls_open_cont_file calls_close_cont_file : evolves.

Lemma calls_read fuel junk p len pos : calls (chunkfs_read fuel junk p len pos).
Proof. unfold chunkfs_read, client_read. calls. Qed.

Lemma calls_write fuel junk p data pos : calls (chunkfs_write fuel junk p data pos).
Proof. unfold chunkfs_write, client_write. calls. Qed.

Lemma calls_open fuel junk p : calls (chunkfs_open fuel junk p).
Proof. unfold chunkfs_open. calls. Qed.

Lemma calls_fsync fuel p start stop_ datasync : calls (chunkfs_fsync_file fuel p start stop_ datasync).
Proof.
  unfold chunkfs_fsync_file. apply calls_bind; [auto with quiet evolves | intros f].
  apply calls_bind; [auto with quiet evolves | intros ip]. apply calls_lock.
  - keeps.
  - apply no_errno_loop. intros v. unfold fsync_step, client_call. no_errno.
    intros s e s'. by destruct (file_fsync _ _ _ _ _).
  - intros v. calls.
Qed.

Lemma calls_setattr fuel d attr : calls (chunkfs_setattr fuel d attr).
Proof. unfold chunkfs_setattr. calls. Qed.

(** ** dir.c, symlink.c *)

Lemma calls_dir_llseek fuel junk p offset origin : calls (chunkfs_dir_llseek fuel junk p offset origin).
Proof. unfold chunkfs_dir_llseek. calls. Qed.

Lemma calls_follow_link d nd : calls (chunkfs_follow_link d nd).
Proof. unfold chunkfs_follow_link, chunkfs_copy_down_nd, chunkfs_copy_up_nd. calls. Qed.

Lemma calls_put_link d nd cookie : calls (chunkfs_put_link d nd cookie).
Proof. unfold chunkfs_put_link, chunkfs_copy_down_nd, chunkfs_copy_up_nd. calls. Qed.

(** ** namei.c *)

Lemma calls_unlink fuel dir d : calls (chunkfs_unlink fuel dir d).
Proof. unfold chunkfs_unlink. calls. Qed.

Lemma calls_rmdir fuel dir d : calls (chunkfs_rmdir fuel dir d).
Proof. unfold chunkfs_rmdir. calls. Qed.

Lemma runs_put_file x p f s :
  f_dentry <$> k_files s !! p = Some (f_dentry f) -> runs (evolves x) (put_file p f) (fun _ _ => True) s.
Proof.
  intros Hf. split; [| done]. apply evolves_same; try done. intros q. simpl.
  destruct (decide (q = p)) as [-> |]; [by rewrite lookup_insert_eq, Hf | by rewrite lookup_insert_ne].
Qed.

Lemma calls_iterate fuel junk p ctx_pos : calls (chunkfs_iterate fuel junk p ctx_pos).
Proof.
  intros x s Hs. unfold chunkfs_iterate.
  eapply runs_bind with (Q := fun fl s' => s' = s /\ k_files s !! p = Some fl).
  { unfold runs, get_file. by destruct (k_files s !! p). }
  intros fl s1 _ [-> Hfl]. eapply runs_bind; [by apply calls_open_cont_file |].
  intros [[client cont] pos] s1 He _. pose proof (ev_file _ _ _ He p) as Hf. rewrite Hfl in Hf.
  eapply runs_bind; [by apply runs_put_file |]. intros [] s2 He2 _.
  match goal with |- runs _ ?m _ _ => enough (calls m) as Hm by (apply Hm; eauto using unlocked_evolves) end.
  calls.
Qed.

(** Putting an inode without a client inode follows an uninitialised pointer. *)
Lemma runs_iput_blank {A} x p (e : stop) s :
  k_inodes s !! p = Some blank_inode -> runs (evolves x) (iput_last p;; mthrow e : kernel A) (fun _ _ => True) s.
Proof. intros Hp. unfold runs, iput_last, chunkfs_clear_inode, chunkfs_destroy_inode, get_inode, mbind, stm_bind. by rewrite Hp. Qed.

(** ** Handlers that set up names *)

Definition handles {A} (m : kernel A) : Prop :=
  forall s, unlocked s -> runs (evolves None) m (fun _ _ => True) s.

Lemma calls_handles {A} (m : kernel A) : calls m -> handles m.
Proof. intros Hm s. apply Hm. Qed.

Lemma handles_make_name fuel dir dentry before after op :
  (forall s, runs (evolves None) before (fun _ s' => k_inodes s' = k_inodes s) s) -> calls after ->
  handles (make_name fuel dir dentry before after op).
Proof.
  intros Hb Ha s Hs. unfold make_name. eapply runs_bind; [apply quiet_runs, quiet_client_dir |].
  intros [c chunk_id] s1 E1 _. eapply runs_bind; [apply runs_get_client_dentry |]. intros d s2 E2 Hpriv.
  eapply runs_bind; [apply runs_new_inode |]. intros ip s3 E3 Hip. eapply runs_bind; [apply Hb |].
  intros [] s4 E4 H4. eapply runs_bind; [apply quiet_runs, quiet_client_call |]. intros e s5 E5 H5.
  assert (k_inodes s5 !! ip = Some blank_inode) as Hip5 by (by rewrite (qu_inodes _ _ H5), H4).
  destruct (e =? 0); cbn [negb]; [| by apply runs_iput_blank].
  eapply runs_bind; [apply quiet_runs; keeps |]. intros [e' | []] s6 E6 H6.
  { apply runs_iput_blank. by rewrite (qu_inodes _ _ H6). }
  assert (unlocked s6) as U6 by eauto 10 using unlocked_evolves.
  eapply runs_bind; [by apply runs_gets with (Q := fun _ s' => s' = s6) |]. intros f s7 _ ->.
  eapply runs_bind; [by apply runs_start_inode |]. intros [] s7 E7 Hc.
  eapply runs_bind; [by apply calls_copy_up_inode; eauto using unlocked_evolves |]. intros [] s8 E8 _.
  eapply runs_bind; [by apply Ha; eauto using unlocked_evolves |]. intros [] s9 E9 _.
  apply runs_d_instantiate.
  - by apply (ev_client _ _ _ E9), (ev_client _ _ _ E8).
  - assert (evolves None s2 s9) as E by (repeat (etransitivity; [eassumption |]); reflexivity).
    by apply (ev_priv _ _ _ E).
Qed.

Lemma handles_create fuel junk dir dentry mode excl : handles (chunkfs_create fuel junk dir dentry mode excl).
Proof.
  intros s Hs. unfold chunkfs_create. eapply runs_bind; [apply runs_get_inode |]. intros i s1 _ [-> _].
  apply handles_make_name; [| | done].
  - intros s1. eapply runs_bind; [apply quiet_runs; keeps |]. intros nd s2 _ H2.
    eapply runs_bind; [apply quiet_runs; unfold chunkfs_copy_down_nd; keeps |]. intros nd' s3 _ H3.
    eapply runs_mono; [apply runs_put_nd |]. intros [] s4 _ ->. by rewrite (qu_inodes _ _ H3), (qu_inodes _ _ H2).
  - unfold chunkfs_copy_up_nd. calls.
Qed.

Lemma handles_plain fuel dir dentry op : handles (make_name fuel dir dentry (mret tt) (mret tt) op).
Proof. apply handles_make_name; [by intros s | calls]. Qed.

Lemma handles_symlink fuel dir dentry oldname : handles (chunkfs_symlink fuel dir dentry oldname).
Proof. apply handles_plain. Qed.

Lemma handles_mkdir fuel dir dentry mode : handles (chunkfs_mkdir fuel dir dentry mode).
Proof. apply handles_plain. Qed.

Lemma handles_mknod fuel dir dentry mode dev : handles (chunkfs_mknod fuel dir dentry mode dev).
Proof. apply handles_plain. Qed.

Lemma handles_link fuel old_dentry dir new_dentry : handles (chunkfs_link fuel old_dentry dir new_dentry).
Proof.
  intros s Hs. unfold chunkfs_link. eapply runs_bind; [apply quiet_runs, quiet_client_dir |]. intros cd s1 E1 _.
  eapply runs_bind; [apply quiet_runs; keeps |]. intros ip s2 E2 _.
  eapply runs_bind; [apply runs_get_inode |]. intros i s3 _ [-> Hi].
  eapply runs_bind; [by apply runs_deref with (Q := fun c s' => s' = s2 /\ ii_client_inode i = Some c) |].
  intros c s3 _ [-> Hc]. eapply runs_bind; [apply runs_get_client_dentry |]. intros d s3 E3 _.
  eapply runs_bind; [apply runs_get_client_dentry |]. intros d' s4 E4 Hpriv.
  eapply runs_bind; [apply quiet_runs, quiet_client_call |]. intros e s5 E5 _.
  destruct (e =? 0); cbn [negb]; [| apply runs_errno].
  eapply runs_bind; [by apply calls_copy_up_inode; eauto 10 using unlocked_evolves |]. intros [] s6 E6 _.
  eapply runs_bind with (Q := fun _ _ => True).
  { split; [by apply evolves_same | done]. }
  intros [] s7 E7 _. apply runs_d_instantiate.
  - assert (evolves None s2 s7) as E by (repeat (etransitivity; [eassumption |]); reflexivity).
    apply (ev_client _ _ _ E). by eexists _, _.
  - assert (evolves None s4 s7) as E by (repeat (etransitivity; [eassumption |]); reflexivity).
    by apply (ev_priv _ _ _ E).
Qed.

(** ** lookup *)

(** No dangling pointers: the inode of a dentry has a client inode, and the
    dentry private data; the parents of dentries and the dentries of files
    have inodes. *)
Record closed (s : kstate) : Prop := {
  cl_leads p ip : leads_to s p ip -> has_client s ip /\ has_priv s p;
  cl_parent p de : k_dentries s !! p = Some de -> positive s (de_parent de);
  cl_file q f : k_files s !! q = Some f -> positive s (f_dentry f);
}.

Lemma closed_evolves s s' : closed s -> evolves None s s' -> closed s'.
Proof.
  intros [] He. split.
  - intros p ip Hl. destruct (ev_leads _ _ _ He p ip) as [Hl0 | ?]; [done | done | | done].
    destruct (cl_leads0 _ _ Hl0). split; [by apply (ev_client _ _ _ He) | by apply (ev_priv _ _ _ He)].
  - intros p de Hd. pose proof (ev_parent _ _ _ He p) as Hp. rewrite Hd in Hp. simpl in Hp.
    destruct (k_dentries s !! p) as [de0|] eqn:H0; [| done]. injection Hp as ->.
    apply (ev_positive _ _ _ He); [done | by eapply cl_parent0].
  - intros q f Hf. pose proof (ev_file _ _ _ He q) as Hp. rewrite Hf in Hp. simpl in Hp.
    destruct (k_files s !! q) as [f0|] eqn:H0; [| done]. injection Hp as ->.
    apply (ev_positive _ _ _ He); [done | by eapply cl_file0].
Qed.

(** The private data of the exception may go. *)
Lemma runs_free_dentry p s : runs (evolves (Some p)) (chunkfs_free_dentry p) (fun _ _ => True) s.
Proof.
  unfold chunkfs_free_dentry. eapply runs_bind; [apply quiet_runs; keeps |]. intros dp s1 _ _.
  eapply runs_bind; [apply quiet_runs; keeps |]. intros [] s2 _ _. eapply runs_bind; [apply quiet_runs; keeps |].
  intros [] s3 _ _. eapply runs_bind; [apply runs_get_dentry |]. intros d s4 _ [-> Hd].
  eapply runs_weaken, runs_put_dentry; [exact Hd | done | done | done].
Qed.

(** [sets_up p s0 m s]: from [s], which evolved from [s0] but for the dentry
    [p], which was blank there, [m] leads to a state that evolved from [s0]. *)
Definition sets_up {A} (p : Z) (s0 : kstate) (m : kernel A) (s : kstate) : Prop :=
  evolves (Some p) s0 s -> ~ has_priv s0 p -> ~ positive s0 p -> unlocked s0 ->
  match m s with
  | (inr _, s') | (inl (Errno _), s') => evolves None s0 s'
  | (inl Blocked, _) => False
  | (inl _, _) => True
  end.

Lemma sets_up_runs {A} p s0 (m : kernel A) Q s : runs (evolves (Some p)) m Q s -> sets_up p s0 m s.
Proof.
  unfold runs. intros Hm He Hf Hn _. destruct (m s) as [[[]|a] s']; try done; [| destruct Hm as [Hm _]];
    (eapply evolves_blank; [by etransitivity | done | done]).
Qed.

Lemma sets_up_calls {A} p s0 (m : kernel A) s : calls m -> sets_up p s0 m s.
Proof.
  intros Hm He Hf Hn Hu. by eapply sets_up_runs; [apply Hm; by eapply unlocked_evolves | ..].
Qed.

Lemma sets_up_bind {A B} p s0 (m : kernel A) (f : A -> kernel B) Q s :
  (unlocked s -> runs (evolves (Some p)) m Q s) ->
  (forall a s', evolves (Some p) s s' -> Q a s' -> sets_up p s0 (f a) s') -> sets_up p s0 (m ≫= f) s.
Proof.
  intros Hm Hf He H1 H2 Hu. specialize (Hm ltac:(by eapply unlocked_evolves)). revert Hm. unfold runs, mbind, stm_bind.
  destruct (m s) as [[[]|a] s'] eqn:Hr; try done.
  - intros Hm. eapply evolves_blank; [by etransitivity | done | done].
  - intros [Hm HQ]. apply (Hf a s'); try done. by etransitivity.
Qed.

Lemma sets_up_bind_calls {A B} p s0 (m : kernel A) (f : A -> kernel B) s :
  calls m -> (forall a s', sets_up p s0 (f a) s') -> sets_up p s0 (m ≫= f) s.
Proof. intros Hm Hf. eapply sets_up_bind; [by apply Hm | auto]. Qed.

Lemma sets_up_instantiate p s0 i s :
  (forall ip, i = Some ip -> has_client s ip) -> has_priv s p -> sets_up p s0 (d_instantiate p i) s.
Proof.
  intros Hi (de & dp & Hd & Hdp) He Hf Hn Hu. unfold d_instantiate, get_dentry, put_dentry, modify, mbind, stm_bind.
  rewrite Hd. simpl. set (s' := set_dentries _ s).
  destruct i as [ip|].
  - assert (evolves None s0 s -> evolves None s0 s') as Hgo.
    { intros E. etransitivity; [exact E |]. eapply evolves_put_dentry; [exact Hd | done | | done].
      intros _. split_and!; try done. simpl. intros ip' [= <-]. right. split; [by apply Hi | congruence]. }
    apply Hgo. by eapply evolves_blank.
  - eapply evolves_blank; [| done..]. etransitivity; [exact He |].
    eapply evolves_put_dentry; [exact Hd | done | done |]. intros _. simpl.
    pose proof (ev_setup _ _ _ He p eq_refl) as Hs. rewrite Hd in Hs. simpl in Hs.
    destruct (k_dentries s0 !! p) as [de0|] eqn:H0; [| done]. simpl in Hs. injection Hs as ->.
    destruct (de_inode de0) as [ip|] eqn:Hip; [| done]. exfalso. apply Hn. by eexists _, _.
Qed.

#[local] Hint Resolve calls_put_nd calls_copy_up_inode calls_start_inode calls_new_inode calls_init_nd calls_init_dentry
  calls_add_dentry : evolves.

(** The error path of lookup. *)
Lemma sets_up_out_dput p s0 d e s :
  sets_up p s0 (dput d;; chunkfs_release_nd p;; chunkfs_remove_dentry p;; chunkfs_free_dentry p;; mthrow (Errno e) : kernel unit) s.
Proof.
  apply sets_up_bind_calls; [auto with evolves quiet | intros _ s1].
  apply sets_up_bind_calls; [auto with evolves quiet | intros _ s2].
  apply sets_up_bind_calls; [auto with evolves quiet | intros _ s3].
  eapply sets_up_bind; [intros _; apply runs_free_dentry | intros _ s4 _ _]. apply sets_up_calls. calls.
Qed.

(** The end of lookup: the inode of the client dentry gets a chunkfs inode. *)
Lemma sets_up_found p s0 fuel (m : kernel Z) chunk_id (out : Z -> Z -> kernel unit) s :
  keeps quiet m -> (forall d e s, sets_up p s0 (out d e) s) ->
  sets_up p s0
    (d ← m; f ← gets k_fs;
     match d_inode f d with
     | Some c =>
         inode ← chunkfs_new_inode;
         r ← try (chunkfs_init_cont_data d);
         match r with
         | inl e => out d e
         | inr _ =>
             chunkfs_start_inode fuel inode (Some c) chunk_id;; chunkfs_add_dentry p d;; d_instantiate p (Some inode)
         end
     | None => chunkfs_add_dentry p d;; d_instantiate p None
     end) s.
Proof.
  intros Hm Hout. apply sets_up_bind_calls; [by apply calls_quiet | intros d s1].
  apply sets_up_bind_calls; [calls | intros f s2]. destruct (d_inode f d) as [c|].
  - apply sets_up_bind_calls; [calls | intros ip s3]. apply sets_up_bind_calls; [calls | intros [e | []] s4]; [apply Hout |].
    eapply sets_up_bind; [by apply runs_start_inode | intros [] s5 _ Hc].
    eapply sets_up_bind; [intros _; apply runs_add_dentry | intros [] s6 He Hp].
    apply sets_up_instantiate; [| done]. intros ? [= <-]. by apply (ev_client _ _ _ He).
  - eapply sets_up_bind; [intros _; apply runs_add_dentry | intros [] s6 He Hp]. by apply sets_up_instantiate.
Qed.

Lemma sets_up_lookup fuel dir p s : sets_up p s (chunkfs_lookup fuel dir p) s.
Proof.
  unfold chunkfs_lookup. apply sets_up_bind_calls; [auto with evolves quiet | intros [c chunk_id] s1].
  apply sets_up_bind_calls; [calls | intros [e | []] s2].
  { eapply sets_up_bind; [intros _; apply runs_free_dentry | intros _ s3 _ _]. apply sets_up_calls. calls. }
  apply sets_up_bind_calls; [calls | intros [e | d] s3].
  { apply sets_up_bind_calls; [auto with evolves quiet | intros _ s4].
    eapply sets_up_bind; [intros _; apply runs_free_dentry | intros _ s5 _ _]. apply sets_up_calls. calls. }
  apply sets_up_bind_calls; [auto with evolves quiet | intros _ s4].
  apply sets_up_bind_calls; [auto with evolves quiet | intros nd s5].
  apply sets_up_bind_calls; [auto with evolves quiet | intros [|d'|e] s6].
  - apply sets_up_found; [keeps | intros; apply sets_up_out_dput].
  - apply sets_up_found; [keeps | intros; apply sets_up_out_dput].
  - apply sets_up_out_dput.
Qed.

(** A dentry that has private data already is a bug. *)
Lemma lookup_bug fuel dir p s : has_priv s p -> runs (evolves None) (chunkfs_lookup fuel dir p) (fun _ _ => True) s.
Proof.
  intros (de & dp & Hd & Hp). unfold chunkfs_lookup. eapply runs_bind; [apply quiet_runs, quiet_client_dir |].
  intros [c chunk_id] s1 _ Hq. unfold runs, try, chunkfs_init_dentry, get_dentry, mbind, stm_bind.
  rewrite (qu_dentries _ _ Hq), Hd. simpl. by rewrite Hp.
Qed.

Lemma lookup_evolves fuel dir p s :
  closed s -> unlocked s -> runs (evolves None) (chunkfs_lookup fuel dir p) (fun _ _ => True) s.
Proof.
  intros Hcl Hu. assert (has_priv s p \/ ~ has_priv s p) as [Hp | Hp].
  { unfold has_priv. destruct (k_dentries s !! p) as [de|]; [| right; naive_solver].
    destruct (de_fsdata de) as [dp|] eqn:Hf; [left; eauto | right; naive_solver]. }
  - by apply lookup_bug.
  - assert (~ positive s p) as Hn.
    { intros (de & ip & Hd & Hi). destruct (cl_leads _ Hcl p ip) as [_ ?]; [by exists de | done]. }
    pose proof (sets_up_lookup fuel dir p s ltac:(reflexivity) Hp Hn Hu) as H1. unfold runs.
    destruct (chunkfs_lookup fuel dir p s) as [[[]|a] s']; done.
Qed.
End code.

#[export] Hint Resolve calls_handles calls_read calls_write calls_open calls_fsync calls_setattr calls_dir_llseek
  calls_iterate calls_follow_link calls_put_link calls_unlink calls_rmdir handles_create handles_symlink
  handles_mkdir handles_mknod handles_link : evolves.
