(* ===== verification/VfsProps.v ===== *)
(** * The mounted system: no dangling pointers, no waiting

    Whatever calls the VFS makes, in whatever order and with whatever
    results of the client file systems and the allocator, as long as every
    call returns: no call but a sync ever waits; and unless a link succeeds,
    what the mount read stays as it is, and no pointer of the dentry cache or of
    a file dangles, though inodes are freed with their last reference. *)

From S2P Require Import Prelude Monad Decimal Client Kernel KernelFacts Judge Pool Uino Cont Inode File Namei Super Vfs Quiet NameiProps Counts Evolve.

Section vfs.
Context `{Mutexes} `{ClientFS} (default_llseek : Z -> Z -> Z -> kernel Z) (generic_read_dir : kernel Z).
(** What the two functions of the VFS do: one may move the position of the
    file, the other only refuses. *)
Context (llseek_moves : forall p offset origin s, exists r s',
  default_llseek p offset origin s = (inr r, s') /\
  (s' = s \/ exists f pos, k_files s !! p = Some f /\ s' = set_files (<[p := mk_file (f_dentry f) pos]> (k_files s)) s)).
Context (read_dir_refuses : forall s, exists e, generic_read_dir s = (inr e, s)).

Lemma calls_default_llseek p offset origin : calls (default_llseek p offset origin).
Proof using llseek_moves.
  intros x s _. unfold runs. destruct (llseek_moves p offset origin s) as (r & s' & -> & [-> | (f & pos & Hf & ->)]); [done |].
  split; [| done]. by apply (runs_put_file x p (mk_file (f_dentry f) pos) s); rewrite Hf.
Qed.

Lemma calls_read_dir : calls generic_read_dir.
Proof using read_dir_refuses. intros x s _. unfold runs. by destruct (read_dir_refuses s) as [e ->]. Qed.

Lemma calls_drop {A} (m : kernel A) : calls m -> calls (m;; mret tt).
Proof. intros Hm. calls. Qed.

Lemma handles_drop {A} (m : kernel A) : handles m -> handles (m;; mret tt).
Proof.
  intros Hm s Hs. eapply runs_bind; [by apply Hm |]. intros a s' _ _. by apply runs_ret.
Qed.

Lemma lookup_drop fuel dir p s :
  closed s -> unlocked s -> runs (evolves None) (chunkfs_lookup fuel dir p;; mret tt) (fun _ _ => True) s.
Proof.
  intros Hc Hs. eapply runs_bind; [by apply lookup_evolves |]. intros a s' _ _. by apply runs_ret.
Qed.

#[local] Hint Resolve calls_default_llseek calls_read_dir calls_drop : evolves.

(** Every entry of every table. *)
Lemma inode_handler op g c m s :
  i_op_table op g c = Some m -> closed s -> unlocked s -> runs (evolves None) m (fun _ _ => True) s.
Proof.
  intros Hm Hc Hs. destruct op, c; try discriminate Hm; injection Hm as <-;
    solve [ by apply lookup_drop | apply handles_drop; auto with evolves quiet ].
Qed.

Lemma file_handler op g c m : i_fop_table default_llseek generic_read_dir op g c = Some m -> calls m.
Proof using llseek_moves read_dir_refuses.
  intros Hm. destruct op, c; try discriminate Hm; injection Hm as <-; unfold chunkfs_llseek_file; auto with evolves quiet.
Qed.

Lemma inode_call_evolves g c s :
  closed s -> unlocked s -> runs (evolves None) (vfs_inode_call g c) (fun _ _ => True) s.
Proof.
  intros Hc Hs. unfold vfs_inode_call. eapply runs_bind; [apply quiet_runs; destruct c; unfold called_inode; keeps |].
  intros ip s1 E1 _. eapply runs_bind; [apply runs_get_inode |]. intros i s2 _ [-> _].
  destruct (i_op_table _ _ _) as [m|] eqn:Hm; [| done].
  eapply inode_handler; [exact Hm | by eapply closed_evolves | by eapply unlocked_evolves].
Qed.

Lemma file_call_evolves g c :
  calls (vfs_file_call default_llseek generic_read_dir g c).
Proof using llseek_moves read_dir_refuses.
  unfold vfs_file_call. apply calls_bind; [auto with evolves quiet | intros ip].
  apply calls_bind; [auto with evolves quiet | intros i].
  destruct (i_fop_table _ _ _ _ _) as [m|] eqn:Hm; [by eapply file_handler | calls].
Qed.

(** ** The counts of the inodes *)

Lemma stays_default_llseek p offset origin : stays (default_llseek p offset origin).
Proof using llseek_moves.
  intros s r s' He _. destruct (llseek_moves p offset origin s) as (r0 & s0 & He0 & Hs). rewrite He0 in He.
  injection He as <- <-. by destruct Hs as [-> | (f & pos & _ & ->)].
Qed.

Lemma stays_read_dir : stays generic_read_dir.
Proof using read_dir_refuses. intros s r s' He _. destruct (read_dir_refuses s) as [e He0]. rewrite He0 in He. by injection He as <- <-. Qed.

Lemma tallies_drop {A} (m : kernel A) : tallies m -> tallies (m;; mret tt).
Proof.
  intros Hm s r s' He Hr. destruct (bind_returned _ _ _ _ _ He Hr) as [(e & H1 & ->) | (a & s1 & H1 & [= <- <-])];
    by apply (Hm _ _ _ H1).
Qed.

#[local] Hint Resolve stays_default_llseek stays_read_dir tallies_drop : counts.

Lemma file_call_stays g c : stays (vfs_file_call default_llseek generic_read_dir g c).
Proof using llseek_moves read_dir_refuses.
  unfold vfs_file_call. apply stays_bind; [stays | intros ip]. apply stays_bind; [stays | intros i].
  destruct (i_fop_table _ _ _ _ _) as [m|] eqn:Hm; [| stays].
  destruct (i_fop i), c; try discriminate Hm; injection Hm as <-; unfold chunkfs_llseek_file; stays.
Qed.

(** An inode call, through the table of the inode. *)
Lemma inode_call_counts g c s r s' :
  vfs_inode_call g c s = (r, s') -> returned r = true ->
  lk_kernel (k_locks s') = lk_kernel (k_locks s) /\ (no_link c r -> counted s -> counted s').
Proof.
  intros He Hr. unfold vfs_inode_call in He.
  assert (stays (called_inode c)) as Hcalled by (apply stays_quiet; destruct c; simpl; keeps).
  destruct (bind_returned _ _ _ _ _ He Hr) as [(e & H1 & ->) | (ip & s1 & H1 & H2)];
    pose proof (Hcalled _ _ _ H1 eq_refl) as Hst.
  { split; [apply Hst | intros _ Hc; by eapply counted_still]. }
  destruct (bind_returned _ _ _ _ _ H2 Hr) as [(e & H3 & ->) | (i & s2 & H3 & H4)].
  { unfold get_inode in H3. by destruct (k_inodes s1 !! ip). }
  assert (s2 = s1) as -> by (unfold get_inode in H3; destruct (k_inodes s1 !! ip); by injection H3).
  enough (lk_kernel (k_locks s') = lk_kernel (k_locks s1) /\ (no_link c r -> counted s1 -> counted s')) as [Hl Hc].
  { split; [by rewrite Hl, (sl_mutex _ _ Hst) | intros Hn Hs; by eapply Hc, counted_still]. }
  destruct (i_op_table (i_op i) g c) as [m|] eqn:Hm; [| injection H4 as <- <-; by split].
  assert (tallies m \/ exists o d n, c = ILink o d n /\ m = (chunkfs_link (g_fuel g) o d n;; mret tt)) as [Ht | (o & d & n & -> & ->)].
  { destruct (i_op i), c; try discriminate Hm; injection Hm as <-;
      solve [left; auto with counts quiet | right; eauto]. }
  - destruct (Ht _ _ _ H4 Hr). by split; [| intros _].
  - destruct (bind_returned _ _ _ _ _ H4 Hr) as [(e & H5 & ->) | (a & s3 & H5 & [= <- <-])];
      destruct (link_returned _ _ _ _ _ _ _ H5 eq_refl) as [Hl Hk]; (split; [done |]).
    + intros _ Hc. eapply counted_still; [exact Hc | by apply Hk].
    + by intros [].
Qed.

(** ** Steps between the calls *)

(** The dentry [p] goes. *)
Lemma closed_delete p s s1 :
  closed s -> evolves (Some p) s s1 -> unused s p -> closed (set_dentries (delete p (k_dentries s1)) s1).
Proof.
  intros Hc He (Hr & Hfi & Hpa).
  assert (forall q, q <> p -> positive s q -> positive (set_dentries (delete p (k_dentries s1)) s1) q) as Hpos.
  { intros q Hq Hp. destruct (ev_positive _ _ _ He q ltac:(congruence) Hp) as (de & ip & Hd & Hi).
    exists de, ip. simpl. by rewrite lookup_delete_ne. }
  split.
  - intros q ip (de & Hd & Hi). simpl in Hd. apply lookup_delete_Some in Hd as [Hq Hd].
    assert (has_client s1 ip /\ has_priv s1 q) as [Hcl (de' & dp & Hd' & Hp')].
    { destruct (ev_leads _ _ _ He q ip ltac:(congruence)) as [Hl | ?]; [by exists de | | done].
      destruct (cl_leads _ Hc _ _ Hl). split; [by apply (ev_client _ _ _ He) | apply (ev_priv _ _ _ He); congruence]. }
    split; [done |]. exists de', dp. simpl. by rewrite lookup_delete_ne.
  - intros q de Hd. simpl in Hd. apply lookup_delete_Some in Hd as [Hq Hd].
    pose proof (ev_parent _ _ _ He q) as Hpq. rewrite Hd in Hpq. simpl in Hpq.
    destruct (k_dentries s !! q) as [de0|] eqn:He0; [| done]. injection Hpq as ->.
    apply Hpos; [by eapply Hpa | by eapply (cl_parent _ Hc)].
  - intros q f Hf. pose proof (ev_file _ _ _ He q) as Hq. simpl in Hf. rewrite Hf in Hq. simpl in Hq.
    destruct (k_files s !! q) as [f0|] eqn:He0; [| done]. injection Hq as ->.
    apply Hpos; [by eapply Hfi | by eapply (cl_file _ Hc)].
Qed.

(** A dentry that leads nowhere is written over one that nothing needs. *)
Lemma closed_put p d s :
  closed s -> de_inode d = None -> positive s (de_parent d) -> de_parent d <> p ->
  (forall q f, k_files s !! q = Some f -> f_dentry f <> p) ->
  (forall q d, k_dentries s !! q = Some d -> q <> p -> de_parent d <> p) ->
  closed (set_dentries (<[p := d]> (k_dentries s)) s).
Proof.
  intros Hc Hi Hpar Hne Hf Hp.
  assert (forall q, q <> p -> positive s q -> positive (set_dentries (<[p := d]> (k_dentries s)) s) q) as Hpos.
  { intros q Hq (de & ip & Hd & He). exists de, ip. simpl. by rewrite lookup_insert_ne. }
  split.
  - intros q ip (de & Hd & He). simpl in Hd. apply lookup_insert_Some in Hd as [[<- <-] | [Hq Hd]]; [congruence |].
    destruct (cl_leads _ Hc q ip) as [? (de' & dp & Hd' & Hp')]; [by exists de |]. split; [done |].
    exists de', dp. simpl. by rewrite lookup_insert_ne.
  - intros q de Hd. simpl in Hd. apply lookup_insert_Some in Hd as [[<- <-] | [Hq Hd]].
    + by apply Hpos.
    + apply Hpos; [eapply Hp; [exact Hd | congruence] | by eapply (cl_parent _ Hc)].
  - intros q f Hq. simpl in Hq. apply Hpos; [by eapply Hf | by eapply (cl_file _ Hc)].
Qed.

(** A fresh dentry is the parent of none and the dentry of no file. *)
Lemma closed_fresh s p :
  closed s -> k_dentries s !! p = None ->
  (forall q f, k_files s !! q = Some f -> f_dentry f <> p) /\
  (forall q d, k_dentries s !! q = Some d -> q <> p -> de_parent d <> p).
Proof.
  intros Hc Hp. split.
  - intros q f Hf <-. destruct (cl_file _ Hc _ _ Hf) as (de & ip & Hd & _). congruence.
  - intros q d Hd _ <-. destruct (cl_parent _ Hc _ _ Hd) as (de & ip & Hd' & _). congruence.
Qed.

(** ** The invariant *)

(** The state [s] of a system that was mounted in the state [s0]. *)
Record running (s0 s : kstate) : Prop := {
  rn_closed : closed s;
  rn_locks : k_locks s = k_locks s0;
  rn_unlocked : unlocked s;
  rn_mutex : 0 <= lk_kernel (k_locks s) <= 1;
  rn_root : k_root s = k_root s0;
  rn_root_positive root : k_root s = Some root -> positive s root;
  rn_pool : k_pool s = k_pool s0;
  rn_data : k_data s = k_data s0;
  rn_bad : k_bad s = k_bad s0;
  rn_bh : k_bh s = k_bh s0;
  rn_opens : k_opens s0 <= k_opens s;
}.

Lemma running_evolves s0 s s' : running s0 s -> evolves None s s' -> running s0 s'.
Proof.
  intros [] He. pose proof (closed_evolves _ _ rn_closed0 He). pose proof (unlocked_evolves _ _ _ He rn_unlocked0).
  destruct He. split; try congruence; [| lia].
  intros root Hr. apply ev_positive; [done |]. apply rn_root_positive0. congruence.
Qed.

(** All but the dentries, files and inodes is as before. *)
Lemma running_closed s0 s s' :
  running s0 s -> closed s' -> (forall root, k_root s = Some root -> positive s' root) ->
  k_locks s' = k_locks s -> k_root s' = k_root s -> k_pool s' = k_pool s -> k_data s' = k_data s ->
  k_bad s' = k_bad s -> k_bh s' = k_bh s -> k_opens s <= k_opens s' -> running s0 s'.
Proof.
  intros [] Hc Hr Hl **. unfold unlocked in *. split; unfold unlocked; try congruence; [| lia].
  intros root Hroot. apply Hr. congruence.
Qed.

Lemma runs_running {A} s0 (m : kernel A) s r s' :
  running s0 s -> runs (evolves None) m (fun _ _ => True) s -> m s = (r, s') -> returned r = true -> running s0 s'.
Proof.
  intros Hr Hm He Hret. unfold runs in Hm. rewrite He in Hm. eapply running_evolves; [exact Hr |].
  by destruct r as [[]|]; try done; destruct Hm.
Qed.

(** ** Every step keeps it *)

Lemma running_delete s0 s s1 p :
  running s0 s -> evolves (Some p) s s1 -> unused s p -> running s0 (set_dentries (delete p (k_dentries s1)) s1).
Proof.
  intros Hr He Hu. pose proof (closed_delete _ _ _ (rn_closed _ _ Hr) He Hu) as Hc.
  eapply running_closed; [exact Hr | exact Hc | | apply He..].
  intros root Hroot. destruct Hu as [Hne _]. assert (root <> p) as Hrp by congruence.
  destruct (ev_positive _ _ _ He root) as (de & ip & Hd & Hi); [congruence | by apply (rn_root_positive _ _ Hr) |].
  exists de, ip. simpl. by rewrite lookup_delete_ne.
Qed.

Lemma runs_release_dentry p s : runs (evolves (Some p)) (chunkfs_release_dentry p) (fun _ _ => True) s.
Proof.
  unfold chunkfs_release_dentry. eapply runs_bind; [apply quiet_runs; keeps |]. intros [] s1 _ _.
  eapply runs_bind; [apply quiet_runs; keeps |]. intros [] s2 _ _. apply runs_free_dentry.
Qed.

Lemma running_put s0 s p d d0 ip :
  running s0 s -> k_dentries s !! de_parent d = Some d0 -> de_inode d0 = Some ip -> de_inode d = None ->
  de_parent d <> p -> k_root s <> Some p ->
  (forall q f, k_files s !! q = Some f -> f_dentry f <> p) ->
  (forall q d, k_dentries s !! q = Some d -> q <> p -> de_parent d <> p) ->
  running s0 (set_dentries (<[p := d]> (k_dentries s)) s).
Proof.
  intros Hr Hd0 Hip Hd Hne Hroot Hf Hp. eapply running_closed; [exact Hr | | | done..].
  - apply closed_put; try done; [apply Hr | by exists d0, ip].
  - intros root Hro. destruct (rn_root_positive _ _ Hr _ Hro) as (de & ip' & Hde & Hi).
    exists de, ip'. simpl. rewrite lookup_insert_ne; [done | congruence].
Qed.

(** The only inode that goes has no dentry. *)
Lemma running_evict s0 s ip r s' :
  running s0 s -> (forall p d, k_dentries s !! p = Some d -> de_inode d <> Some ip) ->
  iput_last ip s = (inr r, s') -> running s0 s'.
Proof.
  intros Hr Hno. unfold iput_last, chunkfs_clear_inode, chunkfs_destroy_inode, get_inode, deref, iput, kfree, modify, mbind, stm_bind.
  destruct (k_inodes s !! ip) as [i|]; simpl; [| done]. destruct (ii_client_inode i) as [c|]; simpl; [| done].
  intros [= _ <-]. eapply running_closed; [exact Hr | | | done..]; [| apply Hr].
  pose proof (rn_closed _ _ Hr) as Hcl. split; [| apply Hcl..].
  intros p j (de & Hd & Hi). simpl in Hd. destruct (cl_leads _ Hcl p j) as [(i' & c' & Hi' & Hc') ?]; [by exists de |].
  split; [| done]. exists i', c'. simpl. rewrite lookup_delete_ne; [done |]. intros ->. by eapply Hno.
Qed.

Lemma running_files s0 s fs' :
  running s0 s -> (forall q f, fs' !! q = Some f -> positive s (f_dentry f)) -> running s0 (set_files fs' s).
Proof.
  intros Hr Hf. eapply running_closed; [exact Hr | | apply Hr | done..]. destruct (rn_closed _ _ Hr). by split.
Qed.

(** A sync that returns leaves the mutex as it was. *)
Lemma write_super_returns s r s' :
  0 <= lk_kernel (k_locks s) <= 1 -> chunkfs_write_super s = (r, s') -> returned r = true -> s' = s.
Proof.
  intros Hl. unfold chunkfs_write_super, lock_kernel, unlock_kernel, chunkfs_commit_super, gets, modify, mbind, stm_bind.
  destruct (Z.leb_spec (lk_kernel (k_locks s)) 0) as [| Hpos]; [by intros [= <- <-] |]. simpl.
  destruct (k_pool s); simpl; [| by intros [= <- <-]]. intros [= _ <-] _.
  assert (lk_kernel (k_locks s) = 1) as -> by lia.
  assert (mutex_up (mutex_down 1) = lk_kernel (k_locks s)) as -> by (unfold mutex_up, mutex_down; destruct counts_strays; simpl; lia).
  by destruct s as [?????????????? [??] ??].
Qed.

Lemma drop_returns {A} (m : kernel A) s r s' :
  (m;; mret tt) s = (r, s') -> returned r = true -> exists r0, m s = (r0, s') /\ returned r0 = true.
Proof.
  unfold mbind, stm_bind. destruct (m s) as [[e|a] s1]; [intros [= <- <-] Hr | intros [= _ <-] _].
  - by exists (inl e).
  - by exists (inr a).
Qed.

Lemma runs_d_release p s : runs (evolves (Some p)) (vfs_d_release p) (fun _ _ => True) s.
Proof.
  unfold vfs_d_release. eapply runs_bind; [apply quiet_runs; keeps |]. intros d s1 He _.
  destruct (de_dops d); [apply runs_release_dentry | by split; [apply evolves_same |]].
Qed.

(** ** Putting inodes *)

Lemma vfs_iput_inv ip s s' :
  vfs_iput ip s = (inr tt, s') ->
  is_Some (k_inodes s !! ip) /\
  (count (k_icount s) ip = 1 /\ iput_last ip s = (inr tt, s') \/
   count (k_icount s) ip <> 1 /\ s' = set_icount (<[ip := count (k_icount s) ip - 1]> (k_icount s)) s).
Proof.
  unfold vfs_iput, get_inode. unfold mbind, stm_bind. destruct (k_inodes s !! ip) as [i|]; simpl; [| done].
  destruct (Z.eqb_spec (count (k_icount s) ip) 1) as [Hone | Hone]; [intros He; split; [by eexists | by left] |].
  intros [= <-]. split; [by eexists | by right].
Qed.

Lemma dentry_iput_inv p s s' :
  dentry_iput p s = (inr tt, s') -> exists d, k_dentries s !! p = Some d /\
    (de_inode d = None /\ s' = s \/
     exists ip, de_inode d = Some ip /\ vfs_iput ip (set_dentries (<[p := set_d_inode d None]> (k_dentries s)) s) = (inr tt, s')).
Proof.
  unfold dentry_iput, get_dentry, put_dentry, modify. unfold mbind, stm_bind. destruct (k_dentries s !! p) as [d|]; simpl; [| done].
  intros He. exists d. split; [done |]. destruct (de_inode d) as [ip|]; [right; by exists ip | left; by injection He as <-].
Qed.

(** A negative dentry stands where it was. *)
Lemma unused_put s p d d0 s' :
  unused s p -> k_dentries s !! p = Some d0 -> de_parent d = de_parent d0 -> k_root s' = k_root s -> k_files s' = k_files s ->
  k_dentries s' = <[p := d]> (k_dentries s) -> unused s' p.
Proof.
  intros (Hr & Hf & Hp) Hd0 Hpar Hroot Hfi Hde. unfold unused. rewrite Hroot, Hfi, Hde. split_and!; try done.
  intros q d' Hq. apply lookup_insert_Some in Hq as [[<- <-] | [_ Hq]]; [rewrite Hpar |]; by eapply Hp.
Qed.

(** The count falls with the name. *)
Lemma counted_negative s p d ip :
  counted s -> k_dentries s !! p = Some d -> de_inode d = Some ip ->
  let s1 := set_dentries (<[p := set_d_inode d None]> (k_dentries s)) s in
  counted s1 /\ Z.of_nat (names_of (k_dentries s1) ip) < count (k_icount s1) ip.
Proof.
  intros Hc Hd Hip s1. pose proof (names_of_insert (k_dentries s) p (set_d_inode d None) d) as Hn.
  assert (forall j, has_name (set_d_inode d None) j = 0%nat) as Hz by done.
  split.
  - eapply counted_put_dentry; [done | exact Hd |]. intros j. rewrite Hz. pose proof (ct_names _ Hc j). lia.
  - specialize (Hn ip Hd). rewrite Hz in Hn. unfold has_name in Hn. rewrite decide_True in Hn by done.
    pose proof (ct_names _ Hc ip). simpl. lia.
Qed.

(** Putting an inode that has more references than names: the one that goes
    has none. *)
Lemma running_vfs_iput s0 s ip s' :
  running s0 s -> counted s -> Z.of_nat (names_of (k_dentries s) ip) < count (k_icount s) ip -> vfs_iput ip s = (inr tt, s') ->
  (running s0 s' /\ counted s') /\ k_root s' = k_root s /\ k_files s' = k_files s /\ k_dentries s' = k_dentries s.
Proof.
  intros Hr Hc Hlt He. destruct (vfs_iput_inv _ _ _ He) as [_ [[Hone Hl] | [Hone ->]]].
  - assert (names_of (k_dentries s) ip = 0%nat) as Hz by lia. pose proof (names_of_none _ _ Hz) as Hno.
    destruct (iput_last_inv _ _ _ _ Hl eq_refl) as (f & k & Hs). split; [split |].
    + by eapply running_evict.
    + destruct (counted_evict s ip Hc Hz). subst s'. by split.
    + by subst s'.
  - split; [| done]. split.
    + eapply running_evolves; [exact Hr |]. by apply evolves_same.
    + split; intros j; simpl; (destruct (decide (ip = j)) as [<- | Hne]; [rewrite count_insert_eq | rewrite count_insert_ne by done]).
      * lia.
      * apply (ct_names _ Hc).
      * rewrite (ct_alive _ Hc). lia.
      * apply (ct_alive _ Hc).
Qed.

Lemma running_iput s0 s p s' :
  running s0 s -> counted s -> unused s p -> dentry_iput p s = (inr tt, s') -> (running s0 s' /\ counted s') /\ unused s' p.
Proof.
  intros Hr Hc Hu He. destruct (dentry_iput_inv _ _ _ He) as (d & Hd & [[_ ->] | (ip & Hip & Hi)]); [done |].
  destruct (cl_parent _ (rn_closed _ _ Hr) _ _ Hd) as (d0 & ip0 & Hd0 & Hip0).
  pose proof Hu as (Hroot & Hf & Hp). destruct (counted_negative s p d ip Hc Hd Hip) as [Hc1 Hlt].
  set (s1 := set_dentries _ s) in *.
  assert (running s0 s1) as Hr1.
  { eapply (running_put _ _ _ _ d0 ip0); try done; [exact (Hp _ _ Hd) | intros q d' Hq _; by eapply Hp]. }
  destruct (running_vfs_iput _ _ _ _ Hr1 Hc1 Hlt Hi) as (Hrc & E1 & E2 & E3). split; [done |].
  by eapply (unused_put s p (set_d_inode d None) d).
Qed.

(** The dentry goes. *)
Lemma counted_delete s p : counted s -> counted (set_dentries (delete p (k_dentries s)) s).
Proof.
  intros Hc. split; intros ip; simpl; [| apply Hc]. pose proof (ct_names _ Hc ip) as Hn.
  destruct (k_dentries s !! p) as [d|] eqn:Hp; [| by rewrite delete_id].
  rewrite (names_of_delete _ _ _ ip Hp) in Hn. lia.
Qed.

Lemma stays_d_release p : stays (vfs_d_release p).
Proof. unfold vfs_d_release. simpl. stays. Qed.

Lemma running_kill s0 s p s' :
  running s0 s -> counted s -> unused s p -> dentry_kill p s = (inr tt, s') -> running s0 s' /\ counted s'.
Proof.
  intros Hr Hc Hu He. unfold dentry_kill in He. apply bind_inv_ok in He as ([] & s1 & He1 & He).
  apply bind_inv_ok in He as ([] & s2 & He2 & He). injection He as <-.
  destruct (running_iput _ _ _ _ Hr Hc Hu He1) as [[Hr1 Hc1] Hu1].
  pose proof (runs_d_release p s1) as Hrun. unfold runs in Hrun. rewrite He2 in Hrun. destruct Hrun as [Hev _].
  split; [by eapply running_delete |]. apply counted_delete. eapply counted_still; [exact Hc1 |].
  by apply (stays_d_release p _ _ _ He2).
Qed.

(** ** Steps *)

Abbreviation step := (vfs_step default_llseek generic_read_dir).

Lemma running_step s0 s s' :
  running s0 s -> counted s -> step no_link s s' -> running s0 s' /\ counted s'.
Proof using llseek_moves read_dir_refuses.
  intros Hr Hct Hstep. pose proof (rn_closed _ _ Hr) as Hc. pose proof (rn_unlocked _ _ Hr) as Hu.
  destruct Hstep as [g c r s' He Hret Hno | g c r s' He Hret | ip r s' He Hret | r s' He Hret | p name parent d ip Hp Hd Hi
    | q p d ip Hq Hd Hi | q | p s' Hun He | p s' Hun He | f oom].
  - split; [| by eapply inode_call_counts]. eapply runs_running; [exact Hr | by apply inode_call_evolves | exact He | done].
  - split; [| eapply counted_still; [done | by eapply file_call_stays]].
    eapply runs_running; [exact Hr | by apply file_call_evolves | exact He | done].
  - destruct (drop_returns _ _ _ _ He Hret) as (r0 & He0 & Hret0). split.
    + eapply runs_running; [exact Hr | apply calls_quiet; [apply quiet_write_inode | done] | exact He0 | done].
    + eapply counted_still; [done |]. by eapply (stays_quiet _ (quiet_write_inode ip)).
  - destruct (drop_returns _ _ _ _ He Hret) as (r0 & He0 & Hret0).
    by rewrite (write_super_returns _ _ _ (rn_mutex _ _ Hr) He0 Hret0).
  - split.
    + destruct (closed_fresh _ _ Hc Hp). eapply (running_put _ _ _ _ d ip); try done; [simpl; congruence |].
      intros Hro. destruct (rn_root_positive _ _ Hr _ Hro) as (de & ip' & Hde & _). congruence.
    + split; intros j; simpl; [| apply Hct]. rewrite names_of_new by done. unfold has_name. simpl.
      pose proof (ct_names _ Hct j). lia.
  - split; [| by destruct Hct]. apply running_files; [done |]. intros q' f Hf.
    apply lookup_insert_Some in Hf as [[_ <-] | [_ Hf]]; [by exists d, ip | by eapply (cl_file _ Hc)].
  - split; [| by destruct Hct]. apply running_files; [done |]. intros q' f Hf.
    apply lookup_delete_Some in Hf as [_ Hf]. by eapply (cl_file _ Hc).
  - by eapply running_iput.
  - by eapply running_kill.
  - split; [| by destruct Hct]. eapply running_evolves; [exact Hr |]. by apply evolves_same.
Qed.

Lemma running_steps s0 s s' :
  running s0 s -> counted s -> rtc (step no_link) s s' -> running s0 s' /\ counted s'.
Proof using llseek_moves read_dir_refuses.
  intros Hr Hc Hs. induction Hs as [s | s s1 s2 Hst _ IH]; [done |].
  destruct (running_step _ _ _ Hr Hc Hst) as [??]. by apply IH.
Qed.

(** Dropping a dentry leaves the mutex of the module alone. *)
Lemma dentry_iput_mutex p s s' : dentry_iput p s = (inr tt, s') -> lk_kernel (k_locks s') = lk_kernel (k_locks s).
Proof.
  intros He. destruct (dentry_iput_inv _ _ _ He) as (d & _ & [[_ ->] | (ip & _ & Hi)]); [done |].
  destruct (vfs_iput_inv _ _ _ Hi) as [_ [[_ Hl] | [_ ->]]]; [| done].
  by destruct (iput_last_inv _ _ _ _ Hl eq_refl) as (f & k & ->).
Qed.

(** No call changes the mutex of the module when it is held, links or not. *)
Lemma mutex_step may s s' : step may s s' -> lk_kernel (k_locks s) = 0 -> lk_kernel (k_locks s') = 0.
Proof using llseek_moves read_dir_refuses.
  intros Hstep Hheld. enough (lk_kernel (k_locks s') = lk_kernel (k_locks s)) by congruence.
  destruct Hstep as [g c r s' He Hret _ | g c r s' He Hret | ip r s' He Hret | r s' He Hret | | | | p s' _ He | p s' _ He |];
    try done.
  - by eapply inode_call_counts.
  - by eapply file_call_stays.
  - destruct (drop_returns _ _ _ _ He Hret) as (r0 & He0 & Hret0). by eapply (stays_quiet _ (quiet_write_inode ip)).
  - destruct (drop_returns _ _ _ _ He Hret) as (r0 & He0 & Hret0).
    unfold chunkfs_write_super in He0. rewrite (bind_stop _ _ _ _ _ (lock_kernel_held s Hheld)) in He0. by injection He0 as <- <-.
  - by eapply dentry_iput_mutex.
  - unfold dentry_kill in He. apply bind_inv_ok in He as ([] & s1 & He1 & He).
    apply bind_inv_ok in He as ([] & s2 & He2 & He). injection He as <-. simpl.
    rewrite (sl_mutex _ _ (stays_d_release p _ _ _ He2 eq_refl)). by eapply dentry_iput_mutex.
Qed.

Lemma mutex_steps may s s' : rtc (step may) s s' -> lk_kernel (k_locks s) = 0 -> lk_kernel (k_locks s') = 0.
Proof using llseek_moves read_dir_refuses. intros Hs. induction Hs; eauto using mutex_step. Qed.

(** An open file leads to a client inode. *)
Lemma running_file s0 s q f :
  running s0 s -> k_files s !! q = Some f ->
  exists ip i c, file_inode q s = (inr ip, s) /\ k_inodes s !! ip = Some i /\ get_client_inode i = Some c.
Proof.
  intros Hr Hf. destruct (cl_file _ (rn_closed _ _ Hr) _ _ Hf) as (de & ip & Hd & Hi).
  destruct (cl_leads _ (rn_closed _ _ Hr) (f_dentry f) ip) as [(i & c & Hin & Hc) _]; [by exists de |].
  exists ip, i, c. split_and!; try done. unfold file_inode, get_file, inode_of_dentry, get_dentry, mbind, stm_bind.
  rewrite Hf. simpl. rewrite Hd. simpl. by rewrite Hi.
Qed.

(** C11: after a mount only a sync can wait.  In a system that has run in any
    way since the mount, which left the mutex of the module held, no handler of the inode operations and file
    operations, whatever its arguments, waits for a mutex, and neither does
    writing an inode; and [chunkfs_write_super] waits forever. *)
Theorem only_sync_waits s0 s :
  running s0 s -> lk_kernel (k_locks s) = 0 ->
  (forall g c, (vfs_inode_call g c s).1 <> inl Blocked) /\
  (forall g c, (vfs_file_call default_llseek generic_read_dir g c s).1 <> inl Blocked) /\
  (forall ip, (chunkfs_write_inode ip s).1 <> inl Blocked) /\
  chunkfs_write_super s = (inl Blocked, s) /\
  forall s', rtc (vfs_step default_llseek generic_read_dir any_call) s s' -> chunkfs_write_super s' = (inl Blocked, s').
Proof using llseek_moves read_dir_refuses.
  intros Hr Hheld. pose proof (rn_closed _ _ Hr) as Hc. pose proof (rn_unlocked _ _ Hr) as Hu.
  assert (forall A (m : kernel A), runs (evolves None) m (fun _ _ => True) s -> (m s).1 <> inl Blocked) as Hno.
  { unfold runs. intros A m. by destruct (m s) as [[[]|] ?]. }
  assert (forall s', lk_kernel (k_locks s') = 0 -> chunkfs_write_super s' = (inl Blocked, s')) as Hsync.
  { intros s' Hz. by apply bind_stop, lock_kernel_held. }
  split_and!; [intros g c | intros g c | intros ip | by apply Hsync |].
  - apply Hno. by apply inode_call_evolves.
  - apply Hno. by apply file_call_evolves.
  - apply Hno. apply calls_quiet; [apply quiet_write_inode | done].
  - intros s' Hs. apply Hsync. by eapply mutex_steps.
Qed.
End vfs.
