(* ===== verification/MakeProps.v ===== *)
(** * Making names

    create, mkdir, mknod and symlink when the client makes the name: the new
    dentry has a well-formed file of one part over the new client inode, and
    the directory has the size of its parts. *)

From S2P Require Import Prelude Monad Decimal Client Kernel KernelFacts Pool Uino Cont Inode File Namei ContData Chain Append InodeProps FileProps NameiProps.

Section make.
Context `{ClientFS} `{!ClientLaws} `{!ClientXattrs}.

(** The client, in the state [f1] after its operation, has made the inode [c]
    behind the client dentry [d] of the dentry [p], in the directory [dir]
    over [cdir], whose parts are [Ld]. *)
Record makes (s : kstate) (dir p : Z) (di : inode) (cdir : cino) (de : dentry) (dp : dentry_priv)
    (pi : pool_info) (ci : chunk_info) (c : cino) (f1 : fs) (Ld : list chunkfs_continuation) : Prop := {
  mk_oom : k_oom s = [];
  mk_pool : k_pool s = Some pi;
  mk_dentry_at : k_dentries s !! p = Some de /\ de_fsdata de = Some dp;
  mk_dir : ii_client_inode di = Some cdir /\ sized (set_fs f1 s) dir di Ld;
  mk_nonnull : dp_client_dentry dp <> 0;
  mk_found : d_inode f1 (dp_client_dentry dp) = Some c;
  mk_start : can_start f1 pi ci (UINO_TO_CHUNK_ID (i_ino di)) c;
  mk_new : c ∉ map co_inode Ld;
}.

(** The directory afterwards. *)
Definition dir_after (f2 : fs) (di : inode) (cdir : cino) (Ld : list chunkfs_continuation) : inode :=
  with_size (with_attr di (i_attr f2 cdir)) (total_size f2 Ld).

(** Writing the attributes of an inode that is none of the parts. *)
Lemma in_cache_xattrs i f f' pi c : xattrs_of i f f' -> co_inode c <> i -> in_cache f pi c -> in_cache f' pi c.
Proof.
  intros Hx Hne []. split.
  - by apply (xo_cached _ _ _ Hx).
  - by rewrite (xo_bad _ _ _ Hx).
  - done.
  - by eapply has_cd_other.
  - by rewrite (xo_size _ _ _ Hx).
Qed.

Lemma sized_xattrs s s' i f f' ip hi L :
  sized (set_fs f s) ip hi L -> xattrs_of i f f' -> i ∉ map co_inode L ->
  k_fs s' = f' -> k_inodes s' !! ip = k_inodes s !! ip -> k_pool s' = k_pool s ->
  sized s' ip hi L /\ total_size f' L = total_size f L.
Proof.
  intros [Hi Hhd Hl Hf (pi & Hp & Hc) Hb] Hx Hni Hfs Hin Hpool. simpl in *.
  assert (total_size f' L = total_size f L) as Ht.
  { apply total_size_ext. intros c. by rewrite (xo_size _ _ _ Hx). }
  split; [| done]. split; [by rewrite Hin | done | done | done | | by rewrite Hfs, Ht].
  exists pi. split; [congruence |]. rewrite Hfs. rewrite Forall_forall in *. intros c HcL.
  eapply in_cache_xattrs; [exact Hx | | by apply Hc]. intros <-. apply Hni.
  apply list_elem_of_In, in_map, list_elem_of_In, HcL.
Qed.

(** The common body: [before] sets the nameidata of the dentry, [after]
    changes nothing. *)
Lemma make_name_run s dir p di cdir de dp pi ci c f1 Ld de' nd before after op fuel :
  makes s dir p di cdir de dp pi ci c f1 Ld ->
  op (k_fs s) cdir (dp_client_dentry dp) = (0, f1) -> (1 < fuel)%nat -> (length Ld < fuel)%nat ->
  de' = set_fsdata de (Some (mk_dpriv (dp_client_dentry dp) nd)) ->
  (forall s1, k_dentries s1 = k_dentries s ->
     before s1 = (inr tt, set_dentries (<[p := de']> (k_dentries s)) s1)) ->
  (forall s1, k_dentries s1 !! p = Some de' -> after s1 = (inr tt, s1)) ->
  exists s' ip hi f2, make_name fuel dir p before after op s = (inr tt, s') /\
    one_part_at s' p ip hi pi ci (UINO_TO_CHUNK_ID (i_ino di)) (dp_client_dentry dp) c /\
    k_inodes s !! ip = None /\ i_csize hi = i_size f1 c /\
    k_fs s' = f2 /\ xattrs_of c f1 f2 /\ k_inodes s' !! dir = Some (dir_after f2 di cdir Ld) /\
    k_kmem s' = k_kmem s + 1 /\ (forall j, count (k_iref s') j = count (k_iref s) j) /\
    k_locks s' = k_locks s.
Proof.
  intros [Ho Hpool [Hde Hdp] [Hcd Hsz] Hnz Hfound Hst Hnew] Hop Hf HfL Hde' Hbefore Hafter.
  set (chunk_id := UINO_TO_CHUNK_ID (i_ino di)) in *. set (d := dp_client_dentry dp) in *.
  set (ip := next_address (k_inodes s)). pose proof (next_address_fresh (k_inodes s)) as Hfresh. fold ip in Hfresh.
  pose proof (sz_inode _ _ _ _ Hsz) as Hdi. simpl in Hdi.
  assert (ip <> dir) as Hne by congruence.
  pose proof (new_inode_ok s Ho) as R1. cbv zeta in R1. fold ip in R1. set (s1 := set_icount _ _) in R1.
  pose proof (Hbefore s1 eq_refl) as R2. set (s2 := set_dentries _ s1) in R2.
  set (s3 := set_fs f1 s2).
  destruct (init_cont_data_ok s3 d c Hnz Hfound) as (f2 & R4 & Hx & Hdata). set (s4 := set_fs f2 s3) in *.
  assert (can_start f2 pi ci chunk_id c) as Hst2 by by eapply can_start_xattrs.
  destruct (start_ok s4 ip blank_inode pi ci chunk_id c fuel) as (m & R5 & Hm); try done.
  { simpl. by rewrite lookup_insert_eq. }
  set (hi := started f2 blank_inode c chunk_id) in *.
  set (s5 := set_inodes _ (set_iref m s4)) in R5.
  destruct (sized_xattrs s s5 c f1 f2 dir di Ld) as [Hsz5 Ht]; try done.
  { simpl. by rewrite !lookup_insert_ne. }
  destruct (copy_up_ok s5 dir di Ld cdir fuel Hsz5 HfL) as (m' & R6 & Hm').
  set (s6 := set_inodes _ (set_iref m' s5)) in R6.
  assert (k_dentries s6 !! p = Some de') as Hde6 by (simpl; by rewrite lookup_insert_eq).
  set (s7 := set_dentries (<[p := set_d_inode de' (Some ip)]> (k_dentries s6)) s6).
  exists s7, ip, hi, f2. split_and!; try done.
  - unfold make_name. rewrite (bind_ok _ _ _ _ _ (client_dir_ok _ _ _ _ Hdi Hcd)).
    rewrite (bind_ok _ _ _ _ _ (get_client_dentry_ok _ _ _ _ Hde Hdp)). fold d.
    rewrite (bind_ok _ _ _ _ _ R1), (bind_ok _ _ _ _ _ R2).
    rewrite (bind_ok _ _ s2 0 s3) by (unfold client_call; simpl; by rewrite Hop). cbn [Z.eqb negb].
    rewrite (bind_ok _ _ _ _ _ (try_ok _ _ _ _ R4)).
    rewrite (bind_ok _ _ s4 f2 s4) by done. rewrite (xo_dentry _ _ _ Hx). simpl k_fs. rewrite Hfound.
    fold chunk_id. rewrite (bind_ok _ _ _ _ _ R5), (bind_ok _ _ _ _ _ R6), (bind_ok _ _ _ _ _ (Hafter s6 Hde6)).
    unfold d_instantiate, get_dentry, mbind, stm_bind. rewrite Hde6. done.
  - split; try done; simpl.
    + eexists _, _. rewrite lookup_insert_eq. split_and!; [done | done | by rewrite Hde' | done].
    + by rewrite lookup_insert_ne, lookup_insert_eq.
    + by rewrite (xo_dentry _ _ _ Hx).
  - simpl. by rewrite (xo_size _ _ _ Hx).
  - simpl. by rewrite lookup_insert_eq.
  - intros j. simpl. rewrite Hm'. apply Hm.
Qed.

Lemma make_name_wf s dir p di cdir de dp pi ci c f1 Ld de' nd before after op fuel :
  makes s dir p di cdir de dp pi ci c f1 Ld ->
  op (k_fs s) cdir (dp_client_dentry dp) = (0, f1) -> (1 < fuel)%nat -> (length Ld < fuel)%nat ->
  de' = set_fsdata de (Some (mk_dpriv (dp_client_dentry dp) nd)) ->
  (forall s1, k_dentries s1 = k_dentries s ->
     before s1 = (inr tt, set_dentries (<[p := de']> (k_dentries s)) s1)) ->
  (forall s1, k_dentries s1 !! p = Some de' -> after s1 = (inr tt, s1)) ->
  exists s' ip hi f2, make_name fuel dir p before after op s = (inr tt, s') /\
    wf_file s' p [only_part ci (UINO_TO_CHUNK_ID (i_ino di)) (dp_client_dentry dp) c] CONT_LEN /\
    k_inodes s' !! ip = Some hi /\ k_inodes s !! ip = None /\ i_csize hi = i_size f1 c /\
    k_fs s' = f2 /\ xattrs_of c f1 f2 /\ k_inodes s' !! dir = Some (dir_after f2 di cdir Ld) /\
    k_kmem s' = k_kmem s + 1 /\ forall j, count (k_iref s') j = count (k_iref s) j.
Proof.
  intros Hmk Hop Hf HfL Hde' Hb Ha.
  destruct (make_name_run s dir p di cdir de dp pi ci c f1 Ld de' nd before after op fuel Hmk Hop Hf HfL Hde' Hb Ha)
    as (s' & ip & hi & f2 & Hrun & Hone & Hrest).
  exists s', ip, hi, f2. split_and!; try apply Hrest; [done | by eapply one_part_at_wf | apply Hone].
Qed.

Lemma set_dentries_id s p de :
  k_dentries s !! p = Some de -> set_dentries (<[p := de]> (k_dentries s)) s = s.
Proof. intros Hd. rewrite insert_id by done. by destruct s. Qed.

Lemma plain_name_run s dir p di cdir de dp pi ci c f1 Ld op fuel :
  makes s dir p di cdir de dp pi ci c f1 Ld ->
  op (k_fs s) cdir (dp_client_dentry dp) = (0, f1) -> (1 < fuel)%nat -> (length Ld < fuel)%nat ->
  exists s' ip hi f2, make_name fuel dir p (mret tt) (mret tt) op s = (inr tt, s') /\
    one_part_at s' p ip hi pi ci (UINO_TO_CHUNK_ID (i_ino di)) (dp_client_dentry dp) c /\
    k_inodes s !! ip = None /\ i_csize hi = i_size f1 c /\
    k_fs s' = f2 /\ xattrs_of c f1 f2 /\ k_inodes s' !! dir = Some (dir_after f2 di cdir Ld) /\
    k_kmem s' = k_kmem s + 1 /\ (forall j, count (k_iref s') j = count (k_iref s) j) /\
    k_locks s' = k_locks s.
Proof.
  intros Hmk Hop Hf HfL. destruct (mk_dentry_at _ _ _ _ _ _ _ _ _ _ _ _ Hmk) as [Hde Hdp].
  eapply (make_name_run s dir p di cdir de dp pi ci c f1 Ld de (dp_client_nd dp)); try done.
  - destruct de, dp. unfold set_fsdata. simpl in *. by subst.
  - intros s1 Hs1. rewrite <-Hs1, set_dentries_id by congruence. done.
Qed.

(** C38: mkdir, mknod and symlink.  When the client makes the name, the call
    succeeds: the dentry has a well-formed file of exactly one part over the
    new client inode, with its size; the directory has the attributes of the
    client directory and the sum of the sizes of its parts; one chunkfs inode
    is allocated and the references to client inodes balance. *)
Theorem make_name_makes s dir p di cdir de dp pi ci c f1 Ld op fuel :
  makes s dir p di cdir de dp pi ci c f1 Ld ->
  op (k_fs s) cdir (dp_client_dentry dp) = (0, f1) -> (1 < fuel)%nat -> (length Ld < fuel)%nat ->
  exists s' ip hi f2, make_name fuel dir p (mret tt) (mret tt) op s = (inr tt, s') /\
    wf_file s' p [only_part ci (UINO_TO_CHUNK_ID (i_ino di)) (dp_client_dentry dp) c] CONT_LEN /\
    k_inodes s' !! ip = Some hi /\ k_inodes s !! ip = None /\ i_csize hi = i_size f1 c /\
    k_fs s' = f2 /\ xattrs_of c f1 f2 /\ k_inodes s' !! dir = Some (dir_after f2 di cdir Ld) /\
    k_kmem s' = k_kmem s + 1 /\ forall j, count (k_iref s') j = count (k_iref s) j.
Proof.
  intros Hmk Hop Hf HfL. destruct (plain_name_run s dir p di cdir de dp pi ci c f1 Ld op fuel Hmk Hop Hf HfL)
    as (s' & ip & hi & f2 & Hrun & Hone & Hrest).
  exists s', ip, hi, f2. split_and!; try apply Hrest; [done | by eapply one_part_at_wf | apply Hone].
Qed.

Definition depth_ok (nd : nameidata) : Prop := 0 <= nd_depth nd <= MAX_NESTED_LINKS.

Lemma copy_nd_ok dst src : depth_ok src -> exists nd, nd_depth nd = nd_depth src /\ forall s, copy_nd dst src s = (inr nd, s).
Proof.
  unfold depth_ok. intros Hd. eexists. split; [| intros s; unfold copy_nd].
  2: { rewrite (proj2 (Z.leb_le 0 _)), (proj2 (Z.leb_le _ MAX_NESTED_LINKS)) by lia. done. }
  done.
Qed.

Lemma copy_nd_bad dst src s : ~ depth_ok src -> copy_nd dst src s = (inl Undef, s).
Proof.
  unfold depth_ok, copy_nd. intros Hd. destruct (Z.leb_spec 0 (nd_depth src)); [| done]. simpl.
  destruct (Z.leb_spec (nd_depth src) MAX_NESTED_LINKS); [lia | done].
Qed.

(** Create.  The nameidata it copies to the client's is on the stack and
    only its flags are set.  When the depth that happens to be in it is within
    the array of names, and the client makes the name, the call succeeds as
    mkdir does; otherwise it reads and writes outside the array. *)
Theorem chunkfs_create_makes s dir p di cdir de dp pi ci c f1 Ld mode excl junk fuel :
  makes s dir p di cdir de dp pi ci c f1 Ld ->
  op_create (k_fs s) cdir (dp_client_dentry dp) mode true = (0, f1) -> (1 < fuel)%nat -> (length Ld < fuel)%nat ->
  (depth_ok junk ->
   exists s' ip hi f2, chunkfs_create fuel junk dir p mode excl s = (inr tt, s') /\
     wf_file s' p [only_part ci (UINO_TO_CHUNK_ID (i_ino di)) (dp_client_dentry dp) c] CONT_LEN /\
     k_inodes s' !! ip = Some hi /\ k_inodes s !! ip = None /\ i_csize hi = i_size f1 c /\
     k_fs s' = f2 /\ xattrs_of c f1 f2 /\ k_inodes s' !! dir = Some (dir_after f2 di cdir Ld) /\
     k_kmem s' = k_kmem s + 1 /\ forall j, count (k_iref s') j = count (k_iref s) j) /\
  (~ depth_ok junk -> (chunkfs_create fuel junk dir p mode excl s).1 = inl Undef).
Proof.
  intros Hmk Hop Hf HfL. destruct (mk_dentry_at _ _ _ _ _ _ _ _ _ _ _ _ Hmk) as [Hde Hdp].
  destruct (mk_dir _ _ _ _ _ _ _ _ _ _ _ _ Hmk) as [Hcd Hsz]. pose proof (sz_inode _ _ _ _ Hsz) as Hdi.
  simpl in Hdi. unfold chunkfs_create. rewrite !(bind_ok _ _ s di s) by (unfold get_inode; by rewrite Hdi).
  cbv zeta. set (nd := mk_nd _ _ _ _ _ _).
  assert (depth_ok nd <-> depth_ok junk) as <- by done. split; intros Hdepth.
  - destruct (copy_nd_ok (dp_client_nd dp) nd Hdepth) as (nd' & Hnd' & Hcopy).
    eapply (make_name_wf s dir p di cdir de dp pi ci c f1 Ld _ nd'); try done.
    + intros s1 Hs1. assert (k_dentries s1 !! p = Some de) as Hde1 by congruence.
      rewrite (bind_ok _ _ _ _ _ (get_client_nd_ok _ _ _ _ Hde1 Hdp)).
      unfold chunkfs_copy_down_nd. rewrite (bind_ok _ _ _ _ _ (Hcopy s1)).
      unfold put_nd, get_dentry, mbind, stm_bind. rewrite Hde1. simpl. rewrite Hdp, <-Hs1. done.
    + intros s1 Hde1. rewrite (bind_ok _ _ _ _ _ (get_client_nd_ok _ _ _ _ Hde1 eq_refl)).
      destruct (copy_nd_ok nd nd') as (nd2 & _ & Hcopy2); [unfold depth_ok in *; by rewrite Hnd' |].
      unfold chunkfs_copy_up_nd. simpl dp_client_nd. by rewrite (bind_ok _ _ _ _ _ (Hcopy2 s1)).
  - unfold make_name. rewrite (bind_ok _ _ _ _ _ (client_dir_ok _ _ _ _ Hdi Hcd)).
    rewrite (bind_ok _ _ _ _ _ (get_client_dentry_ok _ _ _ _ Hde Hdp)).
    rewrite (bind_ok _ _ _ _ _ (new_inode_ok s (mk_oom _ _ _ _ _ _ _ _ _ _ _ _ Hmk))). set (s1 := set_icount _ _).
    assert (k_dentries s1 !! p = Some de) as Hde1 by done.
    unfold mbind, stm_bind. rewrite (get_client_nd_ok _ _ _ _ Hde1 Hdp).
    unfold chunkfs_copy_down_nd. by rewrite (copy_nd_bad _ _ s1 Hdepth).
Qed.
End make.
