(* ===== verification/HeadProps.v ===== *)
(** * Operations that reach only the head of a file, and link

    setattr and unlink are passed to the client for the first part of the file
    alone; link counts the wrong inode, which is freed in use. *)

From S2P Require Import Prelude Monad Decimal Client Kernel KernelFacts Pool Uino Cont Inode File Namei ContData Chain Append InodeProps FileProps NameiProps Quiet Vfs Counts.

Section heads.
Context `{ClientFS}.

(** The dentry [p] has the inode [ip] over the client dentry [d] and the
    client inode [c]. *)
Record names (s : kstate) (p ip d : Z) (hi : inode) (c : cino) : Prop := {
  na_dentry : exists de dp, k_dentries s !! p = Some de /\ de_inode de = Some ip /\
    de_fsdata de = Some dp /\ dp_client_dentry dp = d;
  na_inode : k_inodes s !! ip = Some hi /\ ii_client_inode hi = Some c;
}.

(** The inode with the attributes of [c] and the size of the parts. *)
Definition copied (f : fs) (hi : inode) (c : cino) (L : list chunkfs_continuation) : inode :=
  with_size (with_attr hi (i_attr f c)) (total_size f L).

Lemma sized_same s s' ip hi L :
  sized s ip hi L -> k_fs s' = k_fs s -> k_pool s' = k_pool s -> k_inodes s' !! ip = k_inodes s !! ip ->
  sized s' ip hi L.
Proof. intros [] Hfs Hp Hi. split; rewrite ?Hfs, ?Hp, ?Hi; done. Qed.

Lemma inode_of_ok s p ip d hi c : names s p ip d hi c -> inode_of_dentry p s = (inr ip, s).
Proof.
  intros [(de & dp & Hde & Hin & _) _]. unfold inode_of_dentry, get_dentry, mbind, stm_bind. rewrite Hde. simpl.
  by rewrite Hin.
Qed.

Lemma client_dentry_ok s p ip d hi c : names s p ip d hi c -> get_client_dentry p s = (inr d, s).
Proof.
  intros [(de & dp & Hde & _ & Hdp & <-) _]. by apply (get_client_dentry_ok s p de).
Qed.

Lemma names_inode s p ip d hi c : names s p ip d hi c -> get_inode ip s = (inr hi, s).
Proof. intros [_ [Hi _]]. unfold get_inode. by rewrite Hi. Qed.

Lemma total_size_head f f' x L c :
  co_inode x = c -> NoDup (map co_inode (x :: L)) -> (forall j, j <> c -> i_size f' j = i_size f j) ->
  total_size f' (x :: L) = i_size f' c + total_size f L.
Proof.
  intros <- Hn Hs. apply NoDup_cons in Hn as [Hx _]. simpl. f_equal.
  induction L as [|y L IH]; simpl in *; [done |].
  rewrite Hs, IH; [done | |]; intros He; apply Hx.
  - by apply list_elem_of_further.
  - rewrite <- He. apply list_elem_of_here.
Qed.

(** C39: setattr reaches the head alone.  An error of the client is returned
    and leaves the inode as it was; otherwise the inode gets the attributes of
    the head and the sum of the sizes.  As the client changes only the size of
    its own inode, a file truncated to [n] bytes has [n] bytes and those of
    its further parts. *)
Theorem setattr_head_only s p ip d hi c x L attr e f1 fuel :
  names s p ip d hi c -> client_setattr (k_fs s) c d attr = (e, f1) ->
  (e <> 0 -> chunkfs_setattr fuel p attr s = (inr (- e), set_fs f1 s)) /\
  (e = 0 -> sized (set_fs f1 s) ip hi (x :: L) -> (length (x :: L) < fuel)%nat ->
   NoDup (map co_inode (x :: L)) -> (forall j, j <> c -> i_size f1 j = i_size (k_fs s) j) ->
   exists m s', chunkfs_setattr fuel p attr s = (inr 0, s') /\
     s' = set_inodes (<[ip := copied f1 hi c (x :: L)]> (k_inodes s)) (set_iref m (set_fs f1 s)) /\
     i_csize (copied f1 hi c (x :: L)) = i_size f1 c + total_size (k_fs s) L /\
     forall j, count m j = count (k_iref s) j).
Proof.
  intros Hna Hop. unfold chunkfs_setattr. rewrite !(bind_ok _ _ _ _ _ (inode_of_ok _ _ _ _ _ _ Hna)).
  rewrite !(bind_ok _ _ _ _ _ (names_inode _ _ _ _ _ _ Hna)). unfold get_client_inode.
  rewrite (proj2 (na_inode _ _ _ _ _ _ Hna)), !(bind_ok _ _ s c s) by done.
  rewrite !(bind_ok _ _ _ _ _ (client_dentry_ok _ _ _ _ _ _ Hna)).
  rewrite !(bind_ok _ _ s e (set_fs f1 s)) by (unfold client_call; by rewrite Hop). split.
  - intros He. by rewrite (proj2 (Z.eqb_neq e 0) He).
  - intros -> Hsz Hf Hn Hother. destruct (copy_up_ok _ _ _ _ c fuel Hsz Hf) as (m & Hrun & Hm).
    exists m. eexists. split; [| split_and!; [done | | exact Hm]].
    + cbn [Z.eqb]. by rewrite (bind_ok _ _ _ _ _ Hrun).
    + simpl i_csize. apply (total_size_head (k_fs s)); [| done | done].
      destruct (sz_head _ _ _ _ Hsz) as (y & [= <-] & Hy). pose proof (proj2 (na_inode _ _ _ _ _ _ Hna)). congruence.
Qed.

(** Unlink reaches the head alone.  An error of the client is returned;
    otherwise the attributes and sizes of the directory and the file are
    copied up, and the client file systems are exactly what that one call of
    the client left: nothing removes the further parts of the file. *)
Theorem unlink_head_only s p ip d hi c dir di cdir L Ld e f1 fuel :
  names s p ip d hi c -> k_inodes s !! dir = Some di -> ii_client_inode di = Some cdir -> dir <> ip ->
  op_unlink (k_fs s) cdir d = (e, f1) ->
  (e <> 0 -> chunkfs_unlink fuel dir p s = (inl (Errno e), set_fs f1 s)) /\
  (e = 0 -> sized (set_fs f1 s) ip hi L -> sized (set_fs f1 s) dir di Ld ->
   (length L < fuel)%nat -> (length Ld < fuel)%nat ->
   exists m s', chunkfs_unlink fuel dir p s = (inr tt, s') /\ k_fs s' = f1 /\
     s' = set_inodes (<[ip := copied f1 hi c L]> (<[dir := copied f1 di cdir Ld]> (k_inodes s)))
            (set_iref m (set_fs f1 s)) /\
     forall j, count m j = count (k_iref s) j).
Proof.
  intros Hna Hdi Hcd Hne Hop. unfold chunkfs_unlink. rewrite !(bind_ok _ _ _ _ _ (client_dir_ok _ _ _ _ Hdi Hcd)).
  rewrite !(bind_ok _ _ _ _ _ (client_dentry_ok _ _ _ _ _ _ Hna)).
  rewrite !(bind_ok _ _ _ _ _ (inode_of_ok _ _ _ _ _ _ Hna)).
  rewrite !(bind_ok _ _ _ _ _ (names_inode _ _ _ _ _ _ Hna)). unfold get_client_inode.
  rewrite (proj2 (na_inode _ _ _ _ _ _ Hna)), !(bind_ok _ _ s c s) by done. cbn [fst].
  rewrite !(bind_ok _ _ s e (set_fs f1 s)) by (unfold client_call; by rewrite Hop). split.
  - intros He. by rewrite (proj2 (Z.eqb_neq e 0) He).
  - intros -> Hsz Hszd Hf Hfd. cbn [Z.eqb negb].
    destruct (copy_up_ok _ _ _ _ cdir fuel Hszd Hfd) as (m & R1 & Hm). set (s1 := set_inodes _ _) in R1.
    assert (sized s1 ip hi L) as Hsz1.
    { eapply sized_same; [exact Hsz | done | done |]. simpl. by rewrite lookup_insert_ne. }
    destruct (copy_up_ok _ _ _ _ c fuel Hsz1 Hf) as (m' & R2 & Hm'). exists m'. eexists.
    split_and!; [rewrite (bind_ok _ _ _ _ _ R1); exact R2 | done | done |]. intros j. rewrite Hm'. apply Hm.
Qed.

(** ** link *)

(** Link counts the wrong inode.  An error of the client is returned.
    When the client makes the second name, the new dentry gets the inode of
    the file, so that the inode has one name more; but it is the count of the
    directory that is raised, and not that of the inode. *)
Lemma link_counts_directory s p ip d hi c dir di cdir pn den dpn L e f1 fuel :
  names s p ip d hi c -> k_inodes s !! dir = Some di -> ii_client_inode di = Some cdir -> dir <> ip ->
  k_dentries s !! pn = Some den -> de_fsdata den = Some dpn -> de_inode den = None ->
  op_link (k_fs s) d cdir (dp_client_dentry dpn) = (e, f1) ->
  (e <> 0 -> chunkfs_link fuel p dir pn s = (inl (Errno e), set_fs f1 s)) /\
  (e = 0 -> sized (set_fs f1 s) ip hi L -> (length L < fuel)%nat ->
   exists s', chunkfs_link fuel p dir pn s = (inr tt, s') /\ k_fs s' = f1 /\
     k_inodes s' = <[ip := copied f1 hi c L]> (k_inodes s) /\
     k_dentries s' = <[pn := set_d_inode den (Some ip)]> (k_dentries s) /\
     names_of (k_dentries s') ip = S (names_of (k_dentries s) ip) /\
     count (k_icount s') ip = count (k_icount s) ip /\
     count (k_icount s') dir = count (k_icount s) dir + 1).
Proof.
  intros Hna Hdi Hcd Hne Hden Hdpn Hneg Hop. unfold chunkfs_link.
  rewrite !(bind_ok _ _ _ _ _ (client_dir_ok _ _ _ _ Hdi Hcd)).
  rewrite !(bind_ok _ _ _ _ _ (inode_of_ok _ _ _ _ _ _ Hna)).
  rewrite !(bind_ok _ _ _ _ _ (names_inode _ _ _ _ _ _ Hna)). unfold get_client_inode.
  rewrite (proj2 (na_inode _ _ _ _ _ _ Hna)), !(bind_ok _ _ s c s) by done.
  rewrite !(bind_ok _ _ _ _ _ (client_dentry_ok _ _ _ _ _ _ Hna)).
  rewrite !(bind_ok _ _ _ _ _ (get_client_dentry_ok _ _ _ _ Hden Hdpn)). cbn [fst].
  rewrite !(bind_ok _ _ s e (set_fs f1 s)) by (unfold client_call; by rewrite Hop). split.
  - intros He. by rewrite (proj2 (Z.eqb_neq e 0) He).
  - intros -> Hsz Hf. cbn [Z.eqb negb]. destruct (copy_up_ok _ _ _ _ c fuel Hsz Hf) as (m & Hrun & _).
    eexists. split_and!.
    + rewrite (bind_ok _ _ _ _ _ Hrun). unfold d_instantiate, get_dentry, put_dentry, modify, mbind, stm_bind.
      simpl. rewrite Hden. simpl. done.
    + done.
    + done.
    + done.
    + by apply (names_of_more _ _ den).
    + simpl. by rewrite count_insert_ne.
    + simpl. by rewrite count_insert_eq.
Qed.
(** Putting the inode of a dentry that holds its last reference frees it. *)
Lemma dentry_iput_frees s q de ip i c :
  k_dentries s !! q = Some de -> de_inode de = Some ip -> k_inodes s !! ip = Some i -> ii_client_inode i = Some c ->
  count (k_icount s) ip = 1 ->
  exists s', dentry_iput q s = (inr tt, s') /\ k_inodes s' = delete ip (k_inodes s) /\ k_kmem s' = k_kmem s - 1 /\
    k_dentries s' = <[q := set_d_inode de None]> (k_dentries s).
Proof.
  intros Hq Hip Hi Hc H1. unfold dentry_iput, get_dentry, put_dentry, modify. unfold mbind, stm_bind. rewrite Hq. simpl.
  rewrite Hip. unfold vfs_iput, get_inode. unfold mbind, stm_bind. simpl. rewrite Hi. simpl. rewrite H1. simpl.
  unfold iput_last, chunkfs_clear_inode, get_inode, mbind, stm_bind. simpl. rewrite Hi. simpl. rewrite Hc. by eexists.
Qed.

(** The inode that is gone is not found behind a dentry that still has it. *)
Lemma gone_inode s q de dp ip dir di cdir fuel :
  k_dentries s !! q = Some de -> de_inode de = Some ip -> de_fsdata de = Some dp -> k_inodes s !! ip = None ->
  k_inodes s !! dir = Some di -> ii_client_inode di = Some cdir ->
  (dentry_iput q s).1 = inl Undef /\ (chunkfs_unlink fuel dir q s).1 = inl Undef.
Proof.
  intros Hq Hip Hdp Hi Hdi Hcd. split.
  - unfold dentry_iput, get_dentry, put_dentry, modify. unfold mbind, stm_bind. rewrite Hq. simpl. rewrite Hip.
    unfold vfs_iput, get_inode. unfold mbind, stm_bind. simpl. by rewrite Hi.
  - unfold chunkfs_unlink. rewrite (bind_ok _ _ _ _ _ (client_dir_ok _ _ _ _ Hdi Hcd)).
    rewrite (bind_ok _ _ _ _ _ (get_client_dentry_ok _ _ _ _ Hq Hdp)).
    rewrite (bind_ok _ _ s ip s) by (unfold inode_of_dentry, get_dentry, mbind, stm_bind; rewrite Hq; simpl; by rewrite Hip).
    unfold get_inode, mbind, stm_bind. by rewrite Hi.
Qed.

(** C30: a hard link frees an inode that is in use.  The dentry [p] is the only
    name of a file and holds the only reference to its inode.  After a
    link that succeeds the inode has two names and still one reference, and
    the directory one reference too many.  When either of the two
    names goes, the inode is freed while the other name still has it; to
    unlink or drop the other name then follows a pointer to freed memory. *)
Theorem link_frees_used s p ip d hi c dir di cdir pn den dpn L f1 fuel :
  names s p ip d hi c -> k_inodes s !! dir = Some di -> ii_client_inode di = Some cdir -> dir <> ip ->
  k_dentries s !! pn = Some den -> de_fsdata den = Some dpn -> de_inode den = None ->
  op_link (k_fs s) d cdir (dp_client_dentry dpn) = (0, f1) -> sized (set_fs f1 s) ip hi L -> (length L < fuel)%nat ->
  names_of (k_dentries s) ip = 1%nat -> count (k_icount s) ip = 1 ->
  exists s1, chunkfs_link fuel p dir pn s = (inr tt, s1) /\
    names_of (k_dentries s1) ip = 2%nat /\ count (k_icount s1) ip = 1 /\
    count (k_icount s1) dir = count (k_icount s) dir + 1 /\
    forall gone kept, (gone, kept) = (p, pn) \/ (gone, kept) = (pn, p) ->
      exists s2, dentry_iput gone s1 = (inr tt, s2) /\
        k_kmem s2 = k_kmem s1 - 1 /\ k_inodes s2 !! ip = None /\
        (exists de, k_dentries s2 !! kept = Some de /\ de_inode de = Some ip) /\
        (dentry_iput kept s2).1 = inl Undef /\ (chunkfs_unlink fuel dir kept s2).1 = inl Undef.
Proof.
  intros Hna Hdi Hcd Hne Hden Hdpn Hneg Hop Hsz Hf Hone Hcnt.
  destruct (proj2 (link_counts_directory s p ip d hi c dir di cdir pn den dpn L 0 f1 fuel Hna Hdi Hcd Hne Hden Hdpn Hneg Hop)
    eq_refl Hsz Hf) as (s1 & Hrun & _ & Hino & Hde & Hnm & Hct & Hdc).
  destruct Hna as [(de & dp & Hp & Hip & Hdp & _) [Hi Hc]]. assert (p <> pn) as Hpn by congruence.
  assert (k_dentries s1 !! p = Some de) as Hp1 by (by rewrite Hde, lookup_insert_ne).
  assert (k_dentries s1 !! pn = Some (set_d_inode den (Some ip))) as Hpn1 by (by rewrite Hde, lookup_insert_eq).
  assert (k_inodes s1 !! ip = Some (copied f1 hi c L)) as Hi1 by (by rewrite Hino, lookup_insert_eq).
  assert (k_inodes s1 !! dir = Some di) as Hdi1 by (by rewrite Hino, lookup_insert_ne).
  exists s1. split_and!; [done | lia | lia | done |].
  assert (forall gone dg kept dk dpk, k_dentries s1 !! gone = Some dg -> de_inode dg = Some ip -> gone <> kept ->
    k_dentries s1 !! kept = Some dk -> de_inode dk = Some ip -> de_fsdata dk = Some dpk ->
    exists s2, dentry_iput gone s1 = (inr tt, s2) /\
      k_kmem s2 = k_kmem s1 - 1 /\ k_inodes s2 !! ip = None /\
      (exists de, k_dentries s2 !! kept = Some de /\ de_inode de = Some ip) /\
      (dentry_iput kept s2).1 = inl Undef /\ (chunkfs_unlink fuel dir kept s2).1 = inl Undef) as Hgo.
  { intros gone dg kept dk dpk Hg Hgi Hgk Hk Hki Hkd.
    destruct (dentry_iput_frees s1 gone dg ip (copied f1 hi c L) c) as (s2 & R2 & I2 & K2 & D2); [done.. | lia |].
    assert (k_dentries s2 !! kept = Some dk) as Hk2 by (by rewrite D2, lookup_insert_ne).
    destruct (gone_inode s2 kept dk dpk ip dir di cdir fuel) as [U1 U2];
      [done.. | by rewrite I2, lookup_delete_eq | by rewrite I2, lookup_delete_ne | done |].
    exists s2. split_and!; try done; [by rewrite I2, lookup_delete_eq | by exists dk]. }
  intros gone kept [[= -> ->] | [= -> ->]].
  - by eapply Hgo.
  - by eapply Hgo.
Qed.
End heads.
