(* ===== verification/SuperProps.v ===== *)
(** * The whole mount

    [chunkfs_fill_super] on the image of mkfs: the pool, and a root directory
    that is a well-formed file of one part. *)

From S2P Require Import Prelude Monad Bytes OnDisk Device Decimal Client Kernel KernelFacts Judge Mkfs MkfsSpec MkfsProps Pool PoolProps MountProps Uino Cont Inode File Namei Super ContData Chain Append InodeProps NameiProps.

Section mount.
Context `{Host} `{Mutexes} `{ClientFS} `{!ClientLaws} `{!ClientXattrs}.
Context (le_host : big_endian = false).

Lemma next_dentry_address_fresh m : m !! next_dentry_address m = None.
Proof.
  assert (forall p i, m !! p = Some i -> p < next_dentry_address m) as Habove.
  { unfold next_dentry_address.
    apply (map_fold_weak_ind (fun (a : Z) (m : gmap Z dentry) => forall p i, m !! p = Some i -> p < a)).
    - intros p i Hd. by rewrite lookup_empty in Hd.
    - intros p0 i0 m' a _ IH p i Hd. apply lookup_insert_Some in Hd as [[<- _] | [_ Hd]]; [lia |].
      specialize (IH _ _ Hd). lia. }
  destruct (m !! next_dentry_address m) eqn:He; [| done]. apply Habove in He. lia.
Qed.

(** A reference taken and given back. *)
Lemma count_get_put (m : gmap Z Z) d x :
  count (<[d := count (<[d := count m d + 1]> m) d - 1]> (<[d := count m d + 1]> m)) x = count m x.
Proof.
  destruct (decide (d = x)) as [<- | Hne].
  - rewrite !count_insert_eq. lia.
  - by rewrite !count_insert_ne.
Qed.

(** The directory /root of chunk 1: the dentry [d] over inode 12. *)
Record root_there (f : fs) (mnts : Z -> Z) (m d : Z) : Prop := {
  rt_path : kern_path f root_path = inr (m, d);
  rt_inode : d_inode f d = Some (mnt_sb (mnts 1), 12);
  rt_cached : iget_locked f (mnt_sb (mnts 1), 12) = Some f;
  rt_good : is_bad_inode f (mnt_sb (mnts 1), 12) = false;
  rt_size : 0 <= i_size f (mnt_sb (mnts 1), 12) < 2 ^ 63;
}.

(** The root chunk of the mounted pool. *)
Lemma root_can_start f mnts m d n :
  (1 <= n)%nat -> root_there f mnts m d ->
  can_start f (mounted_pool mnts n) (mounted_chunk mnts 1) 1 (mnt_sb (mnts 1), 12).
Proof.
  intros Hn []. split; try done.
  - rewrite find_in_mounted, decide_True by lia. done.
Qed.

(** The root dentry and its inode [ip], over the client dentry [d], the mount
    [mnt] and the client inode [c]. *)
Record root_mounted (s : kstate) (root ip d mnt : Z) (c : cino) : Prop := {
  rm_dentry : exists nd, nd_dentry nd = d /\ nd_mnt nd = mnt /\
    k_dentries s !! root = Some (mk_dentry (Some ip) "/" root (Some (mk_dpriv d nd)) true);
  rm_inode : exists i, k_inodes s !! ip = Some i /\ ii_client_inode i = Some c;
}.

(** Only the dentry [root] is new, at most one inode and no file. *)
Record only_root (root : Z) (s s' : kstate) : Prop := {
  or_dentry p : p <> root -> k_dentries s' !! p = k_dentries s !! p;
  or_files : k_files s' = k_files s;
  or_inodes : (size (k_inodes s') <= S (size (k_inodes s)))%nat;
}.

(** The inode [ip] is new and has one reference; the others are as before. *)
Record only_inode (ip : Z) (s s' : kstate) : Prop := {
  oi_fresh : k_inodes s !! ip = None;
  oi_inodes : exists i, k_inodes s' = <[ip := i]> (k_inodes s);
  oi_icount : k_icount s' = <[ip := 1]> (k_icount s);
}.

(** The second half of reading the root: its dentry. *)
Lemma root_dentry_ok s ip m d pi ci chunk_id :
  k_oom s = [] -> k_pool s = Some pi -> chunkfs_find_chunk pi chunk_id = Some ci -> d <> 0 ->
  exists root nd s',
    (r ← d_make_root ip;
     modify (set_root r);;
     match r with
     | None => iput_last ip;; mthrow (Errno ENOMEM)
     | Some s_root =>
         r ← try (chunkfs_init_dentry s_root);
         match r with
         | inl e => dput_root s_root ip;; iput_last ip;; mthrow (Errno e)
         | inr _ =>
             chunkfs_init_nd s_root d chunk_id;; chunkfs_add_dentry s_root d;; path_put m d;; mret s_root
         end
     end) s = (inr root, s') /\
    k_dentries s' !! root = Some (mk_dentry (Some ip) "/" root (Some (mk_dpriv d nd)) true) /\
    nd_dentry nd = d /\ nd_mnt nd = ci_mnt ci /\ (forall x, count (k_dref s') x = count (k_dref s) x) /\
    k_fs s' = k_fs s /\ k_inodes s' = k_inodes s /\ k_pool s' = k_pool s /\ k_iref s' = k_iref s /\
    k_kmem s' = k_kmem s + 3 /\ k_mnt s' = k_mnt s /\ k_bh s' = k_bh s /\
    k_locks s' = k_locks s /\ k_root s' = Some root /\ k_oom s' = [] /\ k_icount s' = k_icount s /\ only_root root s s'.
Proof.
  intros Ho Hp Hci Hd. set (root := next_dentry_address (k_dentries s)).
  set (s1 := set_dentries (<[root := mk_dentry (Some ip) "/" root None false]> (k_dentries s)) (set_kmem (k_kmem s + 1) s)).
  assert (d_make_root ip s = (inr (Some root), s1)) as R1.
  { unfold d_make_root, kalloc, mbind, stm_bind. by rewrite Ho. }
  set (s1' := set_root (Some root) s1).
  pose proof (init_dentry_ok s1' root (mk_dentry (Some ip) "/" root None false) Ho
    ltac:(simpl; by rewrite lookup_insert_eq) eq_refl) as R2.
  set (s2 := set_dentries _ (set_kmem _ s1')) in R2.
  pose proof (init_nd_ok s2 root (initialised (mk_dentry (Some ip) "/" root None false))
    (mk_dpriv 0 empty_nd) pi ci chunk_id d ltac:(simpl; by rewrite lookup_insert_eq) eq_refl Hp Hci Hd) as R3.
  simpl dp_client_nd in R3. set (nd := mk_nd d _ _ _ _ _) in R3. set (s3 := set_dentries _ (set_mnt _ _)) in R3.
  exists root, nd. eexists. rewrite (bind_ok _ _ _ _ _ R1), (bind_ok _ _ s1 tt s1') by done.
  rewrite (bind_ok _ _ _ _ _ (try_ok _ _ _ _ R2)), (bind_ok _ _ _ _ _ R3). split.
  - unfold chunkfs_add_dentry. rewrite (bind_ok _ _ s3 tt
      (set_dentries (<[root := mk_dentry (Some ip) "/" root (Some (mk_dpriv d nd)) true]> (k_dentries s3)) s3)).
    2: { unfold get_dentry, put_dentry, modify, mbind, stm_bind. cbn -[insert lookup].
         rewrite lookup_insert_eq. cbn -[insert lookup]. done. }
    unfold path_put, dput, mntput, modify, mbind, stm_bind. rewrite (proj2 (Z.eqb_neq d 0) Hd). done.
  - split_and!; try done; [simpl; by rewrite lookup_insert_eq | | simpl; lia.. |].
    + intros x. simpl. apply count_get_put.
    + split; [intros p Hne; simpl; by rewrite !lookup_insert_ne | done | simpl; lia].
Qed.

(** The count of [x] with [n] references more to [d]. *)
Definition more_refs (n : Z) (d x : Z) : Z := if decide (x = d) then n else 0.

Lemma count_more (m : gmap Z Z) n d x : count (<[d := count m d + n]> m) x = count m x + more_refs n d x.
Proof.
  unfold more_refs. destruct (decide (x = d)) as [-> | Hne].
  - by rewrite count_insert_eq.
  - rewrite count_insert_ne by done. lia.
Qed.

(** The inode of the root: its attributes are written, it is started over the
    client inode, and its number is set again. *)
Definition root_inode (f : fs) (i0 : inode) (c : cino) : inode :=
  let i := started f i0 c 1 in
  mk_inode (MAKE_UINO 1 12) (i_csize i) (i_cattr i) (i_op i) (i_fop i) (ii_client_inode i).

Lemma root_inode_ok s ip i0 pi ci d c fuel (K : kernel Z) :
  k_inodes s !! ip = Some i0 -> k_pool s = Some pi -> d <> 0 -> d_inode (k_fs s) d = Some c ->
  can_start (k_fs s) pi ci 1 c -> (1 < fuel)%nat ->
  exists f' r, let s' := set_inodes (<[ip := root_inode f' i0 c]> (k_inodes s)) (set_iref r (set_fs f' s)) in
    (try (chunkfs_init_cont_data d);;
     f ← gets k_fs;
     chunkfs_start_inode fuel ip (d_inode f d) 1;;
     i ← get_inode ip;
     put_inode ip (mk_inode (MAKE_UINO 1 12) (i_csize i) (i_cattr i) (i_op i) (i_fop i) (ii_client_inode i));;
     K) s = K s' /\
    d_inode f' d = Some c /\ can_start f' pi ci 1 c /\ has_cd f' c fresh_cd /\ xattrs_of c (k_fs s) f' /\
    forall j, count r j = count (k_iref s) j.
Proof.
  intros Hi Hp Hd Hc Hst Hf. destruct (init_cont_data_ok s d c Hd Hc) as (f' & R1 & Hx & Hcd).
  set (s1 := set_fs f' s) in *.
  assert (can_start f' pi ci 1 c) as Hst' by by eapply can_start_xattrs.
  destruct (start_ok s1 ip i0 pi ci 1 c fuel) as (r & R2 & Hr); try done.
  exists f', r. cbv zeta. split_and!; try done; [| by rewrite (xo_dentry _ _ _ Hx)].
  set (i5 := started _ _ _ _) in R2. set (s2 := set_inodes _ _) in R2.
  rewrite (bind_ok _ _ _ _ _ (try_ok _ _ _ _ R1)), (bind_ok _ _ _ f' s1) by done.
  rewrite (xo_dentry _ _ _ Hx), Hc, (bind_ok _ _ _ _ _ R2).
  rewrite (bind_ok _ _ _ i5 s2) by (unfold get_inode; simpl; by rewrite lookup_insert_eq).
  unfold put_inode, modify, mbind, stm_bind. f_equal. unfold set_inodes. simpl. by rewrite insert_insert_eq.
Qed.

Lemma read_root_ok s mnts n m d attrs fuel :
  k_oom s = [] -> k_pool s = Some (mounted_pool mnts n) -> (1 <= n)%nat ->
  root_there (k_fs s) mnts m d -> (1 < fuel)%nat ->
  exists root ip s', chunkfs_read_root fuel attrs s = (inr root, s') /\
    (exists hi, one_part_at s' root ip hi (mounted_pool mnts n) (mounted_chunk mnts 1) 1 d (mnt_sb (mnts 1), 12)) /\
    xattrs_of (mnt_sb (mnts 1), 12) (k_fs s) (k_fs s') /\
    k_pool s' = k_pool s /\ k_kmem s' = k_kmem s + 4 /\ k_mnt s' = k_mnt s + 1 /\ k_bh s' = k_bh s /\
    k_locks s' = k_locks s /\ k_root s' = Some root /\
    root_mounted s' root ip d (mnts 1) (mnt_sb (mnts 1), 12) /\
    (forall x, count (k_dref s') x = count (k_dref s) x + more_refs 2 d x) /\
    (forall i, count (k_iref s') i = count (k_iref s) i) /\ only_root root s s' /\ only_inode ip s s'.
Proof.
  intros Ho Hp Hn Hrt Hf. pose proof (root_can_start _ _ _ _ _ Hn Hrt) as Hst. destruct Hrt.
  pose proof (kern_path_dentry _ _ _ _ rt_path0) as Hd.
  set (c := (mnt_sb (mnts 1), 12)) in *. set (ip := next_address (k_inodes s)).
  set (i0 := mk_inode (MAKE_UINO 1 12) 0 attrs NoOps NoFops None).
  set (s1 := set_icount (<[ip := 1]> (k_icount s)) (set_inodes (<[ip := i0]> (k_inodes s)) (set_kmem (k_kmem s + 1) s))).
  set (dr := <[d := count (k_dref s) d + 1]> (k_dref s)).
  assert (lookup_path root_path s1 = (inr (m, d), set_mnt (k_mnt s + 1) (set_dref dr s1))) as R2.
  { unfold lookup_path. simpl. rewrite rt_path0. unfold dget, mntget, mbind, stm_bind.
    by rewrite (proj2 (Z.eqb_neq d 0) Hd). }
  set (s2 := set_mnt _ _) in R2. set (s3 := set_dref (<[d := count dr d + 1]> dr) s2).
  destruct (root_inode_ok s3 ip i0 (mounted_pool mnts n) (mounted_chunk mnts 1) d c fuel
    (r ← d_make_root ip;
     modify (set_root r);;
     match r with
     | None => iput_last ip;; mthrow (Errno ENOMEM)
     | Some s_root =>
         r ← try (chunkfs_init_dentry s_root);
         match r with
         | inl e => dput_root s_root ip;; iput_last ip;; mthrow (Errno e)
         | inr _ =>
             chunkfs_init_nd s_root d 1;; chunkfs_add_dentry s_root d;; path_put m d;; mret s_root
         end
     end)) as (f' & r & R4 & Hdi & Hst' & Hcd & Hx & Hr); try done.
  { simpl. by rewrite lookup_insert_eq. }
  set (s6 := set_inodes _ _) in R4.
  destruct (root_dentry_ok s6 ip m d (mounted_pool mnts n) (mounted_chunk mnts 1) 1 Ho Hp
    (cs_chunk _ _ _ _ _ Hst) Hd) as (root & nd & s7 & R7 & D7 & N7 & X7 & C7 & F7 & I7 & P7 & J7 & K7 & M7 & B7 & L7 & O7 & A7 & T7 & Q7).
  exists root, ip, s7. split_and!.
  - unfold chunkfs_read_root. rewrite (bind_ok _ _ s (Some (mounted_pool mnts n)) s) by (unfold gets; by rewrite Hp).
    rewrite (bind_ok _ _ s (mounted_pool mnts n) s) by done. rewrite (bind_ok _ _ s 0%nat s) by done.
    rewrite (bind_ok _ _ s (mk_dev_info (mounted_chunks mnts n) (Some (mounted_chunk mnts 1)) CHUNKFS_DEV_BLK 0) s)
      by done.
    rewrite (bind_ok _ _ s (mounted_chunk mnts 1) s) by done. cbv zeta. cbn [mounted_chunk ci_chunk_id].
    rewrite (bind_ok _ _ s true (set_kmem (k_kmem s + 1) s)) by (unfold kalloc; by rewrite Ho). cbn [negb].
    rewrite (bind_ok _ _ _ (k_inodes s) (set_kmem (k_kmem s + 1) s)) by done. fold ip i0.
    rewrite (bind_ok _ _ _ tt (set_inodes (<[ip := i0]> (k_inodes s)) (set_kmem (k_kmem s + 1) s))) by done.
    rewrite (bind_ok _ _ _ tt s1) by done.
    rewrite (bind_ok _ _ _ _ _ (try_ok _ _ _ _ R2)).
    rewrite (bind_ok _ _ _ d s3) by (unfold dget; by rewrite (proj2 (Z.eqb_neq d 0) Hd)).
    rewrite <-R7, <-R4. done.
  - exists (root_inode f' i0 c). split; rewrite ?F7, ?I7, ?P7; try done.
    + by eexists _, _.
    + simpl. by rewrite lookup_insert_eq.
  - by rewrite F7.
  - by rewrite P7.
  - rewrite K7. simpl. lia.
  - by rewrite M7.
  - by rewrite B7.
  - by rewrite L7.
  - done.
  - split; [by exists nd |]. eexists. rewrite I7. simpl. by rewrite lookup_insert_eq.
  - intros x. rewrite C7. simpl. unfold dr. rewrite count_more, count_more. unfold more_refs. case_decide; lia.
  - intros i. rewrite J7. apply Hr.
  - destruct Q7 as [Q8 Q9 _]. split; [done | done |]. rewrite I7. simpl. fold ip. rewrite insert_insert_eq, map_size_insert.
    by case_match; unfold id; lia.
  - split; [apply next_address_fresh | | by rewrite T7]. rewrite I7. simpl. fold ip. rewrite insert_insert_eq. by eexists.
Qed.

(** The state after the mount of the image: what is held. *)
Record mounted (s : kstate) (mnts : Z -> Z) (d chunks : Z) (root ip : Z) (s' : kstate) : Prop := {
  mo_pool : k_pool s' = Some (mounted_pool mnts (Z.to_nat chunks));
  mo_file : wf_file s' root [only_part (mounted_chunk mnts 1) 1 d (mnt_sb (mnts 1), 12)] CONT_LEN;
  mo_root : root_mounted s' root ip d (mnts 1) (mnt_sb (mnts 1), 12);
  mo_kmem : k_kmem s' = k_kmem s + (2 + chunks) + 4;
  mo_bh : k_bh s' = k_bh s + (2 + chunks);
  mo_mnt : k_mnt s' = k_mnt s + chunks + 1;
  mo_dref x : count (k_dref s') x = count (k_dref s) x + more_refs 2 d x;
  mo_iref i : count (k_iref s') i = count (k_iref s) i;
  mo_locks : k_locks s' = mk_locks (relock (lk_kernel (k_locks s))) (lk_inodes (k_locks s));
  mo_s_root : k_root s' = Some root;
  mo_others : only_root root s s';
  mo_only_inode : only_inode ip s s';
  mo_root_at : exists hi, one_part_at s' root ip hi (mounted_pool mnts (Z.to_nat chunks)) (mounted_chunk mnts 1) 1 d
    (mnt_sb (mnts 1), 12);
  mo_xattrs : xattrs_of (mnt_sb (mnts 1), 12) (k_fs s) (k_fs s');
}.

Lemma fill_super_run fuel attrs ro s raw mnts m d :
  formatted (k_data s) raw -> (forall blk, k_bad s blk = false) -> k_oom s = [] ->
  clients_mounted (k_fs s) (nchunks raw) mnts -> root_there (k_fs s) mnts m d ->
  2 <= raw < 2 ^ 63 -> 1 <= nchunks raw < 10 ^ 11 -> raw <> chunk_pos (nchunks raw + 2) + 1 ->
  nchunks raw < Z.of_nat fuel ->
  exists root ip s', chunkfs_fill_super fuel attrs true ro s = (inr root, s') /\
    mounted s mnts d (nchunks raw) root ip s'.
Proof.
  intros Hf Hbad Ho Hm Hrt Hraw Hn Hne Hfuel. set (n := Z.to_nat (nchunks raw)).
  set (s0 := set_locks (mk_locks (mutex_up (lk_kernel (k_locks s))) (lk_inodes (k_locks s))) s).
  destruct (mount_mkfs_run le_host fuel s0 raw mnts) as (s1 & Hrun & Hd); [done.. |]. fold n in Hrun.
  set (s2 := set_pool (Some (mounted_pool mnts n)) s1).
  destruct (read_root_ok s2 mnts n m d attrs fuel)
    as (root & ip & s3 & Hroot & (hi & Hone) & Hx3 & P3 & K3 & M3 & B3 & L3 & O3 & R3 & D3 & I3 & Q3 & Z3);
    [by apply (dl_oom _ _ _ _ _ Hd) | done | lia | simpl; by rewrite (dl_fs _ _ _ _ _ Hd) | lia |].
  simpl in L3. rewrite (dl_locks _ _ _ _ _ Hd) in L3. simpl in L3.
  exists root, ip, (set_locks (mk_locks (relock (lk_kernel (k_locks s))) (lk_inodes (k_locks s))) s3). split.
  - unfold chunkfs_fill_super. rewrite (bind_ok _ _ s tt s0) by done. cbn [negb].
    rewrite (bind_ok _ _ s0 (inr root) s3).
    2: { apply try_ok. rewrite (bind_ok _ _ _ _ _ Hrun). rewrite (bind_ok _ _ s1 tt s2) by done.
         by rewrite (bind_ok _ _ _ _ _ Hroot). }
    rewrite (bind_ok _ _ _ _ _ (lock_kernel_up (lk_kernel (k_locks s)) s3 ltac:(by rewrite L3))). by rewrite L3.
  - pose proof (one_part_at_wf _ _ _ _ _ _ _ _ _ Hone) as Hwf.
    split; [exact P3 | exact Hwf | by destruct R3 | simpl; rewrite K3; simpl; rewrite (dl_kmem _ _ _ _ _ Hd); simpl; lia
      | simpl; rewrite B3; simpl; by rewrite (dl_bh _ _ _ _ _ Hd)
      | simpl; rewrite M3; simpl; by rewrite (dl_mnt _ _ _ _ _ Hd) | | | done | done | | | |].
    + intros x. simpl. rewrite D3. simpl. by rewrite (dl_dref _ _ _ _ _ Hd).
    + intros i. simpl. rewrite I3. apply (dl_iref _ _ _ _ _ Hd).
    + destruct Q3 as [Hde Hfi Hin]. split; simpl in *.
      * intros p Hp. by rewrite Hde, (dl_dentries _ _ _ _ _ Hd).
      * by rewrite Hfi, (dl_files _ _ _ _ _ Hd).
      * by rewrite (dl_inodes _ _ _ _ _ Hd) in Hin.
    + destruct Z3 as [Hnew Hino Hct]. simpl in *. rewrite (dl_inodes _ _ _ _ _ Hd) in Hnew, Hino.
      rewrite (dl_icount _ _ _ _ _ Hd) in Hct. by split.
    + exists hi. by destruct Hone.
    + pose proof (dl_fs _ _ _ _ _ Hd) as Hfs. simpl in Hfs, Hx3. by rewrite Hfs in Hx3.
Qed.

(** ** Unmounting *)

Lemma mounted_objs mnts n :
  1 + devs_objs (pi_dlist (mounted_pool mnts n)) = 2 + Z.of_nat n /\
  devs_mounts (pi_dlist (mounted_pool mnts n)) = Z.of_nat n.
Proof. simpl. unfold dev_objs, nobjs. simpl. rewrite length_mounted_chunks. lia. Qed.

Lemma free_pool_run pi s :
  exists s', chunkfs_free_pool pi s = (inr tt, s') /\
    delta (- (1 + devs_objs (pi_dlist pi))) (- (1 + devs_objs (pi_dlist pi))) (- devs_mounts (pi_dlist pi)) s s'.
Proof.
  assert (wp (chunkfs_free_pool pi) (fun r s' => r = inr tt /\
    delta (- (1 + devs_objs (pi_dlist pi))) (- (1 + devs_objs (pi_dlist pi))) (- devs_mounts (pi_dlist pi)) s s') s)
    as Hw.
  { eapply wp_free_pool; [apply delta_refl |]. intros s' Hd. split; [done |]. eapply delta_eq; [done | lia..]. }
  unfold wp in Hw. destruct (chunkfs_free_pool pi s) as [r s']. simpl in Hw. destruct Hw as [-> Hd]. by exists s'.
Qed.

Lemma put_super_run s pi ro :
  k_pool s = Some pi ->
  exists s', chunkfs_free_pool pi s = (inr tt, s') /\ chunkfs_put_super ro s = (inr tt, set_pool None s').
Proof.
  intros Hp. destruct (free_pool_run pi s) as (s' & Hrun & _). exists s'. split; [done |].
  unfold chunkfs_put_super. rewrite (bind_ok _ _ s (Some pi) s) by (unfold gets; by rewrite Hp).
  rewrite (bind_ok _ _ s tt s).
  2: { destruct ro; [done |]. unfold chunkfs_commit_super, gets, mbind, stm_bind. by rewrite Hp. }
  rewrite (bind_ok _ _ s pi s) by done. by rewrite (bind_ok _ _ _ _ _ Hrun).
Qed.

(** Releasing the root: what its dentry and its inode held. *)
Lemma root_release s root ip d mnt c :
  root_mounted s root ip d mnt c -> d <> 0 -> mnt <> 0 ->
  exists s', (iput_last ip;; chunkfs_release_dentry root;; free_dentry root) s = (inr tt, s') /\
    k_pool s' = k_pool s /\ k_kmem s' = k_kmem s - 4 /\ k_mnt s' = k_mnt s - 1 /\ k_bh s' = k_bh s /\
    (forall x, count (k_dref s') x = count (k_dref s) x - more_refs 2 d x) /\
    k_iref s' = <[c := count (k_iref s) c - 1]> (k_iref s) /\ k_locks s' = k_locks s.
Proof.
  intros [(nd & Hnd & Hm & Hde) (i & Hi & Hc)] Hd Hmnt.
  set (s1 := set_kmem (k_kmem s - 1) (set_icount (delete ip (k_icount s)) (set_inodes (delete ip (k_inodes s))
    (set_iref (<[c := count (k_iref s) c - 1]> (k_iref s)) s)))).
  assert (iput_last ip s = (inr tt, s1)) as R1.
  { unfold iput_last, chunkfs_clear_inode, chunkfs_destroy_inode, get_inode, mbind, stm_bind. rewrite Hi. simpl. by rewrite Hc. }
  set (dr := <[d := count (k_dref s) d + -1]> (k_dref s)).
  set (s2 := set_mnt (k_mnt s - 1) (set_dref dr s1)).
  set (s3 := set_dref (<[d := count dr d + -1]> dr) s2).
  set (s4 := set_dentries (<[root := mk_dentry (Some ip) "/" root None true]> (k_dentries s))
    (set_kmem (k_kmem s - 1 - 1 - 1) s3)).
  assert (chunkfs_release_nd root s1 = (inr tt, s2)) as R2.
  { unfold chunkfs_release_nd. erewrite bind_ok; [| by eapply get_client_nd_ok].
    simpl dp_client_nd. rewrite Hnd. unfold dput, mntput, modify, mbind, stm_bind.
    rewrite (proj2 (Z.eqb_neq d 0) Hd). simpl. rewrite Hm. by rewrite (proj2 (Z.eqb_neq mnt 0) Hmnt). }
  assert (chunkfs_remove_dentry root s2 = (inr tt, s3)) as R3.
  { unfold chunkfs_remove_dentry. erewrite bind_ok; [| by eapply get_client_dentry_ok].
    simpl dp_client_dentry. unfold dput. by rewrite (proj2 (Z.eqb_neq d 0) Hd). }
  assert (chunkfs_free_dentry root s3 = (inr tt, s4)) as R4.
  { unfold chunkfs_free_dentry, CHUNKFS_D, get_dentry, kfree, put_dentry, modify, mbind, stm_bind.
    cbn -[insert lookup]. rewrite Hde. cbn -[insert lookup]. by rewrite Hde. }
  eexists. split.
  { rewrite (bind_ok _ _ _ _ _ R1). unfold chunkfs_release_dentry.
    rewrite (bind_ok _ _ s1 tt s4); [done |].
    by rewrite (bind_ok _ _ _ _ _ R2), (bind_ok _ _ _ _ _ R3). }
  split_and!; simpl; try done; [lia |]. intros x. unfold dr. rewrite !count_more. unfold more_refs. case_decide; lia.
Qed.

Lemma shutdown_split root ip ro s s1 :
  (iput_last ip;; chunkfs_release_dentry root;; free_dentry root) s = (inr tt, s1) ->
  shutdown_super root ip ro s =
    ((if ro then mret tt else chunkfs_write_super;; mret tt);; chunkfs_put_super ro) (set_root None s1).
Proof.
  unfold shutdown_super, mbind, stm_bind. destruct (iput_last ip s) as [[] t1]; [done |].
  destruct (chunkfs_release_dentry root t1) as [[] t2]; [done |].
  by destruct (free_dentry root t2) as [[] t3]; [| intros [= -> ->]].
Qed.

(** C8: mounting and unmounting, from end to end.  After a mount of the image
    of mkfs and a read-only unmount with only the root in use, all memory, buffers,
    mount references and references to client dentries are given back; but
    the client inode of the root has lost a reference that the mount never
    took: [chunkfs_start_inode] stores the client inode as it is and
    [chunkfs_clear_inode] puts it. *)
Theorem mount_umount fuel attrs s raw mnts m d :
  formatted (k_data s) raw -> (forall blk, k_bad s blk = false) -> k_oom s = [] ->
  clients_mounted (k_fs s) (nchunks raw) mnts -> root_there (k_fs s) mnts m d ->
  2 <= raw < 2 ^ 63 -> 1 <= nchunks raw < 10 ^ 11 -> raw <> chunk_pos (nchunks raw + 2) + 1 ->
  nchunks raw < Z.of_nat fuel ->
  mnts 1 <> 0 ->
  exists root ip s1 s2, chunkfs_fill_super fuel attrs true true s = (inr root, s1) /\
    (exists de, k_dentries s1 !! root = Some de /\ de_inode de = Some ip) /\
    shutdown_super root ip true s1 = (inr tt, s2) /\
    k_pool s2 = None /\ k_kmem s2 = k_kmem s /\ k_bh s2 = k_bh s /\ k_mnt s2 = k_mnt s /\
    (forall x, count (k_dref s2) x = count (k_dref s) x) /\
    forall i, count (k_iref s2) i =
      count (k_iref s) i - if decide (i = (mnt_sb (mnts 1), 12)) then 1 else 0.
Proof.
  intros Hf Hbad Ho Hm Hrt Hraw Hn Hne Hfuel Hmnt.
  destruct (fill_super_run fuel attrs true s raw mnts m d) as (root & ip & s1 & Hrun & []); [done.. |].
  pose proof (kern_path_dentry _ _ _ _ (rt_path _ _ _ _ Hrt)) as Hd.
  destruct (root_release _ _ _ _ _ _ mo_root0 Hd Hmnt) as (s2 & Hrel & P2 & K2 & M2 & B2 & D2 & I2 & _).
  rewrite mo_pool0 in P2. set (s2' := set_root None s2).
  destruct (put_super_run s2' _ true P2) as (s3 & Hfree & Hput).
  destruct (free_pool_run (mounted_pool mnts (Z.to_nat (nchunks raw))) s2') as (s3' & Hfree' & Hdl).
  assert (s3' = s3) as -> by congruence.
  destruct (mounted_objs mnts (Z.to_nat (nchunks raw))) as [Hobj Hmts]. rewrite Hobj, Hmts in Hdl.
  exists root, ip, s1, (set_pool None s3). split_and!; [done | | | done | ..]; simpl.
  - destruct (rm_dentry _ _ _ _ _ _ mo_root0) as (nd & _ & _ & Hde). by eexists.
  - rewrite (shutdown_split _ _ _ _ _ Hrel). exact Hput.
  - rewrite (dl_kmem _ _ _ _ _ Hdl). simpl. lia.
  - rewrite (dl_bh _ _ _ _ _ Hdl). simpl. lia.
  - rewrite (dl_mnt _ _ _ _ _ Hdl). simpl. lia.
  - intros x. rewrite (dl_dref _ _ _ _ _ Hdl). simpl. rewrite D2, mo_dref0. lia.
  - intros i. rewrite (dl_iref _ _ _ _ _ Hdl). simpl. rewrite I2. case_decide as Hi.
    + subst i. by rewrite count_insert_eq, mo_iref0.
    + rewrite count_insert_ne by congruence. rewrite mo_iref0. lia.
Qed.

(** ** The mutex *)

Lemma try_no_errno {A} (m : kernel A) s e s' : try m s = (inl (Errno e), s') -> False.
Proof. unfold try. by destruct (m s) as [[[]|]]. Qed.

Lemma lock_then {A} (m : kernel A) s r s' :
  (lock_kernel;; m) s = (r, s') -> returned r = true ->
  m (set_locks (mk_locks (mutex_down (lk_kernel (k_locks s))) (lk_inodes (k_locks s))) s) = (r, s').
Proof. unfold lock_kernel, mbind, stm_bind. destruct (_ <=? 0); [intros [= <- <-] | ]; done. Qed.

(** C13: mounting leaves the mutex of the module locked.  Whatever is on the
    device and whether it succeeds or fails, [chunkfs_fill_super] returns
    with [chunkfs_kernel_mutex] held, on a kernel whose mutexes do not count
    the unlock of a free mutex.  Nothing but the start of another mount unlocks
    it: [chunkfs_write_super], with which every sync and every unmount of a
    writable mount begins, waits for that. *)
Theorem sync_blocks_after_mount fuel attrs b ro s r s' :
  counts_strays = false ->
  chunkfs_fill_super fuel attrs b ro s = (r, s') -> returned r = true ->
  lk_kernel (k_locks s') = 0 /\ chunkfs_write_super s' = (inl Blocked, s').
Proof.
  intros Hchk Hrun Hr. assert (lk_kernel (k_locks s') = 0) as Hl.
  { revert Hrun. unfold chunkfs_fill_super. rewrite (bind_ok _ _ s tt _) by done.
    set (body := if negb b then _ else _). set (s1 := set_locks _ _).
    unfold mbind at 1, stm_bind at 1. destruct (try body s1) as [[e | v] s2] eqn:Ht.
    - intros [= <- <-]. destruct e; [by apply try_no_errno in Ht | done..].
    - intros Hrun. apply lock_then in Hrun; [| done].
      unfold mutex_down in Hrun. rewrite Hchk in Hrun.
      destruct v as [e | root]; [destruct (e =? 0) |]; by injection Hrun as <- <-. }
  split; [done |]. apply bind_stop. by apply lock_kernel_held.
Qed.

(** A writable mount cannot be unmounted, on such a kernel.  After the mount of the image of
    mkfs the unmount releases the root and then waits for the mutex in
    [chunkfs_write_super]: the pool is never freed. *)
Theorem umount_writable_blocks fuel attrs s raw mnts m d :
  counts_strays = false ->
  formatted (k_data s) raw -> (forall blk, k_bad s blk = false) -> k_oom s = [] ->
  clients_mounted (k_fs s) (nchunks raw) mnts -> root_there (k_fs s) mnts m d ->
  2 <= raw < 2 ^ 63 -> 1 <= nchunks raw < 10 ^ 11 -> raw <> chunk_pos (nchunks raw + 2) + 1 ->
  nchunks raw < Z.of_nat fuel ->
  mnts 1 <> 0 ->
  exists root ip s1 s2, chunkfs_fill_super fuel attrs true false s = (inr root, s1) /\
    (exists de, k_dentries s1 !! root = Some de /\ de_inode de = Some ip) /\
    shutdown_super root ip false s1 = (inl Blocked, s2) /\
    k_pool s2 = Some (mounted_pool mnts (Z.to_nat (nchunks raw))) /\
    k_bh s2 = k_bh s + (2 + nchunks raw).
Proof.
  intros Hchk Hf Hbad Ho Hm Hrt Hraw Hn Hne Hfuel Hmnt.
  destruct (fill_super_run fuel attrs false s raw mnts m d) as (root & ip & s1 & Hrun & []); [done.. |].
  pose proof (kern_path_dentry _ _ _ _ (rt_path _ _ _ _ Hrt)) as Hd.
  destruct (root_release _ _ _ _ _ _ mo_root0 Hd Hmnt) as (s2 & Hrel & P2 & _ & _ & B2 & _ & _ & L2).
  exists root, ip, s1, (set_root None s2). split_and!; [done | | | simpl; congruence | simpl; lia].
  - destruct (rm_dentry _ _ _ _ _ _ mo_root0) as (nd & _ & _ & Hde). by eexists.
  - rewrite (shutdown_split _ _ _ _ _ Hrel). apply bind_stop, bind_stop, bind_stop, lock_kernel_held.
    simpl. rewrite L2, mo_locks0. by apply relock_checked.
Qed.

(** C7: a mount from end to end.  On the image mkfs leaves, with the client
    file systems mounted and /root of chunk 1 at inode 12,
    [chunkfs_fill_super] succeeds: the pool has exactly the chunks of the
    image, the root dentry has a well-formed file of one part over /root, and
    what the mount holds is accounted for: the summaries, one mount for each
    chunk and one for the root, and four structures for the root. *)
Theorem fill_super_mkfs fuel attrs ro s raw mnts m d :
  formatted (k_data s) raw -> (forall blk, k_bad s blk = false) -> k_oom s = [] ->
  clients_mounted (k_fs s) (nchunks raw) mnts -> root_there (k_fs s) mnts m d ->
  2 <= raw < 2 ^ 63 -> 1 <= nchunks raw < 10 ^ 11 -> raw <> chunk_pos (nchunks raw + 2) + 1 ->
  nchunks raw < Z.of_nat fuel ->
  let n := Z.to_nat (nchunks raw) in
  exists root s', chunkfs_fill_super fuel attrs true ro s = (inr root, s') /\
    k_pool s' = Some (mounted_pool mnts n) /\
    wf_file s' root [only_part (mounted_chunk mnts 1) 1 d (mnt_sb (mnts 1), 12)] CONT_LEN /\
    k_kmem s' = k_kmem s + (2 + nchunks raw) + 4 /\ k_bh s' = k_bh s + (2 + nchunks raw) /\
    k_mnt s' = k_mnt s + nchunks raw + 1 /\
    forall i, count (k_iref s') i = count (k_iref s) i.
Proof.
  intros Hf Hbad Ho Hm Hrt Hraw Hn Hne Hfuel n.
  destruct (fill_super_run fuel attrs ro s raw mnts m d) as (root & ip & s' & Hrun & []); [done.. |].
  exists root, s'. by split_and!.
Qed.
End mount.
