(* ===== verification/System.v ===== *)
(** * The system from mkfs on

    What mkfs wrote is mounted, and then the VFS makes any calls: the theorems
    that put the mount and the invariants of the mounted system together. *)

From S2P Require Import Prelude Monad Bytes OnDisk Device Decimal Client Kernel KernelFacts Judge Mkfs MkfsSpec MkfsProps Pool PoolProps MountProps Uino Cont Inode File Namei Super ContData Chain Append Vfs Quiet NameiProps Memory Counts Evolve VfsProps SuperProps.

Section system.
Context `{Host} `{Mutexes} `{ClientFS} `{!ClientLaws} `{!ClientXattrs}.
Context (le_host : big_endian = false).
Context (default_llseek : Z -> Z -> Z -> kernel Z) (generic_read_dir : kernel Z).
Context (llseek_moves : forall p offset origin s, exists r s',
  default_llseek p offset origin s = (inr r, s') /\
  (s' = s \/ exists f pos, k_files s !! p = Some f /\ s' = set_files (<[p := mk_file (f_dentry f) pos]> (k_files s)) s)).
Context (read_dir_refuses : forall s, exists e, generic_read_dir s = (inr e, s)).

(** The root is the only dentry of a fresh mount. *)
Lemma mounted_running s mnts d chunks root ip s1 :
  k_dentries s = ∅ -> k_files s = ∅ -> k_locks s = mk_locks 1 ∅ ->
  mounted s mnts d chunks root ip s1 -> running s1 s1.
Proof.
  intros Hde Hfi Hlk []. destruct mo_others as [Hoth Hf _]. destruct mo_root as [(nd & _ & _ & Hroot) (i & Hi & Hc)].
  assert (positive s1 root) as Hpos by (by eexists _, _).
  assert (forall p de, k_dentries s1 !! p = Some de -> p = root /\ de = mk_dentry (Some ip) "/" root (Some (mk_dpriv d nd)) true)
    as Honly.
  { intros p de Hp. destruct (decide (p = root)) as [-> |]; [split; congruence |].
    rewrite Hoth, Hde in Hp by done. by rewrite lookup_empty in Hp. }
  assert (k_locks s1 = mk_locks (if counts_strays then 1 else 0) ∅) as Hlocks by (by rewrite mo_locks, Hlk, <-relock_free).
  split; try done; [split | | | by intros r Hr; congruence].
  - intros p j (de & Hp & Hj). destruct (Honly _ _ Hp) as [-> ->]. injection Hj as <-.
    split; [by exists i, (mnt_sb (mnts 1), 12) | by eexists _, _].
  - intros p de Hp. destruct (Honly _ _ Hp) as [-> ->]. done.
  - intros q f Hq. rewrite Hf, Hfi in Hq. by rewrite lookup_empty in Hq.
  - unfold unlocked. by rewrite Hlocks.
  - rewrite Hlocks. simpl. destruct counts_strays; lia.
Qed.

(** The root inode has the one reference of the root dentry. *)
Lemma mounted_counted s mnts d chunks root ip s1 :
  k_dentries s = ∅ -> k_inodes s = ∅ -> k_icount s = ∅ -> mounted s mnts d chunks root ip s1 -> counted s1.
Proof.
  intros Hde Hin Hct []. destruct mo_others as [Hoth _ _]. destruct mo_only_inode as [_ (i & Hi) Hc].
  destruct mo_root as [(nd & _ & _ & Hroot) _]. split; intros j; rewrite ?Hi, Hc, ?Hin, Hct.
  - rewrite (names_of_delete _ _ _ j Hroot). assert (delete root (k_dentries s1) = ∅) as ->.
    { apply map_eq. intros p. rewrite lookup_delete, lookup_empty. case_decide; [done |].
      by rewrite Hoth, Hde, lookup_empty by congruence. }
    unfold names_of, has_name. rewrite map_filter_empty, map_size_empty. simpl.
    case_decide as Hj; [injection Hj as <-; rewrite count_insert_eq; lia |].
    destruct (decide (ip = j)) as [<- | Hne]; [done |]. rewrite count_insert_ne by done. done.
  - destruct (decide (ip = j)) as [<- | Hne].
    + rewrite lookup_insert_eq, count_insert_eq. split; [lia | by eexists].
    + rewrite lookup_insert_ne, count_insert_ne, lookup_empty by done. split; [by intros [] | done].
Qed.

(** What every state has that is reached without a link that succeeds. *)
Lemma mounted_reached s mnts d chunks root ip s1 s' :
  k_dentries s = ∅ -> k_inodes s = ∅ -> k_files s = ∅ -> k_icount s = ∅ -> k_locks s = mk_locks 1 ∅ ->
  mounted s mnts d chunks root ip s1 -> rtc (vfs_step default_llseek generic_read_dir no_link) s1 s' ->
  running s1 s' /\ counted s'.
Proof using All.
  intros Hde Hin Hfi Hct Hlk Hmo Hs. eapply running_steps; [exact llseek_moves | exact read_dir_refuses | | | exact Hs].
  - by eapply mounted_running.
  - by eapply mounted_counted.
Qed.

(** C9: a mounted system has no dangling pointers.  The image of mkfs is
    mounted; then the VFS makes any calls in any order, with any arguments
    that type, whatever the client file systems answer and whichever
    allocations fail, as long as each call returns and no link succeeds; and
    whenever a dentry goes or becomes negative its inode is put, and evicted
    and freed with the last reference.  In every state that is reached the
    pool, the buffers and the disk are those of the mount, the root is there,
    no mutex but that of the module is held, the inode of each dentry has a
    client inode and the dentry its private data, parents have inodes, and
    each open file leads to its client inode. *)
Theorem mounted_system_closed fuel attrs ro s raw mnts m d :
  formatted (k_data s) raw -> (forall blk, k_bad s blk = false) -> k_oom s = [] ->
  clients_mounted (k_fs s) (nchunks raw) mnts -> root_there (k_fs s) mnts m d ->
  2 <= raw < 2 ^ 63 -> 1 <= nchunks raw < 10 ^ 11 -> raw <> chunk_pos (nchunks raw + 2) + 1 ->
  nchunks raw < Z.of_nat fuel ->
  k_dentries s = ∅ -> k_inodes s = ∅ -> k_files s = ∅ -> k_icount s = ∅ -> k_locks s = mk_locks 1 ∅ ->
  exists root s1, chunkfs_fill_super fuel attrs true ro s = (inr root, s1) /\
    forall s', rtc (vfs_step default_llseek generic_read_dir no_link) s1 s' ->
      closed s' /\ positive s' root /\ k_root s' = Some root /\ k_locks s' = mk_locks (if counts_strays then 1 else 0) ∅ /\
      k_pool s' = Some (mounted_pool mnts (Z.to_nat (nchunks raw))) /\
      k_bh s' = k_bh s + (2 + nchunks raw) /\ k_data s' = k_data s1 /\ k_opens s1 <= k_opens s' /\
      forall q f, k_files s' !! q = Some f ->
        exists ip i c, file_inode q s' = (inr ip, s') /\ k_inodes s' !! ip = Some i /\ get_client_inode i = Some c.
Proof using All.
  intros Hf Hbad Ho Hm Hrt Hraw Hn Hne Hfuel Hde Hin Hfi Hct Hlk.
  destruct (fill_super_run le_host fuel attrs ro s raw mnts m d) as (root & ip & s1 & Hrun & Hmo); [done.. |].
  exists root, s1. split; [done |]. intros s' Hs.
  destruct (mounted_reached _ _ _ _ _ _ _ _ Hde Hin Hfi Hct Hlk Hmo Hs) as [Hrs _].
  assert (k_root s' = Some root) as Hroot by (rewrite (rn_root _ _ Hrs); apply Hmo).
  split_and!; try done; [apply Hrs | by apply (rn_root_positive _ _ Hrs) | | | | apply Hrs | apply Hrs |].
  - rewrite (rn_locks _ _ Hrs), (mo_locks _ _ _ _ _ _ _ Hmo), Hlk. simpl. by rewrite relock_free.
  - rewrite (rn_pool _ _ Hrs). apply Hmo.
  - rewrite (rn_bh _ _ Hrs). apply Hmo.
  - intros q f Hq. by eapply running_file.
Qed.

(** ** Memory *)

Context `{!ClientErrors}.

(** What a mount allocates besides the inode and the private data of the
    root: the root dentry and the structures of the pool. *)
Lemma mounted_slack s mnts d chunks root ip s1 :
  k_dentries s = ∅ -> mounted s mnts d chunks root ip s1 -> slack s + (2 + chunks) + 1 <= slack s1.
Proof using Type.
  intros Hde []. destruct mo_others as [Hoth _ Hin]. destruct mo_root as [(nd & _ & _ & Hroot) _].
  unfold slack. rewrite mo_kmem, Hde, (privs_delete _ _ _ Hroot).
  assert (delete root (k_dentries s1) = ∅) as ->.
  { apply map_eq. intros p. rewrite lookup_delete, lookup_empty. case_decide; [done |].
    by rewrite Hoth, Hde, lookup_empty by congruence. }
  unfold has_fsdata, privs. rewrite map_fold_empty. simpl. lia.
Qed.

Lemma slack_steps may s s' : rtc (vfs_step default_llseek generic_read_dir may) s s' -> slack s <= slack s'.
Proof using All.
  intros Hs. induction Hs as [s | s1 s2 s3 Hst _ IH]; [lia |]. etransitivity; [| exact IH]. eapply slack_step; [| | exact Hst].
  - intros p offset origin. apply neutral_still. intros st.
    destruct (llseek_moves p offset origin st) as (r & st' & -> & [-> | (f & pos & _ & ->)]); done.
  - apply neutral_still. intros st. destruct (read_dir_refuses st) as [e ->]. done.
Qed.

(** A dentry can be dropped: its inode is there to be put. *)
Lemma iput_returns s0 s p d : running s0 s -> k_dentries s !! p = Some d -> exists s', dentry_iput p s = (inr tt, s').
Proof using Type.
  intros Hr Hp. unfold dentry_iput, get_dentry, put_dentry, modify. unfold mbind, stm_bind. rewrite Hp. simpl.
  destruct (de_inode d) as [ip|] eqn:Hip; [| by eexists].
  destruct (cl_leads _ (rn_closed _ _ Hr) p ip) as [(i & c & Hi & Hc) _]; [by exists d |].
  unfold vfs_iput, get_inode, mbind, stm_bind. simpl. rewrite Hi. simpl. destruct (_ =? 1); [| by eexists].
  unfold iput_last, chunkfs_clear_inode, get_inode, mbind, stm_bind. simpl. rewrite Hi. simpl. rewrite Hc. by eexists.
Qed.

(** C10: inodes are freed with their last reference and not before, and memory
    covers what is in use.  From the mount of the image of mkfs on, after any
    calls of the VFS but a link that succeeds, whichever allocations fail: the
    reference count of each inode is at least the number of the dentries that
    have it, the inodes that are there are exactly those with a positive
    count, so that the inode of a dentry is never gone, and putting the inode of
    any dentry finds it there.  After any calls whatever, what is
    allocated is at least the structures of the pool, the root dentry,
    the chunkfs inodes and both parts of the private data of every dentry: a
    call frees memory that it allocated itself, or that of an object with the
    object. *)
Theorem memory_covers_objects fuel attrs ro s raw mnts m d :
  formatted (k_data s) raw -> (forall blk, k_bad s blk = false) -> k_oom s = [] ->
  clients_mounted (k_fs s) (nchunks raw) mnts -> root_there (k_fs s) mnts m d ->
  2 <= raw < 2 ^ 63 -> 1 <= nchunks raw < 10 ^ 11 -> raw <> chunk_pos (nchunks raw + 2) + 1 ->
  nchunks raw < Z.of_nat fuel ->
  k_dentries s = ∅ -> k_inodes s = ∅ -> k_files s = ∅ -> k_icount s = ∅ -> k_locks s = mk_locks 1 ∅ ->
  exists root s1, chunkfs_fill_super fuel attrs true ro s = (inr root, s1) /\
    (forall s', rtc (vfs_step default_llseek generic_read_dir no_link) s1 s' ->
      (forall ip, Z.of_nat (names_of (k_dentries s') ip) <= count (k_icount s') ip) /\
      (forall ip, is_Some (k_inodes s' !! ip) <-> 0 < count (k_icount s') ip) /\
      (forall p de ip, k_dentries s' !! p = Some de -> de_inode de = Some ip -> is_Some (k_inodes s' !! ip)) /\
      (forall p de, k_dentries s' !! p = Some de -> exists s2, dentry_iput p s' = (inr tt, s2))) /\
    forall s', rtc (vfs_step default_llseek generic_read_dir any_call) s1 s' ->
      k_kmem s + (2 + nchunks raw) + 1 + Z.of_nat (size (k_inodes s')) + 2 * privs (k_dentries s') <= k_kmem s'.
Proof using All.
  intros Hf Hbad Ho Hm Hrt Hraw Hn Hne Hfuel Hde Hin Hfi Hct Hlk.
  destruct (fill_super_run le_host fuel attrs ro s raw mnts m d) as (root & ip & s1 & Hrun & Hmo); [done.. |].
  exists root, s1. split; [done |]. split.
  - intros s' Hs. destruct (mounted_reached _ _ _ _ _ _ _ _ Hde Hin Hfi Hct Hlk Hmo Hs) as [Hrs Hc].
    split_and!; [apply Hc | apply Hc | | by intros p de; eapply iput_returns]. intros p de j Hp Hj.
    destruct (cl_leads _ (rn_closed _ _ Hrs) p j) as [(i & c & Hi & _) _]; [by exists de | by exists i].
  - intros s' Hs. pose proof (mounted_slack _ _ _ _ _ _ _ Hde Hmo) as Hs1. pose proof (slack_steps _ _ _ Hs) as Hs2.
    assert (slack s = k_kmem s) as Hs3 by (unfold slack, privs; rewrite Hin, Hde, map_fold_empty, map_size_empty; lia).
    rewrite Hs3 in Hs1. unfold slack in Hs1, Hs2. lia.
Qed.
End system.
