(* ===== verification/ModuleProps.v ===== *)
(** * Mounts that fail, and loading the module

    A mount that returns an error keeps nothing, whichever error it is; but
    the errors it can return are only those of the block size and of the pool:
    reading the root has error paths that never return. *)

From S2P Require Import Prelude Monad Bytes OnDisk Device Decimal Client Kernel KernelFacts Judge Pool PoolProps Uino Cont Inode File Namei Super Module.

Section mount.
Context `{Host} `{Mutexes} `{ClientFS}.

Lemma no_errno_lock_kernel : no_errno lock_kernel.
Proof. intros s e s'. unfold lock_kernel. by destruct (_ <=? 0). Qed.

Lemma no_errno_iput_last p : no_errno (iput_last p).
Proof. unfold iput_last, chunkfs_clear_inode, chunkfs_destroy_inode, iput, kfree. no_errno. Qed.

(** The inode is gone after the first [iput]. *)
Lemma iput_last_gone p s s1 : iput_last p s = (inr tt, s1) -> k_inodes s1 !! p = None.
Proof.
  unfold iput_last, chunkfs_clear_inode, chunkfs_destroy_inode, get_inode, deref, iput, kfree, modify, mbind, stm_bind.
  destruct (k_inodes s !! p) as [i|]; simpl; [| done]. destruct (ii_client_inode i); simpl; [| done].
  intros [= <-]. simpl. by rewrite lookup_delete_eq.
Qed.

(** Putting it twice follows a pointer to freed memory. *)
Lemma no_errno_iput_twice {A} p f (e : stop) : (forall s, k_inodes (f s) = k_inodes s) ->
  no_errno (iput_last p;; modify f;; iput_last p;; mthrow e : kernel A).
Proof.
  intros Hf s e' s'. destruct (iput_last p s) as [[x|[]] s1] eqn:He.
  - rewrite (bind_stop _ _ _ _ _ He). intros [= -> _]. by apply no_errno_iput_last in He.
  - rewrite (bind_ok _ _ _ _ _ He). apply iput_last_gone in He.
    unfold iput_last, chunkfs_clear_inode, chunkfs_destroy_inode, get_inode, modify, mbind, stm_bind. simpl. by rewrite Hf, He.
Qed.

Lemma no_errno_copy_up_inode fuel p c : no_errno (chunkfs_copy_up_inode fuel p c).
Proof. unfold chunkfs_copy_up_inode, copy_inode_up, sum_sizes_step, put_inode. no_errno. Qed.

Lemma no_errno_start_inode fuel p c chunk_id : no_errno (chunkfs_start_inode fuel p c chunk_id).
Proof. unfold chunkfs_start_inode, put_inode. destruct c; no_errno. apply no_errno_copy_up_inode. Qed.

Lemma no_errno_init_nd p d chunk_id : no_errno (chunkfs_init_nd p d chunk_id).
Proof. unfold chunkfs_init_nd, get_client_nd, CHUNKFS_D, put_nd, put_dentry. no_errno. Qed.

Lemma no_errno_add_dentry p d : no_errno (chunkfs_add_dentry p d).
Proof. unfold chunkfs_add_dentry, put_dentry. no_errno. Qed.

(** [d_make_root] puts the inode when it fails. *)
Lemma no_errno_root_refused {A} ip (e : stop) (K : Z -> kernel A) :
  (forall root, no_errno (K root)) ->
  no_errno (r ← d_make_root ip; modify (set_root r);;
            match r with None => iput_last ip;; mthrow e | Some root => K root end).
Proof.
  intros HK s e' s'. unfold d_make_root. rewrite (stm_assoc kalloc _ _ s). revert s e' s'.
  apply no_errno_bind; [apply no_errno_kalloc | intros ok s e' s'].
  destruct ok; cbn [negb]; rewrite (stm_assoc _ _ _ s); revert s e' s'.
  - apply no_errno_bind; [apply no_errno_gets | intros m s e' s']. rewrite (stm_assoc _ _ _ s). revert s e' s'.
    apply no_errno_bind; [apply no_errno_modify | intros [] s e' s']. simpl. apply HK.
  - by apply (no_errno_iput_twice _ (set_root None)).
Qed.

#[local] Hint Resolve no_errno_start_inode no_errno_init_nd no_errno_add_dentry : no_errno.

(** The root with its dentry: without private data its inode is put twice. *)
Lemma no_errno_root_dentry ip d mnt d' chunk_id root :
  no_errno (r ← try (chunkfs_init_dentry root);
            match r with
            | inl e => dput_root root ip;; iput_last ip;; mthrow (Errno e)
            | inr _ => chunkfs_init_nd root d chunk_id;; chunkfs_add_dentry root d;; path_put mnt d';; mret root
            end).
Proof.
  apply no_errno_bind; [apply no_errno_try | intros [e | []]].
  - unfold dput_root, free_dentry, kfree. intros s e' s'. rewrite (stm_assoc _ _ _ s). revert s e' s'.
    apply no_errno_bind; [no_errno | intros []]. apply (no_errno_iput_twice ip (fun s => s)). done.
  - unfold path_put, mntput. no_errno.
Qed.


(** Reading the root has no error that it returns: its error paths all follow
    a null pointer or put an inode that is gone. *)
Lemma no_errno_read_root fuel attrs : no_errno (chunkfs_read_root fuel attrs).
Proof. 
  unfold chunkfs_read_root, put_inode.
  repeat first [ apply no_errno_root_refused; intros ?; apply no_errno_root_dentry | progress no_errno1 ].
Qed.

Lemma delta_locked dk db dm s s' :
  delta dk db dm (set_locks (mk_locks (mutex_up (lk_kernel (k_locks s))) (lk_inodes (k_locks s))) s) s' ->
  delta dk db dm (locked s) (set_locks (mk_locks (relock (lk_kernel (k_locks s))) (lk_inodes (k_locks s'))) s').
Proof. intros []. split; simpl in *; try done. by rewrite dl_locks. Qed.

(** The body between the two calls of the mutex. *)
Lemma fill_super_body fuel attrs b ro s e s' :
  (if negb b then mthrow (Errno EINVAL) else
   pi ← chunkfs_read_pool fuel; modify (set_pool (Some pi));;
   root ← chunkfs_read_root fuel attrs; chunkfs_setup_super ro;; mret root) s
    = (inl (Errno e), s') ->
  delta 0 0 0 s s'.
Proof.
  destruct b; cbn [negb].
  - destruct (chunkfs_read_pool fuel s) as [[x | pi] s1] eqn:Hp.
    + rewrite (bind_stop _ _ _ _ _ Hp). intros [= -> <-]. by eapply read_pool_error_keeps_nothing.
    + rewrite (bind_ok _ _ _ _ _ Hp). intros Hr. exfalso. revert Hr.
      apply no_errno_bind; [apply no_errno_modify | intros []].
      apply no_errno_bind; [apply no_errno_read_root | intros root]. unfold chunkfs_setup_super. no_errno.
  - intros [= _ <-]. apply delta_refl.
Qed.

Lemma fill_super_error fuel attrs b ro s e s' :
  chunkfs_fill_super fuel attrs b ro s = (inl (Errno e), s') -> delta 0 0 0 (locked s) s'.
Proof.
  unfold chunkfs_fill_super. rewrite (bind_ok _ _ s tt _) by done.
  set (s0 := set_locks _ s). set (body := if negb b then _ else _).
  destruct (body s0) as [[[e1| | | |]|root] s1] eqn:Hb; unfold mbind at 1, stm_bind at 1, try; rewrite Hb; try done.
  - pose proof (fill_super_body _ _ _ _ _ _ _ Hb) as Hd. unfold lock_kernel, mbind, stm_bind.
    rewrite (dl_locks _ _ _ _ _ Hd). simpl. rewrite (proj2 (Z.leb_gt _ _) (mutex_up_positive _)).
    destruct (e1 =? 0); intros [= _ <-].
    pose proof (delta_locked _ _ _ _ _ Hd) as Hl. rewrite (dl_locks _ _ _ _ _ Hd) in Hl. exact Hl.
  - unfold lock_kernel, mbind, stm_bind. by destruct (_ <=? 0).
Qed.

(** C12: a mount that returns an error keeps nothing.  Whatever is on the
    device and whichever allocations, reads and lookups fail, an error of
    [chunkfs_mount] is that of opening the device, and nothing has changed;
    or the device has been closed again, and memory, buffers, mounts and
    references are as before.  Of the mutex alone something is left: it was
    unlocked and locked again. *)
Theorem failed_mount_keeps_nothing fuel attrs dev b ro m e m' :
  k_root (m_kernel m) = None ->
  chunkfs_mount fuel attrs dev b ro m = (inl (Errno e), m') ->
  (dev <> 0 -> e = dev /\ m' = m) /\
  (dev = 0 -> delta 0 0 0 (locked (m_kernel m)) (m_kernel m') /\ m_opens m' = m_opens m /\
    m_bd_super m' = false /\ m_registered m' = m_registered m /\ m_cache m' = m_cache m).
Proof.
  intros Hroot. unfold chunkfs_mount, mount_bdev. destruct (Z.eqb_spec dev 0) as [-> | Hdev]; cbn [negb].
  2: { by intros [= <- <-]. }
  unfold lift at 1. simpl m_kernel. intros Hrun. split; [done | intros _]. revert Hrun.
  destruct (chunkfs_fill_super fuel attrs b ro (m_kernel m)) as [[[e1| | | |]|root] s1] eqn:Hf; try done.
  pose proof (fill_super_error _ _ _ _ _ _ _ Hf) as Hd.
  assert (k_root s1 = None) as Hr1 by (rewrite (dl_root _ _ _ _ _ Hd); exact Hroot).
  unfold chunkfs_kill_super, lift, generic_shutdown_super, blkdev_put, gets, modify, mbind, stm_bind.
  simpl. rewrite Hr1. simpl. intros [= _ <-]. simpl. split_and!; try done. lia.
Qed.

(** Loading that fails keeps what succeeded: without the cache the type stays
    registered, and a mount allocates from a null cache; without the type the
    cache stays. *)
Lemma init_failure_leaks reg m :
  m_registered m = false -> m_cache m = false -> reg <> 0 ->
  init_chunkfs_fs 0 false m = (inr (- ENOMEM), set_registered true m) /\
  init_chunkfs_fs reg true m = (inr (- reg), set_cache true m).
Proof.
  intros Hr Hc Hreg. unfold init_chunkfs_fs, modify, mbind, stm_bind. simpl.
  rewrite (proj2 (Z.eqb_neq reg 0) Hreg). destruct m. simpl in *. by subst.
Qed.

(** Loading that succeeds is undone by unloading. *)
Lemma load_unload m m' :
  m_registered m = false -> m_cache m = false ->
  init_chunkfs_fs 0 true m = (inr 0, m') -> exit_chunkfs_fs m' = (inr tt, m).
Proof.
  intros Hr Hc. unfold init_chunkfs_fs, exit_chunkfs_fs, modify, mbind, stm_bind. simpl. intros [= <-].
  destruct m. simpl in *. by subst.
Qed.
End mount.
