(* ===== verification/Release.v ===== *)
(** * What a failed lookup leaves behind

    [chunkfs_init_dentry] sets the operations of a dentry, and nothing unsets
    them; the error paths of [chunkfs_lookup] free its private data.  The
    VFS drops the dentry of a lookup that failed, and calls its [d_release]
    then. *)

From S2P Require Import Prelude Monad Decimal Client Kernel KernelFacts Judge Pool Uino Cont Inode File Namei Super Vfs Quiet NameiProps Evolve ModuleProps.

Section release.
Context `{ClientFS}.

(** The dentry [p] has the operations of the module, and no private data. *)
Definition hooked (p : Z) (s : kstate) : Prop := exists d, k_dentries s !! p = Some d /\ de_dops d = true.
Definition bare (p : Z) (s : kstate) : Prop :=
  exists d, k_dentries s !! p = Some d /\ de_dops d = true /\ de_fsdata d = None.

Lemma bare_release p s : bare p s -> (vfs_d_release p s).1 = inl Undef.
Proof.
  intros (d & Hd & Hop & Hfs). unfold vfs_d_release. rewrite (bind_ok _ _ s d s) by (unfold get_dentry; by rewrite Hd).
  rewrite Hop. simpl. unfold chunkfs_release_dentry, chunkfs_release_nd, get_client_nd, CHUNKFS_D, get_dentry, mbind, stm_bind.
  rewrite Hd. simpl. by rewrite Hfs.
Qed.

(** [m] keeps the operations of [p]; when it returns an error the private
    data is gone. *)
Definition bares {A} (p : Z) (m : kernel A) : Prop := forall s, hooked p s ->
  match m s with
  | (inr _, s') => hooked p s'
  | (inl (Errno _), s') => bare p s'
  | (inl _, _) => True
  end.

Lemma bares_bind {A B} p (m : kernel A) (f : A -> kernel B) :
  bares p m -> (forall a, bares p (f a)) -> bares p (m ≫= f).
Proof.
  intros Hm Hf s Hs. specialize (Hm s Hs). unfold mbind, stm_bind.
  destruct (m s) as [[[]|a] s1]; try done. by apply Hf.
Qed.

Lemma bares_ret {A} p (a : A) : bares p (mret a).
Proof. by intros s Hs. Qed.

Lemma bares_undef {A} p : bares p (mthrow Undef : kernel A).
Proof. by intros s Hs. Qed.

(** The dentries stay as they are. *)
Definition same_dentries (s s' : kstate) : Prop := k_dentries s' = k_dentries s.

#[export] Instance same_dentries_preorder : PreOrder same_dentries.
Proof. unfold same_dentries. split; [done |]. intros s1 s2 s3 H1 H2. congruence. Qed.

Lemma quiet_same {A} (m : kernel A) : keeps quiet m -> keeps same_dentries m.
Proof. intros Hm s. eapply runs_sub; [apply qu_dentries | apply Hm]. Qed.

Lemma bares_same {A} p (m : kernel A) : keeps same_dentries m -> no_errno m -> bares p m.
Proof.
  intros Hk Hn s (d & Hd & Hop). specialize (Hk s). unfold runs, same_dentries in Hk.
  destruct (m s) as [[[]|a] s'] eqn:Hm; try done.
  - by destruct (Hn s e s').
  - destruct Hk as [Hk _]. exists d. by rewrite Hk.
Qed.

Lemma bares_quiet {A} p (m : kernel A) : keeps quiet m -> no_errno m -> bares p m.
Proof. intros Hm Hn. by apply bares_same; [apply quiet_same |]. Qed.

Lemma bares_try {A} p (m : kernel A) : keeps quiet m -> bares p (try m).
Proof. intros Hm. apply bares_quiet; [keeps | apply no_errno_try]. Qed.

(** ** The steps of a lookup *)

Lemma bares_put p q d0 d s :
  k_dentries s !! q = Some d0 -> de_dops d = de_dops d0 -> hooked p s ->
  hooked p (set_dentries (<[q := d]> (k_dentries s)) s).
Proof.
  intros Hq Hop (d' & Hd' & Ht). destruct (decide (p = q)) as [-> | Hne].
  - exists d. simpl. rewrite lookup_insert_eq. split; [done |]. congruence.
  - exists d'. simpl. by rewrite lookup_insert_ne.
Qed.

Lemma bares_put_nd p q nd : bares p (put_nd q nd).
Proof.
  intros s Hs. unfold put_nd, get_dentry, put_dentry, modify, mbind, stm_bind.
  destruct (k_dentries s !! q) as [d|] eqn:Hd; [| done]. simpl. destruct (de_fsdata d); [| done]. simpl.
  by eapply bares_put.
Qed.

Lemma bares_add_dentry p q d : bares p (chunkfs_add_dentry q d).
Proof.
  intros s Hs. unfold chunkfs_add_dentry, get_dentry, put_dentry, modify, mbind, stm_bind.
  destruct (k_dentries s !! q) as [de|] eqn:Hd; [| done]. simpl. destruct (de_fsdata de); [| done]. simpl.
  by eapply bares_put.
Qed.

Lemma bares_d_instantiate p q i : bares p (d_instantiate q i).
Proof.
  intros s Hs. unfold d_instantiate, get_dentry, put_dentry, modify, mbind, stm_bind.
  destruct (k_dentries s !! q) as [d|] eqn:Hd; [| done]. simpl. by eapply bares_put.
Qed.

Lemma bares_free_error {A} p e : bares p (chunkfs_free_dentry p;; mthrow (Errno e) : kernel A).
Proof.
  intros s (d & Hd & Hop). unfold chunkfs_free_dentry, CHUNKFS_D, kfree, get_dentry, put_dentry, modify, mbind, stm_bind.
  rewrite Hd. simpl. destruct (de_fsdata d); [| done]. simpl. rewrite Hd. simpl.
  exists (set_fsdata d None). simpl. by rewrite lookup_insert_eq.
Qed.

Lemma bares_free p : bares p (chunkfs_free_dentry p).
Proof.
  intros s (d & Hd & Hop). unfold chunkfs_free_dentry, CHUNKFS_D, kfree, get_dentry, put_dentry, modify, mbind, stm_bind.
  rewrite Hd. simpl. destruct (de_fsdata d); [| done]. simpl. rewrite Hd. simpl.
  exists (set_fsdata d None). simpl. by rewrite lookup_insert_eq.
Qed.

Lemma same_new_inode : keeps same_dentries chunkfs_new_inode.
Proof.
  unfold chunkfs_new_inode, chunkfs_alloc_inode, put_inode, modify.
  repeat first [apply keeps_bind; [| intros ?] | apply quiet_same, quiet_kalloc | case_match | apply keeps_gets
    | apply keeps_ret | by intros s].
Qed.

Lemma same_start_inode fuel p c id : keeps same_dentries (chunkfs_start_inode fuel p c id).
Proof.
  unfold chunkfs_start_inode, chunkfs_copy_up_inode, put_inode, modify. destruct c as [c|]; [| by intros s].
  repeat first [apply keeps_bind; [| intros ?] | apply quiet_same, quiet_get_inode | apply keeps_gets | by intros s
    | apply quiet_same, quiet_copy_inode_up | apply quiet_same; solve [keeps]].
Qed.

#[local] Hint Resolve no_errno_start_inode : no_errno.

Lemma no_errno_remove p : no_errno (chunkfs_remove_dentry p).
Proof. unfold chunkfs_remove_dentry, get_client_dentry, CHUNKFS_D. no_errno. Qed.

(** The way out of a lookup whose private data is there. *)
Lemma bares_out_dput p d err :
  bares p (dput d;; chunkfs_release_nd p;; chunkfs_remove_dentry p;; chunkfs_free_dentry p;; mthrow (Errno err) : kernel unit).
Proof.
  apply bares_bind; [apply bares_quiet; [apply quiet_dput | apply no_errno_dput] | intros []].
  apply bares_bind; [apply bares_quiet; [apply quiet_release_nd |] | intros []].
  { unfold chunkfs_release_nd, get_client_nd, CHUNKFS_D, mntput. no_errno. }
  apply bares_bind; [apply bares_quiet; [apply quiet_remove_dentry |] | intros []].
  { apply no_errno_remove. }
  apply bares_free_error.
Qed.

Lemma bares_init_nd p d id : bares p (chunkfs_init_nd p d id).
Proof.
  unfold chunkfs_init_nd. apply bares_bind; [apply bares_quiet; [keeps |] | intros nd].
  { unfold get_client_nd, CHUNKFS_D. no_errno. }
  apply bares_bind; [by apply bares_quiet; [keeps | no_errno] | intros o].
  apply bares_bind; [by apply bares_quiet; [keeps | no_errno] | intros pi].
  destruct (chunkfs_find_chunk pi id) as [ci|]; [| by intros s].
  apply bares_bind; [by apply bares_quiet; [keeps | no_errno] | intros d'].
  apply bares_bind; [by apply bares_quiet; [keeps | no_errno] | intros m]. apply bares_put_nd.
Qed.

Lemma no_errno_client_dir dir : no_errno (client_dir dir).
Proof. unfold client_dir. no_errno. Qed.

Lemma no_errno_nd p : no_errno (get_client_nd p).
Proof. unfold get_client_nd, CHUNKFS_D. no_errno. Qed.

Lemma no_errno_client_call {A} (op : fs -> A * fs) : no_errno (client_call op).
Proof. intros s e s'. unfold client_call. by destruct (op _). Qed.

(** The dentry over what the client found. *)
Lemma bares_fill fuel p d id :
  bares p (f ← gets k_fs;
    match d_inode f d with
    | Some client_inode =>
        inode ← chunkfs_new_inode;
        r ← try (chunkfs_init_cont_data d);
        match r with
        | inl e => dput d;; chunkfs_release_nd p;; chunkfs_remove_dentry p;; chunkfs_free_dentry p;; mthrow (Errno e)
        | inr _ =>
            chunkfs_start_inode fuel inode (Some client_inode) id;; chunkfs_add_dentry p d;; d_instantiate p (Some inode)
        end
    | None => chunkfs_add_dentry p d;; d_instantiate p None
    end : kernel unit).
Proof.
  apply bares_bind; [by apply bares_quiet; [keeps | no_errno] | intros f].
  destruct (d_inode f d) as [c|]; [| apply bares_bind; [apply bares_add_dentry | intros []; apply bares_d_instantiate]].
  apply bares_bind; [apply bares_same; [apply same_new_inode | unfold chunkfs_new_inode, chunkfs_alloc_inode, put_inode; no_errno] | intros inode].
  apply bares_bind; [apply bares_try, quiet_init_cont_data | intros [e | []]]; [apply bares_out_dput |].
  apply bares_bind; [apply bares_same; [apply same_start_inode | no_errno] | intros []].
  apply bares_bind; [apply bares_add_dentry | intros []; apply bares_d_instantiate].
Qed.

(** The dentry gets its operations when it gets its private data; without, it
    has none to free. *)
Lemma init_dentry_hooks p s :
  match try (chunkfs_init_dentry p) s with
  | (inr (inr _), s') => hooked p s'
  | (inr (inl e), s') => forall e', (chunkfs_free_dentry p;; mthrow (Errno e') : kernel unit) s' = (inl Undef, s')
  | _ => True
  end.
Proof.
  unfold try, chunkfs_init_dentry, get_dentry, kalloc, kfree, put_dentry, modify, mbind, stm_bind.
  destruct (k_dentries s !! p) as [d|] eqn:Hd; [| done]. simpl. destruct (de_fsdata d) eqn:Hfs; [done |].
  assert (forall s', k_dentries s' = k_dentries s -> forall e' : Z,
    (chunkfs_free_dentry p;; mthrow (Errno e') : kernel unit) s' = (inl Undef, s')) as Hfree.
  { intros s' Hs' e'. unfold chunkfs_free_dentry, CHUNKFS_D, get_dentry, mbind, stm_bind. rewrite Hs', Hd. simpl. by rewrite Hfs. }
  destruct (k_oom s) as [|[] [|[] ?]] eqn:Ho; simpl; rewrite ?Ho; simpl; try (by apply Hfree).
  all: exists (initialised d); simpl; by rewrite lookup_insert_eq.
Qed.
(** C37: a lookup that fails is followed by a null pointer.  Whenever
    [chunkfs_lookup] returns an error, for any arguments and in any state, the
    dentry is left without private data and with the operations of the module;
    when the VFS then drops it, [chunkfs_release_dentry] follows the null
    [d_fsdata]. *)
Theorem failed_lookup_release fuel dir p s e s' :
  chunkfs_lookup fuel dir p s = (inl (Errno e), s') -> bare p s' /\ (vfs_d_release p s').1 = inl Undef.
Proof.
  intros Hrun. enough (bare p s') as Hb by (split; [done | by apply bare_release]). revert Hrun.
  unfold chunkfs_lookup, mbind at 1, stm_bind at 1. destruct (client_dir dir s) as [[x | [cdir id]] s1] eqn:Hdir.
  { intros [= -> ->]. exfalso. revert Hdir. apply no_errno_client_dir. }
  unfold mbind at 1, stm_bind at 1. pose proof (init_dentry_hooks p s1) as Hinit.
  destruct (try (chunkfs_init_dentry p) s1) as [[x | [e1 | []]] s2] eqn:Htry.
  { intros [= -> ->]. by apply no_errno_try in Htry. }
  { by rewrite Hinit. }
  intros Hrun. match type of Hrun with ?m s2 = _ => assert (bares p m) as Hm end; [| specialize (Hm s2 Hinit); by rewrite Hrun in Hm].
  clear. apply bares_bind; [apply bares_try, quiet_clone_dentry | intros [e1 | cd]].
  { apply bares_bind; [apply bares_quiet; [apply quiet_remove_dentry | apply no_errno_remove] | intros []].
    apply bares_bind; [apply bares_free | intros []; apply bares_ret]. }
  cbv zeta. apply bares_bind; [apply bares_init_nd | intros []].
  apply bares_bind; [apply bares_quiet; [keeps | apply no_errno_nd] | intros nd].
  apply bares_bind; [apply bares_quiet; [keeps | apply no_errno_client_call] | intros l].
  destruct l as [| d | e1].
  - apply bares_bind; [apply bares_ret | intros d'; apply bares_fill].
  - apply bares_bind; [apply bares_quiet; [keeps | no_errno] | intros d'; apply bares_fill].
  - apply bares_out_dput.
Qed.
End release.
