(* ===== verification/Session.v ===== *)
(** * Sequences of reads and writes

    A sequence of reads and of writes within the capacity of a file is the
    same sequence of operations of the client file systems on the parts that
    hold the positions: the results are the clients', and the state of the
    client file systems is the one those operations lead to. *)

From S2P Require Import Prelude Monad Decimal Client Kernel KernelFacts Pool Uino Cont ContData Chain Append Inode InodeProps File FileProps Grow.

Section session.
Context `{ClientFS} `{!ClientIoLaws}.

Inductive io_op :=
| Read (len pos : Z)
| Write (data : list Z) (pos : Z).

Definition op_pos (op : io_op) : Z := match op with Read _ pos => pos | Write _ pos => pos end.

(** The return value, the position left and the data read. *)
Definition run_op (fuel : nat) (junk : option chunkfs_continuation) (fp : Z) (op : io_op)
    : kernel (Z * Z * list Z) :=
  match op with
  | Read len pos => chunkfs_read fuel junk fp len pos
  | Write data pos => r ← chunkfs_write fuel junk fp data pos; mret (r.1, r.2, [])
  end.

Fixpoint run_ops (fuel : nat) (junk : option chunkfs_continuation) (fp : Z) (ops : list io_op)
    : kernel (list (Z * Z * list Z)) :=
  match ops with
  | [] => mret []
  | op :: rest => r ← run_op fuel junk fp op; rs ← run_ops fuel junk fp rest; mret (r :: rs)
  end.

(** ** The specification: operations of the clients *)

(** The part that holds a position. *)
Definition part_of (L : list chunkfs_continuation) (pos : Z) : option chunkfs_continuation :=
  List.find (fun c => in_cont (co_cd c) pos) L.

Definition op_spec (L : list chunkfs_continuation) (op : io_op) (f : fs) : Z * Z * list Z * fs :=
  match part_of L (op_pos op) with
  | None => (0, op_pos op, [], f)
  | Some c =>
      match op with
      | Read len pos =>
          let '(ret, cpos, data, f') := file_read f (co_dentry c) len (pos - cd_start (co_cd c)) in
          (read_result ret, cpos, data, f')
      | Write data pos =>
          let '(ret, cpos, f') := file_write f (co_dentry c) data (pos - cd_start (co_cd c)) in
          (ret, cpos, [], f')
      end
  end.

Fixpoint ops_spec (L : list chunkfs_continuation) (ops : list io_op) (f : fs)
    : list (Z * Z * list Z) * fs :=
  match ops with
  | [] => ([], f)
  | op :: rest =>
      let '(r, f1) := op_spec L op f in
      let '(rs, f2) := ops_spec L rest f1 in (r :: rs, f2)
  end.

(** An operation of the sequence: any read, a write that does not begin behind
    the capacity. *)
Definition op_within (size : Z) (op : io_op) : Prop :=
  0 <= op_pos op < 2 ^ 63 /\ match op with Read _ _ => True | Write _ pos => pos < size end.

(** The sizes of the file along the sequence fit an [i_size]. *)
Fixpoint sizes_fit (L : list chunkfs_continuation) (ops : list io_op) (f : fs) : Prop :=
  match ops with
  | [] => True
  | op :: rest =>
      let f1 := (op_spec L op f).2 in total_size f1 L < 2 ^ 63 /\ sizes_fit L rest f1
  end.

(** How many operations open a part. *)
Definition openings (size : Z) (ops : list io_op) : Z :=
  Z.of_nat (length (filter (fun op => op_pos op < size) ops)).

(** ** The refinement *)

Context (L : list chunkfs_continuation) (size : Z).

Lemma part_of_iff s p pos :
  wf_file s p L size -> 0 <= pos < 2 ^ 63 ->
  match part_of L pos with Some _ => pos < size | None => size <= pos end.
Proof.
  intros (_ & Hwf & _) Hpos.
  pose proof (tiles_find 0 L size pos (wf_tiles _ _ Hwf) ltac:(lia) Hpos) as Ht.
  unfold part_of. destruct (List.find _ L); lia.
Qed.

Lemma run_op_spec s fp p ip hi fuel junk op :
  open_file s fp p ip hi L size -> k_oom s = [] -> (length L < fuel)%nat -> op_within size op ->
  total_size (op_spec L op (k_fs s)).2 L < 2 ^ 63 ->
  let '(r, f') := op_spec L op (k_fs s) in
  exists hi' s', run_op fuel junk fp op s = (inr r, s') /\ k_fs s' = f' /\ k_oom s' = [] /\ k_pool s' = k_pool s /\
    open_file s' fp p ip hi' L size /\ k_opens s' = k_opens s + openings size [op] /\
    (op_pos op < size -> i_csize hi' = total_size f' L).
Proof.
  intros Hof Ho Hf [Hpos Hop] Hfit. pose proof (part_of_iff s p (op_pos op) (of_wf _ _ _ _ _ _ _ Hof) Hpos) as Hpart.
  unfold op_spec, openings, part_of in *. rewrite filter_cons. destruct op as [len pos | data pos]; simpl in *.
  - pose proof (read_run s fp p ip hi L size fuel junk len pos Hof Ho Hpos Hf) as Hrd.
    destruct (List.find _ L) as [c|] eqn:Hfind.
    + destruct Hrd as (_ & _ & Hrd). destruct (file_read _ _ _ _) as [[[ret cpos] data] f'] eqn:Hcr.
      destruct (Hrd _ _ _ _ eq_refl) as (before & s' & Hrun & _ & Hdone & Hof').
      exists (updated hi f' c L), s'. rewrite decide_True by done.
      split_and!; [done | apply Hdone | rewrite (id_oom _ _ _ _ _ _ _ _ _ _ _ Hdone); done | apply Hdone | done | | done].
      rewrite (id_opens _ _ _ _ _ _ _ _ _ _ _ Hdone). simpl. lia.
    + destruct Hrd as (_ & s' & Hrun & Hh). exists hi, s'. rewrite decide_False by lia.
      split_and!; [done | apply Hh | by rewrite (hd_oom _ _ _ Hh) | apply Hh | by eapply open_file_held | | lia].
      rewrite (hd_opens _ _ _ Hh). simpl. lia.
  - destruct (List.find _ L) as [c|] eqn:Hfind; [| lia].
    destruct (file_write _ _ _ _) as [[ret cpos] f'] eqn:Hcw.
    destruct (write_run s fp p ip hi L size fuel junk data pos c ret cpos f' Hof Ho Hpos Hf Hfind Hcw Hfit)
      as (before & s' & Hrun & _ & Hdone & Hof' & _).
    exists (updated hi f' c L), s'. rewrite decide_True by done.
    split_and!; [by rewrite (bind_ok _ _ _ _ _ Hrun) | apply Hdone
      | rewrite (id_oom _ _ _ _ _ _ _ _ _ _ _ Hdone); done | apply Hdone | done | | done].
    rewrite (id_opens _ _ _ _ _ _ _ _ _ _ _ Hdone). simpl. lia.
Qed.

(** C25: sequences of reads and writes.  On an open well-formed file, any
    sequence of reads and of writes within the capacity, along which the size
    of the file fits its type, runs to its end with
    exactly the results, and leaves exactly the client file systems, of the
    specification; the file is open and well formed at the end, and the
    client files opened on the way, one for each operation below the
    capacity, are all still open. *)
Theorem session_refines s fp p ip hi fuel junk ops :
  open_file s fp p ip hi L size -> k_oom s = [] -> (length L < fuel)%nat -> Forall (op_within size) ops ->
  sizes_fit L ops (k_fs s) ->
  let '(rs, f') := ops_spec L ops (k_fs s) in
  exists hi' s', run_ops fuel junk fp ops s = (inr rs, s') /\ k_fs s' = f' /\
    open_file s' fp p ip hi' L size /\ k_opens s' = k_opens s + openings size ops.
Proof.
  intros Hof Ho Hf Hops Hfit. revert s hi Hof Ho Hfit. induction ops as [|op ops IH]; intros s hi Hof Ho Hfit.
  - exists hi, s. split_and!; [done | done | done |]. unfold openings. simpl. lia.
  - apply Forall_cons in Hops as [Hop Hops].
    destruct Hfit as [Hfit1 Hfit].
    pose proof (run_op_spec s fp p ip hi fuel junk op Hof Ho Hf Hop Hfit1) as Hstep. simpl ops_spec.
    destruct (op_spec L op (k_fs s)) as [r f1]. simpl in Hfit. destruct Hstep as (hi1 & s1 & Hrun & Hfs & Ho1 & _ & Hof1 & Hk & _).
    specialize (IH Hops s1 hi1 Hof1 Ho1). rewrite Hfs in IH. specialize (IH Hfit).
    destruct (ops_spec L ops f1) as [rs f2]. destruct IH as (hi2 & s2 & Hrun2 & Hfs2 & Hof2 & Hk2).
    exists hi2, s2. split_and!; [| done | done |].
    + simpl. rewrite (bind_ok _ _ _ _ _ Hrun). by rewrite (bind_ok _ _ _ _ _ Hrun2).
    + rewrite Hk2, Hk. unfold openings. rewrite !filter_cons, filter_nil.
      destruct (decide (op_pos op < size)); simpl; lia.
Qed.
End session.
