(* ===== verification/Flat.v ===== *)
(** * A file as a flat sequence of bytes

    What the parts of a file are for: together they hold one sequence of
    bytes.  The flat view of a file takes each position to the byte that the
    client file of the part holding it has there.  Reads return bytes of the
    flat view and writes change it at the positions they are for, as long as a
    write does not cross the end of a part; the bytes of one that does are
    lost beyond it. *)

From S2P Require Import Prelude Monad Decimal Client Kernel KernelFacts Pool Uino Cont ContData Chain Append Inode InodeProps File FileProps Grow Session.

(** ** The flat view *)

Definition part_end (c : chunkfs_continuation) : Z := cd_start (co_cd c) + cd_len (co_cd c).

Definition holds (x : Z) (c : chunkfs_continuation) : bool := (cd_start (co_cd c) <=? x) && (x <? part_end c).

Definition flat `{ClientBytes} (f : fs) (L : list chunkfs_continuation) (x : Z) : Z :=
  match List.find (holds x) L with
  | Some c => byte f (co_inode c) (x - cd_start (co_cd c))
  | None => 0
  end.

(** No client file is longer than its part. *)
Definition within_parts `{ClientFS} (f : fs) (L : list chunkfs_continuation) : Prop :=
  Forall (fun c => 0 <= i_size f (co_inode c) <= cd_len (co_cd c)) L.

(** One operation on a flat file: what it returns, and the file before and
    after it.  A read may be short; a write may be short or fail in its
    range. *)
Definition flat_step (F : Z -> Z) (op : io_op) (r : Z * Z * list Z) (F' : Z -> Z) : Prop :=
  let '(ret, _, data) := r in
  match op with
  | Read len pos =>
      (forall x, F' x = F x) /\ Z.of_nat (length data) = Z.max 0 ret /\ ret <= len /\
      forall k b, data !! k = Some b -> b = F (pos + Z.of_nat k)
  | Write buf pos =>
      ret <= Z.of_nat (length buf) /\
      (forall x, ~ (pos <= x < pos + Z.of_nat (length buf)) -> F' x = F x) /\
      (forall x, pos <= x < pos + ret -> buf !! Z.to_nat (x - pos) = Some (F' x)) /\
      (0 <= ret -> forall x, pos + ret <= x -> F' x = F x)
  end.

Inductive flat_run : (Z -> Z) -> list io_op -> list (Z * Z * list Z) -> (Z -> Z) -> Prop :=
| flat_done F F' : (forall x, F' x = F x) -> flat_run F [] [] F'
| flat_op F op r F1 ops rs F2 :
    flat_step F op r F1 -> flat_run F1 ops rs F2 -> flat_run F (op :: ops) (r :: rs) F2.

(** Only the bytes of a flat file count. *)
#[export] Instance flat_step_proper :
  Proper (pointwise_relation Z eq ==> eq ==> eq ==> pointwise_relation Z eq ==> impl) flat_step.
Proof.
  intros F G HF op ? <- [[ret cpos] data] ? <- F' G' HF'. unfold pointwise_relation in *. destruct op; simpl.
  - intros (Hsame & Hlen & Hle & Hdata). split_and!; [intros x; by rewrite <-HF', <-HF | done | done |].
    intros k b Hk. rewrite <-HF. by apply Hdata.
  - intros (Hle & Hout & Hin & Hafter). split_and!; [done | intros x Hx; rewrite <-HF', <-HF; by apply Hout
      | intros x Hx; rewrite <-HF'; by apply Hin | intros Hr x Hx; rewrite <-HF', <-HF; by apply Hafter].
Qed.

#[export] Instance flat_run_proper :
  Proper (pointwise_relation Z eq ==> eq ==> eq ==> pointwise_relation Z eq ==> impl) flat_run.
Proof.
  intros F G HF ops ? <- rs ? <- F' G' HF' Hrun. revert G G' HF HF'.
  induction Hrun as [F F' Hsame | F op r F1 ops rs F2 Hstep Hrun IH]; intros G G' HF HF'.
  - constructor. intros x. by rewrite <-HF', <-HF.
  - apply (flat_op G op r F1); [by rewrite <-HF | by apply IH].
Qed.

(** A read has a length below 2^31, and a write ends in the part it begins
    in. *)
Definition op_in_part (L : list chunkfs_continuation) (op : io_op) : Prop :=
  match op with
  | Read len _ => 0 <= len < 2 ^ 31
  | Write buf pos => forall c, List.find (holds pos) L = Some c -> pos + Z.of_nat (length buf) <= part_end c
  end.

(** ** Parts and positions *)

Lemma holds_iff x c : holds x c = true <-> cd_start (co_cd c) <= x < part_end c.
Proof. unfold holds. rewrite andb_true_iff, Z.leb_le, Z.ltb_lt. done. Qed.

Lemma tiles_start x L y c : tiles x L y -> c ∈ L -> x <= cd_start (co_cd c) /\ part_end c <= y.
Proof.
  induction 1 as [| x d L y Hs Hl _ Ht IH]; intros Hin; [set_solver |].
  pose proof (tiles_bounds _ _ _ Ht) as Hb.
  apply elem_of_cons in Hin as [-> | Hin]; [unfold part_end; lia |]. destruct (IH Hin). lia.
Qed.

(** A position is in one part at most. *)
Lemma tiles_holds x L y c z :
  tiles x L y -> c ∈ L -> cd_start (co_cd c) <= z < part_end c -> List.find (holds z) L = Some c.
Proof.
  induction 1 as [| x d L y Hs Hl _ Ht IH]; intros Hin Hz; [set_solver |]. simpl.
  destruct (holds z d) eqn:Hd.
  - apply holds_iff in Hd. apply elem_of_cons in Hin as [-> | Hin]; [done |].
    destruct (tiles_start _ _ _ _ Ht Hin). unfold part_end in *. lia.
  - apply elem_of_cons in Hin as [-> | Hin]; [| auto]. apply holds_iff in Hz. congruence.
Qed.

Lemma find_holds x L c : List.find (holds x) L = Some c -> c ∈ L /\ cd_start (co_cd c) <= x < part_end c.
Proof.
  intros Hf. apply List.find_some in Hf as [Hin Hh]. split; [by apply list_elem_of_In | by apply holds_iff].
Qed.

(** The part [chunkfs_get_cont_at_offset] finds is the one that holds the
    position. *)
Lemma part_of_holds L size x :
  wf_parts L size -> 0 <= x < 2 ^ 63 -> part_of L x = List.find (holds x) L.
Proof.
  intros Hwf Hx. pose proof (tiles_find 0 L size x (wf_tiles _ _ Hwf) ltac:(lia) Hx) as Ht.
  unfold part_of. destruct (List.find (fun c => in_cont _ _) L) as [c|] eqn:Hf.
  - apply List.find_some in Hf as [Hin _]. symmetry.
    eapply tiles_holds; [apply Hwf | by apply list_elem_of_In | unfold part_end; lia].
  - destruct (List.find (holds x) L) as [c|] eqn:Hh; [| done].
    apply find_holds in Hh as [Hin Hr]. destruct (tiles_start _ _ _ _ (wf_tiles _ _ Hwf) Hin). lia.
Qed.

(** ** Single operations *)

Section flat.
Context `{ClientFS} `{!ClientIoLaws} `{!ClientBytes}.

Lemma flat_same f f' L : (forall j k, byte f' j k = byte f j k) -> forall x, flat f' L x = flat f L x.
Proof. intros Hb x. unfold flat. by destruct (List.find _ L). Qed.

(** A read of a part returns bytes of the flat view. *)
Lemma flat_read f L size c len pos ret cpos data f' :
  wf_parts L size -> within_parts f L -> List.find (holds pos) L = Some c ->
  d_inode f (co_dentry c) = Some (co_inode c) -> 0 <= len < 2 ^ 31 ->
  file_read f (co_dentry c) len (pos - cd_start (co_cd c)) = (ret, cpos, data, f') ->
  flat_step (flat f L) (Read len pos) (read_result ret, cpos, data) (flat f' L) /\ within_parts f' L.
Proof.
  intros Hwf Hin Hfind Hi Hlen Hrd. destruct (find_holds _ _ _ Hfind) as [HcL Hpos].
  destruct (read_bytes _ _ _ _ _ _ _ _ _ Hrd Hi ltac:(lia) ltac:(lia)) as (Hret & Hn & Hend & Hdata).
  assert (read_result ret = ret \/ (ret < 0 /\ read_result ret = 0) ) as Hres.
  { unfold read_result, s32. rewrite Z.mod_small by lia. unfold ENODATA. case_match eqn:He; lia. }
  split.
  - split_and!; [| destruct Hres; lia.. |].
    + apply flat_same. intros j k. by eapply read_keeps_bytes.
    + intros k b Hk. rewrite (Hdata k b Hk). unfold flat.
      pose proof (proj1 (Forall_forall _ _) Hin c HcL) as Hsz. simpl in Hsz.
      pose proof (lookup_lt_Some _ _ _ Hk) as Hkl.
      rewrite (tiles_holds _ _ _ c _ (wf_tiles _ _ Hwf) HcL) by (unfold part_end in *; lia).
      f_equal. lia.
  - eapply Forall_impl; [exact Hin |]. intros d Hd. simpl in *. by rewrite (read_size _ _ _ _ _ _ _ Hrd).
Qed.

(** A write to a part changes the flat view inside the part only, at the
    positions it is for. *)
Lemma flat_write f L size c data pos ret cpos f' :
  wf_parts L size -> List.find (holds pos) L = Some c ->
  d_inode f (co_dentry c) = Some (co_inode c) ->
  file_write f (co_dentry c) data (pos - cd_start (co_cd c)) = (ret, cpos, f') ->
  ret <= Z.of_nat (length data) /\
  (forall x, ~ (pos <= x < pos + Z.of_nat (length data) /\ x < part_end c) -> flat f' L x = flat f L x) /\
  (forall x, pos <= x < pos + ret -> x < part_end c -> data !! Z.to_nat (x - pos) = Some (flat f' L x)) /\
  (0 <= ret -> forall x, pos + ret <= x -> flat f' L x = flat f L x).
Proof.
  intros Hwf Hfind Hi Hwr. destruct (find_holds _ _ _ Hfind) as [HcL Hpos].
  destruct (write_stores _ _ _ _ _ _ _ _ Hwr Hi ltac:(lia)) as (Hret & _ & Hin & Hafter).
  assert (forall x d, List.find (holds x) L = Some d -> d <> c \/ ~ (pos <= x < pos + Z.of_nat (length data)) ->
    byte f' (co_inode d) (x - cd_start (co_cd d)) = byte f (co_inode d) (x - cd_start (co_cd d))) as Helse.
  { intros x d Hd Hne. eapply write_elsewhere; [exact Hwr | exact Hi |]. intros [He Hr].
    destruct (find_holds _ _ _ Hd) as [HdL _].
    pose proof (NoDup_map_inj _ _ _ _ (wf_distinct _ _ Hwf) HdL HcL He) as ->. destruct Hne; [done | lia]. }
  unfold flat. split_and!; [done | | |].
  - intros x Hx. destruct (List.find (holds x) L) as [d|] eqn:Hd; [| done]. apply Helse; [done |].
    destruct (find_holds _ _ _ Hd) as [_ Hdx].
    destruct (decide (x < part_end c)); [right; lia | left; intros ->; lia].
  - intros x Hx He. rewrite (tiles_holds _ _ _ c _ (wf_tiles _ _ Hwf) HcL) by lia.
    rewrite <- (Hin (x - cd_start (co_cd c))) by lia. f_equal. lia.
  - intros Hr x Hx. destruct (List.find (holds x) L) as [d|] eqn:Hd; [| done].
    destruct (decide (co_inode d = co_inode c)) as [He | Hne]; [| apply Helse; [done | left; congruence]].
    destruct (find_holds _ _ _ Hd) as [HdL _].
    pose proof (NoDup_map_inj _ _ _ _ (wf_distinct _ _ Hwf) HdL HcL He) as ->. apply Hafter; lia.
Qed.

Lemma write_within_parts f L size c data pos ret cpos f' :
  wf_parts L size -> within_parts f L -> List.find (holds pos) L = Some c ->
  d_inode f (co_dentry c) = Some (co_inode c) -> pos + Z.of_nat (length data) <= part_end c ->
  file_write f (co_dentry c) data (pos - cd_start (co_cd c)) = (ret, cpos, f') -> within_parts f' L.
Proof.
  intros Hwf Hin Hfind Hi Hend Hwr. destruct (find_holds _ _ _ Hfind) as [HcL Hpos].
  destruct (write_stores _ _ _ _ _ _ _ _ Hwr Hi ltac:(lia)) as (_ & Hsz & _).
  unfold within_parts in *. rewrite Forall_forall in *. intros d HdL. specialize (Hin d HdL) as Hd.
  split; [eapply write_size; [exact Hwr | apply Hd] |].
  destruct (decide (co_inode d = co_inode c)) as [He | Hne].
  - rewrite He in *. pose proof (NoDup_map_inj _ _ _ _ (wf_distinct _ _ Hwf) HdL HcL He) as ->.
    unfold part_end in Hend. lia.
  - rewrite (write_other_size _ _ _ _ _ _ _ Hwr) by congruence. apply Hd.
Qed.

Lemma total_within f x L y : tiles x L y -> within_parts f L -> total_size f L <= y - x.
Proof.
  induction 1 as [x | x c L y Hs Hl Hb Ht IH]; intros Hin; simpl; [lia |].
  apply Forall_cons in Hin as [Hc Hin]. specialize (IH Hin). lia.
Qed.

Lemma total_within_lt f L size : wf_parts L size -> within_parts f L -> total_size f L < 2 ^ 63.
Proof.
  intros Hwf Hin. pose proof (total_within _ _ _ _ (wf_tiles _ _ Hwf) Hin).
  pose proof (tiles_top _ _ _ (wf_tiles _ _ Hwf) ltac:(lia)). lia.
Qed.

(** ** Sequences *)

(** The specification by operations of the clients is one by a flat file. *)
Lemma op_spec_flat f L size op :
  wf_parts L size -> within_parts f L -> (forall c, c ∈ L -> d_inode f (co_dentry c) = Some (co_inode c)) ->
  op_within size op -> op_in_part L op ->
  flat_step (flat f L) op (op_spec L op f).1 (flat (op_spec L op f).2 L) /\
  within_parts (op_spec L op f).2 L.
Proof.
  intros Hwf Hin Hi [Hpos Hop] Hpart. unfold op_spec. rewrite (part_of_holds _ _ _ Hwf Hpos).
  destruct (List.find (holds (op_pos op)) L) as [c|] eqn:Hfind.
  - destruct (find_holds _ _ _ Hfind) as [HcL _]. destruct op as [len pos | data pos]; simpl in *.
    + destruct (file_read _ _ _ _) as [[[ret cpos] data] f'] eqn:Hrd.
      by eapply (flat_read f L size c); [| | | apply Hi | |].
    + destruct (file_write _ _ _ _) as [[ret cpos] f'] eqn:Hwr. specialize (Hpart c Hfind).
      destruct (flat_write f L size c data pos ret cpos f' Hwf Hfind (Hi c HcL) Hwr) as (Hr & Hout & Hst & Haft).
      split; [| by eapply (write_within_parts f L size c); eauto].
      split_and!; [done | intros x Hx; apply Hout; tauto | intros x Hx; apply Hst; [done | lia] | done].
  - destruct op as [len pos | data pos]; simpl in *.
    + split; [| done]. split_and!; [done | done | lia | done].
    + pose proof (tiles_find 0 L size pos (wf_tiles _ _ Hwf) ltac:(lia) Hpos) as Ht.
      pose proof (part_of_holds L size pos Hwf Hpos) as Hp. unfold part_of in Hp.
      rewrite Hp, Hfind in Ht. lia.
Qed.

Lemma open_dentries s fp p ip hi L size :
  open_file s fp p ip hi L size -> forall c, c ∈ L -> d_inode (k_fs s) (co_dentry c) = Some (co_inode c).
Proof.
  intros Hof c HcL. destruct (of_wf _ _ _ _ _ _ _ Hof) as ((pi & hi' & d & _ & _ & Hc) & _ & _).
  destruct (chain_inode _ _ _ _ _ _ _ Hc HcL) as (d' & _ & -> & Hd). done.
Qed.

(** A file is one sequence of bytes.  On an open well-formed file whose
    client files are no longer than their parts, any sequence of reads and of
    writes that end in the part they begin in runs to its end, and its results
    are those of the same sequence on the flat file: each read returns bytes
    the flat file has at the positions asked for, each write replaces those it
    says it wrote, and nothing else changes.  The position left behind is not
    that of the flat file (see [chunkfs_read_spec]). *)
Theorem flat_file_refines s fp p ip hi L size fuel junk ops :
  open_file s fp p ip hi L size -> k_oom s = [] -> (length L < fuel)%nat ->
  within_parts (k_fs s) L -> Forall (op_within size) ops -> Forall (op_in_part L) ops ->
  exists rs hi' s', run_ops fuel junk fp ops s = (inr rs, s') /\
    flat_run (flat (k_fs s) L) ops rs (flat (k_fs s') L) /\
    open_file s' fp p ip hi' L size /\ within_parts (k_fs s') L.
Proof.
  intros Hof Ho Hf Hin Hops Hparts. revert s hi Hof Ho Hin.
  induction ops as [|op ops IH]; intros s hi Hof Ho Hin.
  - exists [], hi, s. split_and!; [done | by constructor | done | done].
  - apply Forall_cons in Hops as [Hop Hops], Hparts as [Hpart Hparts].
    pose proof (proj1 (proj2 (of_wf _ _ _ _ _ _ _ Hof))) as Hwf.
    destruct (op_spec_flat (k_fs s) L size op Hwf Hin (open_dentries _ _ _ _ _ _ _ Hof) Hop Hpart) as [Hflat Hin1].
    pose proof (run_op_spec L size s fp p ip hi fuel junk op Hof Ho Hf Hop (total_within_lt _ _ _ Hwf Hin1)) as Hstep.
    destruct (op_spec L op (k_fs s)) as [r f1]. simpl in Hflat, Hin1.
    destruct Hstep as (hi1 & s1 & Hrun & Hfs & Ho1 & _ & Hof1 & _ & _). subst f1.
    destruct (IH Hops Hparts s1 hi1 Hof1 Ho1 Hin1) as (rs & hi2 & s2 & Hrun2 & Hfl2 & Hof2 & Hin2).
    exists (r :: rs), hi2, s2. split_and!; [| by econstructor | done | done].
    simpl. rewrite (bind_ok _ _ _ _ _ Hrun). by rewrite (bind_ok _ _ _ _ _ Hrun2).
Qed.

(** C34: a write across the end of a part loses data.  When the client stores
    all of it, the write returns the length of the data, but the flat file has
    changed up to the end of the part only: what is behind it, in the next
    part or after the last one, is what it was. *)
Theorem write_across_loses s fp p ip hi L size fuel junk data pos c cpos f' :
  open_file s fp p ip hi L size -> k_oom s = [] -> (length L < fuel)%nat -> 0 <= pos < 2 ^ 63 ->
  List.find (holds pos) L = Some c -> part_end c < pos + Z.of_nat (length data) ->
  file_write (k_fs s) (co_dentry c) data (pos - cd_start (co_cd c)) = (Z.of_nat (length data), cpos, f') ->
  total_size f' L < 2 ^ 63 ->
  exists s', chunkfs_write fuel junk fp data pos s = (inr (Z.of_nat (length data), cpos), s') /\
    (forall x, pos <= x < part_end c -> data !! Z.to_nat (x - pos) = Some (flat (k_fs s') L x)) /\
    (forall x, part_end c <= x -> flat (k_fs s') L x = flat (k_fs s) L x).
Proof.
  intros Hof Ho Hf Hpos Hfind Hcross Hwr Htot.
  pose proof (proj1 (proj2 (of_wf _ _ _ _ _ _ _ Hof))) as Hwf.
  pose proof (part_of_holds L size pos Hwf Hpos) as Hp. unfold part_of in Hp. rewrite Hfind in Hp.
  destruct (write_run s fp p ip hi L size fuel junk data pos c _ cpos f' Hof Ho Hpos Hf Hp Hwr Htot)
    as (before & s' & Hrun & _ & Hdone & _).
  destruct (find_holds _ _ _ Hfind) as [HcL _].
  destruct (flat_write _ L size c _ _ _ _ _ Hwf Hfind (open_dentries _ _ _ _ _ _ _ Hof c HcL) Hwr)
    as (_ & Hout & Hst & _).
  exists s'. rewrite (id_fs _ _ _ _ _ _ _ _ _ _ _ Hdone). split_and!; [done | |].
  - intros x Hx. apply Hst; lia.
  - intros x Hx. apply Hout. lia.
Qed.
End flat.
