(* ===== verification/Growing.v ===== *)
(** * A file that grows

    What chunkfs is for: reads and writes at any positions, also behind the
    capacity of the file, are those of one flat sequence of bytes that grows,
    as long as the clients have room for the parts that are needed and no
    write crosses the end of a part.  The parts the code makes are all of
    [CONT_LEN] bytes, so that a position is a part and an offset in it. *)

From S2P Require Import Prelude Monad Decimal Client Kernel KernelFacts Pool Uino Cont ContData Chain Append Inode InodeProps File FileProps Grow Session Flat Race.

(** ** Parts of one length *)

Definition uniform (L : list chunkfs_continuation) : Prop := Forall (fun c => cd_len (co_cd c) = CONT_LEN) L.

Lemma tiles_uniform x L y c :
  tiles x L y -> uniform L -> x mod CONT_LEN = 0 -> c ∈ L -> cd_start (co_cd c) mod CONT_LEN = 0.
Proof.
  induction 1 as [| x d L y Hs Hl Hb Ht IH]; intros Hu Hx Hin; [set_solver |]. apply Forall_cons in Hu as [Hd Hu].
  apply elem_of_cons in Hin as [-> | Hin]; [congruence |]. apply IH; [done | | done].
  rewrite Hd, <-Z.add_mod_idemp_r, Z_mod_same_full, Z.add_0_r by done. done.
Qed.

Lemma tiles_length x L y : tiles x L y -> uniform L -> y = x + CONT_LEN * Z.of_nat (length L).
Proof.
  induction 1 as [| x d L y Hs Hl Hb Ht IH]; intros Hu; simpl length; [lia |].
  apply Forall_cons in Hu as [Hd Hu]. rewrite (IH Hu), Hd. lia.
Qed.

(** The offset of a position in its part. *)
Lemma offset_in_part x L y c pos :
  tiles x L y -> uniform L -> x mod CONT_LEN = 0 -> c ∈ L -> cd_start (co_cd c) <= pos < part_end c ->
  pos - cd_start (co_cd c) = pos mod CONT_LEN.
Proof.
  intros Ht Hu Hx Hin Hpos. pose proof (tiles_uniform _ _ _ _ Ht Hu Hx Hin) as Hs.
  unfold part_end in Hpos. rewrite (proj1 (Forall_forall _ _) Hu c Hin) in Hpos.
  apply Z.mod_divide in Hs as [k Hk]; [| done]. rewrite Hk in *.
  apply (Z.mod_unique_pos _ _ k); [unfold CONT_LEN in *; lia | ring].
Qed.

Lemma last_uniform L prev size : wf_parts (L ++ [prev]) size -> uniform (L ++ [prev]) -> size mod CONT_LEN = 0.
Proof. intros Hwf Hu. by rewrite (tiles_length _ _ _ (wf_tiles _ _ Hwf) Hu), Z.add_0_l, Z.mul_comm, Z_mod_mult. Qed.

(** ** Operations at any position *)

(** A write reaches at most into the next part to come, and ends in the part
    it begins in. *)
Definition op_aligned (cap : Z) (op : io_op) : Prop :=
  0 <= op_pos op < 2 ^ 63 /\
  match op with
  | Read len _ => 0 <= len < 2 ^ 31
  | Write data pos => pos < cap + CONT_LEN /\ pos mod CONT_LEN + Z.of_nat (length data) <= CONT_LEN
  end.

(** The capacity of the file after the operation. *)
Definition op_cap (cap : Z) (op : io_op) : Z :=
  match op with
  | Read _ _ => cap
  | Write _ pos => if decide (pos < cap) then cap else cap + CONT_LEN
  end.

Fixpoint ops_aligned (cap : Z) (ops : list io_op) : Prop :=
  match ops with
  | [] => True
  | op :: rest => op_aligned cap op /\ ops_aligned (op_cap cap op) rest
  end.

Fixpoint ops_cap (cap : Z) (ops : list io_op) : Z :=
  match ops with
  | [] => cap
  | op :: rest => ops_cap (op_cap cap op) rest
  end.

(** Where the data of a write ends. *)
Definition op_end (op : io_op) : Z :=
  match op with Read _ _ => 0 | Write data pos => pos + Z.of_nat (length data) end.

Lemma op_cap_le cap op : cap <= op_cap cap op.
Proof. destruct op; simpl; [lia |]. case_decide; unfold CONT_LEN; lia. Qed.

Lemma ops_cap_le cap ops : cap <= ops_cap cap ops.
Proof. revert cap; induction ops as [|op ops IH]; intros cap; simpl; [lia |]. specialize (IH (op_cap cap op)). pose proof (op_cap_le cap op). lia. Qed.

(** ** Files with room to grow *)

Section growing.
Context `{ClientFS}.

#[export] Instance io_keeps_preorder : PreOrder io_keeps.
Proof.
  split; [intros f; by split |]. intros f g h [P1 D1 O1 X1 B1 C1] [P2 D2 O2 X2 B2 C2].
  split; intros; [rewrite P2 | rewrite D2 | rewrite O2 | rewrite X2 | rewrite B2 |]; auto.
Qed.

(** The clients have room for [k] more parts after [prev], whatever is read
    and written until then: the next chunk is there, no file is in the way, and
    one can be created, with a number that fits. *)
Fixpoint can_grow (pi : pool_info) (k : nat) (f : fs) (prev : chunkfs_continuation) : Prop :=
  match k with
  | O => True
  | S k =>
      exists ci, chunkfs_find_chunk pi (co_chunk_id prev + 1) = Some ci /\
      forall f', io_keeps f f' -> exists e d i f1,
        kern_path f' (next_path prev (co_chunk_id prev + 1)) = inl e /\
        open_create f' (next_path prev (co_chunk_id prev + 1)) = (inr d, f1) /\ d_inode f1 d = Some i /\
        fits_uino (co_chunk_id prev + 1) (ci_ino_of i) /\ ci_sb ci = ci_sb_of i /\
        forall f2 f3, xattrs_of i f1 f2 -> xattrs_of (co_inode prev) f2 f3 ->
          can_grow pi k f3 (new_part ci prev d i)
  end.

Lemma can_grow_io pi k f f' prev : io_keeps f f' -> can_grow pi k f prev -> can_grow pi k f' prev.
Proof.
  destruct k as [|k]; [done |]. intros Hk (ci & Hci & Hg). exists ci. split; [done |].
  intros g Hg'. apply Hg. by transitivity f'.
Qed.

(** The open file [fp] of parts of one length, with room for [k] more. *)
Record growing (fp p ip : Z) (k : nat) (s : kstate) (hi : inode) (L : list chunkfs_continuation) (size : Z) : Prop := {
  gr_open : open_file s fp p ip hi L size;
  gr_oom : k_oom s = [];
  gr_uniform : uniform L;
  gr_within : within_parts (k_fs s) L;
  gr_room : exists pi prev, k_pool s = Some pi /\ last L = Some prev /\ can_grow pi k (k_fs s) prev;
}.

(** The bytes of the file are all before [B]. *)
Definition before (B : Z) (f : fs) (L : list chunkfs_continuation) : Prop :=
  Forall (fun c => i_size f (co_inode c) = 0 \/ cd_start (co_cd c) + i_size f (co_inode c) <= B) L.
End growing.

(** ** One operation *)

Section step.
Context `{ClientFS} `{!ClientLaws} `{!ClientCreateLaws} `{!ClientXattrs} `{!ClientCacheLaws} `{!ClientIoLaws}.
Context `{!ClientBytes} `{!ClientReopenLaws} `{!ClientZeros}.

(** The state and the file after an operation with the result [r]: the file
    may grow on, the flat file has made the step, the inode has the size of the
    file, no byte lies behind the end of a write, and a write was that of the
    client at the offset in the part. *)
Record grown (fp p ip : Z) (k : nat) (s : kstate) (L : list chunkfs_continuation) (size : Z) (op : io_op)
    (r : Z * Z * list Z) (s' : kstate) (hi' : inode) (L' : list chunkfs_continuation) : Prop := {
  gd_growing : growing fp p ip k s' hi' L' (op_cap size op);
  gd_flat : flat_step (flat (k_fs s) L) op r (flat (k_fs s') L');
  gd_before B : op_end op <= B -> before B (k_fs s) L -> before B (k_fs s') L';
  gd_write data pos : op = Write data pos ->
    i_csize hi' = total_size (k_fs s') L' /\
    exists f d i, d_inode f d = Some i /\ file_write f d data (pos mod CONT_LEN) = (r.1.1, r.1.2, k_fs s');
}.

Lemma op_spec_keeps L op f : io_keeps f (op_spec L op f).2.
Proof.
  unfold op_spec. destruct (part_of L (op_pos op)); [| done]. destruct op.
  - destruct (file_read _ _ _ _) as [[[? ?] ?] ?] eqn:Hr. by eapply read_keeps.
  - destruct (file_write _ _ _ _) as [[? ?] ?] eqn:Hw. by eapply write_keeps.
Qed.

Lemma aligned_in_part L size op :
  wf_parts L size -> uniform L -> op_aligned size op -> op_in_part L op.
Proof.
  intros Hwf Hu [_ Hop]. destruct op as [len pos | data pos]; [done |]. intros c Hf.
  destruct (find_holds _ _ _ Hf) as [Hin Hpos].
  pose proof (offset_in_part _ _ _ _ _ (wf_tiles _ _ Hwf) Hu eq_refl Hin Hpos) as Hoff.
  unfold part_end. rewrite (proj1 (Forall_forall _ _) Hu c Hin). lia.
Qed.

(** A write of the client that ends before [B] leaves all bytes before it. *)
Lemma write_before B f L size c data pos ret cpos f' :
  wf_parts L size -> List.find (holds pos) L = Some c -> d_inode f (co_dentry c) = Some (co_inode c) ->
  (forall c, c ∈ L -> 0 <= i_size f (co_inode c)) ->
  file_write f (co_dentry c) data (pos - cd_start (co_cd c)) = (ret, cpos, f') ->
  pos + Z.of_nat (length data) <= B -> before B f L -> before B f' L.
Proof.
  intros Hwf Hfind Hi Hpos Hwr HB Hbf. destruct (find_holds _ _ _ Hfind) as [HcL Hp].
  destruct (write_stores _ _ _ _ _ _ _ _ Hwr Hi ltac:(lia)) as (_ & Hsz & _).
  unfold before in *. rewrite Forall_forall in *. intros d HdL. specialize (Hbf d HdL). specialize (Hpos d HdL).
  destruct (decide (co_inode d = co_inode c)) as [He | Hne].
  - rewrite He in *. pose proof (NoDup_map_inj _ _ _ _ (wf_distinct _ _ Hwf) HdL HcL He) as ->. right. lia.
  - by rewrite (write_other_size _ _ _ _ _ _ _ Hwr) by congruence.
Qed.

Lemma grow_op_within fp p ip k s hi L size fuel junk op :
  growing fp p ip k s hi L size -> op_aligned size op -> op_within size op -> (length L < fuel)%nat ->
  exists r s' hi', run_op fuel junk fp op s = (inr r, s') /\ grown fp p ip k s L size op r s' hi' L.
Proof.
  intros [Hof Ho Hu Hw (pi & prev & Hp & Hl & Hg)] Hal Hop Hf.
  pose proof (proj1 (proj2 (of_wf _ _ _ _ _ _ _ Hof))) as Hwf.
  pose proof (open_dentries _ _ _ _ _ _ _ Hof) as Hd.
  destruct (op_spec_flat (k_fs s) L size op Hwf Hw Hd Hop (aligned_in_part _ _ _ Hwf Hu Hal)) as [Hflat Hw1].
  pose proof (run_op_spec L size s fp p ip hi fuel junk op Hof Ho Hf Hop (total_within_lt _ _ _ Hwf Hw1)) as Hstep.
  pose proof (op_spec_keeps L op (k_fs s)) as Hk. pose proof Hop as [Hpos Hin].
  assert (op_cap size op = size) as Hcap by (destruct op; simpl; [done | by rewrite decide_True]).
  pose proof (part_of_holds L size (op_pos op) Hwf Hpos) as Hpart.
  destruct (op_spec L op (k_fs s)) as [r f1] eqn:Hspec. simpl in Hflat, Hw1, Hk.
  destruct Hstep as (hi1 & s1 & Hrun & Hfs & Ho1 & Hp1 & Hof1 & _ & Hcs). subst f1.
  exists r, s1, hi1. split; [exact Hrun |]. split.
  - rewrite Hcap. split; try done. exists pi, prev. split_and!; [by rewrite Hp1 | done | by eapply can_grow_io].
  - exact Hflat.
  - intros B HB Hbf. unfold op_spec in Hspec. rewrite Hpart in Hspec.
    destruct (List.find _ L) as [c|] eqn:Hfind; [| by injection Hspec as _ <-].
    destruct (find_holds _ _ _ Hfind) as [HcL _]. destruct op as [len pos | data pos]; simpl in *.
    + destruct (file_read _ _ _ _) as [[[? ?] ?] f'] eqn:Hr. injection Hspec as _ <-.
      eapply Forall_impl; [exact Hbf |]. intros x Hx. simpl in *. by rewrite (read_size _ _ _ _ _ _ _ Hr).
    + destruct (file_write _ _ _ _) as [[? ?] f'] eqn:Hr. injection Hspec as _ <-.
      eapply (write_before B _ L size c); [done | done | by apply Hd | | exact Hr | done | done].
      unfold within_parts in Hw. rewrite Forall_forall in Hw. intros x Hx. apply (Hw x Hx).
  - intros data pos ->. simpl in *. split; [apply Hcs; lia |]. unfold op_spec in Hspec. simpl in Hspec.
    rewrite Hpart in Hspec. destruct (List.find _ L) as [c|] eqn:Hfind.
    + destruct (find_holds _ _ _ Hfind) as [HcL Hr]. destruct (file_write _ _ _ _) as [[? ?] f'] eqn:Hwr.
      injection Hspec as <- <-. exists (k_fs s), (co_dentry c), (co_inode c). split; [by apply Hd |].
      by rewrite <-(offset_in_part _ _ _ _ _ (wf_tiles _ _ Hwf) Hu eq_refl HcL Hr).
    + pose proof (part_of_iff L size s p pos (of_wf _ _ _ _ _ _ _ Hof) Hpos) as Hno.
      rewrite Hpart in Hno. lia.
Qed.
(** The file with an empty part more has the same bytes. *)
Lemma flat_extended f f3 L prev u new x :
  (forall c, c ∈ L ++ [prev] -> forall k, byte f3 (co_inode c) k = byte f (co_inode c) k) ->
  (forall k, 0 <= k -> byte f3 (co_inode new) k = 0) ->
  flat f3 (L ++ [with_next prev u; new]) x = flat f (L ++ [prev]) x.
Proof.
  intros Hold Hnew. unfold flat. induction L as [|c L IH]; simpl.
  - change (holds x (with_next prev u)) with (holds x prev). destruct (holds x prev); [apply (Hold prev); set_solver |].
    destruct (holds x new) eqn:Hn; [| done]. apply holds_iff in Hn. apply Hnew. lia.
  - destruct (holds x c); [apply Hold; set_solver |]. apply IH. set_solver.
Qed.

(** The client file systems when the part is there and the write is to come. *)
Lemma grow_empty f f1 f2 f3 path d i L prev new e :
  (forall c, c ∈ L ++ [prev] -> d_inode f (co_dentry c) = Some (co_inode c)) ->
  kern_path f path = inl e -> open_create f path = (inr d, f1) -> d_inode f1 d = Some i -> co_inode new = i ->
  xattrs_of i f1 f2 -> xattrs_of (co_inode prev) f2 f3 ->
  d_inode f3 d = Some i /\ i_size f3 i = 0 /\
  (forall c, c ∈ L ++ [prev] -> i_size f3 (co_inode c) = i_size f (co_inode c)) /\
  forall u x, flat f3 (L ++ [with_next prev u; new]) x = flat f (L ++ [prev]) x.
Proof.
  intros Hd Hfree Hcr Hi Hn X1 X2.
  assert (i_size f3 i = 0) as Hz.
  { rewrite (xo_size _ _ _ X2), (xo_size _ _ _ X1). by eapply create_new_size. }
  split_and!; [by rewrite (xo_dentry _ _ _ X2), (xo_dentry _ _ _ X1) | done | |].
  - intros c Hin. rewrite (xo_size _ _ _ X2), (xo_size _ _ _ X1).
    by destruct (create_keeps_cached _ _ _ _ _ _ Hcr (Hd c Hin)) as (_ & _ & -> & _).
  - intros u x. apply flat_extended.
    + intros c Hin k. rewrite (xattrs_keep_bytes _ _ _ _ _ X2), (xattrs_keep_bytes _ _ _ _ _ X1).
      eapply create_keeps_bytes; [exact Hcr | by apply Hd].
    + intros k Hk. apply byte_past_size. rewrite Hn. lia.
Qed.

(** A property of the parts after the growth: of the old ones and the new. *)
Lemma grown_parts (P : chunkfs_continuation -> Prop) L prev u new :
  (forall c, P c -> P (with_next c u)) -> Forall P (L ++ [prev]) -> P new -> Forall P (L ++ [with_next prev u; new]).
Proof.
  intros Hnext Hold Hnew. apply Forall_app in Hold as [Hold Hprev]. apply Forall_cons in Hprev as [Hprev _].
  apply Forall_app. split; [done |]. rewrite !Forall_cons. auto.
Qed.

Lemma grow_op_new fp p ip k s hi L size fuel junk data pos :
  growing fp p ip (S k) s hi L size -> op_aligned size (Write data pos) -> size <= pos -> (S (length L) < fuel)%nat ->
  size + CONT_LEN < 2 ^ 63 ->
  exists r s' hi' L', run_op fuel junk fp (Write data pos) s = (inr r, s') /\
    grown fp p ip k s L size (Write data pos) r s' hi' L'.
Proof.
  intros [Hof Ho Hu Hw (pi & prev & Hp & Hl & (ci & Hci & Hg))] [Hpos [Hp1 Hp2]] Hge Hf Hsz. simpl in Hpos.
  destruct (Hg (k_fs s)) as (e & d & i & f1 & Hfree & Hcr & Hi & Hfit & Hsb & Hg'); [done |].
  apply last_Some in Hl as [L0 ->].
  pose proof (open_dentries _ _ _ _ _ _ _ Hof) as Hd.
  pose proof (last_uniform _ _ _ (proj1 (proj2 (of_wf _ _ _ _ _ _ _ Hof))) Hu) as Hmod.
  destruct (grow_run s fp p ip hi L0 prev size fuel junk data pos ci d i f1) as (f2 & f3 & X1 & X2 & Hwf2 & Hst & _ & Hrun);
    try done; try lia. { split; try done; eauto. }
  set (new := new_part ci prev d i) in *. set (L2 := L0 ++ [with_next prev (co_uino new); new]) in *.
  destruct (grow_empty (k_fs s) f1 f2 f3 _ d i L0 prev new e Hd Hfree Hcr Hi eq_refl X1 X2) as (Hd3 & Hz & Hold & Hfl).
  assert (co_inode new = i /\ co_dentry new = d /\ part_end new = size + CONT_LEN) as (Eni & End & Hpe)
    by (unfold part_end; rewrite Hst; done).
  assert (new ∈ L2) as Hin by (unfold L2; set_solver).
  assert (List.find (holds pos) L2 = Some new) as Hfind.
  { eapply tiles_holds; [apply Hwf2 | done | rewrite Hst; lia]. }
  assert (uniform L2) as Hu2 by (by apply grown_parts).
  pose proof (offset_in_part _ _ _ _ _ (wf_tiles _ _ Hwf2) Hu2 eq_refl Hin ltac:(rewrite Hst; split; [exact Hge | lia])) as Hoff.
  rewrite Hst in Hoff.
  assert (forall P : Z -> chunkfs_continuation -> Prop, (forall n c u, P n c -> P n (with_next c u)) ->
    Forall (fun c => P (i_size (k_fs s) (co_inode c)) c) (L0 ++ [prev]) -> P 0 new ->
    Forall (fun c => P (i_size f3 (co_inode c)) c) L2) as Hparts.
  { intros P Hnext HP Hnew. apply grown_parts; [by intros c; apply Hnext | | by rewrite Eni, Hz].
    rewrite Forall_forall in *. intros c Hc. rewrite (Hold c Hc). by apply HP. }
  assert (within_parts f3 L2) as Hw3.
  { apply (Hparts (fun n c => 0 <= n <= cd_len (co_cd c))); [done | exact Hw | by unfold new, CONT_LEN]. }
  destruct (file_write f3 d data (pos - size)) as [[ret cpos] f'] eqn:Hwr.
  assert (file_write f3 (co_dentry new) data (pos - cd_start (co_cd new)) = (ret, cpos, f')) as Hwr' by by rewrite Hst.
  assert (d_inode f3 (co_dentry new) = Some (co_inode new)) as Hdn by by rewrite End, Eni.
  pose proof (write_within_parts f3 L2 _ new data pos ret cpos f' Hwf2 Hw3 Hfind Hdn ltac:(lia) Hwr') as Hw'.
  destruct (Hrun ret cpos f' eq_refl (total_within_lt _ _ _ Hwf2 Hw')) as (s' & Hrn & Hfs & Ho' & Hp' & Hof' & _).
  exists (ret, cpos, []), s', (updated hi f' new L2), L2.
  split; [simpl; by rewrite (bind_ok _ _ _ _ _ Hrn) |]. split.
  - simpl. rewrite decide_False by lia. rewrite <-Hfs in Hof', Hw'. split; try done; [by rewrite Hfs in Hof' |].
    exists pi, new. split_and!; [by rewrite Hp' | unfold L2; by rewrite last_app |]. rewrite Hfs.
    eapply can_grow_io; [by eapply write_keeps | by apply (Hg' f2)].
  - destruct (flat_write f3 L2 _ new data pos ret cpos f' Hwf2 Hfind Hdn Hwr') as (Hr & Hout & Hst' & Haft).
    rewrite Hfs. simpl. split_and!; [done | | | ].
    + intros x Hx. rewrite <-(Hfl (co_uino new)). apply Hout. tauto.
    + intros x Hx. apply Hst'; [done | lia].
    + intros Hr0 x Hx. rewrite <-(Hfl (co_uino new)). by apply Haft.
  - intros B HB Hbf. rewrite Hfs. eapply (write_before B f3 L2); [exact Hwf2 | exact Hfind | exact Hdn | | exact Hwr' | exact HB |].
    + unfold within_parts in Hw3. rewrite Forall_forall in Hw3. intros c Hc. apply (Hw3 c Hc).
    + apply (Hparts (fun n c => n = 0 \/ cd_start (co_cd c) + n <= B)); [done | exact Hbf | by left].
  - intros data' pos' [= <- <-]. split; [by rewrite Hfs |]. exists f3, d, i. split; [done |]. by rewrite <-Hoff, Hfs.
Qed.
Lemma grow_op fp p ip k s hi L size fuel junk op :
  growing fp p ip k s hi L size -> op_aligned size op -> op_cap size op <= size + CONT_LEN * Z.of_nat k ->
  (S (length L) < fuel)%nat -> size + CONT_LEN * Z.of_nat k < 2 ^ 63 ->
  exists k' r s' hi' L', run_op fuel junk fp op s = (inr r, s') /\ grown fp p ip k' s L size op r s' hi' L' /\
    op_cap size op + CONT_LEN * Z.of_nat k' = size + CONT_LEN * Z.of_nat k.
Proof.
  intros Hg Hal Hcap Hf Hsz. destruct (decide (op_cap size op = size)) as [Hsame | Hmore].
  - destruct (grow_op_within fp p ip k s hi L size fuel junk op) as (r & s' & hi' & Hrun & Hgd); try done; [| lia |].
    + split; [apply Hal |]. destruct op; [done |]. simpl in Hsame. case_decide; unfold CONT_LEN in *; lia.
    + exists k, r, s', hi', L. split_and!; [done | done | lia].
  - assert (0 < CONT_LEN) as HC by done. destruct op as [| data pos]; [done |]. cbn [op_cap] in *.
    destruct (decide (pos < size)); [done |]. destruct k as [|k]; [lia |].
    destruct (grow_op_new fp p ip k s hi L size fuel junk data pos) as (r & s' & hi' & L' & Hrun & Hgd); try done; try lia.
    exists k, r, s', hi', L'. split_and!; [done | done | lia].
Qed.

Lemma growing_length fp p ip k s hi L size :
  growing fp p ip k s hi L size -> size = CONT_LEN * Z.of_nat (length L).
Proof. intros [Hof _ Hu _ _]. apply (tiles_length 0); [apply (of_wf _ _ _ _ _ _ _ Hof) | done]. Qed.

Lemma growing_run fp p ip k s hi L size fuel junk ops :
  growing fp p ip k s hi L size -> ops_aligned size ops -> ops_cap size ops <= size + CONT_LEN * Z.of_nat k ->
  (S (length L + k) < fuel)%nat -> size + CONT_LEN * Z.of_nat k < 2 ^ 63 ->
  exists rs s' hi' L', run_ops fuel junk fp ops s = (inr rs, s') /\
    flat_run (flat (k_fs s) L) ops rs (flat (k_fs s') L') /\
    open_file s' fp p ip hi' L' (ops_cap size ops) /\ uniform L' /\ within_parts (k_fs s') L'.
Proof.
  revert k s hi L size. induction ops as [|op ops IH]; intros k s hi L size Hg Hal Hcap Hf Hsz.
  - exists [], s, hi, L. destruct Hg. split_and!; [done | by constructor | done..].
  - destruct Hal as [Hop Hal]. simpl in Hcap. pose proof (ops_cap_le (op_cap size op) ops).
    destruct (grow_op fp p ip k s hi L size fuel junk op) as (k1 & r & s1 & hi1 & L1 & Hrun & [Hg1 Hfl _ _] & Hk); try done; [lia.. |].
    pose proof (growing_length _ _ _ _ _ _ _ _ Hg) as Hl. pose proof (growing_length _ _ _ _ _ _ _ _ Hg1) as Hl1.
    destruct (IH k1 s1 hi1 L1 (op_cap size op)) as (rs & s2 & hi2 & L2 & Hrun2 & Hfl2 & Hrest); try done; [lia | | lia |].
    { unfold CONT_LEN in *. lia. }
    exists (r :: rs), s2, hi2, L2. split_and!; [| by econstructor | apply Hrest..].
    simpl. rewrite (bind_ok _ _ _ _ _ Hrun). by rewrite (bind_ok _ _ _ _ _ Hrun2).
Qed.

(** C22: a file is one sequence of bytes that grows.  On an open well-formed
    file of parts of one length, and with room for [k] more in the clients, any
    sequence of reads and of writes that needs at most those and crosses no end
    of a part runs to its end.  Its results are those of the same sequence on
    one flat file: a read returns bytes that are there; a write replaces the
    bytes it says it wrote, and a write behind the capacity makes the capacity
    larger by a part and leaves zeros around its data.  The file is open and well formed at the end, with the capacity
    that the sequence asks for. *)
Theorem growing_file_refines fp p ip k s hi L size fuel junk ops :
  growing fp p ip k s hi L size -> ops_aligned size ops -> ops_cap size ops <= size + CONT_LEN * Z.of_nat k ->
  (S (length L + k) < fuel)%nat -> size + CONT_LEN * Z.of_nat k < 2 ^ 63 ->
  exists rs s' hi' L', run_ops fuel junk fp ops s = (inr rs, s') /\
    flat_run (flat (k_fs s) L) ops rs (flat (k_fs s') L') /\
    open_file s' fp p ip hi' L' (ops_cap size ops) /\ uniform L' /\ within_parts (k_fs s') L'.
Proof. apply growing_run. Qed.
End step.
