(* ===== verification/Lifecycle.v ===== *)
(** * The life of a file

    A name is made, the file behind it is opened, read and written; later it
    is looked up again.  The steps of namei.c, inode.c, file.c and cont.c
    together, on the flat view of the file: a new file is an empty sequence of
    bytes that can grow, and a lookup cuts a file off behind its first part. *)

From S2P Require Import Prelude Monad Decimal Client Kernel KernelFacts Pool Uino Cont Inode File Namei ContData Chain Append InodeProps FileProps Grow NameiProps MakeProps Session Flat Race Growing.

(** ** Opening *)

Section opening.
Context `{ClientFS} `{!ClientIoLaws}.

(** The VFS makes a file over the dentry [p]; then it calls
    [chunkfs_open]. *)
Definition vfs_file_over (fp p : Z) (s : kstate) : kstate := set_files (<[fp := mk_file p 0]> (k_files s)) s.

Lemma one_part_at_open s fp p ip hi pi ci chunk_id d c :
  one_part_at s p ip hi pi ci chunk_id d c -> lk_inodes (k_locks s) = ∅ ->
  (forall m, dentry_open (k_fs s) m d = 0) ->
  open_file (vfs_file_over fp p s) fp p ip hi [only_part ci chunk_id d c] CONT_LEN.
Proof.
  intros Hone Hlk Hop. pose proof (one_part_at_wf _ _ _ _ _ _ _ _ _ Hone) as (Hparts & Hwf & Hhd).
  destruct Hone as [(de & dp & Hde & Hip & Hfs & Hd) Hi Hino Hc Hp Ho Hnz Hf [] Hcd]. split.
  - exists (mk_file p 0). simpl. by rewrite lookup_insert_eq.
  - by exists de.
  - done.
  - split; [done | by eexists | apply Hwf | apply Hwf | | simpl; lia].
    exists pi. split; [done |]. rewrite Forall_singleton. split; [done | done | by exists ci | done | simpl; lia].
  - by rewrite Forall_singleton.
  - simpl. rewrite Hlk. apply not_elem_of_empty.
Qed.

(** [chunkfs_open] opens the first part and closes it, all but the client
    file. *)
Lemma open_run s fp p ip hi L size fuel junk :
  open_file s fp p ip hi L size -> k_oom s = [] -> (length L < fuel)%nat -> 0 < size ->
  exists s' hi', chunkfs_open fuel junk fp s = (inr tt, s') /\ open_file s' fp p ip hi' L size /\
    k_fs s' = k_fs s /\ k_oom s' = [] /\ k_pool s' = k_pool s /\ k_opens s' = k_opens s + 1.
Proof.
  intros Hof Ho Hf Hsz. pose proof (of_wf _ _ _ _ _ _ _ Hof) as Hwf. pose proof (of_sized _ _ _ _ _ _ _ Hof) as Hsized.
  pose proof (tiles_find 0 L size 0 (wf_tiles _ _ (proj1 (proj2 Hwf))) ltac:(lia) ltac:(lia)) as Ht.
  destruct (List.find _ L) as [c|] eqn:Hfind; [| lia].
  destruct (find_upto _ _ _ Hfind) as (before & Hup & _ & Hin).
  destruct (open_part s fp p ip hi L size 0 fuel junk c before) as (s1 & Hh & Hrun); try done.
  assert (forall x, x ∈ L -> 0 <= i_size (k_fs s) (co_inode x)) as Hpos.
  { destruct (sz_cached _ _ _ _ Hsized) as (pi & _ & Hc). rewrite Forall_forall in Hc. intros x Hx. by destruct (Hc x Hx). }
  destruct (io_close s s1 fp p ip hi L size 0 fuel c before (k_fs s)) as (s' & Hclose & Hdone); try done; [apply Hsized |].
  exists s', (updated hi (k_fs s) c L). split_and!.
  - unfold chunkfs_open. rewrite (bind_ok _ _ _ _ _ Hrun). rewrite <-(hd_fs _ _ _ Hh) in Hclose.
    destruct s1. exact Hclose.
  - eapply io_done_open; [exact Hof | done | done | apply Hsized | exact Hdone].
  - apply Hdone.
  - by rewrite (id_oom _ _ _ _ _ _ _ _ _ _ _ Hdone).
  - apply Hdone.
  - by rewrite (id_opens _ _ _ _ _ _ _ _ _ _ _ Hdone).
Qed.
End opening.

(** ** A new file *)

Section life.
Context `{ClientFS} `{!ClientLaws} `{!ClientCreateLaws} `{!ClientXattrs} `{!ClientCacheLaws} `{!ClientIoLaws}.
Context `{!ClientBytes} `{!ClientReopenLaws} `{!ClientZeros}.

Lemma flat_one_part f ci chunk_id d c x :
  flat f [only_part ci chunk_id d c] x = if decide (0 <= x < CONT_LEN) then byte f c x else 0.
Proof.
  unfold flat. simpl. destruct (holds x _) eqn:Hh.
  - apply holds_iff in Hh. unfold part_end in Hh. simpl in *. rewrite decide_True by lia. simpl. f_equal. lia.
  - rewrite decide_False; [done |]. intros Hx. apply not_true_iff_false in Hh. apply Hh, holds_iff.
    unfold part_end. simpl. lia.
Qed.

(** When the client makes the name and the new client inode is empty, mknod,
    [chunkfs_open] and then any sequence of reads and writes, within the room
    the clients have, all succeed, and the reads and writes are those of an
    empty flat file that grows as far as they ask for. *)
Lemma new_file_run s dir p di cdir de dp pi ci c f1 Ld mode dev fuel junk fp k ops :
  let d := dp_client_dentry dp in
  let chunk_id := UINO_TO_CHUNK_ID (i_ino di) in
  makes s dir p di cdir de dp pi ci c f1 Ld -> op_mknod (k_fs s) cdir d mode dev = (0, f1) ->
  lk_inodes (k_locks s) = ∅ -> (forall m, dentry_open f1 m d = 0) -> i_size f1 c = 0 ->
  (forall f2, xattrs_of c f1 f2 -> can_grow pi k f2 (only_part ci chunk_id d c)) ->
  (length Ld < fuel)%nat -> (S (1 + k) < fuel)%nat -> CONT_LEN * Z.of_nat (1 + k) < 2 ^ 63 ->
  ops_aligned CONT_LEN ops -> ops_cap CONT_LEN ops <= CONT_LEN * Z.of_nat (1 + k) ->
  exists s1 s2 s3 rs ip hi L,
    chunkfs_mknod fuel dir p mode dev s = (inr tt, s1) /\
    chunkfs_open fuel junk fp (vfs_file_over fp p s1) = (inr tt, s2) /\
    run_ops fuel junk fp ops s2 = (inr rs, s3) /\
    flat_run (fun _ => 0) ops rs (flat (k_fs s3) L) /\
    open_file s3 fp p ip hi L (ops_cap CONT_LEN ops).
Proof.
  intros d chunk_id Hmk Hop Hlk Hopen Hempty Hgrow HfL Hf Hmax Hal Hcap.
  destruct (plain_name_run s dir p di cdir de dp pi ci c f1 Ld (fun f cd c => op_mknod f cd c mode dev) fuel Hmk Hop)
    as (s1 & ip & hi & f2 & Hrun1 & Hone & _ & _ & Hfs1 & Hx & _ & _ & _ & Hlk1); [lia | done |].
  fold d chunk_id in Hone. set (L := [only_part ci chunk_id d c]).
  assert (open_file (vfs_file_over fp p s1) fp p ip hi L CONT_LEN) as Hof1.
  { apply (one_part_at_open s1 fp p ip hi pi); [done | by rewrite Hlk1 |]. intros m. rewrite Hfs1. by rewrite (xo_open _ _ _ Hx). }
  destruct (open_run (vfs_file_over fp p s1) fp p ip hi L CONT_LEN fuel junk Hof1 (oa_oom _ _ _ _ _ _ _ _ _ Hone))
    as (s2 & hi2 & Hrun2 & Hof2 & Hfs2 & Ho2 & Hp2 & _); [simpl; lia | done |].
  simpl in Hfs2, Hp2. rewrite Hfs1 in Hfs2. rewrite (oa_pool _ _ _ _ _ _ _ _ _ Hone) in Hp2.
  assert (growing fp p ip k s2 hi2 L CONT_LEN) as Hg.
  { split; [done | done | by repeat constructor | |].
    - apply Forall_singleton. simpl. rewrite Hfs2, (xo_size _ _ _ Hx), Hempty. done.
    - exists pi, (only_part ci chunk_id d c). split_and!; [done | done |]. rewrite Hfs2. by apply Hgrow. }
  destruct (growing_run fp p ip k s2 hi2 L CONT_LEN fuel junk ops) as (rs & s3 & hi3 & L3 & Hrun3 & Hflat & Hof3 & _);
    try done; try (simpl; lia); [unfold CONT_LEN in *; lia.. |].
  exists s1, s2, s3, rs, ip, hi3, L3. split_and!; [exact Hrun1 | done | done | | done].
  assert (pointwise_relation Z eq (flat (k_fs s2) L) (fun _ => 0)) as <-; [| done].
  intros x. unfold L. rewrite flat_one_part, Hfs2. case_decide; [| done].
  apply byte_past_size. rewrite (xo_size _ _ _ Hx), Hempty. lia.
Qed.

(** ** Looking a file up *)

(** C36: looking a file up cuts it off.  When the client finds the name of the
    head of a file, [chunkfs_lookup] succeeds, and the dentry has a well-formed
    file of exactly one part: of the bytes the flat file had, those of the
    first part are there and the others are gone, although every client inode
    still has its bytes.  The size is that of the head. *)
Theorem lookup_forgets s dir p pi ci chunk_id cd c f2 fuel L size head :
  finds s dir p pi ci chunk_id cd c f2 -> (1 < fuel)%nat ->
  wf_parts L size -> hd_error L = Some head -> co_inode head = c -> cd_len (co_cd head) = CONT_LEN ->
  let L' := [only_part ci chunk_id cd c] in
  exists s' ip hi, chunkfs_lookup fuel dir p s = (inr tt, s') /\ wf_file s' p L' CONT_LEN /\
    k_inodes s' !! ip = Some hi /\ i_csize hi = i_size f2 c /\
    (forall x, flat (k_fs s') L' x = if decide (0 <= x < CONT_LEN) then flat f2 L x else 0) /\
    forall i k, byte (k_fs s') i k = byte f2 i k.
Proof.
  intros Hfi Hf Hwf Hhd Hc Hlen L'.
  destruct (lookup_run s dir p pi ci chunk_id cd c f2 fuel Hfi Hf) as (s' & ip & hi & Hrun & Hone & _ & Hsz & _ & _ & _ & Hx & _).
  exists s', ip, hi. split_and!; [done | by eapply one_part_at_wf | apply Hone | done | |].
  - intros x. unfold L'. rewrite flat_one_part. case_decide as Hr; [| done]. rewrite (xattrs_keep_bytes _ _ _ _ _ Hx).
    destruct L as [|h M]; [done |]. injection Hhd as ->. pose proof (wf_tiles _ _ Hwf) as Ht.
    inversion Ht as [| ? ? ? ? Hs _ _ _]; subst. unfold flat.
    rewrite (tiles_holds _ _ _ head x Ht) by (set_solver || (unfold part_end; lia)). rewrite Hs. f_equal. lia.
  - intros i k. by rewrite (xattrs_keep_bytes _ _ _ _ _ Hx).
Qed.
End life.
