(* ===== verification/FirstFile.v ===== *)
(** * The first file of a file system

    mkfs, the mount, and the first file made in the root directory: the dentry
    is looked up, the name made, the file opened, read and written.  The
    operations of super.c, namei.c, inode.c, file.c and cont.c in the order
    the VFS calls them. *)

From S2P Require Import Prelude Monad Bytes OnDisk Device Decimal Client Kernel KernelFacts Mkfs MkfsSpec MkfsProps Pool MountProps Uino Cont Inode File Namei Super ContData Chain Append InodeProps FileProps Grow NameiProps MakeProps SuperProps Session Flat Race Growing Lifecycle.

Section first.
Context `{Host} `{Mutexes} `{ClientFS} `{!ClientLaws} `{!ClientCreateLaws} `{!ClientXattrs} `{!ClientCacheLaws} `{!ClientIoLaws}.
Context `{!ClientBytes} `{!ClientReopenLaws} `{!ClientZeros}.
Context (le_host : big_endian = false).

(** In the state [f] the client does not know the name in its directory
    [cdir], behind the dentry [d], and makes it: [cd] is the dentry for it, and
    the inode [c], which is empty, is behind it in [f3].  The directory stays
    in the cache with its attributes, and the clients have room for [k] parts
    more after [c]. *)
Record client_makes (pi : pool_info) (ci : chunk_info) (d : Z) (cdir : cino) (name : string) (mode dev : Z) (k : nat)
    (f : fs) (cd : Z) (c : cino) (f3 : fs) : Prop := {
  cm_calls : exists f1 f2, d_alloc_name f d name = (Some cd, f1) /\ op_lookup f1 cdir cd 0 = (LookupNull, f2) /\
    d_inode f2 cd = None /\ op_mknod f2 cdir cd mode dev = (0, f3);
  cm_dentry : cd <> 0 /\ d_inode f3 cd = Some c /\ forall m, dentry_open f3 m cd = 0;
  cm_inode : can_start f3 pi ci 1 c /\ i_size f3 c = 0 /\ c <> cdir;
  cm_dir : iget_locked f3 cdir = Some f3 /\ is_bad_inode f3 cdir = false /\ 0 <= i_size f3 cdir < 2 ^ 63;
  cm_attrs n : getxattr f3 cdir n = getxattr f cdir n;
  cm_room f4 : xattrs_of c f3 f4 -> can_grow pi k f4 (only_part ci 1 cd c);
}.

(** The VFS makes a dentry under the dentry [parent]. *)
Definition vfs_dentry_under (parent p : Z) (name : string) (s : kstate) : kstate :=
  set_dentries (<[p := mk_dentry None name parent None false]> (k_dentries s)) s.

(** The dentry after the lookup, and the name to be made behind it. *)
Lemma root_makes s root ip hi pi ci d cdir p name mode dev k cd c f3 fuel :
  one_part_at s root ip hi pi ci 1 d cdir -> k_dentries s !! p = None ->
  client_makes pi ci d cdir name mode dev k (k_fs s) cd c f3 ->
  exists s2 de nd, chunkfs_lookup fuel ip p (vfs_dentry_under root p name s) = (inr tt, s2) /\
    makes s2 ip p hi cdir de (mk_dpriv cd nd) pi ci c f3 [only_part ci 1 d cdir] /\
    op_mknod (k_fs s2) cdir cd mode dev = (0, f3) /\ k_locks s2 = k_locks s /\ UINO_TO_CHUNK_ID (i_ino hi) = 1.
Proof.
  intros [(rde & rdp & Hde & Hip & Hfs & Hd) Hi Hino Hc Hp Ho Hnz Hfound Hst Hcd] Hfresh
    [(f1 & f2 & Hal & Hlk & Hnone & Hmk) (Hcz & Hci & Hopen) (Hst3 & Hz & Hne) (Hca & Hgood & Hsz) Hat Hroom].
  destruct Hst as [Hch Hsb Hpos Hfits _ _ _].
  assert (UINO_TO_CHUNK_ID (i_ino hi) = 1) as Hu by (rewrite Hino; by apply make_uino_unpack).
  assert (root <> p) as Hrp by congruence.
  destruct (lookup_absent (vfs_dentry_under root p name s) ip p hi cdir pi ci cd f2 fuel)
    as (s2 & de & nd & Hrun & Hde2 & Hfs2 & Hf2 & Ho2 & Hp2 & Hi2 & Hl2); [| done |].
  { split; simpl; try done; [by rewrite Hu |].
    exists (mk_dentry None name root None false), rde, rdp, f1. simpl.
    rewrite lookup_insert_eq, lookup_insert_ne by done. subst d. by split_and!. }
  simpl in Hp2, Hi2, Hl2. exists s2, de, nd. split_and!; [done | | by rewrite Hf2 | done | done].
  split; simpl; try done; [by rewrite Hp2 | | by rewrite Hu | intros Hin; by apply list_elem_of_singleton in Hin].
  split; [done |]. split; simpl; [by rewrite Hi2 | by eexists | by constructor | rewrite Forall_singleton; by split_and! | | lia].
  exists pi. split; [by rewrite Hp2 |]. rewrite Forall_singleton. split; [done | done | by exists ci | | simpl; lia].
  destruct Hcd as [A1 A2 A3 A4]. unfold field_is in *. split; unfold field_is; simpl; by rewrite Hat.
Qed.

(** C35: from the image of mkfs to the bytes of a file.  On a little-endian
    host with the client file systems mounted, the mount of the image of mkfs
    succeeds.  When the VFS then makes a dentry under the root, looks its name
    up, makes the name with mknod and opens it, and the client makes an empty
    inode, all calls succeed; and any sequence of reads and writes of the file,
    within the room the clients have, is that sequence on an empty flat file
    that grows as far as it asks for. *)
Theorem first_file_refines fuel attrs ro s raw mnts m d name mode dev cd c junk fp k ops :
  let pi := mounted_pool mnts (Z.to_nat (nchunks raw)) in
  let ci := mounted_chunk mnts 1 in
  let cdir := (mnt_sb (mnts 1), 12) in
  formatted (k_data s) raw -> (forall blk, k_bad s blk = false) -> k_oom s = [] ->
  clients_mounted (k_fs s) (nchunks raw) mnts -> root_there (k_fs s) mnts m d ->
  2 <= raw < 2 ^ 63 -> 1 <= nchunks raw < 10 ^ 11 -> raw <> chunk_pos (nchunks raw + 2) + 1 ->
  nchunks raw < Z.of_nat fuel -> (S (1 + k) < fuel)%nat -> lk_inodes (k_locks s) = ∅ ->
  (forall f, xattrs_of cdir (k_fs s) f -> exists f3, client_makes pi ci d cdir name mode dev k f cd c f3) ->
  CONT_LEN * Z.of_nat (1 + k) < 2 ^ 63 -> ops_aligned CONT_LEN ops -> ops_cap CONT_LEN ops <= CONT_LEN * Z.of_nat (1 + k) ->
  exists root ip s1, chunkfs_fill_super fuel attrs true ro s = (inr root, s1) /\
    (exists de, k_dentries s1 !! root = Some de /\ de_inode de = Some ip) /\
    forall p, k_dentries s1 !! p = None ->
    exists s2 s3 s4 s5 rs fip hi L,
      chunkfs_lookup fuel ip p (vfs_dentry_under root p name s1) = (inr tt, s2) /\
      chunkfs_mknod fuel ip p mode dev s2 = (inr tt, s3) /\
      chunkfs_open fuel junk fp (vfs_file_over fp p s3) = (inr tt, s4) /\
      run_ops fuel junk fp ops s4 = (inr rs, s5) /\
      flat_run (fun _ => 0) ops rs (flat (k_fs s5) L) /\
      open_file s5 fp p fip hi L (ops_cap CONT_LEN ops).
Proof.
  intros pi ci cdir Hf Hbad Ho Hm Hrt Hraw Hn Hne Hfuel Hk Hlk Hmakes Hmax Hal Hcap.
  destruct (fill_super_run le_host fuel attrs ro s raw mnts m d) as (root & ip & s1 & Hrun & Hmo); [done.. |].
  destruct (mo_root_at _ _ _ _ _ _ _ Hmo) as (hi & Hone). exists root, ip, s1. split; [done |].
  split; [destruct (oa_dentry _ _ _ _ _ _ _ _ _ Hone) as (de & dp & Hde & Hip & _); by exists de |].
  intros p Hp. destruct (Hmakes (k_fs s1) (mo_xattrs _ _ _ _ _ _ _ Hmo)) as (f3 & Hcm).
  destruct (root_makes s1 root ip hi pi ci d cdir p name mode dev k cd c f3 fuel Hone Hp Hcm)
    as (s2 & de & nd & Hlook & Hmk & Hop & Hl2 & Hu).
  destruct (new_file_run s2 ip p hi cdir de (mk_dpriv cd nd) pi ci c f3 [only_part ci 1 d cdir] mode dev fuel junk fp k ops)
    as (s3 & s4 & s5 & rs & fip & hi2 & L & R3 & R4 & R5 & Hflat & Hof); simpl; try done; try apply Hcm; [| | lia |].
  - by rewrite Hl2, (mo_locks _ _ _ _ _ _ _ Hmo).
  - intros f4 Hx. rewrite Hu. by apply Hcm.
  - exists s2, s3, s4, s5, rs, fip, hi2, L. by split_and!.
Qed.
End first.
