(* ===== verification/Programs.v ===== *)
(** * Programs on a file of chunkfs

    Programs read and write through read(2) and write(2), which give the file
    operations the position by address and keep what is left there.
    [chunkfs_read] and [chunkfs_write] leave the position of the client: in
    the first part that is the position in the file, in a later one it is not.
    What that does to the program of write_pattern.c, which writes a file from
    its start to its end, and to one that reads a file so. *)

From S2P Require Import Prelude Monad Decimal Client Kernel KernelFacts Pool Uino Cont ContData Chain Append Inode InodeProps File FileProps Grow Session Flat Race Growing WritePattern.

(** ** write(2) *)

Section fill.
Context `{ClientFS} `{!ClientLaws} `{!ClientCreateLaws} `{!ClientXattrs} `{!ClientCacheLaws} `{!ClientIoLaws}.
Context `{!ClientBytes} `{!ClientReopenLaws} `{!ClientZeros} `{!ClientRoom}.
Context (fuel : nat) (junk : option chunkfs_continuation).

(** The system call on an open file.  When the file operation stores
    something, it begins at the position of the file, its result is that of
    the call, and the position it leaves is that of the file. *)
Context (sys_write : Z -> list Z -> kernel Z).

Definition writes_at_position : Prop := forall s fp p pos data ret pos' s1,
  k_files s !! fp = Some (mk_file p pos) -> chunkfs_write fuel junk fp data pos s = (inr (ret, pos'), s1) -> 0 < ret ->
  sys_write fp data s = (inr ret, set_files (<[fp := mk_file p pos']> (k_files s1)) s1).

Context (Hsys : writes_at_position).

(** What the program sees of it. *)
Definition program_write (fp : Z) (data : list Z) : stm kstate pattern_stop Z := fun s =>
  match sys_write fp data s with
  | (inr n, s') => (inr n, s')
  | (inl _, s') => (inl NoReturn, s')
  end.

Lemma growing_seek fp p ip k s hi L size pos :
  growing fp p ip k s hi L size ->
  growing fp p ip k (set_files (<[fp := mk_file p pos]> (k_files s)) s) hi L size.
Proof.
  intros [[_ Hin Hwf [] Hop Hlk] Ho Hu Hw Hr]. split; try done. split; try done.
  exists (mk_file p pos). simpl. by rewrite lookup_insert_eq.
Qed.

(** One call: the data is stored as a whole, and the position left is the
    offset in the part. *)
Lemma write_step fp p ip k s hi L size data pos :
  growing fp p ip k s hi L size -> k_files s !! fp = Some (mk_file p pos) -> (0 < length data)%nat ->
  op_aligned size (Write data pos) -> op_cap size (Write data pos) <= size + CONT_LEN * Z.of_nat k ->
  (S (length L) < fuel)%nat -> size + CONT_LEN * Z.of_nat k < 2 ^ 63 ->
  let n := Z.of_nat (length data) in
  exists k' s' hi' L', program_write fp data s = (inr n, s') /\
    k_files s' !! fp = Some (mk_file p (pos mod CONT_LEN + n)) /\
    grown fp p ip k' s L size (Write data pos) (n, pos mod CONT_LEN + n, []) s' hi' L' /\
    op_cap size (Write data pos) + CONT_LEN * Z.of_nat k' = size + CONT_LEN * Z.of_nat k.
Proof.
  intros Hg Hfl Hlen Hal Hcap Hf Hsz n.
  destruct (grow_op fp p ip k s hi L size fuel junk (Write data pos)) as (k' & r & s1 & hi' & L' & Hrun & Hgd & Hk); try done.
  destruct (gd_write _ _ _ _ _ _ _ _ _ _ _ _ Hgd data pos eq_refl) as (Hcs & f & d & i & Hd & Hwr).
  destruct (write_whole f d i _ _ _ _ _ Hwr Hd) as [Hr1 Hr2]; [by apply Z.mod_pos_bound |].
  unfold run_op in Hrun. destruct (chunkfs_write fuel junk fp data pos s) as [[e | [ret cpos]] s2] eqn:Hcw.
  { by rewrite (bind_stop _ _ _ _ _ Hcw) in Hrun. }
  rewrite (bind_ok _ _ _ _ _ Hcw) in Hrun. injection Hrun as <- <-. cbn [fst snd] in *. subst ret cpos. fold n in Hcw, Hwr, Hgd.
  pose proof (Hsys s fp p pos data _ _ s2 Hfl Hcw ltac:(lia)) as Hcall.
  exists k', (set_files (<[fp := mk_file p (pos mod CONT_LEN + n)]> (k_files s2)) s2), hi', L'. split_and!.
  - unfold program_write. by rewrite Hcall.
  - simpl. by rewrite lookup_insert_eq.
  - destruct Hgd as [G1 G2 G3 G4]. split; try done. by apply growing_seek.
  - done.
Qed.

(** ** The program *)

(** After [m] turns: [4096 m] bytes were written, the position is [4096 j].
    Until a second part is needed, it is where the data ends; then it is back
    in the first part. *)
Record filling (fp p ip : Z) (F : Z -> Z) (m j : Z) (k : nat) (s : kstate) (hi : inode)
    (L : list chunkfs_continuation) : Prop := {
  fl_growing : growing fp p ip k s hi L (CONT_LEN * (2 - Z.of_nat k));
  fl_pos : k_files s !! fp = Some (mk_file p (4096 * j));
  fl_range : 0 <= j <= 10;
  fl_phase : (k = 1%nat /\ j = m) \/ (k = O /\ 11 <= m);
  fl_flat x : flat (k_fs s) L x = if decide (0 <= x < Z.min (4096 * m) 45056) then 53 else F x;
  fl_before : before 45056 (k_fs s) L;
  fl_size : 0 < m -> i_csize hi = total_size (k_fs s) L;
}.

(** The flat file after a whole buffer. *)
Lemma pattern_flat F F' pos cpos :
  flat_step F (Write pattern_buf pos) (4096, cpos, []) F' ->
  forall x, F' x = if decide (pos <= x < pos + 4096) then 53 else F x.
Proof.
  intros (_ & Hout & Hin & _) x. change (Z.of_nat (length pattern_buf)) with 4096 in Hout. case_decide as Hx; [| by apply Hout].
  specialize (Hin x Hx). unfold pattern_buf in Hin. apply lookup_replicate_1 in Hin as [Hin _]. done.
Qed.

Lemma fill_step fp p ip F m j k s hi L :
  filling fp p ip F m j k s hi L -> 0 <= m -> (3 < fuel)%nat ->
  exists j' k' s' hi' L', program_write fp pattern_buf s = (inr 4096, s') /\
    filling fp p ip F (m + 1) j' k' s' hi' L'.
Proof.
  intros [Hg Hfl Hj Hph Hflat Hbf _] Hm Hf. assert (k <= 1)%nat as Hk1 by (destruct Hph as [[-> _] | [-> _]]; lia).
  pose proof (growing_length _ _ _ _ _ _ _ _ Hg) as Hlen.
  assert (4096 * j mod CONT_LEN = 4096 * (if decide (j = 10) then 0 else j)) as Hmod.
  { case_decide; [by subst |]. apply Z.mod_small. unfold CONT_LEN. lia. }
  destruct (write_step fp p ip k s hi L (CONT_LEN * (2 - Z.of_nat k)) pattern_buf (4096 * j))
    as (k' & s' & hi' & L' & Hrun & Hfl' & [G1 G2 G3 G4] & Hk'); try done.
  - change (length pattern_buf) with 4096%nat. lia.
  - split; [simpl; lia |]. change (Z.of_nat (length pattern_buf)) with 4096. rewrite Hmod.
    unfold CONT_LEN. split; [lia |]. repeat case_decide; lia.
  - unfold op_cap. repeat case_decide; unfold CONT_LEN in *; lia.
  - unfold CONT_LEN in *. lia.
  - unfold CONT_LEN. lia.
  - change (Z.of_nat (length pattern_buf)) with 4096 in *.
    assert (op_cap (CONT_LEN * (2 - Z.of_nat k)) (Write pattern_buf (4096 * j)) = CONT_LEN * (2 - Z.of_nat k')) as Hcap by lia.
    exists ((if decide (j = 10) then 0 else j) + 1), k', s', hi', L'. split; [done |]. split.
    + by rewrite Hcap in G1.
    + rewrite Hfl', Hmod. do 2 f_equal. lia.
    + repeat case_decide; lia.
    + unfold op_cap in Hcap. destruct Hph as [[-> ->] | [-> Hm11]]; repeat case_decide; unfold CONT_LEN in *; lia.
    + intros x. rewrite (pattern_flat _ _ _ _ G2), Hflat. destruct Hph as [[_ ->] | [_ Hm11]]; repeat case_decide; lia || done.
    + apply G3; [| done]. simpl. change (Z.of_nat (length pattern_buf)) with 4096. lia.
    + intros _. by destruct (G4 pattern_buf (4096 * j) eq_refl).
Qed.
Lemma fill_turns fp p ip F n m j k s hi L :
  filling fp p ip F m j k s hi L -> 0 <= m <= 8192 -> 8192 - m < Z.of_nat n -> (3 < fuel)%nat ->
  exists j' k' s' hi' L', loop n OutOfFuel (pattern_step (program_write fp)) (4096 * m) s = (inr FILE_SIZE, s') /\
    filling fp p ip F 8192 j' k' s' hi' L'.
Proof.
  intros Hfill Hm Hn Hf. revert m j k s hi L Hfill Hm Hn. induction n as [|n IH]; intros m j k s hi L Hfill Hm Hn; [lia |].
  destruct (decide (m = 8192)) as [-> | Hlt].
  { exists j, k, s, hi, L. split; [| done]. by apply loop_done, pattern_end. }
  destruct (fill_step fp p ip F m j k s hi L Hfill ltac:(lia) Hf) as (j1 & k1 & s1 & hi1 & L1 & Hrun & Hfill1).
  destruct (IH (m + 1) j1 k1 s1 hi1 L1 Hfill1 ltac:(lia) ltac:(lia)) as (j2 & k2 & s2 & hi2 & L2 & Hrun2 & Hfill2).
  exists j2, k2, s2, hi2, L2. split; [| done].
  rewrite (loop_next _ _ _ _ (4096 * (m + 1)) _ s1); [done |].
  replace (4096 * (m + 1)) with (4096 * m + 4096) by lia. apply pattern_turn; [unfold FILE_SIZE; lia | done | lia..].
Qed.

(** A byte of the flat file that is not zero is within the size of its part. *)
Lemma flat_held f L size c x :
  wf_parts L size -> c ∈ L -> cd_start (co_cd c) <= x < part_end c -> flat f L x <> 0 ->
  x - cd_start (co_cd c) < i_size f (co_inode c).
Proof.
  intros Hwf Hin Hx Hnz. unfold flat in Hnz. rewrite (tiles_holds _ _ _ c _ (wf_tiles _ _ Hwf) Hin Hx) in Hnz.
  destruct (Z.lt_ge_cases (x - cd_start (co_cd c)) (i_size f (co_inode c))) as [| Hge]; [done |].
  by rewrite (byte_past_size _ _ _ Hge) in Hnz.
Qed.

Lemma two_parts_sizes fp p ip k s hi L :
  growing fp p ip k s hi L (2 * CONT_LEN) -> before 45056 (k_fs s) L ->
  flat (k_fs s) L 40959 <> 0 -> flat (k_fs s) L 45055 <> 0 ->
  exists c1 c2, L = [c1; c2] /\ i_size (k_fs s) (co_inode c1) = CONT_LEN /\ i_size (k_fs s) (co_inode c2) = 4096.
Proof.
  intros Hg Hbf N1 N2. pose proof (growing_length _ _ _ _ _ _ _ _ Hg) as Hlen. destruct Hg as [Hof _ Hu Hw _].
  pose proof (proj1 (proj2 (of_wf _ _ _ _ _ _ _ Hof))) as Hwf.
  assert (length L = 2%nat) as Hl2 by (unfold CONT_LEN in Hlen; lia).
  destruct L as [|c1 [|c2 [|]]]; try done. exists c1, c2. split; [done |]. pose proof (wf_tiles _ _ Hwf) as Ht.
  inversion Ht as [| ? ? ? ? Hs1 _ _ Ht2]; subst. inversion Ht2 as [| ? ? ? ? Hs2 _ _ _]; subst.
  unfold uniform, within_parts, before in *. rewrite !Forall_cons in *.
  destruct Hu as (Hu1 & Hu2 & _), Hw as (Hw1 & _ & _), Hbf as (_ & Hb2 & _).
  pose proof (flat_held _ _ _ c1 40959 Hwf ltac:(set_solver) ltac:(unfold part_end, CONT_LEN in *; lia) N1) as B1.
  pose proof (flat_held _ _ _ c2 45055 Hwf ltac:(set_solver) ltac:(unfold part_end, CONT_LEN in *; lia) N2) as B2.
  simpl in *. unfold CONT_LEN in *. lia.
Qed.

(** C23: write_pattern on an empty or one-part file of chunkfs.  On clients with
    room, the program runs to its end with success and has been told that the
    32 MiB are written.  The file then has two parts and 45056 bytes, all '5':
    once the first part is full each turn of the program writes to the second
    part, is left with the position of the client, and goes on near the start
    of the first part. *)
Theorem pattern_wraps fp p ip s hi L pfuel cmd file :
  growing fp p ip 1 s hi L CONT_LEN -> k_files s !! fp = Some (mk_file p 0) -> (3 < fuel)%nat -> 8192 < Z.of_nat pfuel ->
  exists s' hi' L', pattern_program (program_write fp) pfuel [cmd; file] true s = (inr FILE_SIZE, s') /\
    open_file s' fp p ip hi' L' (2 * CONT_LEN) /\ i_csize hi' = 45056 /\
    (exists c1 c2, L' = [c1; c2] /\ i_size (k_fs s') (co_inode c1) = CONT_LEN /\ i_size (k_fs s') (co_inode c2) = 4096) /\
    forall x, flat (k_fs s') L' x = if decide (0 <= x < 45056) then 53 else 0.
Proof.
  intros Hg Hfl Hf Hpf. pose proof (proj1 (proj2 (of_wf _ _ _ _ _ _ _ (gr_open _ _ _ _ _ _ _ _ Hg)))) as Hwf.
  destruct (fill_turns fp p ip (flat (k_fs s) L) pfuel 0 0 1 s hi L) as (j & k & s' & hi' & L' & Hrun & [G1 _ G3 G4 G5 G6 G7]);
    try done; try lia.
  { split; try done; [by left | intros x; by rewrite decide_False by lia |].
    apply Forall_forall. intros c Hin. right. destruct (tiles_start _ _ _ _ (wf_tiles _ _ Hwf) Hin) as [_ He].
    pose proof (proj1 (Forall_forall _ _) (gr_within _ _ _ _ _ _ _ _ Hg) c Hin) as Hsz. simpl in Hsz.
    unfold part_end, CONT_LEN in *. lia. }
  assert (forall x, flat (k_fs s') L' x = if decide (0 <= x < 45056) then 53 else flat (k_fs s) L x) as Hflat by done.
  assert (k = O) as -> by lia. change (CONT_LEN * (2 - Z.of_nat 0)) with (2 * CONT_LEN) in G1.
  destruct (two_parts_sizes _ _ _ _ _ _ _ G1 G6) as (c1 & c2 & Hl & Hs1 & Hs2); [by rewrite Hflat.. |].
  exists s', hi', L'. split_and!; [done | apply G1 | rewrite G7, Hl by done; simpl; by rewrite Hs1, Hs2 | by exists c1, c2 |].
  intros x. rewrite Hflat. case_decide as Hx; [done |]. unfold flat.
  destruct (List.find (holds x) L) as [c|] eqn:Hc; [| done].
  destruct (find_holds _ _ _ Hc) as [Hin Hr]. destruct (tiles_start _ _ _ _ (wf_tiles _ _ Hwf) Hin) as [? He].
  unfold CONT_LEN in *. lia.
Qed.
End fill.

(** ** Reading a file from its start to its end *)

Section reader.
Context `{ClientFS} `{!ClientIoLaws} `{!ClientBytes} `{!ClientReadable}.
Context (fuel : nat) (junk : option chunkfs_continuation).

(** read(2) on an open file; the data is the second result. *)
Context (sys_read : Z -> Z -> kernel (Z * list Z)).

Definition reads_at_position : Prop := forall s fp p pos len ret pos' data s1,
  k_files s !! fp = Some (mk_file p pos) -> chunkfs_read fuel junk fp len pos s = (inr (ret, pos', data), s1) -> 0 < ret ->
  sys_read fp len s = (inr (ret, data), set_files (<[fp := mk_file p pos']> (k_files s1)) s1).

Context (Hsys : reads_at_position).

(** [n] calls; a program that reads a file to its end stops when one of them
    returns 0. *)
Fixpoint read_calls (n : nat) (fp len : Z) : kernel (list Z) :=
  match n with
  | O => mret []
  | S n => r ← sys_read fp len; rs ← read_calls n fp len; mret (r.1 :: rs)
  end.

Lemma open_seek s fp p ip hi L size pos :
  open_file s fp p ip hi L size ->
  open_file (set_files (<[fp := mk_file p pos]> (k_files s)) s) fp p ip hi L size.
Proof.
  intros [_ Hin Hwf [] Hop Hlk]. split; try done. exists (mk_file p pos). simpl. by rewrite lookup_insert_eq.
Qed.

(** The first part is full and the second is not empty. *)
Definition goes_on (f : fs) (L : list chunkfs_continuation) : Prop :=
  exists c1 c2 M, L = c1 :: c2 :: M /\ i_size f (co_inode c1) = cd_len (co_cd c1) /\ 0 < i_size f (co_inode c2).

(** The part at a position of the first part or at its end, and that there is
    something to read. *)
Lemma part_going_on f L size len pos :
  wf_parts L size -> goes_on f L -> 0 <= pos ->
  (forall c, hd_error L = Some c -> pos <= cd_len (co_cd c) /\ len <= cd_len (co_cd c)) ->
  exists c, part_of L pos = Some c /\ c ∈ L /\ 0 <= pos - cd_start (co_cd c) < i_size f (co_inode c) /\
    forall n, 0 < n <= len -> pos - cd_start (co_cd c) + n <= Z.max (pos - cd_start (co_cd c)) (i_size f (co_inode c)) ->
      forall c0, hd_error L = Some c0 -> pos - cd_start (co_cd c) + n <= cd_len (co_cd c0).
Proof.
  intros Hwf (c1 & c2 & M & -> & G1 & G2) Hp Hhd. destruct (Hhd c1 eq_refl) as [Hpos Hlen].
  pose proof (wf_tiles _ _ Hwf) as Ht. inversion Ht as [| ? ? ? ? Hs1 Hl1 Hb1 Ht2]; subst.
  inversion Ht2 as [| ? ? ? ? Hs2 Hl2 _ _]; subst. rewrite (part_of_holds _ _ _ Hwf) by lia.
  destruct (decide (pos < cd_len (co_cd c1))) as [Hin | Hout].
  - exists c1. split_and!; [| set_solver | lia.. | intros n Hn Hle c0 [= <-]; lia].
    eapply tiles_holds; [exact Ht | set_solver | unfold part_end; lia].
  - exists c2. split_and!; [| set_solver | lia.. | intros n Hn Hle c0 [= <-]; lia].
    eapply tiles_holds; [exact Ht | set_solver | unfold part_end; lia].
Qed.

(** One call returns something and leaves the position in the first part or at
    its end. *)
Lemma read_goes_on s fp p ip hi L size len pos :
  open_file s fp p ip hi L size -> k_oom s = [] -> (length L < fuel)%nat -> goes_on (k_fs s) L -> 0 < len < 2 ^ 31 ->
  k_files s !! fp = Some (mk_file p pos) -> 0 <= pos ->
  (forall c, hd_error L = Some c -> pos <= cd_len (co_cd c) /\ len <= cd_len (co_cd c)) ->
  exists ret data s' pos' hi', sys_read fp len s = (inr (ret, data), s') /\ 0 < ret /\
    open_file s' fp p ip hi' L size /\ k_oom s' = [] /\ goes_on (k_fs s') L /\
    k_files s' !! fp = Some (mk_file p pos') /\ 0 <= pos' /\
    forall c, hd_error L = Some c -> pos' <= cd_len (co_cd c).
Proof.
  intros Hof Ho Hf Hgo Hlen Hfl Hp Hhd. pose proof (proj1 (proj2 (of_wf _ _ _ _ _ _ _ Hof))) as Hwf.
  destruct (part_going_on (k_fs s) L size len pos Hwf Hgo Hp Hhd) as (c & Hpart & Hin & Hoff & Hnext).
  pose proof (tiles_find 0 L size pos (wf_tiles _ _ Hwf) ltac:(lia)) as Ht. unfold part_of in Hpart.
  assert (pos < 2 ^ 63) as Hp63.
  { destruct Hgo as (c1 & c2 & M & -> & _). pose proof (wf_tiles _ _ Hwf) as Hti. inversion Hti; subst.
    destruct (Hhd c1 eq_refl). lia. }
  specialize (Ht ltac:(lia)). rewrite Hpart in Ht.
  assert (total_size (op_spec L (Read len pos) (k_fs s)).2 L < 2 ^ 63) as Htot.
  { unfold op_spec, part_of. simpl. rewrite Hpart. destruct (file_read _ _ _ _) as [[[? ?] ?] f'] eqn:Hr. simpl.
    rewrite (total_size_ext (k_fs s)); [apply Hof |]. intros x. by eapply read_size. }
  pose proof (run_op_spec L size s fp p ip hi fuel junk (Read len pos) Hof Ho Hf (conj (conj Hp Hp63) I) Htot) as Hrun.
  unfold op_spec, part_of in Hrun. simpl in Hrun. rewrite Hpart in Hrun.
  destruct (file_read _ _ _ _) as [[[ret cpos] data] f'] eqn:Hr.
  pose proof (open_dentries _ _ _ _ _ _ _ Hof c Hin) as Hd.
  destruct (read_some _ _ _ _ _ _ _ _ _ Hr Hd Hoff ltac:(lia)) as [Hpos Hcpos].
  destruct (read_bytes _ _ _ _ _ _ _ _ _ Hr Hd ltac:(lia) ltac:(lia)) as (Hret & Hn & Hend & _).
  assert (read_result ret = ret) as Hres.
  { unfold read_result. rewrite s32_small by lia. by rewrite (proj2 (Z.eqb_neq _ _)) by (unfold ENODATA; lia). }
  destruct Hrun as (hi' & s1 & Hrun & Hfs & Ho1 & _ & Hof1 & _). rewrite Hres in Hrun.
  exists ret, data, (set_files (<[fp := mk_file p cpos]> (k_files s1)) s1), cpos, hi'. split_and!.
  - by apply (Hsys s fp p pos len ret cpos data s1).
  - done.
  - by apply open_seek.
  - done.
  - destruct Hgo as (c1 & c2 & M & -> & G1 & G2). exists c1, c2, M. simpl. rewrite Hfs, !(read_size _ _ _ _ _ _ _ Hr). done.
  - simpl. by rewrite lookup_insert_eq.
  - lia.
  - intros c0 Hc0. rewrite Hcpos. apply (Hnext ret); [lia | lia | done].
Qed.

(** C24: reading a file of several parts from its start never comes to an end.
    When the first part is full and the second is not empty, as
    write_pattern leaves them, every one of any number of calls of read(2) from
    position 0 returns something: after a read in the second part the position
    is back in the first. *)
Theorem sequential_reads_never_end s fp p ip hi L size len n :
  open_file s fp p ip hi L size -> k_oom s = [] -> (length L < fuel)%nat -> goes_on (k_fs s) L -> 0 < len < 2 ^ 31 ->
  (forall c, hd_error L = Some c -> len <= cd_len (co_cd c)) -> k_files s !! fp = Some (mk_file p 0) ->
  exists rets s', read_calls n fp len s = (inr rets, s') /\ length rets = n /\ Forall (fun ret => 0 < ret) rets.
Proof.
  intros Hof Ho Hf Hgo Hlen Hle Hfl. assert (0 <= 0) as Hp by lia.
  assert (forall c, hd_error L = Some c -> 0 <= cd_len (co_cd c)) as Hpos.
  { intros c Hc. specialize (Hle c Hc). lia. }
  revert Hp Hpos Hfl. generalize 0 at 2 3 4 as pos. revert s hi Hof Ho Hgo.
  induction n as [|n IH]; intros s hi Hof Ho Hgo pos Hp Hpos Hfl; [by exists [], s |].
  destruct (read_goes_on s fp p ip hi L size len pos) as (ret & data & s1 & pos1 & hi1 & Hrun & Hr & Hof1 & Ho1 & Hgo1 & Hfl1 & Hp1 & Hpos1);
    try done; [by intros c Hc; auto |].
  destruct (IH s1 hi1 Hof1 Ho1 Hgo1 pos1 Hp1 Hpos1 Hfl1) as (rets & s2 & Hrun2 & Hl & Hall).
  exists (ret :: rets), s2. split_and!; [| simpl; by f_equal | by constructor].
  simpl. by rewrite (bind_ok _ _ _ _ _ Hrun), (bind_ok _ _ _ _ _ Hrun2).
Qed.
End reader.
