(* ===== verification/MemFS.v ===== *)
(** * A client file system in memory

    A small file system that obeys the laws the theorems assume of the client
    file systems, so that they can be applied: paths, dentries, inodes with
    their bytes and extended attributes, in finite maps.  Every inode is in
    the cache; a call of fsync always fails with -EIO; no dentry is allocated
    for the empty name. *)

From S2P Require Import Prelude Decimal Client ContData.

Record memfs := mk_memfs {
  m_paths : gmap string (Z * Z);
  m_dentries : gmap Z cino;
  m_xattrs : gmap (cino * string) string;
  m_bytes : gmap cino (list Z);
  m_attrs : gmap cino attr;
}.

Definition no_attr : attr := mk_attr 0 0 0 0 0 0 0 0 0 0.

Definition bytes_of (f : memfs) (i : cino) : list Z := default [] (m_bytes f !! i).

Definition mem_kern_path (f : memfs) (p : string) : Z + (Z * Z) :=
  match m_paths f !! p with
  | Some (m, d) => if d =? 0 then inl ENOENT else inr (m, d)
  | None => inl ENOENT
  end.

Definition mem_getxattr (f : memfs) (i : cino) (n : string) : Z + string :=
  match m_xattrs f !! (i, n) with
  | Some v => if decide (String.length v <= 50)%nat then inr v else inl ERANGE
  | None => inl ENODATA
  end.

Definition mem_setxattr (f : memfs) (i : cino) (n v : string) : Z * memfs :=
  (0, mk_memfs (m_paths f) (m_dentries f) (<[(i, n) := v]> (m_xattrs f)) (m_bytes f) (m_attrs f)).

(** A number above all of those in use. *)
Definition next_dentry (f : memfs) : Z := map_fold (fun d _ a => Z.max (d + 1) a) 1 (m_dentries f).
Definition next_inode (f : memfs) : Z := map_fold (fun _ i a => Z.max (ci_ino_of i + 1) a) 1 (m_dentries f).

(** The file system, and its mount, that a path "/chunk<n>/..." is in. *)
Definition path_fs (p : string) : Z := strtoull (substring 6 (String.length p - 6) p).

Definition mem_open_create (f : memfs) (p : string) : (Z + Z) * memfs :=
  match mem_kern_path f p with
  | inr (_, d) => match m_dentries f !! d with Some _ => (inr d, f) | None => (inl EIO, f) end
  | inl _ =>
      let d := next_dentry f in
      (inr d, mk_memfs (<[p := (path_fs p, d)]> (m_paths f))
                (<[d := (path_fs p, next_inode f)]> (m_dentries f))
                (m_xattrs f) (delete (path_fs p, next_inode f) (m_bytes f)) (m_attrs f))
  end.

Definition mem_file_read (f : memfs) (d len pos : Z) : Z * Z * list Z * memfs :=
  match m_dentries f !! d with
  | None => (- EIO, pos, [], f)
  | Some i =>
      if pos <? 0 then (- EINVAL, pos, [], f) else
      let data := take (Z.to_nat len) (drop (Z.to_nat pos) (bytes_of f i)) in
      (Z.of_nat (length data), pos + Z.of_nat (length data), data, f)
  end.

(** The bytes of a file after [data] is written at [pos]; a hole is zeros. *)
Definition write_bytes (old : list Z) (pos : nat) (data : list Z) : list Z :=
  take pos (old ++ replicate (pos - length old) 0) ++ data ++ drop (pos + length data) old.

Definition mem_file_write (f : memfs) (d : Z) (data : list Z) (pos : Z) : Z * Z * memfs :=
  match m_dentries f !! d with
  | None => (- EIO, pos, f)
  | Some i =>
      if pos <? 0 then (- EINVAL, pos, f) else
      (Z.of_nat (length data), pos + Z.of_nat (length data),
       mk_memfs (m_paths f) (m_dentries f) (m_xattrs f)
         (<[i := write_bytes (bytes_of f i) (Z.to_nat pos) data]> (m_bytes f)) (m_attrs f))
  end.

Definition with_dentry (f : memfs) (d : Z) (i : cino) : memfs :=
  mk_memfs (m_paths f) (<[d := i]> (m_dentries f)) (m_xattrs f) (m_bytes f) (m_attrs f).

Definition without_dentry (f : memfs) (d : Z) : memfs :=
  mk_memfs (m_paths f) (delete d (m_dentries f)) (m_xattrs f) (m_bytes f) (m_attrs f).

(** A new inode on the file system of the directory, unless the dentry has
    one. *)
Definition mem_make (f : memfs) (dir : cino) (d : Z) : Z * memfs :=
  match m_dentries f !! d with
  | Some _ => (EIO, f)
  | None => (0, with_dentry f d (ci_sb_of dir, next_inode f))
  end.

(** The only entry of a directory [(sb, ino)] is the inode [(sb, ino + 1)],
    when some dentry has it; the file system 0 is damaged. *)
Definition mem_lookup (f : memfs) (dir : cino) (d flags : Z) : looked_up * memfs :=
  let i := (ci_sb_of dir, ci_ino_of dir + 1) in
  if ci_sb_of dir =? 0 then (LookupError EIO, f) else
  if existsb (fun x => bool_decide (x.2 = i)) (map_to_list (m_dentries f))
  then (LookupNull, with_dentry f d i) else (LookupNull, f).

(** The only attribute that can be set is the size. *)
Definition mem_truncate (f : memfs) (d : Z) (n : nat) : Z * memfs :=
  match m_dentries f !! d with
  | Some i => (0, mk_memfs (m_paths f) (m_dentries f) (m_xattrs f) (<[i := take n (bytes_of f i)]> (m_bytes f)) (m_attrs f))
  | None => (ENOENT, f)
  end.

#[export] Instance memfs_client : ClientFS := {
  fs := memfs;
  mnt_sb m := m;
  kern_path := mem_kern_path;
  d_inode f d := m_dentries f !! d;
  i_attr f i := default no_attr (m_attrs f !! i);
  i_size f i := Z.of_nat (length (bytes_of f i));
  is_bad_inode _ _ := false;
  iget_locked f _ := Some f;
  getxattr := mem_getxattr;
  setxattr := mem_setxattr;
  open_create := mem_open_create;
  dentry_open f _ d := if decide (is_Some (m_dentries f !! d)) then 0 else ENOENT;
  file_read := mem_file_read;
  file_write := mem_file_write;
  file_fsync f _ _ _ _ := (EIO, f);
  set_attr f i a := mk_memfs (m_paths f) (m_dentries f) (m_xattrs f) (m_bytes f) (<[i := a]> (m_attrs f));
  op_write_inode f _ := (0, f);
  iattr := nat;
  has_setattr _ _ := true;
  op_setattr := mem_truncate;
  inode_change_ok _ _ _ := 0;
  security_inode_setattr _ _ _ := 0;
  setattr_copy f _ _ := f;
  has_permission _ _ := false;
  op_permission _ _ _ := 0;
  generic_permission _ _ _ := 0;
  d_alloc_name f _ n := (if decide (n = "") then None else Some (next_dentry f), f);
  op_lookup := mem_lookup;
  op_create f dir d _ _ := mem_make f dir d;
  op_link f old dir new :=
    match m_dentries f !! old with Some i => (0, with_dentry f new i) | None => (ENOENT, f) end;
  op_unlink f dir d := (0, without_dentry f d);
  op_symlink f dir d _ := mem_make f dir d;
  op_mkdir f dir d _ := mem_make f dir d;
  op_rmdir f dir d := (0, without_dentry f d);
  op_mknod f dir d _ _ := mem_make f dir d;
  op_readlink f _ _ := (0, [], f);
  op_follow_link f _ nd := (0, nd, f);
  has_put_link _ _ := false;
  op_put_link f _ nd _ := (nd, f);
  file_llseek f _ _ offset _ := (offset, offset, f);
  file_iterate f _ pos := (0, pos, [], f);
}.

(** ** The laws *)

Lemma mem_path_dentry f p m d : mem_kern_path f p = inr (m, d) -> d <> 0.
Proof.
  unfold mem_kern_path. destruct (m_paths f !! p) as [[m' d']|]; [| done].
  destruct (Z.eqb_spec d' 0); [done |]. by intros [= <- <-].
Qed.

#[export] Instance memfs_laws : ClientLaws.
Proof.
  split; cbn; unfold mem_setxattr, mem_getxattr.
  - intros f i n v f' [= <-] Hl. cbn. by rewrite lookup_insert_eq, decide_True.
  - intros f i n v e f' j m [= <- <-] Hne. cbn. by rewrite lookup_insert_ne by congruence.
  - by intros f i n v e f' p [= <- <-].
  - by intros f i n v e f' d [= <- <-].
  - by intros f i n v e f' j [= <- <-].
  - by intros f i n v e f' j [= <- <-].
  - by intros f i n v e f' j [= <- <-].
  - by intros f i n v e f' m d [= <- <-].
  - exact mem_path_dentry.
Qed.

#[export] Instance memfs_xattrs : ClientXattrs.
Proof. intros f i n v _. by eexists. Qed.

Lemma next_dentry_above f d i : m_dentries f !! d = Some i -> d < next_dentry f.
Proof.
  unfold next_dentry. revert d i.
  apply (map_fold_weak_ind (fun (a : Z) (m : gmap Z cino) => forall d i, m !! d = Some i -> d < a)).
  - intros d i Hd. by rewrite lookup_empty in Hd.
  - intros d0 i0 m a Hnew IH d i Hd. apply lookup_insert_Some in Hd as [[<- _] | [_ Hd]]; [lia |].
    specialize (IH _ _ Hd). lia.
Qed.

Lemma next_dentry_pos f : 0 < next_dentry f.
Proof.
  unfold next_dentry.
  apply (map_fold_weak_ind (fun (a : Z) (_ : gmap Z cino) => 0 < a)); [lia |]. intros. lia.
Qed.

Lemma next_inode_above f d i : m_dentries f !! d = Some i -> ci_ino_of i < next_inode f.
Proof.
  unfold next_inode. revert d i.
  apply (map_fold_weak_ind (fun (a : Z) (m : gmap Z cino) => forall d i, m !! d = Some i -> ci_ino_of i < a)).
  - intros d i Hd. by rewrite lookup_empty in Hd.
  - intros d0 i0 m a Hnew IH d i Hd. apply lookup_insert_Some in Hd as [[_ <-] | [_ Hd]]; [lia |].
    specialize (IH _ _ Hd). lia.
Qed.

Lemma path_here f p d i m x b a :
  d <> 0 -> mem_kern_path (mk_memfs (<[p := (m, d)]> (m_paths f)) i x b a) p = inr (m, d).
Proof.
  intros Hd. unfold mem_kern_path. cbn. rewrite lookup_insert_eq.
  by rewrite (proj2 (Z.eqb_neq d 0) Hd).
Qed.

#[export] Instance memfs_create_laws : ClientCreateLaws.
Proof.
  assert (forall f, m_dentries f !! next_dentry f = None) as Hfresh.
  { intros f. destruct (m_dentries f !! next_dentry f) eqn:He; [| done].
    apply next_dentry_above in He. lia. }
  split; cbn; unfold mem_open_create.
  - intros f p d f'. destruct (mem_kern_path f p) as [e | [m d0]] eqn:Hp.
    + intros [= <- <-]. pose proof (next_dentry_pos f) as Hpos. split; [lia |]. eexists.
      apply path_here. lia.
    + destruct (m_dentries f !! d0); [| done]. intros [= <- <-]. split; [by eapply mem_path_dentry | eauto].
  - intros f p r f' q. destruct (mem_kern_path f p) as [e | [m d0]].
    + intros [= <- <-] Hne. unfold mem_kern_path. cbn. by rewrite lookup_insert_ne.
    + by destruct (m_dentries f !! d0); intros [= <- <-].
  - intros f p d f'. destruct (mem_kern_path f p) as [e | [m d0]].
    + intros [= <- <-]. eexists. cbn. by rewrite lookup_insert_eq.
    + destruct (m_dentries f !! d0) eqn:Hd; [| done]. intros [= <- <-]. eauto.
  - intros f p d f' e i d' Hr Hp. rewrite Hp in Hr. injection Hr as <- <-. cbn.
    rewrite lookup_insert_eq. intros [= <-] Hd'. apply next_inode_above in Hd'. cbn in Hd'. lia.
  - intros f p r f' d j. destruct (mem_kern_path f p) as [e | [m d0]].
    + intros [= <- <-] Hd. cbn. rewrite lookup_insert_ne; [done |]. intros He. subst.
      by rewrite Hfresh in Hd.
    + by destruct (m_dentries f !! d0); intros [= <- <-].
  - intros f p r f' d j n. destruct (mem_kern_path f p) as [e | [m d0]].
    + by intros [= <- <-].
    + by destruct (m_dentries f !! d0); intros [= <- <-].
Qed.

#[export] Instance memfs_cache_laws : ClientCacheLaws.
Proof.
  split; cbn; unfold mem_open_create.
  - intros f p d f' i _ Hi. split_and!; [done | done |]. intros _. by rewrite Hi.
  - intros f p d f' e i Hr Hp Hi. rewrite Hp in Hr. injection Hr as <- <-. cbn in Hi.
    rewrite lookup_insert_eq in Hi. injection Hi as <-. unfold bytes_of. cbn. by rewrite lookup_delete_eq.
  - intros f p r f' d j Hr Hd.
    assert (bytes_of f' j = bytes_of f j /\ m_dentries f' !! d = Some j) as [Hb Hk].
    { destruct (mem_kern_path f p) as [e | [m d0]].
      - injection Hr as <- <-. unfold bytes_of. cbn. split.
        + rewrite lookup_delete_ne; [done |]. intros <-. apply next_inode_above in Hd. cbn in Hd. lia.
        + rewrite lookup_insert_ne; [done |]. intros He. subst. apply next_dentry_above in Hd. lia.
      - by destruct (m_dentries f !! d0); injection Hr as <- <-. }
    split_and!; [done | done | by rewrite Hb |]. intros _. by rewrite Hk, Hd.
Qed.

#[export] Instance memfs_io_laws : ClientIoLaws.
Proof.
  assert (forall f, io_keeps f f) as Hrefl by (intros f; by split).
  split; cbn; unfold mem_file_read, mem_file_write.
  - intros f d len pos r f'. destruct (m_dentries f !! d); [destruct (pos <? 0) |]; intros [= <- <-]; done.
  - intros f d len pos r f' i. destruct (m_dentries f !! d); [destruct (pos <? 0) |]; intros [= <- <-]; done.
  - intros f d data pos r f'. destruct (m_dentries f !! d); [destruct (pos <? 0) |]; intros [= <- <-]; [done | | done].
    by split.
  - intros f d data pos r f' i. destruct (m_dentries f !! d) as [j|]; [destruct (pos <? 0) |];
      intros [= <- <-] Hne; [done | | done].
    unfold bytes_of. cbn. rewrite lookup_insert_ne; [done |]. congruence.
  - intros. lia.
  - intros f d start stop ds e f' [= <- <-]. done.
Qed.

(** ** Bytes *)

Definition mem_byte (f : memfs) (i : cino) (k : Z) : Z :=
  if k <? 0 then 0 else default 0 (bytes_of f i !! Z.to_nat k).

Lemma mem_byte_nat f i k : 0 <= k -> mem_byte f i k = default 0 (bytes_of f i !! Z.to_nat k).
Proof. intros Hk. unfold mem_byte. by rewrite (proj2 (Z.ltb_ge k 0) Hk). Qed.

Lemma write_bytes_length old pos data :
  (length (write_bytes old pos data) <= length old `max` (pos + length data))%nat.
Proof.
  unfold write_bytes. rewrite !length_app, length_take, length_app, length_replicate, length_drop. lia.
Qed.

Lemma write_bytes_in old pos data k :
  (pos <= k < pos + length data)%nat -> write_bytes old pos data !! k = data !! (k - pos)%nat.
Proof.
  intros Hk. assert (length (take pos (old ++ replicate (pos - length old) 0)) = pos) as Hl.
  { rewrite length_take, length_app, length_replicate. lia. }
  unfold write_bytes. rewrite lookup_app_r by lia. rewrite Hl. apply lookup_app_l. lia.
Qed.

(** Outside the range written, a byte is what it was; a hole is zeros. *)
Lemma write_bytes_out old pos data k :
  ~ (pos <= k < pos + length data)%nat -> default 0 (write_bytes old pos data !! k) = default 0 (old !! k).
Proof.
  intros Hk. assert (length (take pos (old ++ replicate (pos - length old) 0)) = pos) as Hl.
  { rewrite length_take, length_app, length_replicate. lia. }
  unfold write_bytes. destruct (decide (k < pos)%nat) as [Hlt | Hge].
  - rewrite lookup_app_l by lia. rewrite lookup_take_lt by done.
    destruct (decide (k < length old)%nat); [by rewrite lookup_app_l by lia |].
    rewrite lookup_app_r by lia. rewrite (lookup_ge_None_2 old) by lia.
    by destruct (replicate _ _ !! _) as [z|] eqn:Hz; [apply lookup_replicate_1 in Hz as [-> _] |].
  - rewrite lookup_app_r by lia. rewrite Hl, lookup_app_r by lia. rewrite lookup_drop. do 2 f_equal. lia.
Qed.

#[export] Instance memfs_bytes : ClientBytes.
Proof.
  refine {| byte := mem_byte |}; cbn; unfold mem_file_read, mem_file_write.
  - intros f d i len pos ret cpos data f' Hrd Hi Hpos Hlen.
    rewrite Hi, (proj2 (Z.ltb_ge pos 0) Hpos) in Hrd. injection Hrd as <- _ <- <-.
    rewrite length_take, length_drop. split_and!; [lia.. |].
    intros k b Hk. pose proof (lookup_lt_Some _ _ _ Hk) as Hlt. rewrite length_take in Hlt.
    rewrite lookup_take_lt, lookup_drop in Hk by lia. rewrite mem_byte_nat by lia.
    by replace (Z.to_nat (pos + Z.of_nat k)) with (Z.to_nat pos + k)%nat by lia; rewrite Hk.
  - intros f d len pos r f' j k. destruct (m_dentries f !! d); [destruct (pos <? 0) |]; by intros [= <- <-].
  - intros f d i data pos ret cpos f' Hwr Hi Hpos.
    rewrite Hi, (proj2 (Z.ltb_ge pos 0) Hpos) in Hwr. injection Hwr as <- _ <-.
    unfold bytes_of at 1. cbn. rewrite lookup_insert_eq. cbn. split_and!.
    + lia.
    + pose proof (write_bytes_length (bytes_of f i) (Z.to_nat pos) data). lia.
    + intros k Hk. rewrite mem_byte_nat by lia. unfold bytes_of. cbn. rewrite lookup_insert_eq. cbn.
      rewrite write_bytes_in by lia. replace (Z.to_nat (k - pos)) with (Z.to_nat k - Z.to_nat pos)%nat by lia.
      destruct (data !! _) eqn:Hd; [done |]. apply lookup_ge_None in Hd. lia.
    + intros _ k Hk. rewrite !mem_byte_nat by lia. unfold bytes_of at 1. cbn. rewrite lookup_insert_eq. cbn.
      apply write_bytes_out. lia.
  - intros f d i data pos r f' j k Hwr Hi Hk. rewrite Hi in Hwr.
    destruct (Z.ltb_spec pos 0) as [| Hpos]; injection Hwr as <- <-; [done |].
    unfold mem_byte, bytes_of at 1. cbn. case_match eqn:Hk0; [done |]. apply Z.ltb_ge in Hk0.
    destruct (decide (j = i)) as [-> | Hne].
    + rewrite lookup_insert_eq. cbn. apply write_bytes_out. intros Hr. apply Hk. split; [done | lia].
    + by rewrite lookup_insert_ne by congruence.
Defined.

#[export] Instance memfs_reopen : ClientReopenLaws.
Proof.
  split; cbn; unfold mem_open_create.
  - intros f p m d d' f' Hp. rewrite Hp. destruct (m_dentries f !! d); [| done]. by intros [= <- <-].
  - intros f p r f' d j k Hr Hd. destruct (mem_kern_path f p) as [e | [m d0]].
    + injection Hr as <- <-. unfold mem_byte, bytes_of. cbn. rewrite lookup_delete_ne; [done |].
      intros <-. apply next_inode_above in Hd. cbn in Hd. lia.
    + by destruct (m_dentries f !! d0); injection Hr as <- <-.
  - by intros f i n v e f' j k [= <- <-].
Qed.

#[export] Instance memfs_errors : ClientErrors.
Proof.
  intros f i n e. cbn. unfold mem_getxattr. destruct (m_xattrs f !! (i, n)); [case_decide |]; by intros [= <-].
Qed.

#[export] Instance memfs_zeros : ClientZeros.
Proof.
  intros f i k Hk. cbn in *. unfold mem_byte. case_match; [done |].
  by rewrite (lookup_ge_None_2 (bytes_of f i)) by lia.
Qed.

#[export] Instance memfs_room : ClientRoom.
Proof.
  intros f d i data pos r cpos f' Hwr Hi Hpos. cbn in *. unfold mem_file_write in Hwr.
  rewrite Hi, (proj2 (Z.ltb_ge pos 0) Hpos) in Hwr. by injection Hwr as <- <- _.
Qed.

#[export] Instance memfs_readable : ClientReadable.
Proof.
  intros f d i len pos r cpos data f' Hrd Hi Hpos Hlen. cbn in *. unfold mem_file_read in Hrd.
  rewrite Hi, (proj2 (Z.ltb_ge pos 0)) in Hrd by lia. injection Hrd as <- <- _ _.
  rewrite length_take, length_drop. lia.
Qed.
