(* ===== verification/MountExamples.v ===== *)
(** * Mounts of concrete devices

    The theorems about reading the pool, applied: to the image mkfs writes on
    the 32 MiB file of test.sh, and to images no mkfs writes.  The client
    file systems are in memory, mounted where test.sh mounts them. *)

From S2P Require Import Prelude Monad Bytes OnDisk Device Decimal Client ContData MemFS Kernel KernelFacts Mkfs MkfsSpec MkfsProps Pool PoolProps MountProps Verdict Uino Cont Inode File Namei Super Chain Append NameiProps SuperProps Judge Module ModuleProps.

#[local] Existing Instance little_endian_host.

(** A kernel with debugging checks of its mutexes. *)
Definition checked_mutexes : Mutexes := {| counts_strays := false |}.
#[local] Existing Instance checked_mutexes.

(** Three client file systems; the root of chunk [k] is the dentry [100 + k],
    the directory /root of chunk 1 the dentry [50]. *)
Definition three_clients : memfs :=
  mk_memfs (<[root_path := (1, 50)]> (list_to_map (map (fun k => (mount_path k, (k, 100 + k))) [1; 2; 3])))
    (<[50 := (1, 12)]> (list_to_map (map (fun k => (100 + k, (k, 2))) [1; 2; 3]))) ∅ ∅ ∅.

Definition device_state (data : Z -> Z) (bad : Z -> bool) : kstate :=
  mk_kstate _ three_clients data bad [] 0 0 0 0 ∅ ∅ None ∅ ∅ ∅
    (mk_locks 1 ∅) ∅ None.

Lemma client_mounted k : 1 <= k <= 3 -> exists d, kern_path three_clients (mount_path k) = inr (k, d).
Proof.
  intros Hk. exists (100 + k). assert (k = 1 \/ k = 2 \/ k = 3) as [-> | [-> | ->]] by lia; reflexivity.
Qed.

Definition all_readable : Z -> bool := fun _ => false.

(** ** The image of mkfs *)

Definition mkfs_state : kstate :=
  device_state (apply_blocks (fun _ => 53) (mkfs_blocks test_size)) all_readable.

Lemma mkfs_state_formatted : formatted (k_data mkfs_state) test_size.
Proof. apply mkfs_blocks_formatted. unfold test_size. lia. Qed.

Lemma three_chunks : nchunks test_size = 3.
Proof. reflexivity. Qed.

Lemma three_mounted : clients_mounted (k_fs mkfs_state) (nchunks test_size) (fun k => k).
Proof. intros k Hk. rewrite three_chunks in Hk. by apply client_mounted. Qed.

Lemma mkfs_state_mounts :
  exists s', chunkfs_read_pool 4 mkfs_state = (inr (mounted_pool (fun k => k) 3), s').
Proof.
  destruct (mount_mkfs_run eq_refl 4 mkfs_state test_size (fun k => k)) as (s' & Hrun & _).
  - exact mkfs_state_formatted.
  - done.
  - done.
  - exact three_mounted.
  - unfold test_size. lia.
  - rewrite three_chunks. lia.
  - rewrite three_chunks. unfold test_size, chunk_pos, chunk_base. done.
  - rewrite three_chunks. lia.
  - by exists s'.
Qed.

Lemma mount_mkfs_image_witness :
  (exists s', chunkfs_read_pool 4 mkfs_state = (inr (mounted_pool (fun k => k) 3), s') /\
     delta 5 5 3 mkfs_state s') /\
  forall id, chunkfs_find_chunk (mounted_pool (fun k => k) 3) id =
    if decide (1 <= id <= 3) then Some (mounted_chunk (fun k => k) id) else None.
Proof.
  apply (mount_mkfs_image eq_refl 4 mkfs_state test_size (fun k => k)).
  - exact mkfs_state_formatted.
  - done.
  - done.
  - exact three_mounted.
  - unfold test_size. lia.
  - rewrite three_chunks. lia.
  - rewrite three_chunks. unfold test_size, chunk_pos, chunk_base. done.
  - rewrite three_chunks. lia.
Defined.

Lemma mount_unmount_balanced_witness :
  exists pi s1 s2, chunkfs_read_pool 4 mkfs_state = (inr pi, s1) /\
    chunkfs_free_pool pi s1 = (inr tt, s2) /\ delta 0 0 0 mkfs_state s2.
Proof.
  destruct mkfs_state_mounts as [s1 Hrun]. exists (mounted_pool (fun k => k) 3), s1.
  destruct (mount_unmount_balanced 4 mkfs_state (mounted_pool (fun k => k) 3) s1 Hrun) as (s2 & H1 & H2).
  exists s2. exact (conj Hrun (conj H1 H2)).
Defined.

Lemma three_root : root_there three_clients (fun k => k) 1 50.
Proof. by split. Qed.

Lemma fill_super_mkfs_witness :
  exists root s', chunkfs_fill_super 4 no_attr true false mkfs_state = (inr root, s') /\
    k_pool s' = Some (mounted_pool (fun k => k) 3) /\
    wf_file s' root [only_part (mounted_chunk (fun k => k) 1) 1 50 (1, 12)] CONT_LEN /\
    k_kmem s' = 9 /\ k_bh s' = 5 /\ k_mnt s' = 4 /\
    forall i, count (k_iref s') i = count (k_iref mkfs_state) i.
Proof.
  apply (fill_super_mkfs eq_refl 4 no_attr false mkfs_state test_size (fun k => k) 1 50).
  - exact mkfs_state_formatted.
  - done.
  - done.
  - exact three_mounted.
  - exact three_root.
  - unfold test_size. lia.
  - rewrite three_chunks. lia.
  - rewrite three_chunks. unfold test_size, chunk_pos, chunk_base. done.
  - rewrite three_chunks. lia.
Defined.

Lemma sync_blocks_after_mount_witness :
  exists s1 s2, chunkfs_fill_super 4 no_attr false false mkfs_state = (inl (Errno EINVAL), s1) /\
    lk_kernel (k_locks s1) = 0 /\ chunkfs_write_super s1 = (inl Blocked, s2).
Proof.
  eexists _, _. split; [reflexivity |].
  by apply (sync_blocks_after_mount 4 no_attr false false mkfs_state (inl (Errno EINVAL))).
Defined.

Lemma umount_writable_blocks_witness :
  exists root ip s1 s2, chunkfs_fill_super 4 no_attr true false mkfs_state = (inr root, s1) /\
    (exists de, k_dentries s1 !! root = Some de /\ de_inode de = Some ip) /\
    shutdown_super root ip false s1 = (inl Blocked, s2) /\
    k_pool s2 = Some (mounted_pool (fun k => k) 3) /\ k_bh s2 = 5.
Proof.
  apply (umount_writable_blocks eq_refl 4 no_attr mkfs_state test_size (fun k => k) 1 50).
  - done.
  - exact mkfs_state_formatted.
  - done.
  - done.
  - exact three_mounted.
  - exact three_root.
  - unfold test_size. lia.
  - rewrite three_chunks. lia.
  - rewrite three_chunks. unfold test_size, chunk_pos, chunk_base. done.
  - rewrite three_chunks. lia.
  - done.
Defined.

Lemma mount_umount_witness :
  exists root ip s1 s2, chunkfs_fill_super 4 no_attr true true mkfs_state = (inr root, s1) /\
    (exists de, k_dentries s1 !! root = Some de /\ de_inode de = Some ip) /\
    shutdown_super root ip true s1 = (inr tt, s2) /\
    k_pool s2 = None /\ k_kmem s2 = 0 /\ k_bh s2 = 0 /\ k_mnt s2 = 0 /\
    (forall x, count (k_dref s2) x = count (k_dref mkfs_state) x) /\
    forall i, count (k_iref s2) i = count (k_iref mkfs_state) i - if decide (i = (1, 12)) then 1 else 0.
Proof.
  apply (mount_umount eq_refl 4 no_attr mkfs_state test_size (fun k => k) 1 50).
  - exact mkfs_state_formatted.
  - done.
  - done.
  - exact three_mounted.
  - exact three_root.
  - unfold test_size. lia.
  - rewrite three_chunks. lia.
  - rewrite three_chunks. unfold test_size, chunk_pos, chunk_base. done.
  - rewrite three_chunks. lia.
  - done.
Defined.

(** A device that cannot be read at all. *)
Lemma read_pool_error_keeps_nothing_witness :
  let s := device_state (fun _ => 0) (fun _ => true) in
  exists s', chunkfs_read_pool 4 s = (inl (Errno EIO), s') /\ delta 0 0 0 s s'.
Proof.
  intros s. eexists. split; [reflexivity |].
  apply (read_pool_error_keeps_nothing 4 s EIO). reflexivity.
Defined.

(** The image of a mkfs run on a big-endian machine. *)
(** The module loaded, and a device whose pool summary cannot be read. *)
Definition loaded (s : kstate) : module := mk_module s true true 0 false.

Definition unreadable_pool : kstate :=
  device_state (apply_blocks (fun _ => 53) (mkfs_blocks test_size)) (fun blk => blk =? CHUNKFS_POOL_BLK).

Definition refused : kstate := locked (set_oom [] unreadable_pool).

Lemma failed_mount_keeps_nothing_witness :
  chunkfs_mount 4 no_attr 0 true false (loaded unreadable_pool) = (inl (Errno EIO), loaded refused) /\
  delta 0 0 0 (locked unreadable_pool) refused /\ m_opens (loaded refused) = 0 /\
  m_bd_super (loaded refused) = false /\ m_registered (loaded refused) = true /\ m_cache (loaded refused) = true.
Proof.
  split; [reflexivity |].
  apply (failed_mount_keeps_nothing 4 no_attr 0 true false (loaded unreadable_pool) EIO (loaded refused)); reflexivity.
Defined.

Lemma mount_big_endian_witness :
  let s := device_state (apply_blocks (fun _ => 53) (mkfs_blocks (H := big_endian_host) test_size)) all_readable in
  exists s', chunkfs_read_pool (H := big_endian_host) 4 s = (inl (Errno EIO), s') /\ delta 0 0 0 s s'.
Proof.
  intros s. apply (mount_big_endian (H := big_endian_host) 4 s test_size); [done | | done].
  apply mkfs_blocks_formatted. unfold test_size. lia.
Defined.

(** ** Images no mkfs writes *)

Definition chunk_entry (k flags next : Z) : chunkfs_chunk :=
  mk_chunk CHUNKFS_CHUNK_MAGIC CHKSUM flags k 0 0 0 0 next (zeros CHUNKFS_CLIENT_NAME_LEN).

Lemma chunk_entry_typed k flags next :
  1 <= k <= 3 -> is_u64 flags -> is_u64 next -> typed (chunk_entry k flags next).
Proof.
  intros Hk Hf Hn. split_and!; try apply zeros_u8; try done; unfold is_u64; cbn; lia.
Qed.

(** Two chunk summaries with the given flags and links. *)
Definition two_chunk_blocks (flags1 next1 flags2 next2 : Z) : list (Z * list Z) :=
  [(CHUNKFS_POOL_OFFSET, block_image (pool_to_mem spec_pool));
   (CHUNKFS_DEV_OFFSET, block_image (dev_to_mem (spec_dev test_size)));
   (chunk_pos 1, block_image (chunk_to_mem (chunk_entry 1 flags1 next1)));
   (chunk_pos 2, block_image (chunk_to_mem (chunk_entry 2 flags2 next2)))].

Definition two_chunks (flags1 next1 flags2 next2 : Z) : kstate :=
  device_state (apply_blocks (fun _ => 0) (two_chunk_blocks flags1 next1 flags2 next2)) all_readable.

Lemma two_chunk_ascending f1 n1 f2 n2 : ascending 0 (two_chunk_blocks f1 n1 f2 n2).
Proof.
  assert (forall k f n, Z.of_nat (length (block_image (chunk_to_mem (chunk_entry k f n)))) = CHUNKFS_BLK_SIZE) as Hc.
  { intros k f n. apply length_block_image. unfold chunk_to_mem.
    rewrite !length_app, !length_mem_word. change (length (c_client_fs _)) with 32%nat. lia. }
  simpl. split_and!; try done; apply Hc.
Qed.

Lemma two_chunk_block f1 n1 f2 n2 off blk :
  (off, blk) ∈ two_chunk_blocks f1 n1 f2 n2 -> off mod CHUNKFS_BLK_SIZE = 0 ->
  block_at (k_data (two_chunks f1 n1 f2 n2)) (off / CHUNKFS_BLK_SIZE) = blk.
Proof.
  intros Hin Hal. pose proof (two_chunk_ascending f1 n1 f2 n2) as Hasc.
  destruct (ascending_lower _ _ _ _ Hasc Hin) as [_ Hl].
  unfold two_chunks. cbn [k_data device_state].
  rewrite (block_at_read _ _ (length blk)) by done. by eapply apply_blocks_read.
Qed.

Lemma two_chunk_summaries f1 n1 f2 n2 : summaries_on (two_chunks f1 n1 f2 n2) (chunk_pos 1).
Proof.
  assert (block_at (k_data (two_chunks f1 n1 f2 n2)) CHUNKFS_DEV_BLK =
    block_image (dev_to_mem (spec_dev test_size))) as Hdev.
  { apply (two_chunk_block f1 n1 f2 n2 CHUNKFS_DEV_OFFSET); [right; left | done]. }
  assert (typed (spec_dev test_size)) as Ht by (apply spec_dev_typed; unfold test_size; lia).
  split; [done | split; [done |] | split; [done |] |].
  - assert (block_at (k_data (two_chunks f1 n1 f2 n2)) CHUNKFS_POOL_BLK =
      block_image (pool_to_mem spec_pool)) as ->
      by (apply (two_chunk_block f1 n1 f2 n2 CHUNKFS_POOL_OFFSET); [left | done]).
    unfold block_image. rewrite check_pool_value by apply spec_pool_typed. reflexivity.
  - rewrite Hdev. unfold block_image. by apply check_dev_ok.
  - rewrite Hdev. unfold block_image. by rewrite dev_of_to.
Qed.

Lemma two_chunk_on f1 n1 f2 n2 k f n :
  (k = 1 /\ f = f1 /\ n = n1) \/ (k = 2 /\ f = f2 /\ n = n2) -> is_u64 f -> is_u64 n ->
  chunk_on (two_chunks f1 n1 f2 n2) (chunk_pos k) (chunk_entry k f n) k.
Proof.
  intros Hk Hf Hn. assert (1 <= k <= 3) as Hk3 by lia. split.
  - done.
  - eexists. apply (two_chunk_block f1 n1 f2 n2 (chunk_pos k)).
    + destruct Hk as [(-> & -> & ->) | (-> & -> & ->)]; [right; right; left | right; right; right; left].
    + by destruct Hk as [(-> & _) | (-> & _)].
  - by apply chunk_entry_typed.
  - done.
  - done.
  - change (cpu_to_le64 _) with k. lia.
  - change (cpu_to_le64 _) with k. by apply client_mounted.
Qed.

(** Two chunks, neither of them flagged. *)
Lemma mount_without_root_witness :
  (chunkfs_read_pool 3 (two_chunks 0 (chunk_pos 2) 0 0)).1 = inl Undef.
Proof.
  apply (mount_without_root 3 _ (chunk_pos 1)
    [(chunk_pos 1, chunk_entry 1 0 (chunk_pos 2), 1); (chunk_pos 2, chunk_entry 2 0 0, 2)]).
  - apply two_chunk_summaries.
  - apply links_cons; [done | apply two_chunk_on; [auto | unfold is_u64; lia | split; done] | done |].
    apply links_cons; [done | apply two_chunk_on; [auto | split; done | split; done] | done |].
    apply links_nil.
  - done.
  - simpl. lia.
Defined.

(** Two chunks, both flagged. *)
Lemma mount_two_roots_witness :
  (chunkfs_read_pool 3 (two_chunks CHUNKFS_ROOT (chunk_pos 2) CHUNKFS_ROOT 0)).1 = inl Bug.
Proof.
  apply (mount_two_roots 3 _ (chunk_pos 1) (chunk_entry 1 CHUNKFS_ROOT (chunk_pos 2)) 1
    (chunk_entry 2 CHUNKFS_ROOT 0) 2).
  - apply two_chunk_summaries.
  - done.
  - apply two_chunk_on; [auto | split; done | split; done].
  - done.
  - done.
  - apply two_chunk_on; [auto | split; done | split; done].
  - done.
  - lia.
Defined.

(** The second chunk is linked to itself. *)
Lemma mount_cycle_witness :
  (chunkfs_read_pool 1000 (two_chunks 0 (chunk_pos 2) 0 (chunk_pos 2))).1 = inl NoFuel.
Proof.
  apply (mount_cycle 1000 _ (chunk_pos 1) [(chunk_pos 1, chunk_entry 1 0 (chunk_pos 2), 1)] (chunk_pos 2)
    [(chunk_pos 2, chunk_entry 2 0 (chunk_pos 2), 2)]).
  - apply two_chunk_summaries.
  - apply links_cons; [done | apply two_chunk_on; [auto | split; done | split; done] | done |].
    apply links_nil.
  - apply links_cons; [done | apply two_chunk_on; [auto | split; done | split; done] | done |].
    apply links_nil.
  - done.
Defined.

(** Two chunks and what follows them, under the reference. *)
Lemma two_chunk_linked f1 f2 n2 :
  is_u64 f1 -> is_u64 f2 -> is_u64 n2 ->
  chunks_linked (two_chunks f1 (chunk_pos 2) f2 n2) (chunk_pos 1)
    [(chunk_pos 1, chunk_entry 1 f1 (chunk_pos 2), 1); (chunk_pos 2, chunk_entry 2 f2 n2, 2)] n2.
Proof.
  intros H1 H2 Hn. apply chunks_cons; [done | apply two_chunk_on; [auto | done | split; done] |].
  apply chunks_cons; [done | by apply two_chunk_on; [auto | |] |]. apply chunks_nil.
Qed.

Lemma read_pool_verdict_witness :
  (exists root, (chunkfs_read_pool 3 (two_chunks CHUNKFS_ROOT (chunk_pos 2) 0 0)).1 =
     inr (pool_of (two_chunks CHUNKFS_ROOT (chunk_pos 2) 0 0)
       (infos [(chunk_pos 1, chunk_entry 1 CHUNKFS_ROOT (chunk_pos 2), 1); (chunk_pos 2, chunk_entry 2 0 0, 2)]) root) /\
     ci_chunk_id root = 1) /\
  (chunkfs_read_pool 3 (two_chunks 0 (chunk_pos 2) 0 0)).1 = inl Undef /\
  (chunkfs_read_pool 3 (two_chunks CHUNKFS_ROOT (chunk_pos 2) CHUNKFS_ROOT (chunk_pos 3))).1 = inl Bug /\
  (chunkfs_read_pool 3 (two_chunks CHUNKFS_ROOT (chunk_pos 2) 0 (chunk_pos 3))).1 = inl (Errno EIO).
Proof.
  split_and!; [eexists; split | | |].
  - etransitivity; [eapply (read_pool_verdict 3); [apply two_chunk_summaries | by apply two_chunk_linked | apply end_zero |
      simpl; lia] | reflexivity].
  - reflexivity.
  - etransitivity; [eapply (read_pool_verdict 3); [apply two_chunk_summaries | by apply two_chunk_linked | apply end_zero |
      simpl; lia] | reflexivity].
  - etransitivity; [eapply (read_pool_verdict 3); [apply two_chunk_summaries | by apply two_chunk_linked |
      apply end_invalid; [done | done | vm_compute; discriminate] | simpl; lia] | reflexivity].
  - etransitivity; [eapply (read_pool_verdict 3); [apply two_chunk_summaries | by apply two_chunk_linked |
      apply end_invalid; [done | done | vm_compute; discriminate] | simpl; lia] | reflexivity].
Defined.
