(* ===== verification/FileExamples.v ===== *)
(** * A file in two chunks

    The theorems about continuations, inodes and files, applied to a file
    with parts in chunks 1 and 2 of the mount of the 32 MiB image, on the
    client file systems in memory. *)

From S2P Require Import Prelude Monad Bytes OnDisk Device Decimal Client Kernel KernelFacts Pool PoolProps MountProps Uino Cont Inode File ContData Chain Append InodeProps FileProps Grow Session Flat MemFS.

(** ** The file *)

Definition uino1 : Z := MAKE_UINO 1 12.
Definition uino2 : Z := MAKE_UINO 2 15.

Definition cd1 : chunkfs_cont_data := mk_cd uino2 0 0 CONT_LEN.
Definition cd2 : chunkfs_cont_data := mk_cd 0 uino1 CONT_LEN CONT_LEN.

Definition part1 : chunkfs_continuation := mk_cont (1, 12) 11 1 cd1 1 uino1.
Definition part2 : chunkfs_continuation := mk_cont (2, 15) 22 2 cd2 2 uino2.

(** The attributes of an inode, as [set_cont_data] writes them. *)
Definition cd_attrs (i : cino) (cd : chunkfs_cont_data) : list (cino * string * string) :=
  let text x := print_llu x +:+ String NUL "" in
  [((i, "user.next"), text (cd_next cd)); ((i, "user.prev"), text (cd_prev cd));
   ((i, "user.start"), text (cd_start cd)); ((i, "user.len"), text (cd_len cd))].

Definition two_part_fs : memfs :=
  mk_memfs {[ "/chunk2/1/12" := (2, 22) ]} {[ 11 := (1, 12); 22 := (2, 15) ]}
    (list_to_map (cd_attrs (1, 12) cd1 ++ cd_attrs (2, 15) cd2))
    {[ (1, 12) := [104; 101; 97; 100]; (2, 15) := [116; 97; 105; 108; 33] ]} ∅.

Definition head_inode : inode := mk_inode uino1 0 no_attr FileIops FileFops (Some (1, 12)).
Definition no_nd : nameidata := mk_nd 0 0 0 0 0 ∅.

Definition two_parts : kstate :=
  mk_kstate _ two_part_fs (fun _ => 0) (fun _ => false) [] 0 0 0 0 ∅ ∅
    (Some (mounted_pool (fun k => k) 3)) {[ 1 := head_inode ]}
    {[ 1 := mk_dentry (Some 1) "file" 0 (Some (mk_dpriv 11 no_nd)) true ]} {[ 1 := mk_file 1 0 ]}
    (mk_locks 0 ∅) ∅ None.

Lemma cd_attrs_has f i cd :
  m_xattrs f !! (i, "user.next") = Some (print_llu (cd_next cd) +:+ String NUL "") ->
  m_xattrs f !! (i, "user.prev") = Some (print_llu (cd_prev cd) +:+ String NUL "") ->
  m_xattrs f !! (i, "user.start") = Some (print_llu (cd_start cd) +:+ String NUL "") ->
  m_xattrs f !! (i, "user.len") = Some (print_llu (cd_len cd) +:+ String NUL "") ->
  cd_typed cd -> has_cd f i cd.
Proof.
  intros A1 A2 A3 A4 [T1 T2 T3 T4].
  assert (forall name x, m_xattrs f !! (i, "user." +:+ name) = Some (print_llu x +:+ String NUL "") ->
    is_u64 x -> field_is f i name x) as Hf.
  { intros name x Hx Ht. exists (print_llu x +:+ String NUL ""). pose proof (print_nul_short x Ht) as Hl.
    split_and!; [| done | by apply strtoull_value].
    unfold getxattr, memfs_client, mem_getxattr. rewrite Hx, decide_True; [done |].
    unfold value_str_size in Hl. lia. }
  split; [exact (Hf "next" _ A1 T1) | exact (Hf "prev" _ A2 T2) | exact (Hf "start" _ A3 T3)
    | exact (Hf "len" _ A4 T4)].
Qed.

Lemma cd1_typed : cd_typed cd1.
Proof. by split. Qed.

Lemma cd2_typed : cd_typed cd2.
Proof. by split. Qed.

Lemma part1_has : has_cd two_part_fs (1, 12) cd1.
Proof. apply cd_attrs_has; [reflexivity.. | apply cd1_typed]. Qed.

Lemma part2_has : has_cd two_part_fs (2, 15) cd2.
Proof. apply cd_attrs_has; [reflexivity.. | apply cd2_typed]. Qed.

Lemma two_parts_chunk id :
  1 <= id <= 3 -> chunkfs_find_chunk (mounted_pool (fun k => k) 3) id = Some (mounted_chunk (fun k => k) id).
Proof. intros Hid. rewrite find_in_mounted. by rewrite decide_True. Qed.

Lemma two_parts_head : head_of two_parts 1 head_inode 11.
Proof. repeat eexists. Qed.

Lemma two_parts_chain : file_parts two_parts 1 [part1; part2].
Proof.
  exists (mounted_pool (fun k => k) 3), head_inode, 11. split_and!; [done | apply two_parts_head |].
  apply (chain_next _ _ _ _ _ part1 2 22); [| done | done | reflexivity |].
  - split; [done | done | done | apply part1_has | | done | done].
    exists (mounted_chunk (fun k => k) 1). by rewrite two_parts_chunk.
  - apply chain_end; [| by right].
    split; [done | done | done | apply part2_has | | done | done].
    exists (mounted_chunk (fun k => k) 2). by rewrite two_parts_chunk.
Qed.

Lemma two_parts_wf : wf_file two_parts 1 [part1; part2] 81920.
Proof.
  split_and!; [apply two_parts_chain | split | exists head_inode, 11, part1; split_and!; [apply two_parts_head | done | done]].
  - constructor; [done | done | done |]. constructor; [done | done | done |]. constructor.
  - constructor; [done | done | done |]. by constructor.
  - rewrite !Forall_cons. split_and!; done.
  - rewrite !Forall_cons. split_and!; [apply cd1_typed | apply cd2_typed | done].
  - constructor; [set_solver | constructor; [set_solver | constructor]].
Qed.

Lemma two_parts_sized : sized two_parts 1 head_inode [part1; part2].
Proof.
  split.
  - done.
  - by exists part1.
  - apply two_parts_wf.
  - apply two_parts_wf.
  - exists (mounted_pool (fun k => k) 3). split; [done |]. rewrite !Forall_cons.
    split_and!; [| | done]; (split; [done | done | | | done]).
    + exists (mounted_chunk (fun k => k) 1). by rewrite two_parts_chunk.
    + apply part1_has.
    + exists (mounted_chunk (fun k => k) 2). by rewrite two_parts_chunk.
    + apply part2_has.
  - done.
Qed.

Lemma two_parts_open : open_file two_parts 1 1 1 head_inode [part1; part2] 81920.
Proof.
  split.
  - by eexists.
  - by eexists.
  - apply two_parts_wf.
  - apply two_parts_sized.
  - rewrite !Forall_cons. split_and!; done.
  - apply not_elem_of_empty.
Qed.

Lemma two_parts_free : lock_free two_parts 1.
Proof. eapply open_lock_free, two_parts_open. Qed.

(** ** Applications *)

Lemma uino_roundtrip_witness :
  (UINO_TO_CHUNK_ID (MAKE_UINO 16 12) = 16 /\ UINO_TO_INO (MAKE_UINO 16 12) = 12) <-> fits_uino 16 12.
Proof. apply (uino_roundtrip 16 12); unfold is_u64; lia. Defined.

Lemma cont_data_roundtrip_witness :
  exists s', set_cont_data (2, 15) cd1 two_parts = (inr tt, s') /\
    get_cont_data (2, 15) s' = (inr cd1, s') /\
    forall j, j <> (2, 15) -> (get_cont_data j s').1 = (get_cont_data j two_parts).1.
Proof.
  destruct (set_cont_data_works two_parts (2, 15) cd1 cd1_typed) as (f' & Hset & _).
  exists (set_fs f' two_parts). exact (conj Hset (cont_data_roundtrip two_parts (2, 15) cd1 _ Hset cd1_typed)).
Defined.

(** Position 50000 is in the second part, 100000 past the end. *)
Lemma get_cont_at_offset_first_witness :
  (exists s', chunkfs_get_cont_at_offset 3 None 1 50000 two_parts = (inr part2, s') /\
     held [part1; part2] two_parts s') /\
  (exists s', chunkfs_get_cont_at_offset 3 None 1 100000 two_parts = (inl (Errno ENOENT), s') /\
     held [part1; part2] two_parts s').
Proof.
  split.
  - apply (get_cont_at_offset_first two_parts 1 [part1; part2] 3 None 50000);
      [done | exact two_parts_free | apply two_parts_chain | simpl; lia].
  - apply (get_cont_at_offset_first two_parts 1 [part1; part2] 3 None 100000);
      [done | exact two_parts_free | apply two_parts_chain | simpl; lia].
Defined.

Definition grown_fs : memfs := (mem_open_create two_part_fs "/chunk3/2/15").2.

Lemma two_parts_append : can_append two_parts (mounted_chunk (fun k => k) 3) part2 23 (3, 16) grown_fs.
Proof.
  split.
  - exists (mounted_pool (fun k => k) 3). split; [done |]. by apply two_parts_chunk.
  - by unfold fits_uino.
  - by exists ENOENT.
  - reflexivity.
  - reflexivity.
Qed.

Lemma create_continuation_appends_witness :
  let new := new_part (mounted_chunk (fun k => k) 3) part2 23 (3, 16) in
  exists s', chunkfs_create_continuation 3 1 81925 two_parts = (inr (mk_cfile 23 5, new, 5), s') /\
    wf_file s' 1 ([part1] ++ [with_next part2 (co_uino new); new]) 122880 /\
    k_opens s' = 1 /\ k_kmem s' = 3.
Proof.
  apply (create_continuation_appends two_parts 1 [part1] part2 81920 3 81925 (mounted_chunk (fun k => k) 3)
    23 (3, 16) grown_fs).
  - done.
  - apply two_parts_wf.
  - simpl. lia.
  - apply two_parts_append.
  - done.
  - lia.
Defined.

Lemma copy_up_inode_size_witness :
  exists s' m, chunkfs_copy_up_inode 3 1 (1, 12) two_parts = (inr tt, s') /\
    s' = set_inodes (<[1 := with_size (with_attr head_inode no_attr) 9]> (k_inodes two_parts)) (set_iref m two_parts) /\
    forall j, count m j = count (k_iref two_parts) j.
Proof.
  apply (copy_up_inode_size two_parts 1 head_inode [part1; part2] (1, 12) 3); [apply two_parts_sized | simpl; lia].
Defined.

(** Reading 100 bytes at the start of the second part: the five bytes of the
    part, with the position left at 5 instead of 40965; reading behind the
    second part. *)
Lemma chunkfs_read_spec_witness :
  (exists before s', chunkfs_read 3 None 1 100 40960 two_parts =
      (inr (5, 5, [116; 97; 105; 108; 33]), s') /\
    upto (fun c => in_cont (co_cd c) 40960) [part1; part2] = before ++ [part2] /\
    io_done two_parts two_part_fs 1 1 1 40960 head_inode [part1; part2] before part2 s' /\
    open_file s' 1 1 1 (updated head_inode two_part_fs part2 [part1; part2]) [part1; part2] 81920) /\
  exists s', chunkfs_read 3 None 1 100 81920 two_parts = (inr (0, 81920, []), s') /\
    held [part1; part2] two_parts s'.
Proof.
  split.
  - pose proof (chunkfs_read_spec two_parts 1 1 1 head_inode [part1; part2] 81920 3 None 100 40960
      two_parts_open eq_refl ltac:(lia) ltac:(simpl; lia)) as (_ & _ & Hrd).
    exact (Hrd 5 5 [116; 97; 105; 108; 33] two_part_fs eq_refl).
  - exact (proj2 (chunkfs_read_spec two_parts 1 1 1 head_inode [part1; part2] 81920 3 None 100 81920
      two_parts_open eq_refl ltac:(lia) ltac:(simpl; lia))).
Defined.

Definition written_fs : memfs := (mem_file_write two_part_fs 22 [1; 2; 3] 4).2.

Lemma chunkfs_write_spec_witness :
  exists before s', chunkfs_write 3 None 1 [1; 2; 3] 40964 two_parts = (inr (3, 7), s') /\
    upto (fun c => in_cont (co_cd c) 40964) [part1; part2] = before ++ [part2] /\
    io_done two_parts written_fs 1 1 1 40964 head_inode [part1; part2] before part2 s' /\
    open_file s' 1 1 1 (updated head_inode written_fs part2 [part1; part2]) [part1; part2] 81920 /\
    total_size written_fs [part1; part2] =
      total_size (k_fs two_parts) [part1; part2] + i_size written_fs (co_inode part2)
      - i_size (k_fs two_parts) (co_inode part2).
Proof.
  apply (chunkfs_write_spec two_parts 1 1 1 head_inode [part1; part2] 81920 3 None [1; 2; 3] 40964 part2 3 7
    written_fs).
  - apply two_parts_open.
  - done.
  - lia.
  - simpl. lia.
  - done.
  - reflexivity.
  - done.
Defined.

(** The client fails every fsync with -EIO. *)
Lemma fsync_loses_errors_witness :
  exists s2, chunkfs_fsync_file 3 1 0 100 false two_parts =
    (inr 0, set_fs (sync_all two_part_fs 0 100 false [part1; part2]) s2) /\ held [part1; part2] two_parts s2.
Proof.
  apply (fsync_loses_errors two_parts 1 (mk_file 1 0) 1 [part1; part2] 3 0 100 false);
    [done | done | done | exact two_parts_free | apply two_parts_chain | simpl; lia].
Defined.

(** A write at 81925, behind both parts. *)
Lemma chunkfs_write_grows_witness :
  let new := new_part (mounted_chunk (fun k => k) 3) part2 23 (3, 16) in
  let L2 := [part1] ++ [with_next part2 (co_uino new); new] in
  exists f3, total_size f3 L2 = total_size (k_fs two_parts) ([part1] ++ [part2]) /\
    forall ret cpos f', file_write f3 23 [1; 2; 3] 5 = (ret, cpos, f') -> total_size f' L2 < 2 ^ 63 ->
    exists s', chunkfs_write 4 None 1 [1; 2; 3] 81925 two_parts = (inr (ret, cpos), s') /\ k_fs s' = f' /\
      open_file s' 1 1 1 (updated head_inode f' new L2) L2 122880 /\
      k_opens s' = 1 /\ k_kmem s' = 4.
Proof.
  apply (chunkfs_write_grows two_parts 1 1 1 head_inode [part1] part2 81920 4 None [1; 2; 3] 81925
    (mounted_chunk (fun k => k) 3) 23 (3, 16) grown_fs).
  - apply two_parts_open.
  - done.
  - simpl. lia.
  - lia.
  - done.
  - apply two_parts_append.
  - done.
Defined.

(** Writing two bytes into the second part, reading them back, and reading
    behind the parts. *)
Definition write_and_read : list io_op :=
  [Write [88; 89] 40961; Read 4 40960; Read 4 81920; Read 10 1].

Lemma session_refines_witness :
  exists hi' s', run_ops 3 None 1 write_and_read two_parts =
      (inr [(2, 3, []); (4, 4, [116; 88; 89; 108]); (0, 81920, []); (3, 4, [101; 97; 100])], s') /\
    k_fs s' = (ops_spec [part1; part2] write_and_read two_part_fs).2 /\
    open_file s' 1 1 1 hi' [part1; part2] 81920 /\ k_opens s' = 3.
Proof.
  apply (session_refines [part1; part2] 81920 two_parts 1 1 1 head_inode 3 None write_and_read).
  - apply two_parts_open.
  - done.
  - simpl. lia.
  - unfold write_and_read. rewrite !Forall_cons. split_and!; [split; simpl; lia.. | done].
  - split_and!; [vm_compute; done.. | done].
Defined.

Lemma two_parts_within : within_parts two_part_fs [part1; part2].
Proof. unfold within_parts. rewrite !Forall_cons. by split_and!. Qed.

Lemma flat_file_refines_witness :
  exists rs hi' s', run_ops 3 None 1 write_and_read two_parts = (inr rs, s') /\
    flat_run (flat two_part_fs [part1; part2]) write_and_read rs (flat (k_fs s') [part1; part2]) /\
    open_file s' 1 1 1 hi' [part1; part2] 81920 /\ within_parts (k_fs s') [part1; part2].
Proof.
  apply (flat_file_refines two_parts 1 1 1 head_inode [part1; part2] 81920 3 None write_and_read).
  - apply two_parts_open.
  - done.
  - simpl. lia.
  - apply two_parts_within.
  - unfold write_and_read. rewrite !Forall_cons. split_and!; [split; simpl; lia.. | done].
  - unfold write_and_read. rewrite !Forall_cons. split_and!; simpl; try lia; [| done].
    intros c [= <-]. vm_compute. done.
Defined.

(** Four bytes written at the last two positions of the first part: all are
    reported as written, the second part still begins with "tail!". *)
Definition crossed_fs : memfs := (mem_file_write two_part_fs 11 [1; 2; 3; 4] 40958).2.

Lemma write_across_loses_witness :
  exists s', chunkfs_write 3 None 1 [1; 2; 3; 4] 40958 two_parts = (inr (4, 40962), s') /\
    (forall x, 40958 <= x < 40960 -> [1; 2; 3; 4] !! Z.to_nat (x - 40958) = Some (flat (k_fs s') [part1; part2] x)) /\
    (forall x, 40960 <= x -> flat (k_fs s') [part1; part2] x = flat two_part_fs [part1; part2] x).
Proof.
  apply (write_across_loses two_parts 1 1 1 head_inode [part1; part2] 81920 3 None [1; 2; 3; 4] 40958 part1
    40962 crossed_fs).
  - apply two_parts_open.
  - done.
  - simpl. lia.
  - lia.
  - done.
  - done.
  - done.
  - vm_compute. done.
Defined.
