(* ===== verification/RaceExamples.v ===== *)
(** * Parts in the way, two appends, crashes, and an interrupted mkfs

    The theorems of Race.v, Crash.v and Interrupted.v, applied to the file
    in two chunks and to the 32 MiB file of test.sh. *)

From S2P Require Import Prelude Monad Bytes OnDisk Device Decimal Client Kernel KernelFacts Mkfs MkfsSpec MkfsProps Pool MountProps Interrupted Uino Cont Inode File ContData Chain Append Race Crash MemFS MountExamples FileExamples.

(** ** A continuation of a removed file *)

(** The name of the third part leads to a file with two bytes. *)
Definition stale_fs : memfs :=
  mk_memfs (<["/chunk3/2/15" := (3, 33)]> (m_paths two_part_fs)) (<[33 := (3, 77)]> (m_dentries two_part_fs))
    (m_xattrs two_part_fs) (<[(3, 77) := [111; 108]]> (m_bytes two_part_fs)) ∅.

Definition stale_parts : kstate := set_fs stale_fs two_parts.

Lemma stale_parts_wf : wf_file stale_parts 1 [part1; part2] 81920.
Proof.
  apply (wf_file_kept two_parts); [apply two_parts_wf | by split | | | by intros c _ []].
  - intros q x. simpl. unfold mem_kern_path. simpl. destruct (decide (q = "/chunk3/2/15")) as [-> | Hne]; [done |].
    by rewrite lookup_insert_ne.
  - intros d j. simpl. intros [[<- <-] | [_ [<- <-]%lookup_singleton_Some]]%lookup_insert_Some; reflexivity.
Qed.

Lemma append_takes_over_witness :
  let new := new_part (mounted_chunk (fun k => k) 3) part2 33 (3, 77) in
  exists s', chunkfs_create_continuation 3 1 81925 stale_parts = (inr (mk_cfile 33 5, new, 5), s') /\
    wf_file s' 1 ([part1] ++ [with_next part2 (co_uino new); new]) 122880 /\
    i_size (k_fs s') (3, 77) = 2 /\ forall k, byte (k_fs s') (3, 77) k = byte stale_fs (3, 77) k.
Proof.
  apply (append_takes_over stale_parts 1 [part1] part2 81920 3 81925 (mounted_chunk (fun k => k) 3) 3 33 (3, 77) 33
    stale_fs).
  - done.
  - apply stale_parts_wf.
  - simpl. lia.
  - exists (mounted_pool (fun k => k) 3). split; [done |]. by apply two_parts_chunk.
  - by unfold fits_uino.
  - reflexivity.
  - reflexivity.
  - by repeat constructor.
  - reflexivity.
  - done.
  - lia.
Defined.

(** ** Two appends *)

(** The file before, with its first part alone, and after two appends. *)
Definition cd_alone : chunkfs_cont_data := mk_cd 0 0 0 CONT_LEN.
Definition part_alone : chunkfs_continuation := mk_cont (1, 12) 11 1 cd_alone 1 uino1.
Definition new_second : chunkfs_continuation := new_part (mounted_chunk (fun k => k) 2) part_alone 22 (2, 15).
Definition uino3 : Z := MAKE_UINO 3 18.
Definition cd3 : chunkfs_cont_data := mk_cd 0 uino2 (2 * CONT_LEN) CONT_LEN.
Definition part3 : chunkfs_continuation := mk_cont (3, 18) 33 3 cd3 3 uino3.

Definition one_part_fs : memfs :=
  mk_memfs ∅ {[ 11 := (1, 12) ]} (list_to_map (cd_attrs (1, 12) cd_alone)) {[ (1, 12) := [104; 101; 97; 100] ]} ∅.

Definition three_part_fs : memfs :=
  mk_memfs {[ "/chunk2/1/12" := (2, 22); "/chunk3/2/15" := (3, 33) ]} {[ 11 := (1, 12); 22 := (2, 15); 33 := (3, 18) ]}
    (list_to_map (cd_attrs (1, 12) cd1 ++ cd_attrs (2, 15) (co_cd (with_next new_second uino3)) ++ cd_attrs (3, 18) cd3))
    {[ (1, 12) := [104; 101; 97; 100]; (3, 18) := [116; 97; 105; 108; 33] ]} ∅.

Definition one_part : kstate := set_fs one_part_fs two_parts.
Definition three_parts : kstate := set_fs three_part_fs two_parts.

Lemma cd_alone_typed : cd_typed cd_alone.
Proof. by split. Qed.

Lemma one_part_wf : wf_file one_part 1 [part_alone] 40960.
Proof.
  assert (has_cd one_part_fs (1, 12) cd_alone) by (apply cd_attrs_has; [reflexivity.. | apply cd_alone_typed]).
  split_and!; [| split | exists head_inode, 11, part_alone; split_and!; [apply two_parts_head | done | done]].
  - exists (mounted_pool (fun k => k) 3), head_inode, 11. split_and!; [done | apply two_parts_head |].
    apply chain_end; [| by right]. split; [done | done | done | done | | done | done].
    exists (mounted_chunk (fun k => k) 1). by rewrite two_parts_chunk.
  - constructor; [done | done | done |]. constructor.
  - by constructor.
  - rewrite !Forall_cons. split_and!; done.
  - rewrite !Forall_cons. split_and!; [apply cd_alone_typed | done].
  - constructor; [set_solver | constructor].
Qed.

Lemma three_parts_wf :
  wf_file three_parts 1 ([] ++ with_next part_alone (co_uino new_second) :: with_next new_second uino3 :: [part3]) 122880.
Proof.
  cbn [app]. assert (cd_typed (co_cd (with_next new_second uino3))) as T2 by by split.
  assert (cd_typed cd3) as T3 by by split.
  assert (has_cd three_part_fs (1, 12) cd1) by (apply cd_attrs_has; [reflexivity.. | apply cd1_typed]).
  assert (has_cd three_part_fs (2, 15) (co_cd (with_next new_second uino3)))
    by (apply cd_attrs_has; [reflexivity.. | exact T2]).
  assert (has_cd three_part_fs (3, 18) cd3) by (apply cd_attrs_has; [reflexivity.. | exact T3]).
  split_and!; [| split | eexists head_inode, 11, _; split_and!; [apply two_parts_head | done | done]].
  - exists (mounted_pool (fun k => k) 3), head_inode, 11. split_and!; [done | apply two_parts_head |].
    apply (chain_next _ _ _ _ _ (with_next part_alone (co_uino new_second)) 2 22); [| done | done | reflexivity |].
    + split; [done | done | done | done | | done | done].
      exists (mounted_chunk (fun k => k) 1). by rewrite two_parts_chunk.
    + apply (chain_next _ _ _ _ _ (with_next new_second uino3) 3 33); [| done | done | reflexivity |].
      * split; [done | done | done | done | | done | done].
        exists (mounted_chunk (fun k => k) 2). by rewrite two_parts_chunk.
      * apply chain_end; [| by right]. split; [done | done | done | done | | done | done].
        exists (mounted_chunk (fun k => k) 3). by rewrite two_parts_chunk.
  - do 3 (constructor; [done | done | done |]). constructor.
  - do 2 (constructor; [done | done | done |]). by constructor.
  - rewrite !Forall_cons. split_and!; done.
  - rewrite !Forall_cons. split_and!; [apply cd1_typed | exact T2 | exact T3 | done].
  - do 3 (constructor; [set_solver |]). constructor.
Qed.

(** This call makes the second part again, and the third is cut off. *)
Lemma append_race_witness :
  exists s1, loop 2 NoFuel (last_cont_step 1) None one_part = (inr (Some part_alone), s1) /\
    chunkfs_create_continuation 2 1 40965 one_part = create_continuation_after 40965 part_alone s1 /\
    exists s', create_continuation_after 40965 part_alone three_parts = (inr (mk_cfile 22 5, new_second, 5), s') /\
      wf_file s' 1 ([] ++ [with_next part_alone (co_uino new_second); new_second]) 81920.
Proof.
  destruct (last_part one_part 1 [part_alone] 2 eq_refl (proj1 one_part_wf) ltac:(simpl; lia)) as (s1 & Hwalk & _).
  exists s1. split; [exact Hwalk |].
  apply (append_race one_part s1 three_parts 1 [] part_alone 40960 122880 2 40965 uino3 [part3]
    (mounted_chunk (fun k => k) 2) 22 (2, 15) 22 three_part_fs).
  - apply one_part_wf.
  - exact Hwalk.
  - done.
  - apply three_parts_wf.
  - exists (mounted_pool (fun k => k) 3). split; [done |]. by apply two_parts_chunk.
  - reflexivity.
  - done.
  - lia.
Defined.

(** ** A crash *)

(** After five changes the old file, after six the new one. *)
Lemma append_crash_safe_witness :
  let new := new_part (mounted_chunk (fun k => k) 3) part2 23 (3, 16) in
  let after n := left_by (@chunkfs_create_continuation (limited n) 3 1 81925 (on_limited n two_parts)).2 in
  wf_file (after 5%nat) 1 ([part1] ++ [part2]) 81920 /\
  wf_file (after 6%nat) 1 ([part1] ++ [with_next part2 (co_uino new); new]) 122880.
Proof.
  split.
  - apply (append_crash_safe 5 two_parts 1 [part1] part2 81920 3 81925 (mounted_chunk (fun k => k) 3) 23 (3, 16) grown_fs);
      [done | apply two_parts_wf | simpl; lia | apply two_parts_append | done].
  - apply (append_crash_safe 6 two_parts 1 [part1] part2 81920 3 81925 (mounted_chunk (fun k => k) 3) 23 (3, 16) grown_fs);
      [done | apply two_parts_wf | simpl; lia | apply two_parts_append | done].
Defined.

(** The link is refused: the append reports the new part all the same. *)
Lemma append_refused_result_witness :
  (@chunkfs_create_continuation (limited 5) 3 1 81925 (on_limited 5 two_parts)).1 =
    inr (mk_cfile 23 5, new_part (mounted_chunk (fun k => k) 3) part2 23 (3, 16), 5).
Proof.
  apply (append_refused_result 5 two_parts 1 [part1] part2 81920 3 81925 (mounted_chunk (fun k => k) 3) 23 (3, 16) grown_fs);
    [done | apply two_parts_wf | simpl; lia | apply two_parts_append | done | lia | by eexists].
Defined.

(** ** mkfs on a device that is too small *)

#[local] Existing Instance little_endian_host.

(** The device takes the pool, device and first chunk summaries. *)
Definition full_device : device := mk_device (fun _ => 0) (fun off => if off <? chunk_pos 2 then CHUNKFS_BLK_SIZE else 0).
Definition failed_run := mkfs_main 4 [47; 100] test_size (mk_mkfs full_device []).

Lemma failed_mkfs_unmountable_witness :
  failed_run.1 = inl ExitFailure /\
  (chunkfs_read_pool 4 (device_state (dev_data (mk_dev_state failed_run.2)) all_readable)).1 = inl (Errno EIO).
Proof.
  pose proof (failed_mkfs_unmountable eq_refl 4 4 [47; 100] test_size full_device []
    (device_state (dev_data (mk_dev_state failed_run.2)) all_readable) (fun k => k)) as Hfail.
  assert (failed_run.1 <> inr tt) as Hr by (vm_compute; done).
  unfold failed_run in *. destruct (mkfs_main _ _ _ _) as [r st]. apply Hfail.
  - unfold test_size. lia.
  - rewrite three_chunks. lia.
  - simpl. unfold CHUNKFS_DEV_PATH_LEN. lia.
  - rewrite three_chunks. lia.
  - rewrite three_chunks. lia.
  - intros off. unfold full_device. simpl. case_match; [by left | by right].
  - intros blk. vm_compute. done.
  - done.
  - done.
  - done.
  - exact three_mounted.
  - exact Hr.
Defined.
