(* ===== verification/GrowingExamples.v ===== *)
(** * A file that grows from one part to three, and write_pattern

    The theorems of Growing.v and Programs.v, applied to the file of one part in
    chunk 1 of the 32 MiB file of test.sh, on the client file systems in
    memory. *)

From S2P Require Import Prelude Monad Decimal Client Kernel KernelFacts Pool PoolProps MountProps Uino Cont Inode File ContData Chain Append InodeProps FileProps Grow Session Flat Race Crash Growing WritePattern Programs MemFS MountExamples FileExamples RaceExamples.

Section more_room.
Context `{ClientFS}.

Lemma can_grow_less pi k f prev : can_grow pi (S k) f prev -> can_grow pi k f prev.
Proof.
  revert f prev; induction k as [|k IH]; intros f prev; [done |]. intros (ci & Hci & Hg). exists ci. split; [done |].
  intros f' Hk. destruct (Hg f' Hk) as (e & d & i & f1 & ? & ? & ? & ? & ? & Hnext).
  exists e, d, i, f1. split_and!; try done. intros f2 f3 X1 X2. by apply IH, (Hnext f2).
Qed.
End more_room.

(** ** Room in the file systems in memory *)

Lemma mem_io_dentries f f' : io_keeps f f' -> m_dentries f' = m_dentries f.
Proof. intros Hk. apply map_eq. intros d. apply (io_dentry _ _ Hk). Qed.

Lemma mem_xattrs_dentries i f f' : xattrs_of i f f' -> m_dentries f' = m_dentries f.
Proof. intros Hx. apply map_eq. intros d. apply (xo_dentry _ _ _ Hx). Qed.

Lemma mem_create f p e :
  mem_kern_path f p = inl e ->
  exists f1, mem_open_create f p = (inr (next_dentry f), f1) /\
    m_dentries f1 = <[next_dentry f := (path_fs p, next_inode f)]> (m_dentries f) /\
    m_dentries f1 !! next_dentry f = Some (path_fs p, next_inode f) /\
    forall q, q <> p -> mem_kern_path f1 q = mem_kern_path f q.
Proof.
  intros Hp. unfold mem_open_create. rewrite Hp. eexists. split; [done |]. cbn. split_and!; [done | by rewrite lookup_insert_eq |].
  intros q Hq. unfold mem_kern_path. cbn. by rewrite lookup_insert_ne.
Qed.

(** The new numbers depend on the dentries alone. *)
Lemma mem_numbers f g : m_dentries f = m_dentries g -> next_dentry f = next_dentry g /\ next_inode f = next_inode g.
Proof. unfold next_dentry, next_inode. by intros ->. Qed.

(** Two parts more, in chunks 2 and 3. *)
Lemma one_part_grows : can_grow (mounted_pool (fun k => k) 3) 2 one_part_fs part_alone.
Proof.
  exists (mounted_chunk (fun k => k) 2). split; [by rewrite two_parts_chunk |]. intros f Hf.
  pose proof (mem_io_dentries _ _ Hf) as Hd. destruct (mem_numbers f one_part_fs Hd) as [Hn1 Hn2].
  change (next_dentry one_part_fs) with 12 in Hn1. change (next_inode one_part_fs) with 13 in Hn2.
  assert (mem_kern_path f "/chunk2/1/12" = inl ENOENT) as Hp by apply (io_path _ _ Hf).
  destruct (mem_create f "/chunk2/1/12" ENOENT Hp) as (f1 & Hcr & Hd1 & Hi & Hpath).
  rewrite Hn1, Hn2, Hd in *. exists ENOENT, 12, (2, 13), f1. split_and!; [done | done | exact Hi | done | done |].
  intros f2 f3 X1 X2. exists (mounted_chunk (fun k => k) 3). split; [by rewrite two_parts_chunk |]. intros g Hg.
  assert (m_dentries g = <[12 := (2, 13)]> (m_dentries one_part_fs)) as Hdg.
  { rewrite (mem_io_dentries _ _ Hg), (mem_xattrs_dentries _ _ _ X2), (mem_xattrs_dentries _ _ _ X1). exact Hd1. }
  destruct (mem_numbers g (mk_memfs ∅ (<[12 := (2, 13)]> (m_dentries one_part_fs)) ∅ ∅ ∅) Hdg) as [Hg1 Hg2].
  assert (mem_kern_path g "/chunk3/2/13" = inl ENOENT) as Hpg.
  { change (kern_path g "/chunk3/2/13" = inl ENOENT).
    rewrite (io_path _ _ Hg), (xo_path _ _ _ X2), (xo_path _ _ _ X1). simpl. rewrite Hpath by done. apply (io_path _ _ Hf). }
  destruct (mem_create g "/chunk3/2/13" ENOENT Hpg) as (g1 & Hcr1 & _ & Hi1 & _).
  rewrite Hg1, Hg2 in *. exists ENOENT, 13, (3, 14), g1. by split_and!.
Qed.

(** ** The file of one part *)

Lemma one_part_open : open_file one_part 1 1 1 head_inode [part_alone] 40960.
Proof.
  assert (has_cd one_part_fs (1, 12) cd_alone) by (apply cd_attrs_has; [reflexivity.. | apply cd_alone_typed]).
  pose proof (proj1 (proj2 one_part_wf)) as Hwf. split.
  - by eexists.
  - by eexists.
  - apply one_part_wf.
  - split; [done | by exists part_alone | apply Hwf | apply Hwf | | done].
    exists (mounted_pool (fun k => k) 3). split; [done |]. rewrite Forall_singleton.
    split; [done | done | | done | done]. exists (mounted_chunk (fun k => k) 1). by rewrite two_parts_chunk.
  - by rewrite Forall_singleton.
  - apply not_elem_of_empty.
Qed.

Lemma one_part_growing k : (k <= 2)%nat -> growing 1 1 1 k one_part head_inode [part_alone] CONT_LEN.
Proof.
  intros Hk. split; [apply one_part_open | done | by repeat constructor | by repeat constructor |].
  exists (mounted_pool (fun k => k) 3), part_alone. split_and!; [done | done |].
  change (k_fs one_part) with one_part_fs. pose proof one_part_grows as H2. pose proof (can_grow_less _ _ _ _ H2) as H1.
  destruct k as [|[|[|k]]]; [done | exact H1 | exact H2 | lia].
Qed.

(** Two writes behind the capacity, the second leaving a hole; then reads. *)
Definition grow_twice : list io_op := [Write [1; 2] 40960; Write [3] 81925; Read 10 81920; Read 4 0].

Lemma growing_file_refines_witness :
  exists rs s' hi' L', run_ops 5 None 1 grow_twice one_part = (inr rs, s') /\
    flat_run (flat one_part_fs [part_alone]) grow_twice rs (flat (k_fs s') L') /\
    open_file s' 1 1 1 hi' L' 122880 /\ uniform L' /\ within_parts (k_fs s') L'.
Proof.
  apply (growing_file_refines 1 1 1 2 one_part head_inode [part_alone] CONT_LEN 5 None grow_twice).
  - by apply one_part_growing.
  - by repeat split.
  - vm_compute. done.
  - simpl. lia.
  - done.
Defined.

(** ** write_pattern *)

(** The system call as Linux has it. *)
Definition linux_write (fp : Z) (data : list Z) : kernel Z :=
  fl ← get_file fp;
  '(ret, pos') ← chunkfs_write 4 None fp data (f_pos fl);
  files ← gets k_files;
  modify (set_files (<[fp := mk_file (f_dentry fl) pos']> files));;
  mret ret.

Lemma linux_write_at_position : writes_at_position 4 None linux_write.
Proof.
  intros s fp p pos data ret pos' s1 Hfl Hrun _. unfold linux_write.
  rewrite (bind_ok _ _ s (mk_file p pos) s) by (unfold get_file; by rewrite Hfl). cbn [f_pos f_dentry].
  by rewrite (bind_ok _ _ _ _ _ Hrun).
Qed.

Lemma pattern_wraps_witness :
  exists s' hi' L', pattern_program (program_write linux_write 1) (Z.to_nat 8193) [[119]; [102]] true one_part = (inr FILE_SIZE, s') /\
    open_file s' 1 1 1 hi' L' 81920 /\ i_csize hi' = 45056 /\
    (exists c1 c2, L' = [c1; c2] /\ i_size (k_fs s') (co_inode c1) = CONT_LEN /\ i_size (k_fs s') (co_inode c2) = 4096) /\
    forall x, flat (k_fs s') L' x = if decide (0 <= x < 45056) then 53 else 0.
Proof.
  apply (pattern_wraps 4 None linux_write linux_write_at_position 1 1 1 one_part head_inode [part_alone]
    (Z.to_nat 8193) [119] [102]).
  - apply one_part_growing. lia.
  - done.
  - lia.
  - lia.
Defined.

(** ** Reading *)

(** The file in two chunks, with its first part full. *)
Definition full_fs : memfs :=
  mk_memfs (m_paths two_part_fs) (m_dentries two_part_fs) (m_xattrs two_part_fs)
    (<[(1, 12) := replicate (Z.to_nat CONT_LEN) 48]> (m_bytes two_part_fs)) ∅.

Definition full_parts : kstate := set_fs full_fs two_parts.

Lemma full_sizes : i_size full_fs (1, 12) = CONT_LEN /\ i_size full_fs (2, 15) = 5.
Proof.
  split; [| reflexivity]. change (Z.of_nat (length (bytes_of full_fs (1, 12))) = CONT_LEN).
  unfold bytes_of, full_fs. cbn [m_bytes]. rewrite lookup_insert_eq. cbn [default from_option]. unfold id.
  by rewrite length_replicate, Z2Nat.id.
Qed.

Lemma full_has i cd : has_cd two_part_fs i cd -> has_cd full_fs i cd.
Proof. intros []. split; assumption. Qed.

Lemma full_parts_open : open_file full_parts 1 1 1 head_inode [part1; part2] 81920.
Proof.
  destruct full_sizes as [E1 E2]. pose proof two_parts_sized as [S1 S2 S3 S4 (pi & Hpi & HF) _].
  rewrite !Forall_cons in HF. destruct HF as ([A1 A2 A3 A4 _] & [B1 B2 B3 B4 _] & _). split.
  - exact (of_file _ _ _ _ _ _ _ two_parts_open).
  - exact (of_inode _ _ _ _ _ _ _ two_parts_open).
  - apply (wf_file_kept two_parts); [apply two_parts_wf | by split | | |].
    + intros q x Hq. exact Hq.
    + intros d j Hd. exact Hd.
    + intros c _ Hc. exact (full_has _ _ Hc).
  - split; [exact S1 | exact S2 | exact S3 | exact S4 | |]; change (k_fs full_parts) with full_fs.
    + exists pi. split; [exact Hpi |]. rewrite !Forall_cons. split_and!; [| | by constructor].
      * split; [reflexivity | reflexivity | exact A3 | exact (full_has _ _ A4) |]. change (co_inode part1) with (1, 12). by rewrite E1.
      * split; [reflexivity | reflexivity | exact B3 | exact (full_has _ _ B4) |]. change (co_inode part2) with (2, 15). by rewrite E2.
    + cbn [total_size co_inode part1 part2]. by rewrite E1, E2.
  - rewrite !Forall_cons. split_and!; [reflexivity.. | by constructor].
  - apply not_elem_of_empty.
Qed.

Definition linux_read (fp len : Z) : kernel (Z * list Z) :=
  fl ← get_file fp;
  '(ret, pos', data) ← chunkfs_read 3 None fp len (f_pos fl);
  files ← gets k_files;
  modify (set_files (<[fp := mk_file (f_dentry fl) pos']> files));;
  mret (ret, data).

Lemma linux_read_at_position : reads_at_position 3 None linux_read.
Proof.
  intros s fp p pos len ret pos' data s1 Hfl Hrun _. unfold linux_read.
  rewrite (bind_ok _ _ s (mk_file p pos) s) by (unfold get_file; by rewrite Hfl). cbn [f_pos f_dentry].
  by rewrite (bind_ok _ _ _ _ _ Hrun).
Qed.

Lemma sequential_reads_never_end_witness :
  exists rets s', read_calls linux_read 1000 1 4096 full_parts = (inr rets, s') /\ length rets = 1000%nat /\
    Forall (fun ret => 0 < ret) rets.
Proof.
  apply (sequential_reads_never_end 3 None linux_read linux_read_at_position full_parts 1 1 1 head_inode
    [part1; part2] 81920 4096 1000).
  - exact full_parts_open.
  - done.
  - simpl. lia.
  - exists part1, part2, []. destruct full_sizes as [E1 E2]. change (k_fs full_parts) with full_fs.
    change (co_inode part1) with (1, 12). change (co_inode part2) with (2, 15).
    rewrite E1, E2. split_and!; [reflexivity.. | lia].
  - lia.
  - intros c [= <-]. done.
  - done.
Defined.
