(* ===== verification/NameiExamples.v ===== *)
(** * Looking up the file in two chunks

    The theorems about names, applied in a directory whose client directory
    has the head of the file of [FileExamples] as its entry. *)

From S2P Require Import Prelude Monad Decimal Client Kernel KernelFacts Pool PoolProps MountProps Uino Cont Inode File Namei ContData Chain Append InodeProps FileProps NameiProps Quiet Vfs Counts MakeProps HeadProps Release MemFS FileExamples.

Definition dir_inode : inode := mk_inode (MAKE_UINO 1 11) 0 no_attr DirIops DirFops (Some (1, 11)).

(** The dentry 2, of the given name, in the directory behind the dentry 1;
    [oom] says which allocations fail. *)
Definition in_dir (name : string) (oom : list bool) : kstate :=
  mk_kstate _ two_part_fs (fun _ => 0) (fun _ => false) oom 0 0 0 0 ∅ ∅
    (Some (mounted_pool (fun k => k) 3)) {[ 1 := dir_inode ]}
    {[ 1 := mk_dentry (Some 1) "dir" 1 (Some (mk_dpriv 9 no_nd)) true; 2 := mk_dentry None name 1 None false;
       3 := mk_dentry None "taken" 1 (Some (mk_dpriv 11 no_nd)) true ]} ∅
    (mk_locks 0 ∅) ∅ None.

Lemma in_dir_finds :
  finds (in_dir "file" []) 1 2 (mounted_pool (fun k => k) 3) (mounted_chunk (fun k => k) 1) 1 23 (1, 12)
    (with_dentry two_part_fs 23 (1, 12)).
Proof.
  split.
  - done.
  - done.
  - exists dir_inode, (1, 11), (mk_dentry None "file" 1 None false), (mk_dentry (Some 1) "dir" 1 (Some (mk_dpriv 9 no_nd)) true),
      (mk_dpriv 9 no_nd), two_part_fs. by split_and!.
  - done.
  - done.
  - by split.
Qed.

(** The lookup finds the head of the file in two chunks behind a new client
    dentry; afterwards the file has one part. *)
Lemma chunkfs_lookup_one_part_witness :
  has_cd two_part_fs (1, 12) cd1 /\
  exists s' ip hi, chunkfs_lookup 2 1 2 (in_dir "file" []) = (inr tt, s') /\
    wf_file s' 2 [only_part (mounted_chunk (fun k => k) 1) 1 23 (1, 12)] CONT_LEN /\
    k_inodes s' !! ip = Some hi /\ k_inodes (in_dir "file" []) !! ip = None /\ i_csize hi = 4 /\
    k_kmem s' = 3 /\ k_mnt s' = 1 /\ forall i, count (k_iref s') i = count (k_iref (in_dir "file" [])) i.
Proof.
  split; [apply part1_has |].
  apply (chunkfs_lookup_one_part (in_dir "file" []) 1 2 (mounted_pool (fun k => k) 3) (mounted_chunk (fun k => k) 1)
    1 23 (1, 12) (with_dentry two_part_fs 23 (1, 12))); [apply in_dir_finds | lia].
Defined.

Lemma in_dir_looks_up name oom :
  looks_up (in_dir name oom) 1 2 (1, 11) (mk_dentry None name 1 None false) 9.
Proof.
  split.
  - by exists dir_inode.
  - done.
  - by exists (mk_dentry (Some 1) "dir" 1 (Some (mk_dpriv 9 no_nd)) true), (mk_dpriv 9 no_nd).
Qed.

(** A directory on the damaged file system 0: the lookup returns -EIO. *)
Definition damaged_dir : kstate :=
  set_inodes {[ 1 := mk_inode (MAKE_UINO 1 11) 0 no_attr DirIops DirFops (Some (0, 11)) ]} (in_dir "file" []).

Lemma failed_lookup_release_witness :
  exists s', chunkfs_lookup 2 1 2 damaged_dir = (inl (Errno EIO), s') /\
    bare 2 s' /\ (vfs_d_release 2 s').1 = inl Undef.
Proof.
  assert ((chunkfs_lookup 2 1 2 damaged_dir).1 = inl (Errno EIO)) as Hr by (vm_compute; reflexivity).
  destruct (chunkfs_lookup 2 1 2 damaged_dir) as [r s'] eqn:Hrun. simpl in Hr. subst r.
  exists s'. split; [reflexivity |]. exact (failed_lookup_release 2 1 2 damaged_dir EIO s' Hrun).
Defined.

Lemma chunkfs_lookup_no_memory_witness :
  (chunkfs_lookup 2 1 2 (in_dir "file" [true])).1 = inl Undef /\
  exists s', chunkfs_lookup 2 1 2 (in_dir "" []) = (inr tt, s') /\
    k_dentries s' !! 2 = Some (mk_dentry None "" 1 None true) /\ k_kmem s' = 0.
Proof.
  split.
  - exact (proj1 (chunkfs_lookup_no_memory (in_dir "file" [true]) 1 2 (1, 11) _ 9 2
      (in_dir_looks_up "file" [true])) [] eq_refl).
  - exact (proj2 (chunkfs_lookup_no_memory (in_dir "" []) 1 2 (1, 11) _ 9 2
      (in_dir_looks_up "" [])) two_part_fs eq_refl eq_refl).
Defined.

(** The client dentry already has an inode, so the client refuses mkdir. *)
Lemma make_name_refused_witness :
  (chunkfs_mkdir 2 1 3 0 (in_dir "file" [])).1 = inl Undef.
Proof.
  apply (make_name_refused (in_dir "file" []) 1 3 dir_inode (1, 11)
    (mk_dentry None "taken" 1 (Some (mk_dpriv 11 no_nd)) true) (mk_dpriv 11 no_nd) (fun f d c => op_mkdir f d c 0)
    EIO two_part_fs 2); done.
Defined.

(** ** Making names *)

(** The client directory has the data of a file of one part; the dentry 4 has
    the client dentry 40, which has no inode. *)
Definition dir_fs : memfs :=
  mk_memfs (m_paths two_part_fs) (m_dentries two_part_fs)
    (list_to_map (cd_attrs (1, 11) fresh_cd) ∪ m_xattrs two_part_fs) (m_bytes two_part_fs) ∅.

Definition making : kstate :=
  mk_kstate _ dir_fs (fun _ => 0) (fun _ => false) [] 0 0 0 0 ∅ ∅
    (Some (mounted_pool (fun k => k) 3)) {[ 1 := dir_inode ]}
    {[ 1 := mk_dentry (Some 1) "dir" 1 (Some (mk_dpriv 9 no_nd)) true; 4 := mk_dentry None "new" 1 (Some (mk_dpriv 40 no_nd)) true ]} ∅
    (mk_locks 0 ∅) ∅ None.

Definition made_fs : memfs := with_dentry dir_fs 40 (1, 16).
Definition dir_part : chunkfs_continuation := only_part (mounted_chunk (fun k => k) 1) 1 9 (1, 11).

Lemma making_makes :
  makes making 1 4 dir_inode (1, 11) (mk_dentry None "new" 1 (Some (mk_dpriv 40 no_nd)) true) (mk_dpriv 40 no_nd)
    (mounted_pool (fun k => k) 3) (mounted_chunk (fun k => k) 1) (1, 16) made_fs [dir_part].
Proof.
  split; [done | done | done | | done | done | by split |].
  2: { simpl. intros Hin. by apply list_elem_of_singleton in Hin. }
  split; [done |]. split.
  - done.
  - by exists dir_part.
  - by constructor.
  - rewrite Forall_singleton. by split_and!.
  - exists (mounted_pool (fun k => k) 3). split; [done |]. rewrite Forall_singleton. split; [done | done | | | done].
    + exists (mounted_chunk (fun k => k) 1). by rewrite two_parts_chunk.
    + apply cd_attrs_has; [reflexivity.. | apply fresh_cd_typed].
  - done.
Qed.

Lemma make_name_makes_witness :
  exists s' ip hi f2, chunkfs_mkdir 2 1 4 0 making = (inr tt, s') /\
    wf_file s' 4 [only_part (mounted_chunk (fun k => k) 1) 1 40 (1, 16)] CONT_LEN /\
    k_inodes s' !! ip = Some hi /\ k_inodes making !! ip = None /\ i_csize hi = 0 /\
    k_fs s' = f2 /\ xattrs_of (1, 16) made_fs f2 /\
    k_inodes s' !! 1 = Some (dir_after f2 dir_inode (1, 11) [dir_part]) /\
    k_kmem s' = 1 /\ forall j, count (k_iref s') j = count (k_iref making) j.
Proof.
  apply (make_name_makes making 1 4 dir_inode (1, 11) (mk_dentry None "new" 1 (Some (mk_dpriv 40 no_nd)) true)
    (mk_dpriv 40 no_nd) (mounted_pool (fun k => k) 3) (mounted_chunk (fun k => k) 1) (1, 16) made_fs [dir_part]
    (fun f d c => op_mkdir f d c 0) 2); [apply making_makes | done | lia | simpl; lia].
Defined.

Lemma chunkfs_create_makes_witness :
  (exists s' ip hi f2, chunkfs_create 2 no_nd 1 4 0 false making = (inr tt, s') /\
    wf_file s' 4 [only_part (mounted_chunk (fun k => k) 1) 1 40 (1, 16)] CONT_LEN /\
    k_inodes s' !! ip = Some hi /\ k_inodes making !! ip = None /\ i_csize hi = 0 /\
    k_fs s' = f2 /\ xattrs_of (1, 16) made_fs f2 /\
    k_inodes s' !! 1 = Some (dir_after f2 dir_inode (1, 11) [dir_part]) /\
    k_kmem s' = 1 /\ forall j, count (k_iref s') j = count (k_iref making) j) /\
  (chunkfs_create 2 (mk_nd 0 0 0 0 9 ∅) 1 4 0 false making).1 = inl Undef.
Proof.
  split.
  - apply (chunkfs_create_makes making 1 4 dir_inode (1, 11) (mk_dentry None "new" 1 (Some (mk_dpriv 40 no_nd)) true)
      (mk_dpriv 40 no_nd) (mounted_pool (fun k => k) 3) (mounted_chunk (fun k => k) 1) (1, 16) made_fs [dir_part]
      0 false no_nd 2); [apply making_makes | done | lia | simpl; lia | done].
  - apply (chunkfs_create_makes making 1 4 dir_inode (1, 11) (mk_dentry None "new" 1 (Some (mk_dpriv 40 no_nd)) true)
      (mk_dpriv 40 no_nd) (mounted_pool (fun k => k) 3) (mounted_chunk (fun k => k) 1) (1, 16) made_fs [dir_part]
      0 false (mk_nd 0 0 0 0 9 ∅) 2); [apply making_makes | done | lia | simpl; lia |].
    unfold depth_ok. simpl. unfold MAX_NESTED_LINKS. lia.
Defined.

(** ** setattr and unlink *)

(** The head truncated to one byte: the file still has the five bytes of its
    second part. *)
Definition one_byte : @iattr memfs_client := 1%nat.
Definition truncated_fs : memfs := (mem_truncate two_part_fs 11 1).2.

Lemma truncated_sized : sized (set_fs truncated_fs two_parts) 1 head_inode [part1; part2].
Proof.
  eapply (sized_io two_parts _ _ _ truncated_fs); [apply two_parts_sized | by split | done | done | done | | done].
  intros c Hc. simpl. lia.
Qed.

Lemma truncated_other j : j <> (1, 12) -> i_size truncated_fs j = i_size two_part_fs j.
Proof.
  intros Hj. change (Z.of_nat (length (default [] (<[(1, 12) := [104]]> (m_bytes two_part_fs) !! j))) =
    Z.of_nat (length (bytes_of two_part_fs j))).
  by rewrite lookup_insert_ne by congruence.
Qed.

(** The dentry 2 of the file has a client dentry that is gone. *)
Definition gone : kstate :=
  set_dentries {[ 2 := mk_dentry (Some 1) "gone" 0 (Some (mk_dpriv 99 no_nd)) true ]} two_parts.

Lemma setattr_head_only_witness :
  chunkfs_setattr 3 2 one_byte gone = (inr (- ENOENT), gone) /\
  exists m s', chunkfs_setattr 3 1 one_byte two_parts = (inr 0, s') /\
    s' = set_inodes (<[1 := copied truncated_fs head_inode (1, 12) [part1; part2]]> (k_inodes two_parts))
           (set_iref m (set_fs truncated_fs two_parts)) /\
    i_csize (copied truncated_fs head_inode (1, 12) [part1; part2]) = 1 + 5 /\
    forall j, count m j = count (k_iref two_parts) j.
Proof.
  split.
  - apply (proj1 (setattr_head_only gone 2 1 99 head_inode (1, 12) part1 [part2] one_byte ENOENT two_part_fs 3
      ltac:(split; [by eexists _, _ | done]) eq_refl)). done.
  - apply (setattr_head_only two_parts 1 1 11 head_inode (1, 12) part1 [part2] one_byte 0 truncated_fs 3).
    + split; [by eexists _, _ | done].
    + done.
    + done.
    + apply truncated_sized.
    + simpl. lia.
    + apply two_parts_wf.
    + intros j Hj. by apply truncated_other.
Defined.

(** The file in two chunks in the directory. *)
Definition unlinking : kstate :=
  mk_kstate _ dir_fs (fun _ => 0) (fun _ => false) [] 0 0 0 0 ∅ ∅
    (Some (mounted_pool (fun k => k) 3)) {[ 1 := dir_inode; 5 := head_inode ]}
    {[ 1 := mk_dentry (Some 1) "dir" 1 (Some (mk_dpriv 9 no_nd)) true; 4 := mk_dentry (Some 5) "file" 1 (Some (mk_dpriv 11 no_nd)) true ]} ∅
    (mk_locks 0 ∅) ∅ None.

Definition unlinked_fs : memfs := without_dentry dir_fs 11.

(** The parts are in the cache of every file system with these attributes. *)
Lemma dir_fs_part f c :
  f = unlinked_fs \/ f = with_dentry dir_fs 40 (1, 12) ->
  c = part1 \/ c = part2 \/ c = dir_part -> in_cache f (mounted_pool (fun k => k) 3) c.
Proof.
  intros [-> | ->]; intros [-> | [-> | ->]]; (split; [done | done | | | done]).
  - exists (mounted_chunk (fun k => k) 1). by rewrite two_parts_chunk.
  - apply cd_attrs_has; [reflexivity.. | apply cd1_typed].
  - exists (mounted_chunk (fun k => k) 2). by rewrite two_parts_chunk.
  - apply cd_attrs_has; [reflexivity.. | apply cd2_typed].
  - exists (mounted_chunk (fun k => k) 1). by rewrite two_parts_chunk.
  - apply cd_attrs_has; [reflexivity.. | apply fresh_cd_typed].
  - exists (mounted_chunk (fun k => k) 1). by rewrite two_parts_chunk.
  - apply cd_attrs_has; [reflexivity.. | apply cd1_typed].
  - exists (mounted_chunk (fun k => k) 2). by rewrite two_parts_chunk.
  - apply cd_attrs_has; [reflexivity.. | apply cd2_typed].
  - exists (mounted_chunk (fun k => k) 1). by rewrite two_parts_chunk.
  - apply cd_attrs_has; [reflexivity.. | apply fresh_cd_typed].
Qed.

Lemma unlink_head_only_witness :
  exists m s', chunkfs_unlink 3 1 4 unlinking = (inr tt, s') /\ k_fs s' = unlinked_fs /\
    s' = set_inodes (<[5 := copied unlinked_fs head_inode (1, 12) [part1; part2]]>
           (<[1 := copied unlinked_fs dir_inode (1, 11) [dir_part]]> (k_inodes unlinking)))
           (set_iref m (set_fs unlinked_fs unlinking)) /\
    forall j, count m j = count (k_iref unlinking) j.
Proof.
  apply (unlink_head_only unlinking 4 5 11 head_inode (1, 12) 1 dir_inode (1, 11) [part1; part2] [dir_part] 0
    unlinked_fs 3).
  - split; [by eexists _, _ | done].
  - done.
  - done.
  - done.
  - done.
  - done.
  - destruct two_parts_sized. split; [done | by exists part1 | done | done | | done].
    exists (mounted_pool (fun k => k) 3). split; [done |]. rewrite !Forall_cons. split_and!; (done || (apply dir_fs_part; tauto)).
  - destruct (mk_dir _ _ _ _ _ _ _ _ _ _ _ _ making_makes) as [_ []].
    split; [done | by exists dir_part | done | done | | done].
    exists (mounted_pool (fun k => k) 3). split; [done |]. rewrite !Forall_cons. split_and!; (done || (apply dir_fs_part; tauto)).
  - simpl. lia.
  - simpl. lia.
Defined.

(** ** link *)

(** A second name for the file: the negative dentry 6. *)
Definition linking : kstate :=
  set_icount {[ 1 := 1; 5 := 1 ]}
    (set_dentries (<[6 := mk_dentry None "second" 1 (Some (mk_dpriv 40 no_nd)) true]> (k_dentries unlinking)) unlinking).

Definition linked_fs : memfs := with_dentry dir_fs 40 (1, 12).

Lemma link_frees_used_witness :
  exists s1, chunkfs_link 3 4 1 6 linking = (inr tt, s1) /\
    names_of (k_dentries s1) 5 = 2%nat /\ count (k_icount s1) 5 = 1 /\ count (k_icount s1) 1 = 2 /\
    forall gone kept, (gone, kept) = (4, 6) \/ (gone, kept) = (6, 4) ->
      exists s2, dentry_iput gone s1 = (inr tt, s2) /\
        k_kmem s2 = k_kmem s1 - 1 /\ k_inodes s2 !! 5 = None /\
        (exists de, k_dentries s2 !! kept = Some de /\ de_inode de = Some 5) /\
        (dentry_iput kept s2).1 = inl Undef /\ (chunkfs_unlink 3 1 kept s2).1 = inl Undef.
Proof.
  apply (link_frees_used linking 4 5 11 head_inode (1, 12) 1 dir_inode (1, 11) 6
    (mk_dentry None "second" 1 (Some (mk_dpriv 40 no_nd)) true) (mk_dpriv 40 no_nd) [part1; part2] linked_fs 3);
    try done.
  - split; [by eexists _, _ | done].
  - destruct two_parts_sized. split; [done | by exists part1 | done | done | | done].
    exists (mounted_pool (fun k => k) 3). split; [done |]. rewrite !Forall_cons. split_and!; (done || (apply dir_fs_part; tauto)).
  - simpl. lia.
Defined.
