(* ===== verification/LifecycleExamples.v ===== *)
(** * The first file of the 32 MiB file of test.sh, and a file after a lookup

    The theorems of FirstFile.v, on the image mkfs writes, and Lifecycle.v, on
    the file in two chunks in the directory of NameiExamples.v. *)

From S2P Require Import Prelude Monad Bytes OnDisk Device Decimal Client Kernel KernelFacts Mkfs MkfsSpec MkfsProps Pool PoolProps MountProps Uino Cont Inode File Namei Super ContData Chain Append InodeProps FileProps Grow NameiProps MakeProps SuperProps Session Flat Race Growing Lifecycle FirstFile MemFS MountExamples FileExamples GrowingExamples NameiExamples.

#[local] Existing Instance little_endian_host.
#[local] Existing Instance checked_mutexes.

(** ** The first file *)

(** The clients when the dentry 104 under the root dentry has the new inode
    (1, 13). *)
Lemma first_numbers f : m_dentries f = m_dentries three_clients -> next_dentry f = 104 /\ next_inode f = 13.
Proof. intros Hd. destruct (mem_numbers f three_clients Hd) as [-> ->]. by split. Qed.

(** Room for a part in chunk 2 after the new file. *)
Lemma first_grows f2 f4 :
  xattrs_of (1, 12) three_clients f2 -> xattrs_of (1, 13) (with_dentry f2 104 (1, 13)) f4 ->
  can_grow (mounted_pool (fun k => k) 3) 1 f4 (only_part (mounted_chunk (fun k => k) 1) 1 104 (1, 13)).
Proof.
  intros Hx2 Hx4. exists (mounted_chunk (fun k => k) 2). split; [by rewrite two_parts_chunk |]. intros f Hf.
  assert (m_dentries f = <[104 := (1, 13)]> (m_dentries three_clients)) as Hd.
  { rewrite (mem_io_dentries _ _ Hf), (mem_xattrs_dentries _ _ _ Hx4). cbn. by rewrite (mem_xattrs_dentries _ _ _ Hx2). }
  destruct (mem_numbers f (with_dentry three_clients 104 (1, 13)) Hd) as [Hn1 Hn2].
  assert (mem_kern_path f "/chunk2/1/13" = inl ENOENT) as Hp.
  { change (kern_path f "/chunk2/1/13" = inl ENOENT). rewrite (io_path _ _ Hf), (xo_path _ _ _ Hx4).
    exact (xo_path _ _ _ Hx2 "/chunk2/1/13"). }
  destruct (mem_create f "/chunk2/1/13" ENOENT Hp) as (f1 & Hcr & _ & Hi & _).
  rewrite Hn1, Hn2 in *. exists ENOENT, 105, (2, 14), f1. by split_and!.
Qed.

Lemma first_made f name mode dev :
  name <> ""%string -> xattrs_of (1, 12) three_clients f ->
  client_makes (mounted_pool (fun k => k) 3) (mounted_chunk (fun k => k) 1) 50 (1, 12) name mode dev 1 f 104 (1, 13)
    (with_dentry f 104 (1, 13)).
Proof.
  intros Hname Hx. pose proof (mem_xattrs_dentries _ _ _ Hx) as Hd. destruct (first_numbers f Hd) as [Hn1 Hn2].
  assert (i_size f (1, 13) = 0) as Hz by exact (xo_size _ _ _ Hx (1, 13)).
  assert (i_size f (1, 12) = 0) as Hz12 by exact (xo_size _ _ _ Hx (1, 12)).
  split.
  - exists f, f. cbn. rewrite decide_False, Hn1 by done. unfold mem_lookup, mem_make. cbn. rewrite Hd, Hn2. by split_and!.
  - split; [done |]. cbn. rewrite lookup_insert_eq. by split.
  - split; [| by split]. split; try done. change (0 <= i_size f (1, 13) < 2 ^ 63). by rewrite Hz.
  - split; [done | split; [done |]]. change (0 <= i_size f (1, 12) < 2 ^ 63). by rewrite Hz12.
  - done.
  - intros f4 Hf4. by apply (first_grows f).
Qed.

(** Bytes in the first part, then behind it; reads in both. *)
Definition first_ops : list io_op := [Write [1; 2; 3] 10; Write [4] 40970; Read 100 0; Read 10 40965].

Lemma first_file_refines_witness :
  exists root ip s1, chunkfs_fill_super 4 no_attr true false mkfs_state = (inr root, s1) /\
    (exists de, k_dentries s1 !! root = Some de /\ de_inode de = Some ip) /\
    forall p, k_dentries s1 !! p = None ->
    exists s2 s3 s4 s5 rs fip hi L,
      chunkfs_lookup 4 ip p (vfs_dentry_under root p "file" s1) = (inr tt, s2) /\
      chunkfs_mknod 4 ip p 0 0 s2 = (inr tt, s3) /\
      chunkfs_open 4 None 7 (vfs_file_over 7 p s3) = (inr tt, s4) /\
      run_ops 4 None 7 first_ops s4 = (inr rs, s5) /\
      flat_run (fun _ => 0) first_ops rs (flat (k_fs s5) L) /\
      open_file s5 7 p fip hi L 81920.
Proof.
  apply (first_file_refines eq_refl 4 no_attr false mkfs_state test_size (fun k => k) 1 50 "file" 0 0 104 (1, 13)
    None 7 1 first_ops).
  - exact mkfs_state_formatted.
  - done.
  - done.
  - exact three_mounted.
  - exact three_root.
  - unfold test_size. lia.
  - rewrite three_chunks. lia.
  - rewrite three_chunks. unfold test_size, chunk_pos, chunk_base. done.
  - rewrite three_chunks. lia.
  - lia.
  - done.
  - intros f Hx. exists (with_dentry f 104 (1, 13)). rewrite three_chunks. by apply first_made.
  - done.
  - by repeat split.
  - vm_compute. done.
Defined.

(** ** A lookup *)

Lemma lookup_forgets_witness :
  exists s' ip hi, chunkfs_lookup 2 1 2 (in_dir "file" []) = (inr tt, s') /\
    wf_file s' 2 [only_part (mounted_chunk (fun k => k) 1) 1 23 (1, 12)] CONT_LEN /\
    k_inodes s' !! ip = Some hi /\ i_csize hi = 4 /\
    (forall x, flat (k_fs s') [only_part (mounted_chunk (fun k => k) 1) 1 23 (1, 12)] x =
       if decide (0 <= x < CONT_LEN) then flat (with_dentry two_part_fs 23 (1, 12)) [part1; part2] x else 0) /\
    forall i k, byte (k_fs s') i k = byte (with_dentry two_part_fs 23 (1, 12)) i k.
Proof.
  apply (lookup_forgets (in_dir "file" []) 1 2 (mounted_pool (fun k => k) 3) (mounted_chunk (fun k => k) 1) 1 23 (1, 12)
    (with_dentry two_part_fs 23 (1, 12)) 2 [part1; part2] 81920 part1).
  - apply in_dir_finds.
  - lia.
  - apply two_parts_wf.
  - done.
  - done.
  - done.
Defined.
