(* ===== verification/SystemExamples.v ===== *)
(** * The mounted system, concretely

    The mount of the image of mkfs and the file in two chunks in its directory
    under the theorems about all calls. *)

From S2P Require Import Prelude Monad Bytes OnDisk Device Decimal Client Kernel KernelFacts Judge Mkfs MkfsSpec MkfsProps Pool MountProps Uino Cont Inode File Namei Super Chain Append NameiProps SuperProps Vfs Quiet Memory Counts Evolve VfsProps System Iget MemFS MountExamples FileExamples NameiExamples.

#[local] Existing Instance little_endian_host.
#[local] Existing Instance checked_mutexes.

(** A seek that goes to the offset, whatever its origin, and the refusal with
    -EISDIR. *)
Definition seek_to (p offset origin : Z) : kernel Z := fun s =>
  match k_files s !! p with
  | Some f => (inr offset, set_files (<[p := mk_file (f_dentry f) offset]> (k_files s)) s)
  | None => (inr (- 9), s)
  end.
Definition is_a_directory : kernel Z := mret (- 21).

Lemma seek_to_moves p offset origin s : exists r s',
  seek_to p offset origin s = (inr r, s') /\
  (s' = s \/ exists f pos, k_files s !! p = Some f /\ s' = set_files (<[p := mk_file (f_dentry f) pos]> (k_files s)) s).
Proof.
  unfold seek_to. destruct (k_files s !! p) as [f|]; eexists _, _; split; try done; [right; by eexists _, _ | by left].
Qed.

Lemma directory_refuses s : exists e, is_a_directory s = (inr e, s).
Proof. by eexists. Qed.

Lemma mounted_system_closed_witness :
  exists root s1, chunkfs_fill_super 4 no_attr true false mkfs_state = (inr root, s1) /\
    forall s', rtc (vfs_step seek_to is_a_directory no_link) s1 s' ->
      closed s' /\ positive s' root /\ k_root s' = Some root /\ k_locks s' = mk_locks 0 ∅ /\
      k_pool s' = Some (mounted_pool (fun k => k) 3) /\
      k_bh s' = 5 /\ k_data s' = k_data s1 /\ k_opens s1 <= k_opens s' /\
      forall q f, k_files s' !! q = Some f ->
        exists ip i c, file_inode q s' = (inr ip, s') /\ k_inodes s' !! ip = Some i /\ get_client_inode i = Some c.
Proof.
  apply (mounted_system_closed (H0 := checked_mutexes) eq_refl seek_to is_a_directory seek_to_moves directory_refuses 4 no_attr false mkfs_state
    test_size (fun k => k) 1 50).
  - exact mkfs_state_formatted.
  - done.
  - done.
  - exact three_mounted.
  - exact three_root.
  - unfold test_size. lia.
  - rewrite three_chunks. lia.
  - rewrite three_chunks. unfold test_size, chunk_pos, chunk_base. done.
  - rewrite three_chunks. lia.
  - done.
  - done.
  - done.
  - done.
  - done.
Defined.

Lemma memory_covers_objects_witness :
  exists root s1, chunkfs_fill_super 4 no_attr true false mkfs_state = (inr root, s1) /\
    (forall s', rtc (vfs_step seek_to is_a_directory no_link) s1 s' ->
      (forall ip, Z.of_nat (names_of (k_dentries s') ip) <= count (k_icount s') ip) /\
      (forall ip, is_Some (k_inodes s' !! ip) <-> 0 < count (k_icount s') ip) /\
      (forall p de ip, k_dentries s' !! p = Some de -> de_inode de = Some ip -> is_Some (k_inodes s' !! ip)) /\
      (forall p de, k_dentries s' !! p = Some de -> exists s2, dentry_iput p s' = (inr tt, s2))) /\
    forall s', rtc (vfs_step seek_to is_a_directory any_call) s1 s' ->
      6 + Z.of_nat (size (k_inodes s')) + 2 * privs (k_dentries s') <= k_kmem s'.
Proof.
  apply (memory_covers_objects (H0 := checked_mutexes) eq_refl seek_to is_a_directory seek_to_moves directory_refuses
    4 no_attr false mkfs_state test_size (fun k => k) 1 50).
  - exact mkfs_state_formatted.
  - done.
  - done.
  - exact three_mounted.
  - exact three_root.
  - unfold test_size. lia.
  - rewrite three_chunks. lia.
  - rewrite three_chunks. unfold test_size, chunk_pos, chunk_base. done.
  - rewrite three_chunks. lia.
  - done.
  - done.
  - done.
  - done.
  - done.
Defined.

(** The file in two chunks in the directory, through the tables. *)
Definition no_garbage : garbage := mk_garbage 3 None no_nd.

(** unlink and setattr reach their handlers; a directory has no readlink. *)
Example unlink_dispatched :
  vfs_inode_call no_garbage (IUnlink 1 4) unlinking = (chunkfs_unlink 3 1 4;; mret tt) unlinking.
Proof.
  unfold vfs_inode_call. rewrite (bind_ok _ _ unlinking 1 unlinking), (bind_ok _ _ unlinking dir_inode unlinking) by done.
  done.
Qed.

Example setattr_dispatched :
  vfs_inode_call no_garbage (ISetattr 4 one_byte) unlinking = (chunkfs_setattr 3 4 one_byte;; mret tt) unlinking.
Proof.
  unfold vfs_inode_call. rewrite (bind_ok _ _ unlinking 5 unlinking), (bind_ok _ _ unlinking head_inode unlinking) by done.
  done.
Qed.

Example no_readlink : vfs_inode_call no_garbage (IReadlink 1 10) unlinking = (inr tt, unlinking).
Proof. reflexivity. Qed.

Lemma unlinking_running : running unlinking unlinking.
Proof.
  split; try done. split.
  - intros p ip (de & Hd & Hi). simpl in Hd.
    apply lookup_insert_Some in Hd as [[<- <-] | [_ Hd]]; [| apply lookup_singleton_Some in Hd as [<- <-]];
      injection Hi as <-; (split; [by eexists _, _ | by eexists _, _]).
  - intros p de Hd. simpl in Hd.
    apply lookup_insert_Some in Hd as [[<- <-] | [_ Hd]]; [| apply lookup_singleton_Some in Hd as [<- <-]];
      by eexists _, _.
  - intros q f Hf. simpl in Hf. by rewrite lookup_empty in Hf.
Qed.

Lemma only_sync_waits_witness :
  (forall g c, (vfs_inode_call g c unlinking).1 <> inl Blocked) /\
  (forall g c, (vfs_file_call seek_to is_a_directory g c unlinking).1 <> inl Blocked) /\
  (forall ip, (chunkfs_write_inode ip unlinking).1 <> inl Blocked) /\
  chunkfs_write_super unlinking = (inl Blocked, unlinking) /\
  forall s', rtc (vfs_step seek_to is_a_directory any_call) unlinking s' -> chunkfs_write_super s' = (inl Blocked, s').
Proof.
  apply (only_sync_waits seek_to is_a_directory seek_to_moves directory_refuses unlinking unlinking); [exact unlinking_running | done].
Defined.

(** The inode of the file by its number: the client inode is in the cache. *)
Definition always_cached (f : @fs memfs_client) (c : cino) : bool := true.
Definition empty_icache : icache := mk_icache two_parts ∅ ∅ ∅.

Lemma iget_locks_out_witness :
  exists x', chunkfs_iget always_cached 3 (MAKE_UINO 1 12) empty_icache = (inr None, x') /\
    k_kmem (ic_kernel x') = k_kmem two_parts + 1 /\
    count (k_iref (ic_kernel x')) (1, UINO_TO_INO (MAKE_UINO 1 12)) =
      count (k_iref two_parts) (1, UINO_TO_INO (MAKE_UINO 1 12)) + 1 /\
    chunkfs_iget always_cached 3 (MAKE_UINO 1 12) x' = (inl Blocked, x').
Proof.
  destruct (proj2 (iget_locks_out always_cached 3 (MAKE_UINO 1 12)) empty_icache (mounted_pool (fun k => k) 3)
    (mounted_chunk (fun k => k) 1)) as (x' & R1 & R2 & R3 & R4); [reflexivity || set_solver.. |].
  exists x'. split_and!; [exact R1 | exact R2 | exact R3 | exact R4].
Defined.
